(* ===== verification/_CoqProject ===== *)
-Q . S2P
Prelude.v
GoStrings.v
GoNet.v
GoUrl.v
GoTime.v
GoPath.v
Id.v
Rfc3339.v
GoRegexp.v
Registry.v
RegistryStore.v
Lease.v
State.v
Json.v
Runtime.v
AcceptLoop.v
Drain.v
TcpProxy.v
Router.v
Config.v
ConfigFile.v
Serve.v
Daemon.v
Lifecycle.v
DaemonInv.v
DaemonSpec.v
DaemonSystem.v
Restart.v
DataPlane.v
Forwarding.v
HttpPlane.v
Api.v
Client.v
ClientNet.v
EndToEnd.v
Wire.v
WireReply.v
Mux.v
Transport.v
ServeRun.v
Dockerwatch.v
Containers.v
WatcherRun.v
DockerApi.v
WatcherEngine.v
Probe.v
Cli.v
Commands.v
RegisterRun.v
Examples.v
ReviewProbes.v
NativeGo.v
Runs.v
