(* ===== verification/Prelude.v ===== *)
(** * devmesh: a verification library

    devmesh gives local services stable addresses.  A daemon keeps a registry
    of named services; producers (processes over a Unix-socket API, or
    labeled Docker containers) register a backend under a name and get a
    frontend that does not change when the backend does: a TCP port the
    daemon listens on, or a host name of its HTTP proxy.  Registrations of
    processes are leases that have to be renewed.  This library models the
    daemon as written in [src/internal], the client library of [src/pkg] and
    the programs of [src/cmd], and proves what their parts promise.

    ** The parts and the files that model them

    - [Prelude], [GoStrings], [GoNet], [GoUrl], [GoTime], [GoPath], [GoRegexp]: what
      the source uses of Go and its standard library: 64-bit integers, range
      loops over maps (an arbitrary order, class [MapRange]), [strings],
      [strconv], UTF-8, [net.SplitHostPort] and [net.ParseIP], the queries of
      [net/url] and what [httputil.ReverseProxy] takes out of them,
      [time.ParseDuration] (with its binary64 fractions) and
      [Duration.String], [filepath], regular expressions.
    - [Id] (daemon/id.go): identifiers.
    - [Rfc3339]: the instants of the API's bodies as text, [time.RFC3339] in
      UTC, with the calendar.
    - [Registry] (registry/model.go, registry.go): service records, the
      validators of names and backends, the registry's methods on its map.
    - [RegistryStore]: the same methods with the backend of a record behind
      its pointer: what [Clone] copies, what the callers can reach.
    - [Lease] (lease/manager.go): tokens, leases, the sweep; traces of the
      manager's methods under a clock that does not run backwards.
    - [State] (state/model.go, store.go): remembered ports, the save through
      a temporary file with every system call able to fail, the load.
      [encoding/json] is the class [JSON] with its documented promises.
    - [Json]: the encoder and decoder of the state file, byte for byte, and
      the instance [go_json] of [JSON].
    - [Runtime] (runtime/allocator.go, manager.go): allocation by binding,
      and the runtimes that own the bound ports.
    - [AcceptLoop] (runtime/service.go): the accept loop of one runtime, its
      proxy workers and its shutdown, as a step relation.
    - [Drain] (runtime/manager.go, service.go): the shutdown of all runtimes
      under one deadline, beside their loops and workers.
    - [TcpProxy] (proxy/tcp.go): one forwarded connection, its two copying
      goroutines interleaved with the peers and with failures.
    - [Router] (proxy/http.go): routes by normalized host name, the public
      URL, the answer to a request in one piece, the rewritten request.
    - [Config], [ConfigFile] (config/config.go, transport/unix.go): the
      configuration, defaults, validation; the mapping of the configuration
      file; the default paths.
    - [Serve] (cmd/devmeshd/cmds/serve.go): the fields of the command, where
      their values come from, the configuration made of them.  The Glazed
      library is the class [Glazed] with the promises the code relies on.
    - [Daemon] (daemon/daemon.go, errors.go): the daemon's state, which
      combines the parts above, and every operation on it: [Register] (its
      checks are [prepare], its effects [commit]), [Heartbeat],
      [DeleteRegistration], [sweepLeases], the queries, [NewDaemon] for
      [New] and [ShutdownDaemon] for [Shutdown].  What comes from outside
      (clock, random IDs and tokens, name resolution, free ports, faults of
      the file system) is an argument; errors are their stable codes, the
      message texts and the log are left out.
    - [Lifecycle] (daemon/daemon.go): the goroutines [Start] launches, and
      [Shutdown] waiting for them.
    - [DaemonInv]: the invariant [daemon_inv] and its preservation.
    - [DaemonSpec]: the contract of registration, start and health check.
    - [DaemonSystem]: the running daemon.  Requests, the sweeper and the
      Docker watcher interleave at the granularity of the two locks
      ([d.mutate] and the lease manager's): [step] is the relation, with
      history fields for the IDs issued and the leases lost; [guarded] is
      [step] where a theorem restricts what the others do.
    - [Restart]: the run of a daemon on the files of an earlier one, as a
      service sees it that has not registered yet.
    - [DataPlane]: the system with the accept loops of its runtimes and the
      forwarded connections on top: where a connection goes.
    - [Forwarding]: what becomes of each accepted connection, and that one on
      its way can always be brought to its backend.
    - [HttpPlane] (proxy/http.go): HTTP requests in the running system, each
      read of [ServeHTTP] a step of its own, up to the answer of the backend
      or of the error handler.
    - [Api] (api/handlers.go, dto.go, errors.go): the handlers, status codes,
      wire types, bearer tokens.
    - [Client] (pkg/devmesh, transport/client.go): a registration's handle,
      its heartbeat loop with back-off and re-registration, [Close],
      [ListenTCP] and its handle, each request answered by a handler of [Api]
      or lost.
    - [ClientNet]: the loop of a client and the system of [DaemonSystem] side
      by side on one clock.
    - [EndToEnd]: that, the data plane and the HTTP requests together: from
      the application that registers to the users of its frontend.
    - [Wire], [WireReply] (api/dto.go, handlers.go, transport/client.go): the
      JSON of requests and replies, encoded as by [json.Marshal], decoded
      strictly by the daemon and leniently by the client.
    - [Mux] (api/server.go): the routes, and the URLs the clients build.
    - [Transport] (transport/unix.go): the daemon's socket, with processes
      that take one system call at a time.
    - [ServeRun] (cmd/devmeshd/cmds/serve.go): a run of the daemon, from its
      settings over [New] and [Listen] to its end, on a machine with files
      and a socket path.
    - [Dockerwatch], [WatcherRun] (dockerwatch/labels.go, inspect.go,
      watcher.go): labels, the translation of an inspected container,
      reconciliation and events, wired to the daemon as in [DockerCallbacks];
      the watcher's run with its retries, event loop, back-off and status.
    - [Containers]: a container the watcher has registered, the system
      without anything that ends or replaces its publication, and the data
      plane: from the container to its users.
    - [DockerApi] (dockerwatch/docker.go): the engine client as the class
      [DockerAPI], which the client that forwards to the Docker SDK and a
      client that lists its calls are instances of, and the promises
      [DockerLaws]; on top of it [WatcherEngine] (dockerwatch/watcher.go),
      the watcher with every call it makes, a run of which is a run of
      [WatcherRun], and [Probe] (dockerwatch/probe.go), the disposable
      publication test.
    - [Cli] (cmd/devmesh): the commands as functions of their flags and of
      the daemon's replies; [Commands] (cmds/root.go, main.go, the New
      functions of the commands): the command trees, their fields and the
      structs these are decoded into, [run] and [main] of both programs, with
      the command libraries as the class [Libraries]; [RegisterRun]: the
      long-running [register] from its start to its interrupt.
    - [NativeGo] (examples/native-go): an application of the client library
      from its registration to its exit.
    - [ReviewProbes] (ttmp, 01-review-probes.go): the probes of the review
      script, run on these definitions.
    - [Examples], [Runs]: instances of the classes, concrete runs on which
      the theorems are applied, and deviations found.

    ** What the theorems show

    - The system: a leased service is never disturbed (C1); a sweep leaves
      only live leases (C2); nothing else is left behind (C3); the invariant
      holds in every reachable state (C4); frontends never change within a
      run (C5) nor from one run to the next, however the first ends and
      whatever happens in the second before the service is back (C6).
    - Registration: what success publishes (C7), that failure changes
      nothing (C9).
    - Producers and their users: while an application's heartbeat loop runs,
      through lost requests and whatever the others do, the connections to its
      port (C12) and the HTTP requests to its URL (C13) reach the address it
      gave: each of them is on its way there and can get there, or has been
      forwarded, or was turned away for one of the three reasons [turned_away]
      lists; so it is for a container while the watcher knows it (C14); an
      application gets its endpoint back after a restart of the daemon (C15);
      the [register] command, from its row to its interrupt (C26); the API
      (C32, C33) and the Docker watcher (C34 to C36) are runs of the system,
      so the theorems on it hold with them; the watcher's run keeps its
      invariant (C19), on every engine, whose containers it only looks at
      (C37).
    - The data plane: a connection to a frontend reaches a backend of that
      service and nobody else, byte for byte (C17), and the forwarder comes to
      an end (C18); so does an HTTP request, with the headers it may have
      (C30), and public URLs lead to their routes (C29).
    - The daemon's parts: the registry's memory (C8), ownership
      (C10), the state file (C11, C24), ports (C25), the shutdown of the
      runtimes (C27, C28), leases (C31, C38), background workers (C16).
    - The way in: the start over a socket path (C20), the routes (C21), the
      bytes of requests and replies (C22) and the fields a request may not
      bring (C23), resolving from the command line (C39), and what the publication
      test leaves behind (C40).
    - Further theorems without a number are in the files: the exact effect of
      sweeps, listings, health checks and shutdowns, the grammar of names, the
      calls of the probe and of the watcher, the doctor, where the daemon's
      settings come from, that the commands declare what they decode, the
      identifiers; and where the code does not do what it means to:
      [late_heartbeat_wedges_service], [concurrent_start_orphans_daemon],
      [late_remove_orphans_successor], [requests_in_flight_are_cut],
      [docker_status_sticks], [native_go_ignores_signals],
      [failed_dial_removes_live_socket], [cancelled_creation_is_left].

    ** Fuel and bounds

    Loops are structural: the walk over the port range takes as many rounds
    as the range has ports ([scan]), the retries of [registerContainer]
    recurse on the list of delays, trimming white space takes at most as many
    rounds as there are bytes; the JSON decoder's fuel, twice the length of
    the text, is proved to be enough ([decoder_fuel_enough]); 13 digits hold
    every 64-bit integer in base 36 ([format36]); the probe inspects at most
    20 times; the waiting loop of [resolve] runs on a list of lookups, and
    C39 says how many are enough.  Integers are [Z], wrapped with [int64]
    where the source's arithmetic can overflow (the requested lease in
    nanoseconds, the back-off).

    ** What is not modelled

    The log, error messages, HTTP framing and connection handling, TLS, the
    parsing of flags and the printing of rows (the command libraries), the
    Docker SDK, the generated loggers, the text of the embedded
    documentation.  The times of
    a reply are assumed to lie in the years 1970 to 9999 in C22, and its
    request to have at most the 1 MiB that the handler reads.  C6, C9 and C15
    take [rand.Read] not to fail, as crypto/rand documents.  What the reverse
    proxy makes of a query of more than 10000 parameters differs between the
    releases of the library and is left open (C13, C14, C30).  In C8 the
    caller of [CreateOrReplaceOwned] is taken not to use the pointer it has
    passed, in C12, C13 and C26 nobody else to have the client's token, in C14
    the registrations a client is given not to be named like a container, and
    in C37 an engine not to change what it says of a container's labels. *)

From stdpp Require Export base tactics option list gmap strings sorting
  relations fin_maps fin_sets.
From Stdlib Require Export ZArith Lia.

(** ** Notations *)

Declare Scope devmesh_scope.
Delimit Scope devmesh_scope with devmesh.

(** Go's [(value, error)] return pairs: exactly one side is meaningful. *)
Inductive result (A E : Type) : Type :=
| Ok (a : A)
| Err (e : E).
Arguments Ok {A E} a.
Arguments Err {A E} e.

(** The idiom [v, err := f(); if err != nil { return ..., err }]. *)
Notation "'let*' x ':=' c 'in' k" :=
  (match c with Ok x => k | Err e => Err e end)
  (at level 10, x pattern, c at level 100, k at level 200) : devmesh_scope.
Open Scope devmesh_scope.

#[global] Instance result_eq_dec `{EqDecision A, EqDecision E} :
  EqDecision (result A E).
Proof. solve_decision. Defined.

Definition is_Ok {A E} (r : result A E) : bool :=
  match r with Ok _ => true | Err _ => false end.

(** ** Automation *)

(** The two databases of the development: [devmesh] holds the lemmas that
    close the routine side conditions, [go] the rewrite rules that push the
    Go string and map operations through their arguments. *)
Create HintDb devmesh.
Create Rewrite HintDb go.

(** Split every conditional and match that the goal or a hypothesis is stuck
    on, discarding the branches that are contradictory. *)
Ltac break :=
  repeat (case_match || case_decide); simplify_eq/=.

(** Run through a handler: split it and finish with the databases. *)
Ltac crush :=
  repeat (case_match || case_decide); simplify_map_eq; eauto with devmesh.

(** ** Go maps *)

(** A [for k, v := range m] loop visits every entry once, in an order the
    language leaves open.  The order is a parameter: code that ranges over a
    map is defined for every order, and its theorems hold for every order. *)
Class MapRange := {
  range {V : Type} : gmap string V → list (string * V);
  range_perm {V : Type} (m : gmap string V) : range m ≡ₚ map_to_list m
}.

(** Two orders the runtime may pick, used by the witnesses. *)
Definition range_ascending : MapRange :=
  {| range V := map_to_list; range_perm V m := reflexivity _ |}.

Lemma range_elem `{MapRange} {V} (m : gmap string V) k v :
  (k, v) ∈ range m ↔ m !! k = Some v.
Proof. rewrite range_perm. apply elem_of_map_to_list. Qed.

Lemma range_NoDup `{MapRange} {V} (m : gmap string V) : NoDup (range m).*1.
Proof. rewrite range_perm. apply NoDup_fst_map_to_list. Qed.

(** A range loop that stops at the first entry with [P]. *)
Lemma range_filter_cons `{MapRange} {V} (P : string * V → Prop) `{!∀ kv, Decision (P kv)} (m : gmap string V) k v l :
  filter P (range m) = (k, v) :: l → P (k, v) ∧ m !! k = Some v.
Proof.
  intros E. rewrite <-range_elem, <-list_elem_of_filter, E. by left.
Qed.

Lemma range_filter_nil `{MapRange} {V} (P : string * V → Prop) `{!∀ kv, Decision (P kv)} (m : gmap string V) k v :
  filter P (range m) = [] → m !! k = Some v → ¬ P (k, v).
Proof.
  intros E Hk HP. apply (not_elem_of_nil (k, v)). rewrite <-E. by apply list_elem_of_filter; rewrite range_elem.
Qed.

(** A range loop that collects the entries with [P] and drops them from the
    map neither loses nor duplicates an entry. *)
Lemma size_filter_split `{MapRange} {V} (P : V → Prop) `{!∀ v, Decision (P v)}
    (m : gmap string V) :
  length (filter P (range m).*2) + size (filter (λ kv, ¬ P kv.2) m) = size m.
Proof.
  rewrite range_perm. induction m as [|k v m Hk IH] using map_ind.
  - by rewrite map_to_list_empty, map_filter_empty.
  - rewrite map_to_list_insert, map_filter_insert, map_size_insert_None by done.
    rewrite fmap_cons, filter_cons. cbn [fst snd].
    destruct (decide (P v)); case_decide; try done; rewrite ?length_cons.
    + rewrite delete_id by done.  lia.
    + rewrite map_size_insert_None; [lia|]. apply map_lookup_filter_None. by left.
Qed.

#[export] Hint Resolve range_NoDup : devmesh.
#[export] Hint Rewrite @range_elem : go.
