(* ===== verification/GoStrings.v ===== *)
(** * The Go language and library functions on integers and strings

    What the sources use of Go's [int], [strings], [strconv] and [time]
    packages.  A Go string is a byte string, here Rocq's [string]; the
    functions are written on its list of bytes.  Unicode case mapping is the
    one table that is not written out: it is the argument [unicode_lower]. *)

From S2P Require Import Prelude.
From Stdlib Require Import Ascii DecimalString DecimalZ DecimalFacts.

(** ** Integers and durations *)

(** Go's [int] and [time.Duration] are 64 bits wide and wrap around. *)
Definition int64 (z : Z) : Z := (z + 2 ^ 63) mod 2 ^ 64 - 2 ^ 63.

Definition in_int64 (z : Z) : Prop := (- 2 ^ 63 ≤ z < 2 ^ 63)%Z.

#[global] Instance in_int64_dec z : Decision (in_int64 z).
Proof. unfold in_int64. apply _. Defined.

Lemma int64_id z : in_int64 z → int64 z = z.
Proof. unfold in_int64, int64; intros. rewrite Z.mod_small; lia. Qed.

Lemma int64_in z : in_int64 (int64 z).
Proof.
  unfold in_int64, int64.
  pose proof (Z.mod_pos_bound (z + 2 ^ 63) (2 ^ 64)). lia.
Qed.

(** [time.Duration] constants, in nanoseconds; [time.Time] is the number of
    nanoseconds since Go's zero time, so [t.IsZero()] is [t = 0]. *)
Definition Millisecond : Z := 1000000.
Definition Second : Z := 1000000000.
Definition Minute : Z := 60 * Second.
Definition Hour : Z := 60 * Minute.

(** [int(d.Seconds())] of a non-negative duration: truncation towards zero. *)
Definition seconds (d : Z) : Z := Z.quot d Second.

(** ** Bytes *)

Abbreviation bytes := String.list_ascii_of_string.
Abbreviation str := String.string_of_list_ascii.

Lemma bytes_str l : bytes (str l) = l.
Proof. apply String.list_ascii_of_string_of_list_ascii. Qed.
Lemma str_bytes s : str (bytes s) = s.
Proof. apply String.string_of_list_ascii_of_string. Qed.
Lemma bytes_app s t : bytes (s +:+ t) = bytes s ++ bytes t.
Proof. induction s as [|c s IH]; simpl; [done|]. by rewrite IH. Qed.
Lemma str_app l k : str (l ++ k) = str l +:+ str k.
Proof. induction l as [|c l IH]; simpl; [done|]. by rewrite IH. Qed.
Lemma bytes_inj s t : bytes s = bytes t → s = t.
Proof. intros E. by rewrite <-(str_bytes s), <-(str_bytes t), E. Qed.
Lemma bytes_length s : length (bytes s) = String.length s.
Proof. induction s; simpl; congruence. Qed.
Lemma bytes_nil s : bytes s = [] ↔ s = "".
Proof. destruct s; split; simpl; congruence. Qed.
Lemma str_nil l : str l = "" ↔ l = [].
Proof. destruct l; split; simpl; congruence. Qed.

#[export] Hint Rewrite bytes_str str_bytes bytes_app str_app : go.

Definition has_byte (c : ascii) (s : string) : Prop := c ∈ bytes s.

#[global] Instance has_byte_dec c s : Decision (has_byte c s).
Proof. unfold has_byte. apply _. Defined.

(** [strings.IndexByte] and [strings.LastIndexByte]; [None] is -1. *)
Definition index_byte (c : ascii) (l : list ascii) : option nat :=
  fst <$> list_find (c =.) l.

Definition last_index_byte (c : ascii) (l : list ascii) : option nat :=
  (λ i, length l - S i) <$> index_byte c (reverse l).

(** ** Package strings *)

(** [strings.HasPrefix], [TrimPrefix] and [TrimSuffix]. *)
Fixpoint strip_prefix (p l : list ascii) : option (list ascii) :=
  match p, l with
  | [], _ => Some l
  | a :: p, b :: l => if decide (a = b) then strip_prefix p l else None
  | _ :: _, [] => None
  end.

Definition HasPrefix (s p : string) : bool :=
  match strip_prefix (bytes p) (bytes s) with Some _ => true | None => false end.

Definition TrimPrefix (s p : string) : string :=
  match strip_prefix (bytes p) (bytes s) with Some l => str l | None => s end.

Definition TrimSuffix (s p : string) : string :=
  match strip_prefix (reverse (bytes p)) (reverse (bytes s)) with
  | Some l => str (reverse l)
  | None => s
  end.

(** [strings.ContainsAny]. *)
Definition ContainsAny (s chars : string) : bool :=
  bool_decide (Exists (λ c, c ∈ bytes chars) (bytes s)).

(** [strings.Contains]. *)
Fixpoint contains_list (l p : list ascii) : bool :=
  match strip_prefix p l with
  | Some _ => true
  | None => match l with [] => false | _ :: l => contains_list l p end
  end.

Definition Contains (s p : string) : bool := contains_list (bytes s) (bytes p).

(** [strings.Split] at one byte. *)
Fixpoint split_on (sep : ascii) (l : list ascii) : list (list ascii) :=
  match l with
  | [] => [[]]
  | c :: l =>
    if decide (c = sep) then [] :: split_on sep l
    else match split_on sep l with
         | [] => [[c]]
         | w :: ws => (c :: w) :: ws
         end
  end.

Lemma split_on_nonempty sep l : split_on sep l ≠ [].
Proof. destruct l; simpl; [done|]. repeat case_match; done. Qed.

Lemma split_on_app sep w l :
  sep ∉ w → split_on sep (w ++ sep :: l) = w :: split_on sep l.
Proof.
  induction w as [|c w IH]; simpl; intros Hn.
  - by rewrite decide_True.
  - apply not_elem_of_cons in Hn as [??]. rewrite decide_False by done.
    by rewrite IH.
Qed.

Lemma split_on_id sep w : sep ∉ w → split_on sep w = [w].
Proof.
  induction w as [|c w IH]; simpl; intros Hn; [done|].
  apply not_elem_of_cons in Hn as [??]. rewrite decide_False by done.
  by rewrite IH.
Qed.

(** [strings.Trim(s, cutset)] for a cutset of single-byte runes. *)
Fixpoint trim_left_set (cut l : list ascii) : list ascii :=
  match l with
  | c :: l' => if decide (c ∈ cut) then trim_left_set cut l' else l
  | [] => []
  end.

Definition Trim (s cutset : string) : string :=
  let cut := bytes cutset in
  str (reverse (trim_left_set cut (reverse (trim_left_set cut (bytes s))))).

(** The UTF-8 encodings of the runes [unicode.IsSpace] accepts. *)
Definition byte_seq (l : list nat) : list ascii := ascii_of_nat <$> l.

Definition spaces : list (list ascii) := byte_seq <$>
  [ [9]; [10]; [11]; [12]; [13]; [32]; [194; 133]; [194; 160];
    [225; 154; 128];
    [226; 128; 128]; [226; 128; 129]; [226; 128; 130]; [226; 128; 131];
    [226; 128; 132]; [226; 128; 133]; [226; 128; 134]; [226; 128; 135];
    [226; 128; 136]; [226; 128; 137]; [226; 128; 138]; [226; 128; 168];
    [226; 128; 169]; [226; 128; 175]; [226; 129; 159]; [227; 128; 128] ].

(** Strip one sequence of [seqs] from the front, if one is there. *)
Definition strip_one (seqs : list (list ascii)) (l : list ascii) :
  option (list ascii) :=
  foldr (λ p acc, match strip_prefix p l with Some l' => Some l' | None => acc end)
    None seqs.

Fixpoint strip_all (fuel : nat) (seqs : list (list ascii)) (l : list ascii) :
  list ascii :=
  match fuel with
  | O => l
  | S fuel =>
    match strip_one seqs l with Some l' => strip_all fuel seqs l' | None => l end
  end.

Definition trim_left (l : list ascii) : list ascii := strip_all (length l) spaces l.

Definition trim_right (l : list ascii) : list ascii :=
  reverse (strip_all (length l) (reverse <$> spaces) (reverse l)).

(** [strings.TrimSpace]: white space runes are removed at both ends. *)
Definition TrimSpace (s : string) : string := str (trim_right (trim_left (bytes s))).

(** Byte classes and case. *)
Definition is_digit (c : ascii) : bool :=
  let n := nat_of_ascii c in (48 <=? n) && (n <=? 57).
Definition is_lower (c : ascii) : bool :=
  let n := nat_of_ascii c in (97 <=? n) && (n <=? 122).
Definition is_upper (c : ascii) : bool :=
  let n := nat_of_ascii c in (65 <=? n) && (n <=? 90).
Definition is_ascii (c : ascii) : bool := nat_of_ascii c <? 128.

Definition lower_byte (c : ascii) : ascii :=
  if is_upper c then ascii_of_nat (nat_of_ascii c + 32) else c.

Definition all_ascii (s : string) : bool := forallb is_ascii (bytes s).

(** The Unicode table behind [strings.ToLower] on strings that are not ASCII. *)
Class Unicode := unicode_lower : string → string.

(** [strings.ToLower]. *)
Definition ToLower `{Unicode} (s : string) : string :=
  if all_ascii s then str (lower_byte <$> bytes s) else unicode_lower s.

(** [strings.EqualFold(s, t)] for a [t] of lower-case letters none of which
    has a non-ASCII case folding (so neither [k] nor [s]). *)
Definition EqualFold_lower (s t : string) : bool :=
  bool_decide (lower_byte <$> bytes s = bytes t).

(** ** Package strconv *)

(** [strconv.Itoa], also [fmt.Sprintf("%d", n)]. *)
Definition Itoa (n : Z) : string := NilZero.string_of_int (Z.to_int n).

(** [strconv.Atoi]: an optional sign, decimal digits, in the range of int. *)
Definition parse_int (s : string) : option Z :=
  match s with
  | String "+" s' =>
    (λ d, Z.of_int (Decimal.Pos d)) <$> NilZero.uint_of_string s'
  | _ => Z.of_int <$> NilZero.int_of_string s
  end.

Definition Atoi (s : string) : option Z :=
  match parse_int s with
  | Some z => if decide (in_int64 z) then Some z else None
  | None => None
  end.

(** ** Package utf8 *)

Definition in_range (lo hi : nat) (c : ascii) : bool :=
  let n := nat_of_ascii c in (lo <=? n) && (n <=? hi).

Definition cont (c : ascii) : bool := in_range 128 191 c.

(** [utf8.Valid]: the well-formed byte sequences of RFC 3629. *)
Fixpoint valid_utf8_list (l : list ascii) : bool :=
  match l with
  | [] => true
  | a :: l1 =>
    if is_ascii a then valid_utf8_list l1
    else match l1 with
    | b :: l2 =>
      if in_range 194 223 a then cont b && valid_utf8_list l2
      else match l2 with
      | c :: l3 =>
        if in_range 224 239 a then
          (if in_range 224 224 a then in_range 160 191 b
           else if in_range 237 237 a then in_range 128 159 b else cont b)
          && cont c && valid_utf8_list l3
        else match l3 with
        | d :: l4 =>
          in_range 240 244 a &&
          (if in_range 240 240 a then in_range 144 191 b
           else if in_range 244 244 a then in_range 128 143 b else cont b)
          && cont c && cont d && valid_utf8_list l4
        | [] => false
        end
      | [] => false
      end
    | [] => false
    end
  end.

Definition valid_utf8 (s : string) : bool := valid_utf8_list (bytes s).

Lemma all_ascii_utf8 s : all_ascii s = true → valid_utf8 s = true.
Proof.
  unfold all_ascii, valid_utf8. induction (bytes s) as [|c l IH]; simpl; [done|].
  by intros [-> Hl]%andb_true_iff; auto.
Qed.

(** ** Numbers and their decimal notation *)

Lemma parse_int_Itoa n : parse_int (Itoa n) = Some n.
Proof.
  unfold Itoa. assert (∀ d, parse_int (NilZero.string_of_int d) = Some (Z.of_int d)) as E;
    [|by rewrite E, DecimalZ.of_to].
  assert (∀ d, Z.of_int <$> NilZero.int_of_string (NilZero.string_of_int d)
               = Some (Z.of_int d)) as E.
  { intros [[]|[]]; try done; by rewrite NilZero.isi. }
  intros d. specialize (E d). unfold parse_int.
  destruct d as [d|d]; [destruct d|]; done.
Qed.

Lemma Atoi_Itoa n : in_int64 n → Atoi (Itoa n) = Some n.
Proof. intros ?. unfold Atoi. by rewrite parse_int_Itoa, decide_True. Qed.

Lemma Atoi_range s n : Atoi s = Some n → in_int64 n.
Proof. unfold Atoi. repeat case_match; intros; by simplify_eq. Qed.

Lemma string_of_uint_digits d :
  Forall (λ c, is_digit c = true) (bytes (NilEmpty.string_of_uint d)).
Proof. induction d; simpl; constructor; done. Qed.

(** The notation of a non-negative number is a non-empty string of digits. *)
Lemma Itoa_digits n :
  (0 ≤ n)%Z → Forall (λ c, is_digit c = true) (bytes (Itoa n)) ∧ Itoa n ≠ "".
Proof.
  intros Hn. unfold Itoa. assert (∃ d, Z.to_int n = Decimal.Pos d) as [d ->].
  { destruct n; simpl; eauto. lia. }
  simpl. unfold NilZero.string_of_uint.
  pose proof (string_of_uint_digits d). destruct d; simpl in *; split; try done.
  by repeat constructor.
Qed.

(** ** Searching for a byte *)

Lemma index_byte_app c l k : c ∉ l → index_byte c (l ++ c :: k) = Some (length l).
Proof.
  unfold index_byte. induction l as [|a l IH]; simpl; intros Hn.
  - by rewrite decide_True.
  - apply not_elem_of_cons in Hn as [Hne Hn]. rewrite decide_False by congruence.
    specialize (IH Hn). destruct (list_find _ _) as [[i x]|]; by simplify_eq/=.
Qed.

Lemma index_byte_None c l : c ∉ l → index_byte c l = None.
Proof.
  unfold index_byte. intros Hn. assert (list_find (c =.) l = None) as ->; [|done].
  apply list_find_None, Forall_forall. intros x Hx <-. done.
Qed.

Lemma last_index_byte_app c l k :
  c ∉ k → last_index_byte c (l ++ c :: k) = Some (length l).
Proof.
  intros Hn. unfold last_index_byte.
  rewrite reverse_app, reverse_cons, <-app_assoc. simpl.
  rewrite index_byte_app by by rewrite elem_of_reverse.
  simpl. f_equal. rewrite length_app, length_reverse. simpl. lia.
Qed.

Lemma last_index_byte_None c l : c ∉ l → last_index_byte c l = None.
Proof.
  intros Hn. unfold last_index_byte. rewrite index_byte_None; [done|].
  by rewrite elem_of_reverse.
Qed.

(** Bytes of a class are none of the bytes outside it. *)
Lemma class_not_elem (p : ascii → bool) c l :
  Forall (λ d, p d = true) l → p c = false → c ∉ l.
Proof. rewrite Forall_forall. intros Hl Hc Hin. apply Hl in Hin. congruence. Qed.

(** ** Trimming strings that have nothing to trim *)

Lemma strip_prefix_app p l : strip_prefix p (p ++ l) = Some l.
Proof. induction p; simpl; [done|]. by rewrite decide_True. Qed.

Lemma strip_prefix_head a p c l :
  a ≠ c → strip_prefix (a :: p) (c :: l) = None.
Proof. intros. simpl. by rewrite decide_False. Qed.

Lemma TrimPrefix_id s a p :
  head (bytes s) ≠ Some a → TrimPrefix s (String a p) = s.
Proof.
  intros Hh. unfold TrimPrefix. simpl. destruct (bytes s) as [|c l] eqn:E; [done|].
  rewrite decide_False; [done|]. simpl in Hh. congruence.
Qed.

Lemma TrimSuffix1_id s a :
  last (bytes s) ≠ Some a → TrimSuffix s (String a "") = s.
Proof.
  intros Hl. unfold TrimSuffix. cbn [bytes String.list_ascii_of_string].
  rewrite reverse_singleton. destruct (reverse (bytes s)) as [|c l] eqn:E; [done|].
  simpl. rewrite decide_False; [done|]. intros ->. apply Hl.
  rewrite <-(reverse_involutive (bytes s)), E, reverse_cons. by rewrite last_snoc.
Qed.

Lemma TrimSuffix1_snoc s a :
  TrimSuffix (s +:+ String a "") (String a "") = s.
Proof.
  unfold TrimSuffix. rewrite bytes_app, reverse_app.
  cbn [bytes String.list_ascii_of_string]. rewrite !reverse_singleton. simpl.
  rewrite decide_True by done. by rewrite reverse_involutive, str_bytes.
Qed.

(** No white space sequence starts (or ends) with this byte. *)
Definition no_space (c : ascii) : bool :=
  forallb (λ p, bool_decide (head p ≠ Some c ∧ last p ≠ Some c)) spaces.

Lemma strip_one_None seqs c l :
  Forall (λ p, p ≠ [] ∧ head p ≠ Some c) seqs → strip_one seqs (c :: l) = None.
Proof.
  induction 1 as [|p seqs [Hp Hh] _ IH]; simpl; [done|].
  destruct p as [|a p]; [done|]. rewrite strip_prefix_head; [done|]. simpl in Hh. congruence.
Qed.

Lemma strip_all_None fuel seqs c l :
  Forall (λ p, p ≠ [] ∧ head p ≠ Some c) seqs → strip_all fuel seqs (c :: l) = c :: l.
Proof. intros. destruct fuel; simpl; [done|]. by rewrite strip_one_None. Qed.

Lemma spaces_nonempty : Forall (λ p, p ≠ []) spaces.
Proof. by repeat constructor. Qed.

Lemma TrimSpace_id s :
  (∀ c, head (bytes s) = Some c → no_space c = true) →
  (∀ c, last (bytes s) = Some c → no_space c = true) → TrimSpace s = s.
Proof.
  intros Hh Hl. unfold TrimSpace. rewrite <-(str_bytes s) at 2. f_equal.
  assert (∀ c, no_space c = true →
            Forall (λ p, head p ≠ Some c ∧ last p ≠ Some c) spaces) as Hns.
  { intros c Hc. apply Forall_forall. intros p Hp. unfold no_space in Hc.
    rewrite forallb_forall in Hc. apply list_elem_of_In, Hc in Hp.
    by apply bool_decide_eq_true in Hp. }
  assert (trim_left (bytes s) = bytes s) as ->.
  { unfold trim_left. destruct (bytes s) as [|c l]; [done|]. apply strip_all_None.
    specialize (Hns c (Hh c eq_refl)). pose proof spaces_nonempty as Hne.
    rewrite Forall_forall in *. naive_solver. }
  unfold trim_right. destruct (reverse (bytes s)) as [|c l] eqn:E.
  - destruct (bytes s); [done|]. rewrite reverse_cons in E. by destruct (reverse l).
  - rewrite strip_all_None; [by rewrite <-E, reverse_involutive|].
    assert (last (bytes s) = Some c) as Hlast.
    { rewrite <-(reverse_involutive (bytes s)), E, reverse_cons. by rewrite last_snoc. }
    specialize (Hns c (Hl c Hlast)). pose proof spaces_nonempty as Hne.
    apply Forall_fmap. rewrite Forall_forall in *. intros p Hp. simpl.
    rewrite head_reverse. split; [|naive_solver].
    intros Hr%(f_equal reverse). rewrite reverse_involutive in Hr. by apply (Hne p).
Qed.

Lemma ToLower_id `{Unicode} s :
  all_ascii s = true → Forall (λ c, is_upper c = false) (bytes s) → ToLower s = s.
Proof.
  intros Ha Hu. unfold ToLower. rewrite Ha, <-(str_bytes s) at 1.
  rewrite <-(str_bytes s) at 2. rewrite bytes_str. f_equal.
  induction Hu as [|c l Hc _ IH]; [done|]. rewrite fmap_cons, IH.
  unfold lower_byte. by rewrite Hc.
Qed.
