(* ===== verification/GoNet.v ===== *)
(** * Package net: host:port strings and IP addresses

    [net.SplitHostPort], [net.JoinHostPort], [net.ParseIP] and
    [net.IP.IsLoopback] as the Go library defines them.  Resolving a name
    ([net.LookupHost]) is an effect: it is an argument of the code that
    calls it. *)

From S2P Require Import Prelude GoStrings.
From Stdlib Require Import Ascii.
Local Open Scope char_scope.

(** ** host:port *)

Inductive AddrError :=
| MissingPort
| TooManyColons
| MissingBracket
| UnexpectedOpen
| UnexpectedClose.

(** [net.JoinHostPort]. *)
Definition JoinHostPort (host port : string) : string :=
  if decide (has_byte ":" host)
  then ("[" +:+ host +:+ "]:" +:+ port)%string
  else (host +:+ ":" +:+ port)%string.

(** The checks [SplitHostPort] ends with: no stray bracket after position
    [j] resp. [k], and the port starts after the last colon [i]. *)
Definition split_finish (l host : list ascii) (i j k : nat) :
  result (string * string) AddrError :=
  if decide ("[" ∈ drop j l) then Err UnexpectedOpen
  else if decide ("]" ∈ drop k l) then Err UnexpectedClose
  else Ok (str host, str (drop (S i) l)).

(** [net.SplitHostPort]. *)
Definition split_host_port (l : list ascii) : result (string * string) AddrError :=
  match last_index_byte ":" l with
  | None => Err MissingPort
  | Some i =>
    if decide (head l = Some "[") then
      match index_byte "]" l with
      | None => Err MissingBracket
      | Some e =>
        if decide (S e = length l) then Err MissingPort
        else if decide (S e = i) then
          split_finish l (take (e - 1) (drop 1 l)) i 1 (S e)
        else if decide (l !! S e = Some ":") then Err TooManyColons
        else Err MissingPort
      end
    else
      let host := take i l in
      if decide (":" ∈ host) then Err TooManyColons
      else split_finish l host i 0 0
  end.

Definition SplitHostPort (hostport : string) : result (string * string) AddrError :=
  split_host_port (bytes hostport).

(** ** IP addresses *)

(** A [net.IP] of 16 bytes. *)
Abbreviation IP := (list Z) (only parsing).

Definition digit (c : ascii) : Z := Z.of_nat (nat_of_ascii c) - 48.

(** [netip.parseIPv4Fields]: four decimal octets without leading zeros. *)
Fixpoint parse_ipv4_fields (first prevdot : bool) (val : Z) (digLen pos : nat)
    (fields : IP) (s : list ascii) : option IP :=
  match s with
  | [] => if decide (pos < 3) then None else Some (fields ++ [val])
  | c :: s' =>
    if is_digit c then
      if decide (digLen = 1 ∧ val = 0%Z) then None
      else
        let val' := (val * 10 + digit c)%Z in
        if decide (255 < val')%Z then None
        else parse_ipv4_fields false false val' (S digLen) pos fields s'
    else if decide (c = ".") then
      if first || prevdot || bool_decide (s' = []) then None
      else if decide (pos = 3) then None
      else parse_ipv4_fields false true 0 0 (S pos) (fields ++ [val]) s'
    else None
  end.

Definition parse_ipv4 (s : list ascii) : option IP :=
  parse_ipv4_fields true false 0 0 0 [] s.

Definition hex_digit (c : ascii) : option Z :=
  let n := Z.of_nat (nat_of_ascii c) in
  if is_digit c then Some (n - 48)%Z
  else if bool_decide (97 ≤ n ≤ 102)%Z then Some (n - 87)%Z
  else if bool_decide (65 ≤ n ≤ 70)%Z then Some (n - 55)%Z
  else None.

(** The inner loop of [netip.parseIPv6]: the value of the leading hex group
    (at most four digits), its length and what follows. *)
Fixpoint hex_group (off : nat) (acc : Z) (s : list ascii) :
  option (nat * Z * list ascii) :=
  match s with
  | c :: s' =>
    match hex_digit c with
    | Some d =>
      if decide (3 < off) then None else hex_group (S off) (acc * 16 + d) s'
    | None => Some (off, acc, s)
    end
  | [] => Some (off, acc, [])
  end.

(** The outer loop: it runs while fewer than 16 bytes are filled, and every
    round fills at least two, so eight rounds are all there can be. *)
Fixpoint parse_ipv6_loop (fuel : nat) (ip : IP) (ellipsis : option nat)
    (s : list ascii) : option (IP * option nat * list ascii) :=
  match fuel with
  | O => Some (ip, ellipsis, s)
  | S fuel =>
    match hex_group 0 0 s with
    | None => None
    | Some (off, acc, rest) =>
      if decide (off = 0) then None
      else if decide (head rest = Some ".") then
        if decide (ellipsis = None ∧ length ip ≠ 12) then None
        else if decide (16 < length ip + 4) then None
        else match parse_ipv4 s with
             | None => None
             | Some f => Some (ip ++ f, ellipsis, [])
             end
      else
        let ip := ip ++ [acc / 256; acc mod 256]%Z in
        match rest with
        | [] => Some (ip, ellipsis, [])
        | c :: rest =>
          if decide (c ≠ ":") then None
          else match rest with
               | [] => None
               | c :: rest' =>
                 if decide (c = ":") then
                   if decide (is_Some ellipsis) then None
                   else match rest' with
                        | [] => Some (ip, Some (length ip), [])
                        | _ => parse_ipv6_loop fuel ip (Some (length ip)) rest'
                        end
                 else parse_ipv6_loop fuel ip ellipsis rest
               end
        end
    end
  end.

(** The end of [netip.parseIPv6]: the ellipsis is expanded to zeros. *)
Definition expand_ellipsis (r : IP * option nat * list ascii) : option IP :=
  let '(ip, ellipsis, rest) := r in
  match rest with
  | _ :: _ => None
  | [] =>
    if decide (length ip < 16) then
      match ellipsis with
      | None => None
      | Some e => Some (take e ip ++ replicate (16 - length ip) 0%Z ++ drop e ip)
      end
    else match ellipsis with Some _ => None | None => Some ip end
  end.

Definition parse_ipv6 (s : list ascii) : option IP :=
  match strip_prefix [":"; ":"] s with
  | Some [] => Some (replicate 16 0%Z)
  | Some s' => parse_ipv6_loop 8 [] (Some 0) s' ≫= expand_ellipsis
  | None => parse_ipv6_loop 8 [] None s ≫= expand_ellipsis
  end.

Definition v4_mapped (f : IP) : IP := replicate 10 0%Z ++ [255; 255]%Z ++ f.

(** [net.ParseIP]; an address with a zone ([%]) is not accepted. *)
Definition ParseIP (s : string) : option IP :=
  let l := bytes s in
  if decide ("%" ∈ l) then None
  else match list_find (λ c, c = "." ∨ c = ":") l with
       | None => None
       | Some (_, c) => if decide (c = ".") then v4_mapped <$> parse_ipv4 l
                        else parse_ipv6 l
       end.

(** [net.IP.IsLoopback]. *)
Definition IsLoopback (ip : IP) : bool :=
  if decide (length ip = 16 ∧ take 12 ip = v4_mapped [])
  then bool_decide (ip !! 12 = Some 127%Z)
  else bool_decide (ip = replicate 15 0%Z ++ [1%Z]).

(** The parser on the addresses the tests and defaults of the code use. *)
Example ParseIP_examples :
  ParseIP "127.0.0.1" = Some (v4_mapped [127; 0; 0; 1]%Z) ∧
  (IsLoopback <$> ParseIP "::1") = Some true ∧
  (IsLoopback <$> ParseIP "::ffff:127.0.0.1") = Some true ∧
  (IsLoopback <$> ParseIP "2001:db8::8a2e:370:7334") = Some false ∧
  ParseIP "127.0.0.01" = None ∧ ParseIP "localhost" = None ∧
  ParseIP "::1%lo" = None ∧ ParseIP "1:2:3:4:5:6:7::" ≠ None ∧
  ParseIP "1:2:3:4:5:6:7:8::" = None.
Proof. vm_compute. repeat split; congruence. Qed.

Example SplitHostPort_examples :
  SplitHostPort "127.0.0.1:8088" = Ok ("127.0.0.1", "8088")%string ∧
  SplitHostPort "[::1]:80" = Ok ("::1", "80")%string ∧
  SplitHostPort ":80" = Ok ("", "80")%string ∧
  SplitHostPort "::1:80" = Err TooManyColons ∧
  SplitHostPort "localhost" = Err MissingPort ∧
  SplitHostPort "[::1]" = Err MissingPort ∧
  SplitHostPort "a]:1" = Err UnexpectedClose.
Proof. vm_compute. repeat split; congruence. Qed.

(** ** Splitting what was joined *)

(** The hosts and ports [JoinHostPort] is meant for: no brackets, and no
    colon in the port. *)
Definition plain (s : string) : Prop := "[" ∉ bytes s ∧ "]" ∉ bytes s.

Lemma split_host_port_join host port :
  "[" ∉ host → "]" ∉ host → ":" ∉ host →
  "[" ∉ port → "]" ∉ port → ":" ∉ port →
  split_host_port (host ++ ":" :: port) = Ok (str host, str port).
Proof.
  intros. unfold split_host_port, split_finish. rewrite last_index_byte_app by done.
  assert (head (host ++ ":" :: port) ≠ Some "[") as Hh.
  { destruct host; simpl; [done|]. set_solver. }
  rewrite decide_False, take_app_length, drop_0 by done.
  rewrite decide_False, decide_False, decide_False by set_solver.
  rewrite drop_app_ge by lia.
  by replace (S (length host) - length host)%nat with 1%nat by lia.
Qed.

Lemma split_host_port_join_bracket host port :
  "[" ∉ host → "]" ∉ host → "[" ∉ port → "]" ∉ port → ":" ∉ port →
  split_host_port ("[" :: host ++ "]" :: ":" :: port) = Ok (str host, str port).
Proof.
  intros. unfold split_host_port, split_finish.
  replace ("[" :: host ++ "]" :: ":" :: port)
    with (("[" :: host ++ ["]"]) ++ ":" :: port) at 1
    by (simpl; by rewrite <-app_assoc).
  rewrite last_index_byte_app by done.
  rewrite decide_True by done.
  change ("[" :: host ++ "]" :: ":" :: port) with (("[" :: host) ++ "]" :: ":" :: port).
  rewrite index_byte_app by set_solver.
  rewrite decide_False by (rewrite length_app; simpl; lia).
  rewrite decide_True by (simpl; rewrite length_app; simpl; lia).
  replace (take _ _) with host
    by (simpl; by rewrite Nat.sub_0_r, drop_0, take_app_length).
  rewrite decide_False by (simpl; rewrite drop_0; set_solver).
  rewrite (drop_app_ge ("[" :: host)), decide_False
    by (simpl; rewrite ?Nat.sub_succ_l, ?Nat.sub_diag by lia; simpl; set_solver || lia).
  do 3 f_equal. simpl. rewrite length_app, drop_app_ge by (simpl; lia). simpl.
  by replace (S (length host + 1) - length host)%nat with 2%nat by lia.
Qed.

(** Splitting what was joined gives the host and the port back. *)
Theorem SplitHostPort_JoinHostPort host port :
  plain host → plain port → ¬ has_byte ":" port →
  SplitHostPort (JoinHostPort host port) = Ok (host, port).
Proof.
  intros [??] [??] Hc. unfold SplitHostPort, JoinHostPort, has_byte in *.
  transitivity (Ok (str (bytes host), str (bytes port)) : result _ AddrError);
    [|by rewrite !str_bytes].
  case_decide; rewrite !bytes_app.
  - by apply split_host_port_join_bracket.
  - by apply split_host_port_join.
Qed.
