(* ===== verification/GoUrl.v ===== *)
(** * net/url and net/http/httputil: queries

    What [url.ParseQuery] reads in a query, what [Values.Encode] writes, and
    [cleanQueryParams], by which [httputil.ReverseProxy] drops the parameters
    it cannot parse from the outbound request before it calls [Rewrite]. *)

From S2P Require Import Prelude GoStrings GoNet.
From Stdlib Require Import Ascii.
Local Open Scope char_scope.

(** [url.Values]. *)
Abbreviation Values := (gmap string (list string)).

Definition upper_hex (n : nat) : ascii :=
  ascii_of_nat (if decide (n < 10)%nat then (48 + n)%nat else (55 + n)%nat).

Definition ishex (c : ascii) : bool := bool_decide (is_Some (hex_digit c)).

(** [%XX] for a byte, and the byte of two hexadecimal digits. *)
Definition percent (c : ascii) : list ascii :=
  ["%"; upper_hex (nat_of_ascii c / 16)%nat; upper_hex (nat_of_ascii c mod 16)%nat].

Definition unhex (a b : ascii) : option ascii :=
  match hex_digit a, hex_digit b with
  | Some x, Some y => Some (ascii_of_nat (Z.to_nat (x * 16 + y)%Z))
  | _, _ => None
  end.

(** [url.QueryEscape] and [url.QueryUnescape]. *)
Definition query_unescaped (c : ascii) : bool :=
  is_lower c || is_upper c || is_digit c || bool_decide (c ∈ bytes "-_.~").

Definition escape_byte (c : ascii) : list ascii :=
  if query_unescaped c then [c] else if decide (c = " ") then ["+"] else percent c.

Definition query_escape (l : list ascii) : list ascii := c ← l; escape_byte c.

Fixpoint query_unescape (l : list ascii) : option (list ascii) :=
  match l with
  | [] => Some []
  | c :: l =>
    if decide (c = "%") then
      match l with
      | a :: b :: l' => c' ← unhex a b; cons c' <$> query_unescape l'
      | _ => None
      end
    else cons (if decide (c = "+") then " " else c) <$> query_unescape l
  end.

(** [strings.Cut] at the first [sep]; without one the second part is empty. *)
Fixpoint cut (sep : ascii) (l : list ascii) : list ascii * list ascii :=
  match l with
  | [] => ([], [])
  | c :: l => if decide (c = sep) then ([], l) else let '(a, b) := cut sep l in (c :: a, b)
  end.

(** One parameter of a query; [ParseQuery] skips what it cannot read. *)
Definition parse_param (p : list ascii) : option (string * string) :=
  if decide (";" ∈ p ∨ p = []) then None
  else
    let '(k, v) := cut "=" p in
    k ← query_unescape k; v ← query_unescape v; Some (str k, str v).

Definition add_value (m : Values) (kv : string * string) : Values :=
  <[kv.1 := default [] (m !! kv.1) ++ [kv.2]]> m.

Definition params (s : string) : list (list ascii) := split_on "&" (bytes s).

(** The library's limit on the number of parameters. *)
Definition few_params (s : string) : Prop := (Z.of_nat (length (params s)) ≤ 10000)%Z.

#[global] Instance few_params_dec s : Decision (few_params s).
Proof. unfold few_params. apply _. Defined.

(** [url.ParseQuery], without the error. *)
Definition ParseQuery (s : string) : Values :=
  if decide (few_params s) then foldl add_value ∅ (omap parse_param (params s)) else ∅.

(** [Values.Encode]. *)
Fixpoint join_on (sep : ascii) (l : list (list ascii)) : list ascii :=
  match l with
  | [] => []
  | [w] => w
  | w :: l => w ++ sep :: join_on sep l
  end.

Definition sorted_values (m : Values) : list (string * list string) :=
  merge_sort (λ a b, String.le a.1 b.1) (map_to_list m).

Definition pairs_of (l : list (string * list string)) : list (string * string) :=
  kvs ← l; pair kvs.1 <$> kvs.2.

Definition encode_param (kv : string * string) : list ascii :=
  query_escape (bytes kv.1) ++ "=" :: query_escape (bytes kv.2).

Definition Encode (m : Values) : string :=
  str (join_on "&" (encode_param <$> pairs_of (sorted_values m))).

(** [httputil.cleanQueryParams]: a query is written anew when it has a
    semicolon or a percent sign without its two digits. *)
Fixpoint parsable (l : list ascii) : bool :=
  match l with
  | [] => true
  | c :: l =>
    if decide (c = ";") then false
    else if decide (c = "%") then
      match l with
      | a :: b :: l' => ishex a && ishex b && parsable l'
      | _ => false
      end
    else parsable l
  end.

Definition cleanQueryParams (s : string) : string :=
  if parsable (bytes s) then s else Encode (ParseQuery s).

(** ** Escaping *)

(** A property of all 256 bytes. *)
Lemma byte_all (p : ascii → bool) :
  forallb p (ascii_of_nat <$> seq 0 256) = true → ∀ c, p c = true.
Proof.
  rewrite forallb_forall. intros Hall c. apply Hall, list_elem_of_In, list_elem_of_fmap.
  exists (nat_of_ascii c). split; [by rewrite ascii_nat_embedding|].
  apply elem_of_seq. pose proof (nat_ascii_bounded c). lia.
Qed.

(** Two escaped digits are read back, and the bytes an escape is made of are
    no separators. *)
Lemma unhex_percent c :
  unhex (upper_hex (nat_of_ascii c / 16)%nat) (upper_hex (nat_of_ascii c mod 16)%nat) = Some c.
Proof.
  assert (bool_decide (unhex (upper_hex (nat_of_ascii c / 16)%nat) (upper_hex (nat_of_ascii c mod 16)%nat) = Some c) = true) as E
    by (revert c; apply byte_all; by vm_compute).
  by apply bool_decide_eq_true in E.
Qed.

Definition separators : list ascii := ["&"; "="; ";"].

Lemma escape_byte_class c x : x ∈ escape_byte c → x ∉ separators.
Proof.
  intros Hx. assert (forallb (λ y, bool_decide (y ∉ separators)) (escape_byte c) = true) as E
    by (clear Hx; revert c; apply byte_all; by vm_compute).
  rewrite forallb_forall in E. apply list_elem_of_In in Hx. apply E in Hx. by apply bool_decide_eq_true in Hx.
Qed.

Lemma query_escape_class l x : x ∈ query_escape l → x ∉ separators.
Proof. unfold query_escape. intros (c & Hx & _)%list_elem_of_bind. by eapply escape_byte_class. Qed.

(** A byte that stands for itself. *)
Lemma unescaped_plain c : query_unescaped c = true → c ≠ "%" ∧ c ≠ "+" ∧ c ≠ ";".
Proof.
  intros Hc. assert (implb (query_unescaped c) (bool_decide (c ≠ "%" ∧ c ≠ "+" ∧ c ≠ ";")) = true) as E
    by (clear Hc; revert c; apply byte_all; by vm_compute).
  rewrite Hc in E. by apply bool_decide_eq_true in E.
Qed.

Lemma unescape_byte c l : query_unescape (escape_byte c ++ l) = cons c <$> query_unescape l.
Proof.
  unfold escape_byte. destruct (query_unescaped c) eqn:Ec; [|case_decide as Esp].
  - apply unescaped_plain in Ec as (? & ? & ?). cbn [app query_unescape]. by rewrite !decide_False by done.
  - by subst c.
  - unfold percent. cbn [app query_unescape]. rewrite decide_True by done. by rewrite unhex_percent.
Qed.

Lemma unescape_escape l : query_unescape (query_escape l) = Some l.
Proof.
  induction l as [|c l IH]; [done|]. unfold query_escape in *. rewrite bind_cons, unescape_byte. by rewrite IH.
Qed.

Lemma parsable_byte c l : parsable (escape_byte c ++ l) = parsable l.
Proof.
  unfold escape_byte. destruct (query_unescaped c) eqn:Ec; [|case_decide as Esp].
  - apply unescaped_plain in Ec as (? & ? & ?). cbn [app parsable]. by rewrite !decide_False by done.
  - by subst c.
  - unfold percent. cbn [app parsable]. rewrite decide_False, decide_True by done.
    pose proof (unhex_percent c) as E. unfold unhex in E. unfold ishex.
    destruct (hex_digit _); [|done]. by destruct (hex_digit _).
Qed.

Lemma parsable_escape w l : parsable (query_escape w ++ l) = parsable l.
Proof.
  induction w as [|c w IH]; [done|]. unfold query_escape in *. by rewrite bind_cons, <-app_assoc, parsable_byte.
Qed.

(** ** Encoding *)

Lemma cut_app sep w l : sep ∉ w → cut sep (w ++ sep :: l) = (w, l).
Proof.
  induction w as [|c w IH]; cbn [app cut]; intros Hn; [by rewrite decide_True|].
  apply not_elem_of_cons in Hn as [??]. by rewrite decide_False, IH by done.
Qed.

Lemma encode_param_class kv x : x ∈ encode_param kv → x ≠ "&" ∧ x ≠ ";".
Proof.
  unfold encode_param. rewrite elem_of_app, elem_of_cons.
  intros [Hx%query_escape_class|[->|Hx%query_escape_class]]; [|done|]; unfold separators in Hx; set_solver.
Qed.

Lemma parse_encode_param kv : parse_param (encode_param kv) = Some kv.
Proof.
  unfold parse_param. rewrite decide_False.
  - unfold encode_param. rewrite cut_app; [|intros Hx%query_escape_class; unfold separators in Hx; set_solver].
    rewrite !unescape_escape. simpl. rewrite !str_bytes. by destruct kv.
  - intros [Hx|Hx]; [by apply encode_param_class in Hx as [_ []]|]. unfold encode_param in Hx. by destruct (query_escape _).
Qed.

Lemma split_on_join_on sep ws : ws ≠ [] → (∀ w, w ∈ ws → sep ∉ w) → split_on sep (join_on sep ws) = ws.
Proof.
  induction ws as [|w [|w' ws] IH]; intros Hne Hw; [done|by apply split_on_id, Hw; left|].
  cbn [join_on]. rewrite split_on_app by by apply Hw; left. f_equal. apply IH; [done|]. intros v Hv. apply Hw. by right.
Qed.

Lemma params_encode kvs : kvs ≠ [] → params (str (join_on "&" (encode_param <$> kvs))) = encode_param <$> kvs.
Proof.
  intros Hne. unfold params. rewrite bytes_str. apply split_on_join_on; [by destruct kvs|].
  intros w (kv & -> & _)%list_elem_of_fmap Hx. by apply encode_param_class in Hx as [? _].
Qed.

Lemma parsable_encode kvs : parsable (join_on "&" (encode_param <$> kvs)) = true.
Proof.
  induction kvs as [|kv [|kv' kvs] IH]; [done|..]; cbn [fmap list_fmap join_on] in *; unfold encode_param at 1.
  - rewrite parsable_escape. cbn [parsable]. rewrite !decide_False by done.
    rewrite <-(app_nil_r (query_escape (bytes kv.2))). by rewrite parsable_escape.
  - rewrite <-app_assoc, parsable_escape. cbn [app parsable]. rewrite !decide_False by done.
    rewrite parsable_escape. cbn [parsable]. by rewrite !decide_False by done.
Qed.

(** ** Reading back what was written *)

Lemma add_values_lookup kvs m k :
  foldl add_value m kvs !! k =
  match (filter (λ kv, kv.1 = k) kvs).*2 with [] => m !! k | vs => Some (default [] (m !! k) ++ vs) end.
Proof.
  revert m. induction kvs as [|[k' v] kvs IH]; intros m; [done|]. cbn [foldl]. rewrite IH.
  unfold add_value. cbn [fst snd]. rewrite filter_cons. cbn [fst]. destruct (decide (k' = k)) as [->|Hne].
  - rewrite lookup_insert_eq. cbn [default fmap list_fmap snd]. destruct ((filter _ kvs).*2); [done|].
    cbn [fmap option_fmap option_map default]. destruct (m !! k); cbn; by rewrite <-?app_assoc.
  - by rewrite lookup_insert_ne by done.
Qed.

Definition nonempty_values (m : Values) : Prop := map_Forall (λ _ vs, vs ≠ []) m.

Lemma add_values_nonempty kvs : nonempty_values (foldl add_value ∅ kvs).
Proof.
  intros k vs. rewrite add_values_lookup, lookup_empty. destruct (_.*2); [done|]. intros [= <-]. done.
Qed.

Lemma pairs_of_filter l k vs : NoDup l.*1 → (k, vs) ∈ l → (filter (λ kv, kv.1 = k) (pairs_of l)).*2 = vs.
Proof.
  assert (∀ k' ws, (filter (λ kv : string * string, kv.1 = k) (pair k' <$> ws)).*2 = if decide (k' = k) then ws else []) as Hone.
  { intros k' ws. induction ws as [|w ws IH]; [by case_decide|]. rewrite fmap_cons, filter_cons. cbn [fst].
    destruct (decide (k' = k)); [|done]. rewrite fmap_cons. cbn [snd]. by f_equal. }
  unfold pairs_of. induction l as [|[k' ws] l IH]; [by intros _ ?%not_elem_of_nil|].
  rewrite bind_cons, filter_app, fmap_app, Hone. cbn [fst snd]. rewrite fmap_cons. cbn [fst].
  intros [Hk' Hnd]%NoDup_cons [[= <- <-]|Hin]%elem_of_cons.
  - rewrite decide_True by done. rewrite <-(app_nil_r vs) at 2. f_equal.
    destruct (filter _ (l ≫= _)) as [|[k1 v1] rest] eqn:Ef; [done|].
    assert ((k1, v1) ∈ filter (λ kv : string * string, kv.1 = k) (l ≫= (λ kvs, pair kvs.1 <$> kvs.2))) as Hx
      by (rewrite Ef; left).
    apply list_elem_of_filter in Hx as [Ek (kvs & Hkv & Hl)%list_elem_of_bind]. simpl in Ek. subst k1.
    apply list_elem_of_fmap in Hkv as (v & [= -> _] & _). destruct Hk'. apply list_elem_of_fmap. by exists kvs.
  - rewrite decide_False; [by apply IH|]. intros ->. apply Hk', list_elem_of_fmap. by exists (k, vs).
Qed.

Lemma sorted_values_perm m : sorted_values m ≡ₚ map_to_list m.
Proof. apply merge_sort_Permutation. Qed.

Lemma add_pairs m : nonempty_values m → foldl add_value ∅ (pairs_of (sorted_values m)) = m.
Proof.
  intros Hm. apply map_eq. intros k. rewrite add_values_lookup, lookup_empty.
  assert (NoDup (sorted_values m).*1) as Hnd by (rewrite sorted_values_perm; apply NoDup_fst_map_to_list).
  destruct (m !! k) as [vs|] eqn:Ek.
  - rewrite (pairs_of_filter _ k vs); [|done|by rewrite sorted_values_perm; apply elem_of_map_to_list].
    specialize (Hm _ _ Ek). by destruct vs.
  - destruct (filter _ _) as [|[k1 v1] rest] eqn:Ef; [done|].
    assert ((k1, v1) ∈ filter (λ kv : string * string, kv.1 = k) (pairs_of (sorted_values m))) as Hx by (rewrite Ef; left).
    apply list_elem_of_filter in Hx as [E (kvs & Hkv & Hl)%list_elem_of_bind]. simpl in E. subst k1.
    apply list_elem_of_fmap in Hkv as (v & [= -> _] & _). rewrite sorted_values_perm in Hl. destruct kvs as [k' ws].
    apply elem_of_map_to_list in Hl. simpl in Ek. congruence.
Qed.

Lemma length_omap_le {A B} (f : A → option B) l : length (omap f l) ≤ length l.
Proof. induction l as [|x l IH]; [done|]. cbn [omap list_omap]. destruct (f x); cbn [length]; lia. Qed.

(** No more parameters are written than were read. *)
Lemma total_values m kvs : m = foldl add_value ∅ kvs → length (pairs_of (sorted_values m)) = length kvs.
Proof.
  intros ->. assert (∀ m1 m2 : list (string * list string), m1 ≡ₚ m2 → length (pairs_of m1) = length (pairs_of m2)) as Hp.
  { intros m1 m2 HP. unfold pairs_of. by rewrite HP. }
  rewrite (Hp _ _ (sorted_values_perm _)). clear Hp.
  induction kvs as [|kv kvs IH] using rev_ind; [by vm_compute|]. rewrite foldl_snoc, length_app, <-IH. cbn [length].
  set (m := foldl _ _ _). unfold add_value. unfold pairs_of. destruct (m !! kv.1) as [vs|] eqn:Ek; cbn [default].
  - rewrite <-(insert_delete_id m kv.1 vs Ek) at 2. rewrite <-insert_delete_eq.
    rewrite !map_to_list_insert by apply lookup_delete_eq. rewrite !bind_cons, !length_app, !length_fmap. cbn [fst snd].
    rewrite length_app. cbn [length]. unfold id. lia.
  - rewrite map_to_list_insert by done. rewrite bind_cons, length_app. cbn. lia.
Qed.

(** ** What the reverse proxy makes of a query

    The result can be parsed and has the parameters that could be read in the
    query; a query that can be parsed stays as it is. *)
Lemma cleanQueryParams_parsable s : parsable (bytes (cleanQueryParams s)) = true.
Proof.
  unfold cleanQueryParams. destruct (parsable (bytes s)) eqn:E; [done|].
  unfold Encode. rewrite bytes_str. apply parsable_encode.
Qed.

Lemma cleanQueryParams_id s : parsable (bytes s) = true → cleanQueryParams s = s.
Proof. unfold cleanQueryParams. by intros ->. Qed.

Lemma ParseQuery_Encode s : few_params s → ParseQuery (Encode (ParseQuery s)) = ParseQuery s.
Proof.
  intros Hs. assert (nonempty_values (ParseQuery s)) as Hne
    by (unfold ParseQuery; rewrite decide_True by done; apply add_values_nonempty).
  assert (Z.of_nat (length (pairs_of (sorted_values (ParseQuery s)))) ≤ 10000)%Z as Hlen.
  { rewrite (total_values _ (omap parse_param (params s))) by (unfold ParseQuery; by rewrite decide_True).
    unfold few_params in Hs. pose proof (length_omap_le parse_param (params s)). lia. }
  revert Hne Hlen. generalize (ParseQuery s). clear s Hs. intros m Hne Hlen.
  pose proof (add_pairs m Hne) as Hadd. unfold Encode. revert Hadd Hlen.
  generalize (pairs_of (sorted_values m)). intros kvs Hadd Hlen. unfold ParseQuery.
  destruct (decide (kvs = [])) as [->|Hk]; [by rewrite <-Hadd; vm_compute|].
  rewrite decide_True by (unfold few_params; by rewrite (params_encode kvs Hk), length_fmap).
  rewrite (params_encode kvs Hk), <-Hadd. f_equal.
  clear. induction kvs as [|kv kvs IH]; [done|]. rewrite fmap_cons. cbn [omap list_omap]. rewrite parse_encode_param. by f_equal.
Qed.

Lemma ParseQuery_clean s : few_params s → ParseQuery (cleanQueryParams s) = ParseQuery s.
Proof. intros Hs. unfold cleanQueryParams. destruct (parsable _); [done|]. by apply ParseQuery_Encode. Qed.

(** ** The query of the outbound request

    The library has a limit on the number of parameters it parses; what
    becomes of a query beyond it differs between its releases and is left
    open. *)
Definition outbound_query (q q' : string) : Prop := few_params q → q' = cleanQueryParams q.

(** What the backend finds: the cleaned query, with the same parameters, and
    the very same query when all of it can be parsed. *)
Definition query_kept (q q' : string) : Prop :=
  few_params q →
  q' = cleanQueryParams q ∧ ParseQuery q' = ParseQuery q ∧ parsable (bytes q') = true ∧
  (parsable (bytes q) = true → q' = q).

Lemma outbound_query_kept q q' : outbound_query q q' → query_kept q q'.
Proof.
  intros Hq Hf. rewrite (Hq Hf). auto using ParseQuery_clean, cleanQueryParams_parsable, cleanQueryParams_id.
Qed.

#[export] Hint Resolve outbound_query_kept : devmesh.
