(* ===== verification/GoTime.v ===== *)
(** * Package time: durations as text

    [time.ParseDuration] and [time.Duration.String] as the Go library defines
    them.  A fraction is scaled in binary64 arithmetic, here that of the
    Standard Library's [SpecFloat]. *)

From S2P Require Import Prelude GoStrings.
From Stdlib Require Import Ascii SpecFloat DecimalString.
From Stdlib Require DecimalPos DecimalZ.
Local Open Scope Z_scope.
Local Open Scope char_scope.

(** ** float64 *)

Definition float64 (z : Z) : spec_float := binary_normalize 53 1024 z 0 false.

(** [uint64(f)] of a finite, non-negative float: truncation. *)
Definition to_uint64 (f : spec_float) : Z :=
  match f with
  | S754_finite _ m e => if decide (0 ≤ e) then Z.pos m * 2 ^ e else Z.pos m / 2 ^ (- e)
  | _ => 0
  end.

(** ** ParseDuration *)

(** [leadingInt]: [None] is an overflow. *)
Fixpoint leadingInt (x : Z) (l : list ascii) : option (Z * list ascii) :=
  match l with
  | c :: l' =>
    if is_digit c then
      if decide (2 ^ 63 / 10 < x) then None
      else
        let x := x * 10 + (Z.of_nat (nat_of_ascii c) - 48) in
        if decide (2 ^ 63 < x) then None else leadingInt x l'
    else Some (x, l)
  | [] => Some (x, [])
  end.

(** [leadingFraction]: digits that no longer fit are skipped. *)
Fixpoint leadingFraction (x : Z) (scale : spec_float) (overflow : bool) (l : list ascii) :
  Z * spec_float * list ascii :=
  match l with
  | c :: l' =>
    if is_digit c then
      if overflow then leadingFraction x scale true l'
      else if decide ((2 ^ 63 - 1) / 10 < x) then leadingFraction x scale true l'
      else
        let y := x * 10 + (Z.of_nat (nat_of_ascii c) - 48) in
        if decide (2 ^ 63 < y) then leadingFraction x scale true l'
        else leadingFraction y (SFmul 53 1024 scale (float64 10)) false l'
    else (x, scale, l)
  | [] => (x, scale, [])
  end.

Definition unitMap (u : list ascii) : option Z :=
  if decide (u = bytes "ns") then Some 1
  else if decide (u = bytes "us" ∨ u = "194" :: "181" :: bytes "s" ∨ u = "206" :: "188" :: bytes "s")
  then Some 1000
  else if decide (u = bytes "ms") then Some Millisecond
  else if decide (u = bytes "s") then Some Second
  else if decide (u = bytes "m") then Some Minute
  else if decide (u = bytes "h") then Some Hour
  else None.

(** The unit: everything up to the next dot or digit. *)
Fixpoint take_unit (l : list ascii) : list ascii * list ascii :=
  match l with
  | c :: l' =>
    if is_digit c || bool_decide (c = ".") then ([], l)
    else let '(u, rest) := take_unit l' in (c :: u, rest)
  | [] => ([], [])
  end.

(** The number before a unit: its integer part, its fraction and the scale of that. *)
Definition parse_quantity (l : list ascii) : option (Z * Z * spec_float * list ascii) :=
  match leadingInt 0 l with
  | None => None
  | Some (v, l1) =>
    let pre := bool_decide (length l1 ≠ length l) in
    if decide (head l1 = Some ".") then
      let l2 := tail l1 in
      let '(f, scale, l3) := leadingFraction 0 (float64 1) false l2 in
      if negb pre && bool_decide (length l3 = length l2) then None else Some (v, f, scale, l3)
    else if pre then Some (v, 0, float64 1, l1) else None
  end.

(** One quantity with its unit, in nanoseconds. *)
Definition parse_group (l : list ascii) : option (Z * list ascii) :=
  match parse_quantity l with
  | None => None
  | Some (v, f, scale, l1) =>
    match take_unit l1 with
    | ([], _) => None
    | (u, rest) =>
      match unitMap u with
      | None => None
      | Some unit_ =>
        if decide (2 ^ 63 / unit_ < v) then None
        else
          let v := v * unit_ in
          let v := if decide (0 < f)
                   then v + to_uint64 (SFmul 53 1024 (float64 f) (SFdiv 53 1024 (float64 unit_) scale))
                   else v in
          if decide (2 ^ 63 < v) then None else Some (v, rest)
      end
    end
  end.

Fixpoint parse_groups (fuel : nat) (d : Z) (l : list ascii) : option Z :=
  match fuel, l with
  | _, [] => Some d
  | O, _ => None
  | S fuel, _ =>
    match parse_group l with
    | None => None
    | Some (v, rest) => if decide (2 ^ 63 < d + v) then None else parse_groups fuel (d + v) rest
    end
  end.

Definition duration_sign (l : list ascii) : bool * list ascii :=
  match l with
  | c :: l' => if decide (c = "-" ∨ c = "+") then (bool_decide (c = "-"), l') else (false, l)
  | [] => (false, [])
  end.

(** [ParseDuration]; [None] is an error. *)
Definition ParseDuration (s : string) : option Z :=
  let '(neg, l) := duration_sign (bytes s) in
  if decide (l = ["0"]) then Some 0
  else if decide (l = []) then None
  else match parse_groups (length l) 0 l with
       | None => None
       | Some d => if neg then Some (- d) else if decide (2 ^ 63 - 1 < d) then None else Some d
       end.

(** ** Duration.String *)

(** [fmtFrac]: the last [prec] digits of [u], without trailing zeros. *)
Fixpoint fmt_frac (prec : nat) (u : Z) (acc : list ascii) (print : bool) : list ascii * Z :=
  match prec with
  | O => (if print then "." :: acc else acc, u)
  | S prec =>
    let digit := u mod 10 in
    let print := print || bool_decide (digit ≠ 0) in
    fmt_frac prec (u / 10) (if print then ascii_of_nat (48 + Z.to_nat digit) :: acc else acc) print
  end.

Definition fmt_units (u : Z) : list ascii :=
  if decide (u < Second) then
    if decide (u = 0) then bytes "0s"
    else
      let '(prec, unit_) :=
        if decide (u < 1000) then (0%nat, bytes "ns")
        else if decide (u < Millisecond) then (3%nat, "194" :: "181" :: bytes "s")
        else (6%nat, bytes "ms") in
      let '(frac, u) := fmt_frac prec u [] false in bytes (Itoa u) ++ frac ++ unit_
  else
    let '(frac, u) := fmt_frac 9 u [] false in
    let secs := bytes (Itoa (u mod 60)) ++ frac ++ bytes "s" in
    let u := u / 60 in
    if decide (0 < u) then
      let mins := bytes (Itoa (u mod 60)) ++ bytes "m" ++ secs in
      let u := u / 60 in
      if decide (0 < u) then bytes (Itoa u) ++ bytes "h" ++ mins else mins
    else secs.

(** [Duration.String]. *)
Definition Duration_String (d : Z) : string :=
  str (if decide (d < 0) then "-" :: fmt_units (- d) else fmt_units d).

(** Examples of the package's documentation and tests. *)
Example duration_examples :
  ParseDuration "1.5h" = Some (5400 * Second) ∧ ParseDuration "-1.5h" = Some (- 5400 * Second) ∧
  ParseDuration "1h15m30.918273645s" = Some (4530918273645) ∧ ParseDuration "0" = Some 0 ∧
  ParseDuration "100ms" = Some (100 * Millisecond) ∧ ParseDuration ".5s" = Some (500 * Millisecond) ∧
  ParseDuration "" = None ∧ ParseDuration "3" = None ∧ ParseDuration "." = None ∧ ParseDuration ".s" = None ∧
  ParseDuration "3000000h" = None ∧ ParseDuration "9223372036854775808ns" = None ∧
  ParseDuration "-9223372036854775808ns" = Some (- 2 ^ 63) ∧
  ParseDuration "0.3333333333333333333h" = Some 1200000000000 ∧
  ParseDuration "0.100000000000000000000h" = Some 360000000000 ∧
  Duration_String (15 * Second) = "15s"%string ∧ Duration_String (2 * Hour) = "2h0m0s"%string ∧
  Duration_String 1100000 = "1.1ms"%string ∧ Duration_String 2200000000 = "2.2s"%string ∧
  Duration_String 480001000000 = "8m0.001s"%string.
Proof. vm_compute. done. Qed.

(** ** Numbers in front of units *)

(** The value of more digits after [x]. *)
Fixpoint uval (x : Z) (d : Decimal.uint) : Z :=
  match d with
  | Decimal.Nil => x
  | Decimal.D0 d => uval (x * 10 + 0) d
  | Decimal.D1 d => uval (x * 10 + 1) d
  | Decimal.D2 d => uval (x * 10 + 2) d
  | Decimal.D3 d => uval (x * 10 + 3) d
  | Decimal.D4 d => uval (x * 10 + 4) d
  | Decimal.D5 d => uval (x * 10 + 5) d
  | Decimal.D6 d => uval (x * 10 + 6) d
  | Decimal.D7 d => uval (x * 10 + 7) d
  | Decimal.D8 d => uval (x * 10 + 8) d
  | Decimal.D9 d => uval (x * 10 + 9) d
  end.

Lemma uval_acc d p : Z.pos (Pos.of_uint_acc d p) = uval (Z.pos p) d.
Proof. revert p. induction d; intros p; cbn [Pos.of_uint_acc uval]; [done|..]; rewrite IHd; f_equal; lia. Qed.

Lemma uval_of_uint d : uval 0 d = Z.of_uint d.
Proof.
  unfold Z.of_uint. induction d; cbn [Pos.of_uint uval]; try done; simpl; rewrite uval_acc; done.
Qed.

Lemma uval_ge d x : 0 ≤ x → x ≤ uval x d.
Proof.
  revert x. induction d; intros x Hx; cbn [uval]; [lia|..];
    (etransitivity; [|apply IHd; lia]); lia.
Qed.

(** Not a digit, so the end of a number. *)
Definition ends_number (l : list ascii) : Prop :=
  match l with c :: _ => is_digit c = false | [] => True end.

Lemma leadingInt_end x l : ends_number l → leadingInt x l = Some (x, l).
Proof. destruct l as [|c l]; [done|]. simpl. by intros ->. Qed.

Lemma leadingInt_uint d x l : 0 ≤ x ≤ 2 ^ 63 → ends_number l →
  leadingInt x (bytes (NilEmpty.string_of_uint d) ++ l) =
  if decide (uval x d ≤ 2 ^ 63) then Some (uval x d, l) else None.
Proof.
  revert x. induction d; intros x Hx Hl; cbn [NilEmpty.string_of_uint String.list_ascii_of_string app uval].
  { rewrite leadingInt_end, decide_True by (done || lia). done. }
  all: cbn [leadingInt]; match goal with |- context [is_digit ?c] => change (is_digit c) with true end;
    cbv iota zeta; match goal with |- context [nat_of_ascii ?c] =>
      let v := eval vm_compute in (Z.of_nat (nat_of_ascii c) - 48) in
      change (Z.of_nat (nat_of_ascii c) - 48) with v end;
    match goal with |- context [uval ?y _] => set (x' := y) end;
    pose proof (uval_ge d x' ltac:(lia)) as Hge;
    change (2 ^ 63 / 10) with 922337203685477580; change (2 ^ 63) with 9223372036854775808 in *;
    (destruct (decide (922337203685477580 < x)); [rewrite decide_False; [done|lia]|]);
    (destruct (decide (9223372036854775808 < x')); [rewrite decide_False; [done|lia]|]);
    apply IHd; [lia|done].
Qed.

Lemma Itoa_uint n : 0 ≤ n → ∃ d, bytes (Itoa n) = bytes (NilEmpty.string_of_uint d) ∧ uval 0 d = n ∧ d ≠ Decimal.Nil.
Proof.
  intros Hn. destruct n as [|p|p]; [by exists (Decimal.D0 Decimal.Nil)| |lia].
  exists (Pos.to_uint p). pose proof (DecimalPos.Unsigned.to_uint_nonnil p) as Hnil. split_and!; [|..|done].
  - unfold Itoa, Z.to_int, NilZero.string_of_int, NilZero.string_of_uint. by destruct (Pos.to_uint p).
  - rewrite uval_of_uint. unfold Z.of_uint. by rewrite DecimalPos.Unsigned.of_to.
Qed.

Lemma parse_quantity_Itoa n l : 0 ≤ n → ends_number l → head l ≠ Some "." →
  parse_quantity (bytes (Itoa n) ++ l) = if decide (n ≤ 2 ^ 63) then Some (n, 0, float64 1, l) else None.
Proof.
  intros Hn Hend Hdot. destruct (Itoa_uint n Hn) as (d & Eb & Ev & Hnil). rewrite Eb.
  unfold parse_quantity. rewrite leadingInt_uint by (done || lia). rewrite Ev.
  case_decide; [|done]. rewrite decide_False by done. rewrite bool_decide_true; [done|].
  rewrite length_app. destruct d; [done|..]; simpl; lia.
Qed.

Lemma take_unit_app u rest : Forall (λ c, is_digit c || bool_decide (c = ".") = false) u →
  match rest with c :: _ => is_digit c = true | [] => True end → take_unit (u ++ rest) = (u, rest).
Proof.
  intros Hunit Hrest. induction Hunit as [|c u Hc _ IH]; simpl.
  - destruct rest as [|c rest]; [done|]. simpl. by rewrite Hrest.
  - by rewrite Hc, IH.
Qed.

(** A whole number of units. *)
Lemma parse_group_Itoa n u unit_ rest :
  0 ≤ n → unitMap u = Some unit_ → 0 < unit_ → Forall (λ c, is_digit c || bool_decide (c = ".") = false) u →
  match rest with c :: _ => is_digit c = true | [] => True end →
  parse_group (bytes (Itoa n) ++ u ++ rest) =
  if decide (n ≤ 2 ^ 63 / unit_) then Some (n * unit_, rest) else None.
Proof.
  intros Hn Hu Hpos Hunit Hrest. unfold parse_group.
  destruct u as [|c u]; [done|]. pose proof Hunit as [[Hd Hc]%orb_false_iff _]%Forall_cons.
  apply bool_decide_eq_false in Hc.
  rewrite parse_quantity_Itoa by (done || (simpl; congruence)).
  pose proof (Z.mul_div_le (2 ^ 63) unit_ Hpos) as Hle.
  assert (2 ^ 63 / unit_ ≤ 2 ^ 63) by (apply Z.div_le_upper_bound; nia).
  destruct (decide (n ≤ 2 ^ 63 / unit_)) as [Hfit|Hfit].
  - rewrite decide_True by lia. rewrite take_unit_app, Hu, decide_False by (done || lia).
    cbv zeta. rewrite (decide_False (P := 0 < 0)) by lia. rewrite decide_False by nia. done.
  - destruct (decide (n ≤ 2 ^ 63)); [|done]. rewrite take_unit_app, Hu, decide_True by (done || lia). done.
Qed.

(** Text that starts with a digit and is more than a zero. *)
Lemma ParseDuration_groups c l : is_digit c = true → c :: l ≠ ["0"] →
  ParseDuration (str (c :: l)) =
  match parse_groups (S (length l)) 0 (c :: l) with
  | Some d => if decide (2 ^ 63 - 1 < d) then None else Some d
  | None => None
  end.
Proof.
  intros Hc H0. unfold ParseDuration. rewrite bytes_str. unfold duration_sign.
  rewrite decide_False by (intros [-> | ->]; done). by rewrite !decide_False.
Qed.

Lemma parse_groups_nil fuel d : parse_groups fuel d [] = Some d.
Proof. by destruct fuel. Qed.

Lemma parse_groups_Itoa fuel d n u unit_ rest :
  0 ≤ n → unitMap u = Some unit_ → 0 < unit_ → Forall (λ c, is_digit c || bool_decide (c = ".") = false) u →
  match rest with c :: _ => is_digit c = true | [] => True end → (0 < fuel)%nat → 0 ≤ d →
  parse_groups fuel d (bytes (Itoa n) ++ u ++ rest) =
  if decide (n ≤ 2 ^ 63 / unit_) then
    if decide (d + n * unit_ ≤ 2 ^ 63) then parse_groups (pred fuel) (d + n * unit_) rest else None
  else None.
Proof.
  intros Hn Hu Hpos Hunit Hrest Hf Hd. destruct fuel as [|fuel]; [lia|].
  pose proof (parse_group_Itoa n u unit_ rest Hn Hu Hpos Hunit Hrest) as Hg.
  destruct (bytes (Itoa n) ++ u ++ rest) as [|c l] eqn:E.
  { apply app_nil in E as [E _]. apply bytes_nil in E. by apply Itoa_digits in E. }
  cbn [parse_groups]. rewrite Hg. case_decide; [|done]. simpl.
  destruct (decide (2 ^ 63 < d + n * unit_)); [by rewrite decide_False by lia|by rewrite decide_True by lia].
Qed.

Ltac solve_unit := apply (bool_decide_unpack (Forall _ _)); done.

(** The digits of a number, and its first one. *)
Lemma Itoa_head n : 0 ≤ n → ∃ c l, bytes (Itoa n) = c :: l ∧ is_digit c = true.
Proof.
  intros Hn. destruct (Itoa_digits n Hn) as [Hd Hne]. destruct (bytes (Itoa n)) as [|c l] eqn:E.
  - by apply bytes_nil in E.
  - apply Forall_cons in Hd as [? _]. eauto.
Qed.

(** A number of seconds parses to that duration, while it fits. *)
Theorem ParseDuration_seconds n : 0 ≤ n →
  ParseDuration (Itoa n +:+ "s") = if decide (n ≤ 9223372036) then Some (n * Second) else None.
Proof.
  intros Hn. destruct (Itoa_head n Hn) as (c & l & E & Hc).
  assert (Itoa n +:+ "s" = str (c :: l ++ bytes "s")) as Es.
  { apply bytes_inj. by rewrite bytes_app, bytes_str, E. }
  rewrite Es, ParseDuration_groups; [|done|by destruct l].
  change (c :: l ++ bytes "s") with ((c :: l) ++ bytes "s" ++ []). rewrite <-E.
  rewrite (parse_groups_Itoa _ _ _ _ Second) by (done || lia || solve_unit).
  change (2 ^ 63 / Second) with 9223372036. case_decide; [|done].
  change Second with 1000000000. rewrite decide_True by lia. rewrite parse_groups_nil, decide_False by lia. done.
Qed.

(** Whole seconds have no fraction. *)
Lemma fmt_frac_whole prec m : 0 ≤ m → fmt_frac prec (m * 10 ^ Z.of_nat prec) [] false = ([], m).
Proof.
  intros Hm. induction prec as [|prec IH]; [simpl; f_equal; lia|].
  cbn [fmt_frac]. replace (m * 10 ^ Z.of_nat (S prec)) with (m * 10 ^ Z.of_nat prec * 10)
    by (rewrite Nat2Z.inj_succ, Z.pow_succ_r; lia).
  rewrite Z.mod_mul, Z.div_mul by lia. exact IH.
Qed.

Lemma ParseDuration_Itoa a l : 0 ≤ a → l ≠ [] →
  ParseDuration (str (bytes (Itoa a) ++ l)) =
  match parse_groups (length (bytes (Itoa a) ++ l)) 0 (bytes (Itoa a) ++ l) with
  | Some d => if decide (2 ^ 63 - 1 < d) then None else Some d
  | None => None
  end.
Proof.
  intros Ha Hl. destruct (Itoa_head a Ha) as (c & r & E & Hc). rewrite E.
  apply (ParseDuration_groups c (r ++ l)); [done|]. by destruct r, l.
Qed.

Lemma Itoa_length a : 0 ≤ a → (0 < length (bytes (Itoa a)))%nat.
Proof. intros Ha. destruct (Itoa_head a Ha) as (c & r & -> & _). simpl. lia. Qed.

Lemma Itoa_rest a l : 0 ≤ a → match bytes (Itoa a) ++ l with c :: _ => is_digit c = true | [] => True end.
Proof. intros Ha. by destruct (Itoa_head a Ha) as (c & r & -> & Hc). Qed.

(** Seconds, the last group. *)
Lemma parse_secs fuel d a : 0 ≤ a → 0 ≤ d → (0 < fuel)%nat → d + a * Second ≤ 2 ^ 63 →
  parse_groups fuel d (bytes (Itoa a) ++ bytes "s") = Some (d + a * Second).
Proof.
  intros Ha Hd Hf Hle. rewrite <-(app_nil_r (bytes "s")).
  rewrite (parse_groups_Itoa _ _ _ _ Second) by (done || lia || solve_unit).
  rewrite decide_True; [|apply Z.div_le_lower_bound; change Second with 1000000000 in *; lia].
  by rewrite decide_True, parse_groups_nil.
Qed.

Lemma parse_mins fuel d a b : 0 ≤ a → 0 ≤ b → 0 ≤ d → (1 < fuel)%nat → d + a * Minute + b * Second ≤ 2 ^ 63 →
  parse_groups fuel d (bytes (Itoa a) ++ bytes "m" ++ bytes (Itoa b) ++ bytes "s") = Some (d + a * Minute + b * Second).
Proof.
  intros Ha Hb Hd Hf Hle. change Minute with 60000000000 in *. change Second with 1000000000 in *.
  rewrite (parse_groups_Itoa _ _ _ _ Minute) by (done || lia || solve_unit || by apply Itoa_rest).
  rewrite decide_True; [|apply Z.div_le_lower_bound; change Minute with 60000000000; lia].
  change Minute with 60000000000. rewrite decide_True by lia. apply parse_secs; try lia.
  change Second with 1000000000. lia.
Qed.

Lemma parse_hours fuel a b c : 0 ≤ a → 0 ≤ b → 0 ≤ c → (2 < fuel)%nat →
  a * Hour + b * Minute + c * Second ≤ 2 ^ 63 →
  parse_groups fuel 0 (bytes (Itoa a) ++ bytes "h" ++ bytes (Itoa b) ++ bytes "m" ++ bytes (Itoa c) ++ bytes "s") =
  Some (a * Hour + b * Minute + c * Second).
Proof.
  intros Ha Hb Hc Hf Hle. change Hour with 3600000000000 in *.
  change Minute with 60000000000 in *. change Second with 1000000000 in *.
  rewrite (parse_groups_Itoa _ _ _ _ Hour) by (done || lia || solve_unit || by apply Itoa_rest).
  rewrite decide_True; [|apply Z.div_le_lower_bound; change Hour with 3600000000000; lia].
  change Hour with 3600000000000. rewrite decide_True by lia. apply parse_mins; try lia.
  change Second with 1000000000. change Minute with 60000000000. lia.
Qed.

(** What [String] prints of whole seconds parses back. *)
Theorem ParseDuration_String n : 0 ≤ n ≤ 9223372036 →
  ParseDuration (Duration_String (n * Second)) = Some (n * Second).
Proof.
  intros Hn. unfold Duration_String, fmt_units. change Second with 1000000000 in *.
  rewrite (decide_False (P := n * 1000000000 < 0)) by lia.
  destruct (decide (n = 0)) as [->|Hn0]; [done|].
  rewrite (decide_False (P := n * 1000000000 < 1000000000)) by lia.
  change 1000000000 with (10 ^ Z.of_nat 9) at 1. rewrite fmt_frac_whole by lia. cbn [app].
  pose proof (Z.div_mod n 60 ltac:(lia)) as E1. pose proof (Z.mod_pos_bound n 60 ltac:(lia)).
  pose proof (Z.div_mod (n / 60) 60 ltac:(lia)) as E2. pose proof (Z.mod_pos_bound (n / 60) 60 ltac:(lia)).
  assert (0 ≤ n / 60) by (apply Z.div_pos; lia). assert (0 ≤ n / 60 / 60) by (apply Z.div_pos; lia).
  set (sec := n mod 60) in *. set (q := n / 60) in *. set (mn := q mod 60) in *. set (h := q / 60) in *.
  pose proof (Itoa_length sec ltac:(lia)). pose proof (Itoa_length mn ltac:(lia)).
  pose proof (Itoa_length h ltac:(lia)).
  repeat case_decide; rewrite ParseDuration_Itoa by (lia || done).
  - rewrite parse_hours; rewrite ?length_app; try lia; change Hour with 3600000000000;
      change Minute with 60000000000; change Second with 1000000000; [|lia].
    rewrite decide_False by lia. f_equal. lia.
  - rewrite parse_mins; rewrite ?length_app; try lia; change Minute with 60000000000;
      change Second with 1000000000; [|lia]. rewrite decide_False by lia. f_equal. lia.
  - rewrite parse_secs; rewrite ?length_app; try lia; change Second with 1000000000; [|lia].
    rewrite decide_False by lia. f_equal. lia.
Qed.
