(* ===== verification/GoPath.v ===== *)
(** * path/filepath, on Unix

    [Clean], [Join] and [Dir] of the Go library, on the elements of a path. *)

From S2P Require Import Prelude GoStrings.
From Stdlib Require Import Ascii.
Local Open Scope char_scope.

(** The elements between the slashes. *)
Fixpoint split_path (l : list ascii) : list (list ascii) :=
  match l with
  | [] => [[]]
  | c :: l =>
    if decide (c = "/") then [] :: split_path l
    else match split_path l with
         | s :: ss => (c :: s) :: ss
         | [] => [[c]]
         end
  end.

Fixpoint join_path (segs : list (list ascii)) : list ascii :=
  match segs with
  | [] => []
  | [s] => s
  | s :: segs => s ++ "/" :: join_path segs
  end.

Definition dotdot : list ascii := ["."; "."].

(** One element of [Clean]; [out] holds the elements kept, the last first. *)
Definition clean_step (rooted : bool) (out : list (list ascii)) (s : list ascii) : list (list ascii) :=
  if decide (s = [] ∨ s = ["."]) then out
  else if decide (s = dotdot) then
    match out with
    | t :: out' => if decide (t = dotdot) then s :: out else out'
    | [] => if rooted then [] else [s]
    end
  else s :: out.

Definition clean_elements (rooted : bool) (l : list ascii) : list (list ascii) :=
  reverse (foldl (clean_step rooted) [] (split_path l)).

Definition is_rooted (l : list ascii) : bool := match l with c :: _ => bool_decide (c = "/") | [] => false end.

Definition Clean (path : string) : string :=
  let l := bytes path in
  let rooted := is_rooted l in
  let body := join_path (clean_elements rooted l) in
  str (if rooted then "/" :: body else match body with [] => ["."] | _ => body end).

(** [Join]: the empty elements at the front are skipped. *)
Fixpoint Join (elem : list string) : string :=
  match elem with
  | [] => ""
  | e :: rest => if decide (e = ""%string) then Join rest else Clean (str (join_path (bytes <$> elem)))
  end.

(** [Dir]: what is before the last slash, cleaned. *)
Definition Dir (path : string) : string :=
  let l := bytes path in
  Clean (str (match last_index_byte "/" l with Some i => take (S i) l | None => [] end)).

(** ** Elements that [Clean] keeps *)

Definition plain (s : list ascii) : Prop := s ≠ [] ∧ s ≠ ["."] ∧ s ≠ dotdot ∧ "/" ∉ s.

#[global] Instance plain_dec s : Decision (plain s).
Proof. apply _. Defined.

Lemma split_path_app s l : "/" ∉ s →
  split_path (s ++ "/" :: l) = s :: split_path l.
Proof.
  induction s as [|c s IH]; intros Hs; [done|]. cbn.
  rewrite decide_False by set_solver. by rewrite IH by set_solver.
Qed.

Lemma split_path_one s : "/" ∉ s → split_path s = [s].
Proof.
  induction s as [|c s IH]; intros Hs; [done|]. cbn.
  rewrite decide_False by set_solver. by rewrite IH by set_solver.
Qed.

Lemma split_join_app segs l : segs ≠ [] → Forall (λ s, "/" ∉ s) segs →
  split_path (join_path segs ++ "/" :: l) = segs ++ split_path l.
Proof.
  induction segs as [|s segs IH]; intros Hne Hs; [done|]. apply Forall_cons in Hs as [Hs Hsegs].
  destruct segs as [|s' segs]; [by apply split_path_app|].
  change (join_path (s :: s' :: segs)) with (s ++ "/" :: join_path (s' :: segs)).
  by rewrite <-app_assoc, <-app_comm_cons, split_path_app, IH.
Qed.

Lemma split_join segs : segs ≠ [] → Forall (λ s, "/" ∉ s) segs → split_path (join_path segs) = segs.
Proof.
  induction segs as [|s segs IH]; intros Hne Hs; [done|]. apply Forall_cons in Hs as [Hs Hsegs].
  destruct segs as [|s' segs]; [by apply split_path_one|].
  change (join_path (s :: s' :: segs)) with (s ++ "/" :: join_path (s' :: segs)).
  by rewrite split_path_app, IH.
Qed.

Lemma clean_step_plain rooted out s : plain s → clean_step rooted out s = s :: out.
Proof. intros (? & ? & ? & _). unfold clean_step. rewrite decide_False by (by intros [|]). by rewrite decide_False. Qed.

Lemma foldl_plain rooted out segs : Forall plain segs → foldl (clean_step rooted) out segs = reverse segs ++ out.
Proof.
  revert out. induction segs as [|s segs IH]; intros out Hs; [done|]. apply Forall_cons in Hs as [Hs Hsegs].
  cbn [foldl]. rewrite clean_step_plain, IH by done. by rewrite reverse_cons, <-app_assoc.
Qed.

(** An absolute path, spelled with its elements. *)
Definition abs_path (segs : list (list ascii)) : string := str ("/" :: join_path segs).

Lemma plain_no_slash segs : Forall plain segs → Forall (λ s, "/" ∉ s) segs.
Proof. intros Hs. eapply Forall_impl; [exact Hs|by intros ? (_ & _ & _ & ?)]. Qed.

(** A trailing slash, or none, makes no difference. *)
Lemma Clean_rooted l segs :
  split_path l = segs ∨ split_path l = segs ++ [[]] → Forall plain segs → Clean (str ("/" :: l)) = abs_path segs.
Proof.
  intros Hl Hs. unfold Clean, abs_path, clean_elements. rewrite bytes_str. cbn [is_rooted].
  rewrite bool_decide_true by done. f_equal. f_equal. f_equal.
  change (split_path ("/" :: l)) with ([] :: split_path l).
  cbn [foldl]. unfold clean_step at 2. rewrite decide_True by (by left).
  assert (foldl (clean_step true) [] (split_path l) = reverse segs) as ->; [|apply reverse_involutive].
  destruct Hl as [->| ->]; [|rewrite foldl_app]; rewrite (foldl_plain true [] segs), app_nil_r by done; reflexivity.
Qed.

Lemma Clean_abs segs : segs ≠ [] → Forall plain segs → Clean (abs_path segs) = abs_path segs.
Proof. intros Hne Hs. apply Clean_rooted; [|done]. left. by apply split_join; [|apply plain_no_slash]. Qed.

Lemma join_path_app segs segs' : segs ≠ [] → segs' ≠ [] →
  join_path (segs ++ segs') = join_path segs ++ "/" :: join_path segs'.
Proof.
  induction segs as [|s [|s1 segs] IH]; intros H H'; [done|by destruct segs'|].
  change (join_path ((s :: s1 :: segs) ++ segs')) with (s ++ "/" :: join_path ((s1 :: segs) ++ segs')).
  rewrite IH by done.
  change (join_path (s :: s1 :: segs)) with (s ++ "/" :: join_path (s1 :: segs)). by rewrite <-app_assoc.
Qed.

(** Elements below an absolute directory. *)
Lemma Join_abs segs elem : segs ≠ [] → elem ≠ [] → Forall plain segs → Forall (λ e, plain (bytes e)) elem →
  Join (abs_path segs :: elem) = abs_path (segs ++ (bytes <$> elem)).
Proof.
  intros Hne Hne' Hs He. cbn [Join]. rewrite decide_False by done.
  rewrite <-(Clean_abs (segs ++ (bytes <$> elem)));
    [|by destruct segs|apply Forall_app; split; [done|by apply Forall_fmap]].
  f_equal. unfold abs_path. f_equal.
  rewrite join_path_app; [|done|by destruct elem]. cbn [fmap list_fmap]. rewrite bytes_str.
  by destruct elem.
Qed.

Lemma Dir_abs segs s : segs ≠ [] → Forall plain segs → "/" ∉ s → Dir (abs_path (segs ++ [s])) = abs_path segs.
Proof.
  intros Hne Hs Hsl. unfold Dir, abs_path. rewrite bytes_str.
  rewrite join_path_app by done. change (join_path [s]) with s.
  rewrite app_comm_cons, last_index_byte_app by done.
  rewrite cons_middle, app_assoc, take_app_length'
    by (rewrite length_app; simpl; lia).
  apply Clean_rooted; [|done]. right.
  by rewrite split_join_app; [|done|apply plain_no_slash].
Qed.
