(* ===== verification/Id.v ===== *)
(** * internal/daemon/id.go: identifiers

    [newID] with the clock reading and the random bytes as arguments, and what
    it uses of [strconv], [strings] and [encoding/base32]. *)

From S2P Require Import Prelude GoStrings.
From Stdlib Require Import Ascii.
Local Open Scope Z_scope.

(** ** Positional numbers *)

(** The value of digits, the most significant one first. *)
Fixpoint value (base : Z) (l : list Z) : Z :=
  match l with
  | [] => 0
  | d :: l => d * base ^ Z.of_nat (length l) + value base l
  end.

(** [w] digits of a number. *)
Fixpoint digits (base : Z) (w : nat) (n : Z) : list Z :=
  match w with
  | O => []
  | S w => digits base w (n / base) ++ [n mod base]
  end.

(** As many digits as it takes, at least one; 13 are enough in base 36. *)
Fixpoint format_digits (fuel : nat) (base u : Z) : list Z :=
  match fuel with
  | O => []
  | S fuel => if decide (u < base) then [u] else format_digits fuel base (u / base) ++ [u mod base]
  end.

Definition nth_char (alphabet : string) (d : Z) : ascii :=
  nth (Z.to_nat d) (bytes alphabet) "?"%char.

(** [strconv.FormatInt(n, 36)]. *)
Definition FormatInt36 (n : Z) : list ascii :=
  let chars u := nth_char "0123456789abcdefghijklmnopqrstuvwxyz" <$> format_digits 13 36 u in
  if decide (n < 0) then "-"%char :: chars (- n) else chars n.

(** [strings.ToUpper] of ASCII text. *)
Definition upper_byte (c : ascii) : ascii :=
  if is_lower c then ascii_of_nat (nat_of_ascii c - 32) else c.

(** [base32.StdEncoding.WithPadding(NoPadding)]: five bytes make eight
    characters; [n] bytes at the end make as many as hold their bits. *)
Definition base32_alphabet : string := "ABCDEFGHIJKLMNOPQRSTUVWXYZ234567".

Definition byte_values (l : list ascii) : list Z := (λ c, Z.of_nat (nat_of_ascii c)) <$> l.

Definition encode_block (block : list ascii) : list ascii :=
  let n := length block in
  let w := ((8 * n + 4) / 5)%nat in
  nth_char base32_alphabet <$>
    take w (digits 32 8 (value 256 (byte_values (block ++ replicate (5 - n) Ascii.zero)))).

Fixpoint base32 (l : list ascii) : list ascii :=
  match l with
  | a :: b :: c :: d :: e :: l => encode_block [a; b; c; d; e] ++ base32 l
  | [] => []
  | rest => encode_block rest
  end.

(** [newID], at [now] in milliseconds. *)
Definition newID (now : Z) (buf : list ascii) : string :=
  str ((upper_byte <$> FormatInt36 now) ++ base32 buf).

(** ** Digits *)

Definition is_digit_of (base d : Z) : Prop := 0 ≤ d < base.

Lemma value_snoc base l d : value base (l ++ [d]) = value base l * base + d.
Proof.
  induction l as [|e l IH]; simpl; [lia|]. rewrite IH, length_app; simpl.
  rewrite Nat.add_1_r, Nat2Z.inj_succ, Z.pow_succ_r by lia. ring.
Qed.

Lemma value_bound base l : 0 < base → Forall (is_digit_of base) l → 0 ≤ value base l < base ^ Z.of_nat (length l).
Proof.
  intros Hb Hl. induction Hl as [|d l [Hd1 Hd2] Hl IH]; cbn [value length]; [lia|].
  rewrite Nat2Z.inj_succ, Z.pow_succ_r by lia. nia.
Qed.

Lemma value_digits base w n : 0 < base → 0 ≤ n < base ^ Z.of_nat w → value base (digits base w n) = n.
Proof.
  intros Hb. revert n. induction w as [|w IH]; intros n Hn; cbn [digits]; [simpl in *; lia|].
  rewrite value_snoc, IH.
  - pose proof (Z.div_mod n base ltac:(lia)). lia.
  - rewrite Nat2Z.inj_succ, Z.pow_succ_r in Hn by lia. split; [apply Z.div_pos; lia|].
    apply Z.div_lt_upper_bound; lia.
Qed.

Lemma digits_ok base w n : 0 < base → Forall (is_digit_of base) (digits base w n) ∧ length (digits base w n) = w.
Proof.
  intros Hb. revert n. induction w as [|w IH]; intros n; cbn [digits]; [done|].
  destruct (IH (n / base)) as [Hd Hl]. rewrite Forall_app, length_app, Hl; simpl. split; [|lia].
  split; [done|]. constructor; [|constructor]. apply Z.mod_pos_bound. lia.
Qed.

Lemma format_digits_ok fuel base u : 1 < base → 0 ≤ u < base ^ Z.of_nat fuel → (0 < fuel)%nat →
  value base (format_digits fuel base u) = u ∧ Forall (is_digit_of base) (format_digits fuel base u) ∧
  format_digits fuel base u ≠ [].
Proof.
  intros Hb. revert u. induction fuel as [|fuel IH]; intros u Hu Hf; [lia|]. cbn [format_digits].
  case_decide as Hub.
  - split_and!; [simpl; lia|constructor; [|constructor]; unfold is_digit_of; lia|done].
  - rewrite Nat2Z.inj_succ, Z.pow_succ_r in Hu by lia.
    assert (0 ≤ u / base < base ^ Z.of_nat fuel) as Hq.
    { split; [apply Z.div_pos; lia|]. apply Z.div_lt_upper_bound; lia. }
    assert (0 < fuel)%nat as Hf' by (destruct fuel; [simpl in *; nia|lia]).
    destruct (IH _ Hq Hf') as (Hv & Hd & _). split_and!.
    + rewrite value_snoc, Hv. pose proof (Z.div_mod u base ltac:(lia)). lia.
    + apply Forall_app. split; [done|]. constructor; [|constructor]. apply Z.mod_pos_bound. lia.
    + by destruct (format_digits _ _ _).
Qed.

(** Between two powers of the base the number of digits is fixed. *)
Lemma format_digits_length fuel w base u : 1 < base → (w < fuel)%nat →
  base ^ Z.of_nat w ≤ u < base ^ Z.of_nat (S w) → length (format_digits fuel base u) = S w.
Proof.
  intros Hb. revert w u. induction fuel as [|fuel IH]; intros w u Hw Hu; [lia|]. cbn [format_digits].
  rewrite Nat2Z.inj_succ, Z.pow_succ_r in Hu by lia.
  destruct w as [|w].
  - rewrite decide_True; [done|]. simpl in Hu. lia.
  - assert (base ≤ u).
    { rewrite Nat2Z.inj_succ, Z.pow_succ_r in Hu by lia. pose proof (Z.pow_pos_nonneg base (Z.of_nat w)). nia. }
    rewrite decide_False by lia. rewrite length_app; simpl. rewrite (IH w); [lia|lia|].
    rewrite !Nat2Z.inj_succ, !Z.pow_succ_r in * by lia.
    split; [apply Z.div_le_lower_bound|apply Z.div_lt_upper_bound]; lia.
Qed.

(** Digits of the same number are the same. *)
Lemma value_inj base l l' : 0 < base → Forall (is_digit_of base) l → Forall (is_digit_of base) l' →
  length l = length l' → value base l = value base l' → l = l'.
Proof.
  intros Hb Hl. revert l'. induction Hl as [|d l [Hd1 Hd2] Hl IH]; intros l' Hl' Hlen Hv; [by destruct l'|].
  destruct l' as [|d' l']; [done|]. apply Forall_cons in Hl' as [[Hd1' Hd2'] Hl']. injection Hlen as Hlen.
  simpl in Hv. pose proof (value_bound base l Hb Hl). pose proof (value_bound base l' Hb Hl').
  rewrite <- Hlen in *. set (q := base ^ Z.of_nat (length l)) in *.
  assert (d = d') as <- by nia. f_equal. apply IH; [done|done|lia].
Qed.

(** ** Characters *)

Lemma nth_char_inj_table (alphabet : string) d d' :
  NoDup (bytes alphabet) → 0 ≤ d < Z.of_nat (length (bytes alphabet)) →
  0 ≤ d' < Z.of_nat (length (bytes alphabet)) → nth_char alphabet d = nth_char alphabet d' → d = d'.
Proof.
  unfold nth_char. intros Hnd Hd Hd' E. apply NoDup_ListNoDup in Hnd.
  apply (proj1 (List.NoDup_nth _ "?"%char) Hnd) in E; lia.
Qed.

Lemma map_inj {A B} (P : A → Prop) (f : A → B) l l' :
  (∀ x y, P x → P y → f x = f y → x = y) → Forall P l → Forall P l' → f <$> l = f <$> l' → l = l'.
Proof.
  intros Hf Hl. revert l'. induction Hl as [|x l Hx Hl IH]; intros [|y l'] Hl' E; try done.
  apply Forall_cons in Hl' as [Hy Hl']. injection E as E1 E2. f_equal; auto.
Qed.

(** The upper-case digit of base 36. *)
Definition digit36 (d : Z) : ascii := upper_byte (nth_char "0123456789abcdefghijklmnopqrstuvwxyz" d).

Definition range36 : list Z := Z.of_nat <$> seq 0 36.

Lemma range36_in d : is_digit_of 36 d → d ∈ range36.
Proof.
  intros [H1 H2]. unfold range36. apply list_elem_of_fmap. exists (Z.to_nat d). split; [lia|].
  apply elem_of_seq. lia.
Qed.

(** What an identifier is made of. *)
Definition id_char (c : ascii) : bool := is_digit c || is_upper c.

Lemma digit36_ok d : is_digit_of 36 d → id_char (digit36 d) = true.
Proof.
  intros Hd. assert (Forall (λ d, id_char (digit36 d) = true) range36) as H by (repeat constructor).
  exact (proj1 (Forall_forall _ _) H d (range36_in d Hd)).
Qed.

(** Digits compare as their characters do. *)
Lemma digit36_compare d d' : is_digit_of 36 d → is_digit_of 36 d' →
  Ascii.compare (digit36 d) (digit36 d') = (d ?= d').
Proof.
  intros Hd Hd'.
  assert (Forall (λ d, Forall (λ d', Ascii.compare (digit36 d) (digit36 d') = (d ?= d')) range36) range36) as H.
  { refine (bool_decide_unpack _ _). vm_compute. exact I. }
  exact (proj1 (Forall_forall _ _) (proj1 (Forall_forall _ _) H d (range36_in d Hd)) d' (range36_in d' Hd')).
Qed.

Lemma FormatInt36_upper t : 0 ≤ t → upper_byte <$> FormatInt36 t = digit36 <$> format_digits 13 36 t.
Proof.
  intros Ht. unfold FormatInt36. rewrite decide_False by lia. by rewrite <-list_fmap_compose.
Qed.

Lemma format36 t : 0 ≤ t < 2 ^ 63 →
  value 36 (format_digits 13 36 t) = t ∧ Forall (is_digit_of 36) (format_digits 13 36 t) ∧
  format_digits 13 36 t ≠ [].
Proof. intros Ht. apply format_digits_ok; [lia| |lia]. change (36 ^ Z.of_nat 13) with 170581728179578208256. lia. Qed.

(** ** base32 *)

Lemma byte_values_ok l : Forall (is_digit_of 256) (byte_values l).
Proof.
  unfold byte_values. apply Forall_fmap, Forall_true. intros c. unfold is_digit_of; simpl.
  pose proof (nat_ascii_bounded c). lia.
Qed.

Lemma byte_values_inj l l' : byte_values l = byte_values l' → l = l'.
Proof.
  apply (map_inj (λ _, True)); [|by apply Forall_true..].
  intros x y _ _ E%Nat2Z.inj. by rewrite <-(ascii_nat_embedding x), <-(ascii_nat_embedding y), E.
Qed.

Lemma encode_block5 b : length b = 5%nat →
  length (encode_block b) = 8%nat ∧ Forall (λ c, id_char c = true) (encode_block b).
Proof.
  intros Hb. unfold encode_block. rewrite Hb. change ((8 * 5 + 4) / 5)%nat with 8%nat.
  destruct (digits_ok 32 8 (value 256 (byte_values (b ++ replicate (5 - 5) Ascii.zero))) ltac:(lia)) as [Hd Hl].
  rewrite take_ge by lia. rewrite length_fmap. split; [done|].
  apply Forall_fmap. eapply Forall_impl; [exact Hd|]. intros d [Hd1 Hd2]. cbn.
  assert (Forall (λ d, id_char (nth_char base32_alphabet d) = true) (Z.of_nat <$> seq 0 32)) as H
    by (repeat constructor).
  refine (proj1 (Forall_forall _ _) H d _). apply list_elem_of_fmap. exists (Z.to_nat d).
  split; [lia|]. apply elem_of_seq. lia.
Qed.

Lemma encode_block_inj b b' : length b = 5%nat → length b' = 5%nat → encode_block b = encode_block b' → b = b'.
Proof.
  intros Hb Hb'. unfold encode_block. rewrite Hb, Hb'. change ((8 * 5 + 4) / 5)%nat with 8%nat.
  cbn [replicate Nat.sub]. rewrite !app_nil_r.
  assert (∀ b : list ascii, length b = 5%nat → 0 ≤ value 256 (byte_values b) < 32 ^ Z.of_nat 8) as Hv.
  { intros c Hc. pose proof (value_bound 256 (byte_values c) ltac:(lia) (byte_values_ok c)) as H.
    unfold byte_values in H at 3. rewrite length_fmap, Hc in H. exact H. }
  pose proof (Hv b Hb) as Hvb. pose proof (Hv b' Hb') as Hvb'.
  destruct (digits_ok 32 8 (value 256 (byte_values b)) ltac:(lia)) as [Hd Hl].
  destruct (digits_ok 32 8 (value 256 (byte_values b')) ltac:(lia)) as [Hd' Hl'].
  rewrite !take_ge by lia. intros E.
  apply (map_inj (is_digit_of 32)) in E; [|intros x y [? ?] [? ?];
    apply nth_char_inj_table; [refine (bool_decide_unpack _ _); vm_compute; exact I|by simpl..]|done|done].
  apply (f_equal (value 32)) in E. rewrite !value_digits in E by lia.
  apply value_inj in E; [by apply byte_values_inj|lia|apply byte_values_ok|apply byte_values_ok|].
  unfold byte_values. rewrite !length_fmap. congruence.
Qed.

(** The ten bytes of an identifier are two blocks. *)
Lemma base32_ten l : length l = 10%nat →
  base32 l = encode_block (take 5 l) ++ encode_block (drop 5 l) ∧ length (take 5 l) = 5%nat ∧
  length (drop 5 l) = 5%nat.
Proof.
  intros Hl. do 10 (destruct l as [|? l]; [done|]). destruct l; [|done]. split_and!; [|done..].
  cbn [base32 take drop]. by rewrite app_nil_r.
Qed.

Lemma base32_inj l l' : length l = 10%nat → length l' = 10%nat → base32 l = base32 l' → l = l'.
Proof.
  intros Hl Hl'. destruct (base32_ten l Hl) as (-> & H1 & H2). destruct (base32_ten l' Hl') as (-> & H1' & H2').
  intros E. apply app_inj_1 in E as [E1 E2].
  - apply encode_block_inj in E1; [|done..]. apply encode_block_inj in E2; [|done..].
    by rewrite <-(take_drop 5 l), <-(take_drop 5 l'), E1, E2.
  - by rewrite (proj1 (encode_block5 _ H1)), (proj1 (encode_block5 _ H1')).
Qed.

(** ** Identifiers *)

Lemma newID_bytes t buf : 0 ≤ t → bytes (newID t buf) = (digit36 <$> format_digits 13 36 t) ++ base32 buf.
Proof. intros Ht. unfold newID. by rewrite bytes_str, FormatInt36_upper. Qed.

Lemma base32_len l : length l = 10%nat → length (base32 l) = 16%nat ∧ Forall (λ c, id_char c = true) (base32 l).
Proof.
  intros Hl. destruct (base32_ten l Hl) as (-> & H1 & H2).
  destruct (encode_block5 _ H1) as [L1 F1]. destruct (encode_block5 _ H2) as [L2 F2].
  rewrite length_app, L1, L2, Forall_app. done.
Qed.

(** An identifier is not empty and made of digits and capitals. *)
Lemma newID_chars t buf : 0 ≤ t < 2 ^ 63 → length buf = 10%nat →
  newID t buf ≠ "" ∧ Forall (λ c, id_char c = true) (bytes (newID t buf)).
Proof.
  intros Ht Hl. destruct (format36 t Ht) as (_ & Hd & Hne). destruct (base32_len buf Hl) as [L F].
  assert (Forall (λ c, id_char c = true) (bytes (newID t buf))) as Hall.
  { rewrite newID_bytes by lia. apply Forall_app. split; [|done]. apply Forall_fmap.
    eapply Forall_impl; [exact Hd|]. intros d ?. by apply digit36_ok. }
  split; [|done]. intros E%bytes_nil. rewrite newID_bytes in E by lia.
  apply app_nil in E as [E _]. by apply fmap_nil_inv in E.
Qed.

(** Digits of the same length order strings. *)
Lemma compare_digits l l' r r' : Forall (is_digit_of 36) l → Forall (is_digit_of 36) l' → length l = length l' →
  value 36 l < value 36 l' → String.compare (str ((digit36 <$> l) ++ r)) (str ((digit36 <$> l') ++ r')) = Lt.
Proof.
  intros Hl. revert l'. induction Hl as [|d l Hd Hl IH]; intros [|d' l'] Hl' Hlen Hv; try done.
  apply Forall_cons in Hl' as [Hd' Hl']. injection Hlen as Hlen. cbn [value] in Hv.
  cbn [fmap list_fmap app String.string_of_list_ascii String.compare].
  rewrite digit36_compare by done.
  pose proof (value_bound 36 l ltac:(lia) Hl). pose proof (value_bound 36 l' ltac:(lia) Hl').
  rewrite <-Hlen in *. set (q := 36 ^ Z.of_nat (length l)) in *.
  destruct (Z.compare_spec d d') as [->|Hlt|Hgt]; [|done|nia]. apply IH; [done|done|lia].
Qed.

Lemma newID_order t t' buf buf' : 36 ^ 7 ≤ t → t < t' → t' < 36 ^ 8 →
  String.compare (newID t buf) (newID t' buf') = Lt.
Proof.
  intros H1 H2 H3. unfold newID.
  change (36 ^ 7) with 78364164096 in H1. change (36 ^ 8) with 2821109907456 in H3.
  destruct (format36 t ltac:(lia)) as (Hv & Hd & _). destruct (format36 t' ltac:(lia)) as (Hv' & Hd' & _).
  rewrite !FormatInt36_upper by lia. apply compare_digits; [done|done| |by rewrite Hv, Hv'].
  rewrite !(format_digits_length 13 7); [done|lia|lia| |lia|lia|];
    change (36 ^ Z.of_nat 7) with 78364164096; change (36 ^ Z.of_nat 8) with 2821109907456; lia.
Qed.

Lemma newID_inj t t' buf buf' : 0 ≤ t < 2 ^ 63 → 0 ≤ t' < 2 ^ 63 → length buf = 10%nat → length buf' = 10%nat →
  newID t buf = newID t' buf' → t = t' ∧ buf = buf'.
Proof.
  intros Ht Ht' Hl Hl' E%(f_equal bytes). rewrite !newID_bytes in E by lia.
  apply app_inj_2 in E as [E1 E2]; [|by rewrite (proj1 (base32_len _ Hl)), (proj1 (base32_len _ Hl'))].
  split; [|by apply base32_inj].
  destruct (format36 t Ht) as (Hv & Hd & _). destruct (format36 t' Ht') as (Hv' & Hd' & _).
  apply (map_inj (is_digit_of 36)) in E1; [congruence| |done|done].
  intros x y Hx Hy E. pose proof (digit36_compare x y Hx Hy) as Hc. rewrite E, digit36_compare, Z.compare_refl in Hc by done.
  by apply Z.compare_eq.
Qed.

(** An identifier is a non-empty string of digits and capitals; two identifiers are equal only
    when both their time and their random bytes are; and until the year 2059 later ones sort
    after earlier ones. *)
Theorem newID_spec t t' buf buf' :
  0 ≤ t < 2 ^ 63 → 0 ≤ t' < 2 ^ 63 → length buf = 10%nat → length buf' = 10%nat →
  (newID t buf ≠ "" ∧ Forall (λ c, id_char c = true) (bytes (newID t buf))) ∧
  (newID t buf = newID t' buf' ↔ t = t' ∧ buf = buf') ∧
  (36 ^ 7 ≤ t → t < t' → t' < 36 ^ 8 → String.compare (newID t buf) (newID t' buf') = Lt).
Proof.
  intros. split_and!; [by apply newID_chars..| |by apply newID_order].
  split; [by apply newID_inj|by intros [-> ->]].
Qed.
