(* ===== verification/Rfc3339.v ===== *)
(** * time.RFC3339

    The text of an instant in UTC, as [Time.UTC().Format(time.RFC3339)] writes
    it and [time.Parse] reads it: the civil date of a Unix time, whole seconds.
    Other zones and fractions, which the daemon never writes, do not parse
    here. *)

From S2P Require Import Prelude GoStrings Id.
From Stdlib Require Import Ascii.
Local Open Scope Z_scope.

(** ** The calendar *)

Definition leap (y : Z) : bool :=
  bool_decide (y mod 4 = 0) && (negb (bool_decide (y mod 100 = 0)) || bool_decide (y mod 400 = 0)).

Definition days_in_year (y : Z) : Z := if leap y then 366 else 365.

Definition month_lengths (y : Z) : list Z :=
  [31; if leap y then 29 else 28; 31; 30; 31; 30; 31; 31; 30; 31; 30; 31].

(** Leap years up to a year, and the days from 1970 to the start of a year. *)
Definition leaps (y : Z) : Z := y / 4 - y / 100 + y / 400.
Definition days_before (y : Z) : Z := 365 * (y - 1970) + leaps (y - 1) - leaps 1969.

Definition sum_days (l : list Z) : Z := foldr Z.add 0 l.

(** From a day number of 1970 to its year and the day in it, from that to the
    month (counted from 0) and the day in it. *)
Fixpoint year_of (fuel : nat) (y d : Z) : Z * Z :=
  match fuel with
  | O => (y, d)
  | S fuel => if decide (d < days_in_year y) then (y, d) else year_of fuel (y + 1) (d - days_in_year y)
  end.

Fixpoint month_of (lengths : list Z) (m : nat) (d : Z) : nat * Z :=
  match lengths with
  | [] => (m, d)
  | n :: lengths => if decide (d < n) then (m, d) else month_of lengths (S m) (d - n)
  end.

Record Civil := mkCivil { cv_year : Z; cv_month : Z; cv_day : Z; cv_hour : Z; cv_min : Z; cv_sec : Z }.

Definition last_year : Z := 9999.

(** The date of a number of seconds since 1970; the fuel reaches the end of
    the year 9999. *)
Definition civil (t : Z) : Civil :=
  let '(y, d) := year_of (Z.to_nat (last_year + 1 - 1970)) 1970 (t / 86400) in
  let '(m, d) := month_of (month_lengths y) 0 d in
  let s := t mod 86400 in
  mkCivil y (Z.of_nat m + 1) (d + 1) (s / 3600) (s / 60 mod 60) (s mod 60).

Definition unix (c : Civil) : Z :=
  (days_before (cv_year c) + sum_days (take (Z.to_nat (cv_month c - 1)) (month_lengths (cv_year c)))
   + (cv_day c - 1)) * 86400 + cv_hour c * 3600 + cv_min c * 60 + cv_sec c.

(** A date that exists. *)
Definition civil_ok (c : Civil) : Prop :=
  0 ≤ cv_year c ≤ last_year ∧ 1 ≤ cv_month c ≤ 12 ∧
  1 ≤ cv_day c ≤ nth (Z.to_nat (cv_month c - 1)) (month_lengths (cv_year c)) 0 ∧
  0 ≤ cv_hour c < 24 ∧ 0 ≤ cv_min c < 60 ∧ 0 ≤ cv_sec c < 60.

#[global] Instance civil_ok_dec c : Decision (civil_ok c).
Proof. unfold civil_ok. apply _. Defined.

(** ** The text *)

Definition pad (w : nat) (n : Z) : list ascii := nth_char "0123456789" <$> digits 10 w n.

Definition format_civil (c : Civil) : list ascii :=
  (pad 4 (cv_year c) ++ "-" :: pad 2 (cv_month c) ++ "-" :: pad 2 (cv_day c) ++ "T" ::
   pad 2 (cv_hour c) ++ ":" :: pad 2 (cv_min c) ++ ":" :: pad 2 (cv_sec c) ++ ["Z"])%char.

(** An instant in nanoseconds. *)
Definition format_rfc3339 (t : Z) : string := str (format_civil (civil (t / Second))).

Definition digit_value (c : ascii) : option Z :=
  if is_digit c then Some (Z.of_nat (nat_of_ascii c) - 48) else None.

(** A number of [w] digits, followed by the byte [sep]. *)
Definition scan_field (w : nat) (sep : ascii) (l : list ascii) : option (Z * list ascii) :=
  match mapM digit_value (take w l), drop w l with
  | Some ds, c :: rest => if decide (length ds = w ∧ c = sep) then Some (value 10 ds, rest) else None
  | _, _ => None
  end.

Definition parse_civil (l : list ascii) : option Civil :=
  '(y, l) ← scan_field 4 "-" l; '(mo, l) ← scan_field 2 "-" l; '(d, l) ← scan_field 2 "T" l;
  '(h, l) ← scan_field 2 ":" l; '(mi, l) ← scan_field 2 ":" l; '(s, l) ← scan_field 2 "Z" l;
  match l with
  | [] => Some (mkCivil y mo d h mi s)
  | _ => None
  end.

Definition parse_rfc3339 (s : string) : option Z :=
  match parse_civil (bytes s) with
  | Some c => if decide (civil_ok c) then Some (unix c * Second) else None
  | None => None
  end.

(** ** Dates *)

Lemma days_before_succ y : days_before (y + 1) = days_before y + days_in_year y.
Proof.
  unfold days_before, leaps, days_in_year, leap.
  replace (y + 1 - 1) with y by lia.
  repeat case_bool_decide; cbn [andb orb negb]; Z.to_euclidean_division_equations; lia.
Qed.

Lemma days_in_year_pos y : 0 < days_in_year y.
Proof. unfold days_in_year. case_match; lia. Qed.

Lemma year_of_spec fuel y d : 0 ≤ d < days_before (y + Z.of_nat fuel) - days_before y →
  let '(y', r) := year_of fuel y d in
  y ≤ y' < y + Z.of_nat fuel ∧ days_before y + d = days_before y' + r ∧ 0 ≤ r < days_in_year y'.
Proof.
  revert y d. induction fuel as [|fuel IH]; intros y d Hd; cbn [year_of].
  { rewrite Z.add_0_r in Hd. lia. }
  case_decide as H; [lia|].
  pose proof (days_before_succ y) as Es.
  specialize (IH (y + 1) (d - days_in_year y)). replace (y + 1 + Z.of_nat fuel) with (y + Z.of_nat (S fuel)) in IH by lia.
  specialize (IH ltac:(lia)). destruct (year_of fuel (y + 1) (d - days_in_year y)) as [y' r]. lia.
Qed.

Lemma month_of_spec lengths m d : 0 ≤ d < sum_days lengths →
  let '(m', r) := month_of lengths m d in
  (m ≤ m' < m + length lengths)%nat ∧ d = sum_days (take (m' - m) lengths) + r ∧ 0 ≤ r < nth (m' - m) lengths 0.
Proof.
  revert m d. induction lengths as [|n lengths IH]; intros m d Hd; cbn [month_of]; [simpl in Hd; lia|].
  case_decide as H.
  { rewrite Nat.sub_diag. simpl. lia. }
  specialize (IH (S m) (d - n)). cbn [sum_days foldr] in Hd. fold (sum_days lengths) in Hd. specialize (IH ltac:(lia)).
  destruct (month_of lengths (S m) (d - n)) as [m' r]. destruct IH as (H1 & H2 & H3).
  replace (m' - m)%nat with (S (m' - S m)) by lia. cbn [take nth length sum_days foldr].
  fold (sum_days (take (m' - S m) lengths)). split_and!; lia.
Qed.

Lemma sum_month_lengths y : sum_days (month_lengths y) = days_in_year y.
Proof. unfold days_in_year, month_lengths. by destruct (leap y). Qed.

(** The end of the year 9999. *)
Definition last_second : Z := 253402300800.

Lemma civil_spec t : 0 ≤ t < last_second → civil_ok (civil t) ∧ unix (civil t) = t.
Proof.
  intros Ht. unfold civil. set (fuel := Z.to_nat (last_year + 1 - 1970)).
  assert (Z.of_nat fuel = 8030) as Hfuel by (unfold fuel, last_year; lia).
  pose proof (year_of_spec fuel 1970 (t / 86400)) as Hy. rewrite Hfuel in Hy.
  change (days_before (1970 + 8030) - days_before 1970) with 2932897 in Hy.
  assert (0 ≤ t / 86400 < 2932897) as Hd.
  { unfold last_second in Ht. split; [apply Z.div_pos; lia|apply Z.div_lt_upper_bound; lia]. }
  specialize (Hy Hd). clearbody fuel. destruct (year_of fuel 1970 (t / 86400)) as [y d].
  destruct Hy as (Hy & Ed & Hr). change (days_before 1970) with 0 in Ed.
  pose proof (month_of_spec (month_lengths y) 0 d) as Hm. rewrite sum_month_lengths in Hm. specialize (Hm Hr).
  destruct (month_of (month_lengths y) 0 d) as [m r]. rewrite Nat.sub_0_r in Hm. destruct Hm as (Hm & Em & Hrm).
  change (length (month_lengths y)) with 12%nat in Hm.
  pose proof (Z.div_mod t 86400 ltac:(lia)) as Et. pose proof (Z.mod_pos_bound t 86400 ltac:(lia)) as Hs.
  set (s := t mod 86400) in *. unfold civil_ok, unix.
  cbn [cv_year cv_month cv_day cv_hour cv_min cv_sec].
  replace (Z.to_nat (Z.of_nat m + 1 - 1)) with m by lia. unfold last_year.
  pose proof (Z.div_mod s 60 ltac:(lia)). pose proof (Z.mod_pos_bound s 60 ltac:(lia)).
  pose proof (Z.div_mod (s / 60) 60 ltac:(lia)). pose proof (Z.mod_pos_bound (s / 60) 60 ltac:(lia)).
  assert (s / 3600 = s / 60 / 60) as E36 by (rewrite Z.div_div by lia; done).
  assert (0 ≤ s / 3600 < 24) by (split; [apply Z.div_pos; lia|apply Z.div_lt_upper_bound; lia]).
  split; [split_and!; lia|]. lia.
Qed.

(** ** Fields *)

Lemma digit_value_char d : is_digit_of 10 d → digit_value (nth_char "0123456789" d) = Some d.
Proof.
  intros [H1 H2]. assert (d ∈ Z.of_nat <$> seq 0 10) as Hd.
  { apply list_elem_of_fmap. exists (Z.to_nat d). split; [lia|]. apply elem_of_seq. lia. }
  assert (Forall (λ d, digit_value (nth_char "0123456789" d) = Some d) (Z.of_nat <$> seq 0 10)) as H
    by (repeat constructor).
  exact (proj1 (Forall_forall _ _) H d Hd).
Qed.

Lemma scan_pad w n sep l : 0 ≤ n < 10 ^ Z.of_nat w → scan_field w sep (pad w n ++ sep :: l) = Some (n, l).
Proof.
  intros Hn. unfold scan_field, pad. destruct (digits_ok 10 w n ltac:(lia)) as [Hd Hl].
  rewrite take_app_length', drop_app_length' by (by rewrite length_fmap).
  assert (mapM digit_value (nth_char "0123456789" <$> digits 10 w n) = Some (digits 10 w n)) as ->.
  { clear -Hd. induction Hd as [|d ds Hd _ IH]; [done|].
    change (mapM digit_value (nth_char "0123456789" <$> (d :: ds))) with
      (y ← digit_value (nth_char "0123456789" d); k ← mapM digit_value (nth_char "0123456789" <$> ds); Some (y :: k)).
    by rewrite digit_value_char, IH. }
  rewrite decide_True by done. by rewrite value_digits by lia.
Qed.

Lemma parse_format_civil c : civil_ok c → parse_civil (format_civil c) = Some c.
Proof.
  intros (Hy & Hm & Hd & Hh & Hmi & Hs). unfold parse_civil, format_civil. unfold last_year in *.
  assert (cv_day c < 100).
  { assert (Forall (λ n, n ≤ 31) (month_lengths (cv_year c))) as Hl
      by (unfold month_lengths; destruct (leap _); repeat constructor; lia).
    assert (nth (Z.to_nat (cv_month c - 1)) (month_lengths (cv_year c)) 0 ≤ 31); [|lia].
    destruct (nth_in_or_default (Z.to_nat (cv_month c - 1)) (month_lengths (cv_year c)) 0) as [Hin| ->]; [|lia].
    rewrite Forall_forall in Hl. by apply Hl, list_elem_of_In. }
  change (10 ^ Z.of_nat 4) with 10000 in *. 
  rewrite scan_pad by (change (10 ^ Z.of_nat 4) with 10000; lia). cbn [mbind option_bind].
  do 5 (rewrite scan_pad by (change (10 ^ Z.of_nat 2) with 100; lia); cbn [mbind option_bind]).
  by destruct c.
Qed.

Lemma parse_format_rfc3339 t : 0 ≤ t / Second < last_second →
  parse_rfc3339 (format_rfc3339 t) = Some (t / Second * Second).
Proof.
  intros Ht. unfold parse_rfc3339, format_rfc3339. destruct (civil_spec _ Ht) as [Hok Hu].
  rewrite bytes_str, parse_format_civil by done. rewrite decide_True by done. by rewrite Hu.
Qed.

Lemma pad_ascii w n : Forall (λ c, is_ascii c = true) (pad w n).
Proof.
  unfold pad. apply Forall_fmap. destruct (digits_ok 10 w n ltac:(lia)) as [Hd _].
  eapply Forall_impl; [exact Hd|]. intros d [H1 H2].
  assert (Forall (λ d, is_ascii (nth_char "0123456789" d) = true) (Z.of_nat <$> seq 0 10)) as H
    by (repeat constructor).
  refine (proj1 (Forall_forall _ _) H d _). apply list_elem_of_fmap. exists (Z.to_nat d). split; [lia|].
  apply elem_of_seq. lia.
Qed.

Lemma format_rfc3339_ascii t : all_ascii (format_rfc3339 t) = true ∧ format_rfc3339 t ≠ "".
Proof.
  unfold format_rfc3339. split; [|by destruct (civil _)].
  unfold all_ascii. rewrite bytes_str. apply forallb_forall. intros c Hc%list_elem_of_In. revert c Hc.
  apply Forall_forall. unfold format_civil.
  repeat first [apply Forall_app; split; [apply pad_ascii|] | constructor; [done|] | constructor].
Qed.

(** What is written of an instant is read back as its second. *)
Example rfc3339_epoch : format_rfc3339 (1790000000 * Second) = "2026-09-21T14:13:20Z" ∧
  parse_rfc3339 "2024-02-30T00:00:00Z" = None.
Proof. split; vm_compute; reflexivity. Qed.
