(* ===== verification/GoRegexp.v ===== *)
(** * Package regexp, as far as the sources use it

    Regular expressions over bytes, the language they denote, and a matcher
    by derivatives that decides it.  The one expression of the code is
    anchored at both ends, so [MatchString] is membership in the language. *)

From S2P Require Import Prelude GoStrings.
From Stdlib Require Import Ascii.

Inductive re : Type :=
| RNone
| REps
| RClass (p : ascii → bool)
| RCat (r s : re)
| RAlt (r s : re)
| RStar (r : re).

(** The language of an expression. *)
Inductive matches : re → list ascii → Prop :=
| m_eps : matches REps []
| m_class p c : p c = true → matches (RClass p) [c]
| m_cat r s l k : matches r l → matches s k → matches (RCat r s) (l ++ k)
| m_alt_l r s l : matches r l → matches (RAlt r s) l
| m_alt_r r s l : matches s l → matches (RAlt r s) l
| m_star_nil r : matches (RStar r) []
| m_star_app r l k : matches r l → matches (RStar r) k → matches (RStar r) (l ++ k).
#[export] Hint Constructors matches : devmesh.

Fixpoint nullable (r : re) : bool :=
  match r with
  | RNone | RClass _ => false
  | REps | RStar _ => true
  | RCat r s => nullable r && nullable s
  | RAlt r s => nullable r || nullable s
  end.

Fixpoint deriv (c : ascii) (r : re) : re :=
  match r with
  | RNone | REps => RNone
  | RClass p => if p c then REps else RNone
  | RCat r s =>
    if nullable r then RAlt (RCat (deriv c r) s) (deriv c s)
    else RCat (deriv c r) s
  | RAlt r s => RAlt (deriv c r) (deriv c s)
  | RStar r => RCat (deriv c r) (RStar r)
  end.

(** [Regexp.MatchString] for an anchored expression. *)
Fixpoint match_list (r : re) (l : list ascii) : bool :=
  match l with
  | [] => nullable r
  | c :: l => match_list (deriv c r) l
  end.

Definition MatchString (r : re) (s : string) : bool := match_list r (bytes s).

(** ** The matcher decides the language *)

Lemma nullable_spec r : nullable r = true ↔ matches r [].
Proof.
  induction r; simpl; split; intros H; try done; try (inversion H; fail);
    eauto with devmesh.
  - apply andb_true_iff in H as [??]. apply (m_cat r1 r2 [] []); naive_solver.
  - inversion H; subst. apply andb_true_iff. destruct l; naive_solver.
  - apply orb_true_iff in H. naive_solver eauto with devmesh.
  - apply orb_true_iff. inversion H; naive_solver.
Qed.

(** A non-empty word of a starred expression starts with a non-empty round. *)
Lemma star_cons_inv r c l :
  matches (RStar r) (c :: l) →
  ∃ l1 l2, l = l1 ++ l2 ∧ matches r (c :: l1) ∧ matches (RStar r) l2.
Proof.
  intros H. remember (RStar r) as s eqn:Es. remember (c :: l) as w eqn:Ew.
  revert l Ew. induction H; intros l' Ew; simplify_eq.
  destruct l as [|d l]; simplify_eq/=; eauto.
Qed.

Lemma deriv_spec c r l : matches (deriv c r) l ↔ matches r (c :: l).
Proof.
  revert l. induction r as [| |p|r1 IH1 r2 IH2|r1 IH1 r2 IH2|r IH];
    intros l; simpl.
  - split; inversion 1.
  - split; inversion 1.
  - destruct (p c) eqn:E; split; inversion 1; subst; eauto with devmesh; congruence.
  - assert (matches (RCat (deriv c r1) r2) l ↔
            ∃ l1 l2, l = l1 ++ l2 ∧ matches r1 (c :: l1) ∧ matches r2 l2) as Hcat.
    { split.
      - inversion 1; subst. eexists _, _. split; [done|]. naive_solver.
      - intros (l1 & l2 & -> & ?%IH1 & ?). eauto with devmesh. }
    split.
    + intros H. destruct (nullable r1) eqn:En.
      * inversion H; subst.
        -- destruct (proj1 Hcat ltac:(done)) as (l1 & l2 & -> & ? & ?).
           apply (m_cat r1 r2 (c :: l1) l2); done.
        -- apply (m_cat r1 r2 [] (c :: l)); [by apply nullable_spec|by apply IH2].
      * apply Hcat in H as (l1 & l2 & -> & ? & ?).
        apply (m_cat r1 r2 (c :: l1) l2); done.
    + inversion 1 as [| |? ? w k Hw Hk| | | |]; subst.
      destruct w as [|d w]; simplify_eq/=.
      * apply nullable_spec in Hw. rewrite Hw. apply m_alt_r. by apply IH2.
      * case_match; [apply m_alt_l|]; apply Hcat; eauto.
  - split; inversion 1; subst;
      first [apply m_alt_l; naive_solver | apply m_alt_r; naive_solver].
  - split.
    + inversion 1; subst. apply (m_star_app r (c :: l0) k); naive_solver.
    + intros (l1 & l2 & -> & ? & ?)%star_cons_inv. apply m_cat; naive_solver.
Qed.

Lemma match_list_spec r l : match_list r l = true ↔ matches r l.
Proof.
  revert r. induction l as [|c l IH]; intros r; simpl.
  - apply nullable_spec.
  - rewrite IH. apply deriv_spec.
Qed.

(** The words of a starred expression are the concatenations of its words. *)
Lemma star_concat r l :
  matches (RStar r) l ↔ ∃ ws, l = concat ws ∧ Forall (matches r) ws.
Proof.
  split.
  - intros H. remember (RStar r) as s eqn:Es. induction H; simplify_eq.
    + by exists [].
    + destruct IHmatches2 as (ws & -> & ?); [done|]. exists (l :: ws). auto.
  - intros (ws & -> & H). induction H; simpl; eauto with devmesh.
Qed.
