(* ===== verification/Registry.v ===== *)
(** * internal/registry: the service records and their ownership rules

    [model.go] and [registry.go]: the data model, the validators, and every
    operation of the in-memory registry as a function on its map. *)

From S2P Require Import Prelude GoStrings GoNet GoRegexp.
From Stdlib Require Import Ascii.

(** ** The data model (model.go) *)

Abbreviation Kind := string (only parsing).
Definition KindTCP : Kind := "tcp".
Definition KindHTTP : Kind := "http".

Abbreviation Source := string (only parsing).
Definition SourceProcess : Source := "process".
Definition SourceDocker : Source := "docker".
Definition SourceManual : Source := "manual".

Abbreviation Status := string (only parsing).
Definition StatusReady : Status := "ready".
Definition StatusUnavailable : Status := "unavailable".

(** [ParseKind]; [None] is the error. *)
Definition ParseKind (s : string) : option Kind :=
  if decide (s = KindTCP ∨ s = KindHTTP) then Some s else None.

Record Backend := mkBackend { b_Host : string; b_Port : Z }.

Record Frontend := mkFrontend { f_Host : string; f_Port : Z; f_URL : string }.

#[global] Instance Backend_eq_dec : EqDecision Backend.
Proof. solve_decision. Defined.
#[global] Instance Frontend_eq_dec : EqDecision Frontend.
Proof. solve_decision. Defined.

Definition Backend_Addr (b : Backend) : string :=
  JoinHostPort (b_Host b) (Itoa (b_Port b)).

Definition Frontend_Addr (f : Frontend) : string :=
  JoinHostPort (f_Host f) (Itoa (f_Port f)).

Record ServiceRecord := mkRecord {
  r_Name : string;
  r_Kind : Kind;
  r_AppProtocol : string;
  r_OwnerKey : string;
  r_ProducerID : string;
  r_Source : Source;
  r_Backend : option Backend;
  r_Frontend : Frontend;
  r_Hostname : string;
  r_Status : Status;
  r_DockerContainerID : string;
  r_UpdatedAt : Z
}.

#[global] Instance ServiceRecord_eq_dec : EqDecision ServiceRecord.
Proof. solve_decision. Defined.

(** ** Validation *)

Definition name_head (c : ascii) : bool := is_lower c || is_digit c.
Definition name_tail (c : ascii) : bool := name_head c || bool_decide (c = "-"%char).

(** [nameRe], the expression [^L(\.L)*$] with [L = [a-z0-9][a-z0-9-]*]. *)
Definition label_re : re := RCat (RClass name_head) (RStar (RClass name_tail)).
Definition nameRe : re :=
  RCat label_re (RStar (RCat (RClass (λ c, bool_decide (c = "."%char))) label_re)).

Inductive NameError := NameEmpty | NameTooLong | NameMalformed.

(** [ValidateName]; [None] is a nil error. *)
Definition ValidateName (name : string) : option NameError :=
  if decide (name = "") then Some NameEmpty
  else if decide (120 < String.length name) then Some NameTooLong
  else if negb (MatchString nameRe name) then Some NameMalformed
  else None.

(** [net.LookupHost]: the addresses of a name, [None] for an error. *)
Abbreviation Resolver := (string → option (list string)).

(** [IsLoopbackHost]. *)
Definition IsLoopbackHost (LookupHost : Resolver) (host : string) : bool :=
  let h := Trim host "[]" in
  if decide (h = "localhost") then true
  else match ParseIP h with
       | Some ip => IsLoopback ip
       | None =>
         match LookupHost h with
         | None | Some [] => false
         | Some addrs =>
           forallb (λ a, match ParseIP a with
                         | None => false
                         | Some ip => IsLoopback ip
                         end) addrs
         end
       end.

Inductive BackendError := PortOutOfRange | HostEmpty | HostNotLoopback.

(** [ValidateBackend]. *)
Definition ValidateBackend (LookupHost : Resolver) (b : Backend) : option BackendError :=
  if decide (b_Port b ≤ 0 ∨ 65535 < b_Port b)%Z then Some PortOutOfRange
  else if decide (TrimSpace (b_Host b) = "") then Some HostEmpty
  else if negb (IsLoopbackHost LookupHost (b_Host b)) then Some HostNotLoopback
  else None.

(** ** The registry (registry.go)

    The mutex makes every method one atomic step; its state is the map. *)

Abbreviation Registry := (gmap string ServiceRecord).

Definition New : Registry := ∅.

Record NameConflictError := mkNameConflict { e_Name : string; e_OwnerKey : string }.

(** The guard shared by [CheckOwnership] and [CreateOrReplaceOwned]: another
    owner holds the name and its service is not dormant. *)
Definition owned_by_other (r : Registry) (name ownerKey : string) : bool :=
  match r !! name with
  | Some existing =>
    bool_decide (r_OwnerKey existing ≠ ownerKey ∧ r_Status existing ≠ StatusUnavailable)
  | None => false
  end.

Definition CheckOwnership (r : Registry) (name ownerKey : string) :
  option NameConflictError :=
  if owned_by_other r name ownerKey then Some (mkNameConflict name ownerKey) else None.

Definition set_UpdatedAt (t : Z) (rec : ServiceRecord) : ServiceRecord :=
  mkRecord (r_Name rec) (r_Kind rec) (r_AppProtocol rec) (r_OwnerKey rec)
    (r_ProducerID rec) (r_Source rec) (r_Backend rec) (r_Frontend rec)
    (r_Hostname rec) (r_Status rec) (r_DockerContainerID rec) t.

(** The two updates of the stored record: a backend arrives (ready) or goes
    (unavailable); everything else, the frontend included, is retained. *)
Definition set_Backend (b : option Backend) (st : Status) (t : Z)
    (rec : ServiceRecord) : ServiceRecord :=
  mkRecord (r_Name rec) (r_Kind rec) (r_AppProtocol rec) (r_OwnerKey rec)
    (r_ProducerID rec) (r_Source rec) b (r_Frontend rec)
    (r_Hostname rec) st (r_DockerContainerID rec) t.

Definition CreateOrReplaceOwned (now : Z) (r : Registry) (rec : ServiceRecord) :
  Registry * result ServiceRecord NameConflictError :=
  if owned_by_other r (r_Name rec) (r_OwnerKey rec) then
    (r, Err (mkNameConflict (r_Name rec) (r_OwnerKey rec)))
  else
    let rec := if decide (r_UpdatedAt rec = 0%Z) then set_UpdatedAt now rec else rec in
    (<[r_Name rec := rec]> r, Ok rec).

Definition SetBackend (now : Z) (r : Registry) (name ownerKey : string) (b : Backend) :
  Registry * bool :=
  match r !! name with
  | None => (r, false)
  | Some rec =>
    if decide (r_OwnerKey rec ≠ ownerKey) then (r, false)
    else (<[name := set_Backend (Some b) StatusReady now rec]> r, true)
  end.

Definition ClearBackendIf (now : Z) (r : Registry) (name producerID : string) :
  Registry * bool :=
  match r !! name with
  | None => (r, false)
  | Some rec =>
    if decide (r_ProducerID rec ≠ producerID) then (r, false)
    else (<[name := set_Backend None StatusUnavailable now rec]> r, true)
  end.

Definition FindByHostname `{MapRange} (r : Registry) (hostname : string) :
  option ServiceRecord :=
  snd <$> head (filter (λ kv, r_Hostname kv.2 = hostname) (range r)).

Definition Remove `{MapRange} (r : Registry) (ownerKey : string) : Registry * bool :=
  match filter (λ kv, r_OwnerKey kv.2 = ownerKey) (range r) with
  | (name, _) :: _ => (delete name r, true)
  | [] => (r, false)
  end.

Definition Resolve (r : Registry) (name : string) : option ServiceRecord := r !! name.

(** The order [sort.Slice] is given: by name. *)
Definition by_name : relation ServiceRecord := λ a b, String.le (r_Name a) (r_Name b).

#[global] Instance by_name_dec : RelDecision by_name.
Proof. unfold by_name. intros ??. apply _. Defined.

Definition List `{MapRange} (r : Registry) : list ServiceRecord :=
  merge_sort by_name (range r).*2.

Definition Len (r : Registry) : nat := size r.

(** ** What the name grammar accepts *)

(** The dot-separated labels of a name. *)
Definition labels (name : string) : list (list ascii) := split_on "." (bytes name).

(** A label is a letter or digit followed by letters, digits and hyphens. *)
Definition valid_label (w : list ascii) : Prop :=
  match w with
  | [] => False
  | c :: w => name_head c = true ∧ Forall (λ d, name_tail d = true) w
  end.

Lemma split_on_concat sep w ws :
  Forall (sep ∉.) (w :: ws) →
  split_on sep (w ++ concat ((sep ::.) <$> ws)) = w :: ws.
Proof.
  revert w. induction ws as [|v ws IH]; intros w [Hw Hws]%Forall_cons; simpl.
  - rewrite app_nil_r. by apply split_on_id.
  - by rewrite split_on_app, IH.
Qed.

Lemma split_on_join sep l :
  ∃ w ws, split_on sep l = w :: ws ∧ l = w ++ concat ((sep ::.) <$> ws).
Proof.
  induction l as [|c l (w & ws & E & ->)]; simpl; [by exists [], []|].
  rewrite E. case_decide; subst.
  - by exists [], (w :: ws).
  - by exists (c :: w), ws.
Qed.

Lemma label_re_spec w : matches label_re w ↔ valid_label w.
Proof.
  unfold label_re. split.
  - inversion 1 as [| |? ? k t Hk Ht| | | |]; subst. inversion Hk; subst; simpl.
    split; [done|]. apply star_concat in Ht as (us & -> & Hus).
    clear -Hus. induction Hus as [|u us Hu]; simpl; [constructor|].
    apply Forall_app. split; [inversion Hu; auto|done].
  - destruct w as [|c w]; [intros []|]. intros [Hc Hw].
    apply (m_cat _ _ [c] w); [by constructor|].
    induction Hw as [|d w Hd]; [constructor|].
    apply (m_star_app _ [d] w); [by constructor|done].
Qed.

Lemma valid_label_no_dot w : valid_label w → "."%char ∉ w.
Proof.
  destruct w as [|c w]; [intros []|]. intros [Hc Hw] [<-|Hin]%elem_of_cons; [discriminate|].
  rewrite Forall_forall in Hw. discriminate (Hw _ Hin).
Qed.

Lemma nameRe_spec l : matches nameRe l ↔ Forall valid_label (split_on "." l).
Proof.
  unfold nameRe. split.
  - inversion 1 as [| |? ? w k Hw Hk| | | |]; subst.
    apply label_re_spec in Hw. apply star_concat in Hk as (us & -> & Hus).
    assert (∃ ws, us = ("."%char ::.) <$> ws ∧ Forall valid_label ws)
      as (ws & -> & Hws).
    { clear -Hus. induction Hus as [|u us Hu Hus (ws & -> & ?)]; [by exists []|].
      inversion Hu as [| |? ? a v Ha Hv| | | |]; subst. inversion Ha; subst.
      case_bool_decide; simplify_eq/=. apply label_re_spec in Hv.
      exists (v :: ws). auto. }
    rewrite split_on_concat; [by constructor|].
    apply (Forall_impl valid_label); [by constructor|].
    apply valid_label_no_dot.
  - destruct (split_on_join "." l) as (w & ws & E & ->). rewrite E.
    intros [Hw Hws]%Forall_cons. apply m_cat; [by apply label_re_spec|].
    apply star_concat. exists (("."%char ::.) <$> ws). split; [done|].
    apply Forall_fmap. apply (Forall_impl valid_label); [done|].
    intros v Hv. apply (m_cat _ _ ["."%char] v); [|by apply label_re_spec].
    by constructor.
Qed.

(** A name is accepted exactly when it has at most 120 bytes and every dot-separated label is a
    lower-case letter or digit followed by lower-case letters, digits and hyphens. *)
Theorem ValidateName_spec name :
  ValidateName name = None ↔
  String.length name ≤ 120 ∧ Forall valid_label (labels name).
Proof.
  unfold ValidateName, MatchString, labels. rewrite <-nameRe_spec, <-match_list_spec.
  destruct (decide (name = "")) as [->|Hne].
  { split; [done|]. by intros [_ ?]. }
  case_decide as Hlen; [split; [done|intros [? _]; lia]|].
  destruct (match_list nameRe (bytes name)); simpl; split; try done.
  - intros _. split; [lia|done].
  - by intros [_ ?].
Qed.

(** ** The registry's invariant *)

(** A record sits under its own name, its status is one of the two the code
    writes, and it is ready exactly when it has a backend. *)
Definition record_wf (name : string) (rec : ServiceRecord) : Prop :=
  r_Name rec = name ∧
  (r_Status rec = StatusReady ∧ is_Some (r_Backend rec) ∨
   r_Status rec = StatusUnavailable ∧ r_Backend rec = None).

Definition registry_wf (r : Registry) : Prop := map_Forall record_wf r.

Lemma registry_wf_New : registry_wf New.
Proof. apply map_Forall_empty. Qed.

Lemma record_wf_set_UpdatedAt n t rec : record_wf n (set_UpdatedAt t rec) ↔ record_wf n rec.
Proof. done. Qed.

Lemma CreateOrReplaceOwned_wf now r rec :
  registry_wf r → record_wf (r_Name rec) rec →
  registry_wf (CreateOrReplaceOwned now r rec).1.
Proof.
  intros Hr Hrec. unfold CreateOrReplaceOwned.
  destruct (owned_by_other _ _ _); simpl; [done|].
  case_decide; by apply map_Forall_insert_2.
Qed.

Lemma SetBackend_wf now r name owner b :
  registry_wf r → registry_wf (SetBackend now r name owner b).1.
Proof.
  intros Hr. unfold SetBackend. crush. apply map_Forall_insert_2; [|done].
  destruct (Hr name s) as [??]; [done|]. split; simpl; eauto.
Qed.

Lemma ClearBackendIf_wf now r name producer :
  registry_wf r → registry_wf (ClearBackendIf now r name producer).1.
Proof.
  intros Hr. unfold ClearBackendIf. crush. apply map_Forall_insert_2; [|done].
  destruct (Hr name s) as [??]; [done|]. split; simpl; eauto.
Qed.

Lemma Remove_wf `{MapRange} r owner : registry_wf r → registry_wf (Remove r owner).1.
Proof.
  intros Hr. unfold Remove. destruct (filter _ _) as [|[name rec] ?]; simpl; [done|].
  by apply map_Forall_delete.
Qed.

#[export] Hint Resolve registry_wf_New CreateOrReplaceOwned_wf SetBackend_wf
  ClearBackendIf_wf Remove_wf : devmesh.

(** ** Lookups *)

Lemma FindByHostname_Some `{MapRange} r h rec :
  FindByHostname r h = Some rec →
  r_Hostname rec = h ∧ ∃ name, r !! name = Some rec.
Proof.
  unfold FindByHostname. destruct (filter _ _) as [|[k v] l] eqn:E; simpl; [done|].
  intros [= <-]. assert ((k, v) ∈ (k, v) :: l) as Hin by left.
  rewrite <-E in Hin. apply list_elem_of_filter in Hin as [? ?%range_elem]. eauto.
Qed.

Lemma FindByHostname_None `{MapRange} r h :
  FindByHostname r h = None ↔ map_Forall (λ _ rec, r_Hostname rec ≠ h) r.
Proof.
  unfold FindByHostname. split.
  - destruct (filter _ _) as [|[k v] l] eqn:E; simpl; [|done]. intros _ k v Hkv Hh.
    assert ((k, v) ∈ filter (λ kv, r_Hostname kv.2 = h) (range r)) as Hin.
    { apply list_elem_of_filter. by rewrite range_elem. }
    rewrite E in Hin. by apply not_elem_of_nil in Hin.
  - intros Hr. destruct (filter _ _) as [|[k v] l] eqn:E; [done|]. exfalso.
    assert ((k, v) ∈ (k, v) :: l) as Hin by left.
    rewrite <-E in Hin. apply list_elem_of_filter in Hin as [Hh Hin%range_elem].
    by apply (Hr k v).
Qed.

(** ** Listing *)

#[global] Instance by_name_total : Total by_name.
Proof. intros a b. apply (total String.le). Qed.
#[global] Instance by_name_trans : Transitive by_name.
Proof. intros a b c. unfold by_name. apply transitivity. Qed.

Lemma List_perm `{MapRange} r : List r ≡ₚ (map_to_list r).*2.
Proof. unfold List. by rewrite merge_sort_Permutation, range_perm. Qed.

Lemma List_elem `{MapRange} r rec : rec ∈ List r ↔ ∃ name, r !! name = Some rec.
Proof.
  rewrite List_perm, list_elem_of_fmap. split.
  - intros ([k v] & -> & Hkv%elem_of_map_to_list). eauto.
  - intros [name Hn]. exists (name, rec). by rewrite elem_of_map_to_list.
Qed.

(** The listing of a well-formed registry holds each record once, sorted by name, and does not
    depend on the order in which the map is walked. *)
Theorem List_spec r :
  registry_wf r →
  (∀ `{MapRange} rec, rec ∈ List r ↔ Resolve r (r_Name rec) = Some rec) ∧
  (∀ `{MapRange}, StronglySorted by_name (List r) ∧ NoDup (r_Name <$> List r)) ∧
  (∀ R1 R2 : MapRange, @List R1 r = @List R2 r).
Proof.
  intros Hr. split; [|split].
  - intros R rec. rewrite List_elem. split; [|by eauto].
    intros [name Hn]. by destruct (Hr _ _ Hn) as [-> _].
  - intros R. split; [apply StronglySorted_merge_sort; apply _|].
    rewrite List_perm, <-list_fmap_compose.
    rewrite (list_fmap_ext _ fst); [apply NoDup_fst_map_to_list|].
    intros i [k v] Hi%list_elem_of_lookup_2%elem_of_map_to_list. simpl.
    by destruct (Hr _ _ Hi).
  - intros R1 R2. apply (StronglySorted_unique_strong by_name).
    + intros a b [n Ha]%List_elem [m Hb]%List_elem Hab Hba.
      destruct (Hr _ _ Ha) as [Ea _], (Hr _ _ Hb) as [Eb _].
      assert (n = m) as ->; [|congruence]. rewrite <-Ea, <-Eb.
      by apply (anti_symm String.le).
    + apply StronglySorted_merge_sort; apply _.
    + apply StronglySorted_merge_sort; apply _.
    + by rewrite !List_perm.
Qed.

(** ** The ownership contract

    What the registry promises about names, without the payload: each name is
    unclaimed, held by a live publication of some owner, or dormant.  A live
    name changes hands only within its owner; a dormant one can be taken by
    anybody; a release has an effect only on the publication it names. *)

Module Ownership.

Record Claim := mkClaim { c_owner : string; c_producer : string; c_live : bool }.

Abbreviation Spec := (gmap string Claim).

Definition may_claim (s : Spec) (name owner : string) : bool :=
  match s !! name with
  | Some c => bool_decide (c_owner c = owner) || negb (c_live c)
  | None => true
  end.

Definition claim (s : Spec) (name owner producer : string) : option Spec :=
  if may_claim s name owner then Some (<[name := mkClaim owner producer true]> s)
  else None.

Definition release (s : Spec) (name producer : string) : Spec :=
  match s !! name with
  | Some c => if decide (c_producer c = producer)
              then <[name := mkClaim (c_owner c) producer false]> s else s
  | None => s
  end.

(** The abstraction function. *)
Definition claim_of (rec : ServiceRecord) : Claim :=
  mkClaim (r_OwnerKey rec) (r_ProducerID rec)
    (bool_decide (r_Status rec ≠ StatusUnavailable)).

Definition abs (r : Registry) : Spec := claim_of <$> r.

Lemma abs_lookup r name : abs r !! name = claim_of <$> r !! name.
Proof. apply lookup_fmap. Qed.

Lemma abs_insert r name rec : abs (<[name := rec]> r) = <[name := claim_of rec]> (abs r).
Proof. apply fmap_insert. Qed.

Lemma may_claim_abs r name owner :
  may_claim (abs r) name owner = negb (owned_by_other r name owner).
Proof.
  unfold may_claim, owned_by_other. rewrite abs_lookup.
  destruct (r !! name) as [rec|]; simpl; [|done].
  repeat case_bool_decide; simpl; naive_solver.
Qed.

End Ownership.

(** C10: The registry implements the ownership contract: a name may be claimed when it is free,
    dormant or already the claimant's, a claim that is refused changes nothing, and a release
    takes effect only on the publication it names. *)
Theorem registry_refines_ownership now r :
  (∀ name owner,
    CheckOwnership r name owner = None ↔
    Ownership.may_claim (Ownership.abs r) name owner = true) ∧
  (∀ rec, r_Status rec = StatusReady →
    match CreateOrReplaceOwned now r rec with
    | (r', Ok _) =>
      Ownership.claim (Ownership.abs r) (r_Name rec) (r_OwnerKey rec) (r_ProducerID rec)
      = Some (Ownership.abs r')
    | (r', Err _) =>
      Ownership.claim (Ownership.abs r) (r_Name rec) (r_OwnerKey rec) (r_ProducerID rec)
      = None ∧ r' = r
    end) ∧
  (∀ name producer,
    Ownership.abs (ClearBackendIf now r name producer).1 =
    Ownership.release (Ownership.abs r) name producer).
Proof.
  split; [|split].
  - intros name owner. rewrite Ownership.may_claim_abs. unfold CheckOwnership.
    by destruct (owned_by_other _ _ _).
  - intros rec Hst. unfold CreateOrReplaceOwned, Ownership.claim.
    rewrite Ownership.may_claim_abs. destruct (owned_by_other _ _ _); simpl; [done|].
    assert (∀ t, Ownership.claim_of (set_UpdatedAt t rec) =
                 Ownership.mkClaim (r_OwnerKey rec) (r_ProducerID rec) true) as E
      by (intros t; unfold Ownership.claim_of; simpl; by rewrite Hst).
    case_decide; rewrite Ownership.abs_insert; simpl; do 2 f_equal; [done|].
    by rewrite <-(E (r_UpdatedAt rec)); destruct rec.
  - intros name producer. unfold ClearBackendIf, Ownership.release.
    rewrite Ownership.abs_lookup. destruct (r !! name) as [rec|]; simpl; [|done].
    case_decide as E1; case_decide as E2; simpl; try done.
    + rewrite Ownership.abs_insert. f_equal. unfold Ownership.claim_of; simpl. congruence.
Qed.

(** ** Valid names are ASCII *)

Lemma name_tail_ascii c : name_tail c = true → is_ascii c = true.
Proof.
  unfold name_tail, name_head, is_lower, is_digit, is_ascii.
  case_bool_decide as E; [subst; done|]. rewrite orb_false_r.
  rewrite orb_true_iff, !andb_true_iff, !Nat.leb_le, Nat.ltb_lt. lia.
Qed.

Lemma valid_label_ascii w : valid_label w → Forall (λ c, is_ascii c = true) w.
Proof.
  destruct w as [|c w]; [done|]. intros [Hc Hw]. constructor.
  - apply name_tail_ascii. unfold name_tail. by rewrite Hc.
  - apply (Forall_impl _ _ _ Hw). apply name_tail_ascii.
Qed.

Lemma ValidateName_ascii name : ValidateName name = None → all_ascii name = true.
Proof.
  unfold ValidateName, MatchString. repeat (case_decide; [done|]).
  destruct (match_list nameRe (bytes name)) eqn:E; [|done]. intros _.
  apply match_list_spec, nameRe_spec in E. unfold all_ascii.
  apply forallb_forall. intros c Hc%list_elem_of_In. revert c Hc. apply Forall_forall.
  destruct (split_on_join "." (bytes name)) as (w & ws & Es & ->). rewrite Es in E.
  apply Forall_cons in E as [Hw Hws]. apply Forall_app. split; [by apply valid_label_ascii|].
  clear Es. induction Hws as [|v ws Hv _ IH]; simpl; [done|].
  constructor; [done|]. apply Forall_app. split; [by apply valid_label_ascii|done].
Qed.
