(* ===== verification/RegistryStore.v ===== *)
(** * internal/registry: what the registry shares with its callers

    [ServiceRecord] holds its backend behind a pointer, and a Go struct is
    copied with the pointer: a caller that writes through the pointer of a
    record it was given would change whatever else holds that pointer.
    [Registry.v] has the records by value; here the cells are explicit, the
    methods of [registry.go] copy what [Clone] of [model.go] copies and share
    what it does not, and the callers write through every pointer they have. *)

From S2P Require Import Prelude GoStrings GoNet Registry.
From Stdlib Require Import Ascii.

(** A backend cell. *)
Abbreviation loc := nat (only parsing).

(** The struct as an assignment copies it: the pointer, and the other fields by
    value ([r_Backend] of [s_val] is not used). *)
Record Struct := mkStruct { s_val : ServiceRecord; s_ptr : option loc }.

(** The record a struct stands for. *)
Definition load (cells : gmap loc Backend) (s : Struct) : ServiceRecord :=
  set_Backend (s_ptr s ≫= (cells !!.)) (r_Status (s_val s)) (r_UpdatedAt (s_val s)) (s_val s).

(** [sh_held] has the cells that a caller has a pointer to and may write. *)
Record Shared := mkShared {
  sh_cells : gmap loc Backend;
  sh_services : gmap string Struct;
  sh_held : gset loc
}.

Definition shared_New : Shared := mkShared ∅ ∅ ∅.

Definition contents (w : Shared) : Registry := load (sh_cells w) <$> sh_services w.

(** [&b] of a fresh variable. *)
Definition new_cell (cells : gmap loc Backend) : loc := fresh (dom cells : gset loc).

(** [ServiceRecord.Clone]. *)
Definition Clone (cells : gmap loc Backend) (s : Struct) : gmap loc Backend * Struct :=
  match s_ptr s ≫= (cells !!.) with
  | None => (cells, s)
  | Some b => let l := new_cell cells in (<[l := b]> cells, mkStruct (s_val s) (Some l))
  end.

(** The clones of a range loop, in its order. *)
Fixpoint clone_all (cells : gmap loc Backend) (l : list Struct) : gmap loc Backend * list Struct :=
  match l with
  | [] => (cells, [])
  | s :: l =>
    let '(cells1, c) := Clone cells s in
    let '(cells2, cs) := clone_all cells1 l in (cells2, c :: cs)
  end.

(** A method that returns clones of [l]: the callers have their pointers. *)
Definition hand_out (w : Shared) (l : list Struct) : Shared * list Struct :=
  let '(cells, cs) := clone_all (sh_cells w) l in
  (mkShared cells (sh_services w) (sh_held w ∪ list_to_set (omap s_ptr cs)), cs).

Definition put_service (name : string) (s : Struct) (w : Shared) : Shared :=
  mkShared (sh_cells w) (<[name := s]> (sh_services w)) (sh_held w).

Definition shared_owned_by_other (w : Shared) (name ownerKey : string) : bool :=
  match sh_services w !! name with
  | Some ex => bool_decide (r_OwnerKey (s_val ex) ≠ ownerKey ∧ r_Status (s_val ex) ≠ StatusUnavailable)
  | None => false
  end.

(** [CreateOrReplaceOwned] stores the pointer it is given.  Its caller does not
    use it again ([registerLocked] passes the address of its own parameter), so
    the cell is the registry's from then on. *)
Definition shared_CreateOrReplaceOwned (now : Z) (w : Shared) (s : Struct) : Shared * bool * list Struct :=
  if shared_owned_by_other w (r_Name (s_val s)) (r_OwnerKey (s_val s)) then (w, false, [])
  else
    let s := if decide (r_UpdatedAt (s_val s) = 0%Z) then mkStruct (set_UpdatedAt now (s_val s)) (s_ptr s) else s in
    let w := mkShared (sh_cells w) (sh_services w) (sh_held w ∖ list_to_set (option_list (s_ptr s))) in
    let '(w, cs) := hand_out (put_service (r_Name (s_val s)) s w) [s] in (w, true, cs).

Definition shared_SetBackend (now : Z) (w : Shared) (name ownerKey : string) (b : Backend) : Shared * bool :=
  match sh_services w !! name with
  | None => (w, false)
  | Some s =>
    if decide (r_OwnerKey (s_val s) ≠ ownerKey) then (w, false)
    else
      let l := new_cell (sh_cells w) in
      (put_service name (mkStruct (set_Backend None StatusReady now (s_val s)) (Some l))
         (mkShared (<[l := b]> (sh_cells w)) (sh_services w) (sh_held w)), true)
  end.

Definition shared_ClearBackendIf (now : Z) (w : Shared) (name producerID : string) : Shared * bool :=
  match sh_services w !! name with
  | None => (w, false)
  | Some s =>
    if decide (r_ProducerID (s_val s) ≠ producerID) then (w, false)
    else (put_service name (mkStruct (set_Backend None StatusUnavailable now (s_val s)) None) w, true)
  end.

Definition shared_FindByHostname `{MapRange} (w : Shared) (hostname : string) : Shared * list Struct :=
  hand_out w (take 1 (filter (λ s, r_Hostname (s_val s) = hostname) (range (sh_services w)).*2)).

Definition shared_Remove `{MapRange} (w : Shared) (ownerKey : string) : Shared * bool :=
  match filter (λ kv, r_OwnerKey (s_val kv.2) = ownerKey) (range (sh_services w)) with
  | (name, _) :: _ => (mkShared (sh_cells w) (delete name (sh_services w)) (sh_held w), true)
  | [] => (w, false)
  end.

Definition shared_Resolve (w : Shared) (name : string) : Shared * list Struct :=
  hand_out w (option_list (sh_services w !! name)).

Definition struct_by_name : relation Struct := λ a b, by_name (s_val a) (s_val b).
#[global] Instance struct_by_name_dec : RelDecision struct_by_name.
Proof. unfold struct_by_name. intros ??. apply _. Defined.

Definition shared_List `{MapRange} (w : Shared) : Shared * list Struct :=
  let '(w, cs) := hand_out w (range (sh_services w)).*2 in (w, merge_sort struct_by_name cs).

(** ** What a method call does *)

Inductive method :=
| MCreateOrReplaceOwned (now : Z) (s : Struct)
| MSetBackend (now : Z) (name ownerKey : string) (b : Backend)
| MClearBackendIf (now : Z) (name producerID : string)
| MFindByHostname (hostname : string)
| MRemove (ownerKey : string)
| MResolve (name : string)
| MList.

(** The state after the call, its boolean (no error, found, done) and the
    records it returns. *)
Definition call `{MapRange} (m : method) (w : Shared) : Shared * bool * list Struct :=
  match m with
  | MCreateOrReplaceOwned now s => shared_CreateOrReplaceOwned now w s
  | MSetBackend now name ownerKey b => (shared_SetBackend now w name ownerKey b, [])
  | MClearBackendIf now name producerID => (shared_ClearBackendIf now w name producerID, [])
  | MFindByHostname hostname => let '(w, cs) := shared_FindByHostname w hostname in (w, bool_decide (cs ≠ []), cs)
  | MRemove ownerKey => (shared_Remove w ownerKey, [])
  | MResolve name => let '(w, cs) := shared_Resolve w name in (w, bool_decide (cs ≠ []), cs)
  | MList => let '(w, cs) := shared_List w in (w, true, cs)
  end.

(** A caller passes records that it has made itself or was given. *)
Definition callable (m : method) (w : Shared) : Prop :=
  match m with
  | MCreateOrReplaceOwned _ s => ∀ l, s_ptr s = Some l → l ∈ sh_held w
  | _ => True
  end.

(** What the callers do on their own: make cells, and write the ones they
    have. *)
Inductive caller_step : Shared → Shared → Prop :=
| caller_new w b :
    caller_step w (mkShared (<[new_cell (sh_cells w) := b]> (sh_cells w)) (sh_services w) ({[new_cell (sh_cells w)]} ∪ sh_held w))
| caller_write w l b :
    l ∈ sh_held w → caller_step w (mkShared (<[l := b]> (sh_cells w)) (sh_services w) (sh_held w)).

Inductive shared_step `{MapRange} : Shared → Shared → Prop :=
| shared_call m w : callable m w → shared_step w (call m w).1.1
| shared_caller w w' : caller_step w w' → shared_step w w'.

(** The methods of [Registry.v] as one relation: the registry before and after,
    the boolean and the records of the answer.  The two that look for an entry
    of the map may take any that fits. *)
Definition answers `{MapRange} (m : method) (cells : gmap loc Backend) (r r' : Registry) (ok : bool) (recs : list ServiceRecord) : Prop :=
  match m with
  | MCreateOrReplaceOwned now s =>
    match CreateOrReplaceOwned now r (load cells s) with
    | (r1, Ok rec) => r' = r1 ∧ ok = true ∧ recs = [rec]
    | (r1, Err _) => r' = r1 ∧ ok = false ∧ recs = []
    end
  | MSetBackend now name ownerKey b => (r', ok) = SetBackend now r name ownerKey b ∧ recs = []
  | MClearBackendIf now name producerID => (r', ok) = ClearBackendIf now r name producerID ∧ recs = []
  | MFindByHostname hostname =>
    r' = r ∧ if ok then ∃ name rec, r !! name = Some rec ∧ r_Hostname rec = hostname ∧ recs = [rec]
             else recs = [] ∧ FindByHostname r hostname = None
  | MRemove ownerKey =>
    recs = [] ∧ if ok then ∃ name rec, r !! name = Some rec ∧ r_OwnerKey rec = ownerKey ∧ r' = delete name r
                else r' = r ∧ (Remove r ownerKey).2 = false
  | MResolve name => r' = r ∧ recs = option_list (Resolve r name) ∧ (ok = true ↔ is_Some (Resolve r name))
  | MList => r' = r ∧ ok = true ∧ recs = List r
  end.

(** ** Copies *)

Definition allocated (cells : gmap loc Backend) (s : Struct) : Prop := ∀ l, s_ptr s = Some l → l ∈ dom cells.

Lemma new_cell_fresh cells : cells !! new_cell cells = None.
Proof. apply (not_elem_of_dom (D:=gset loc)). exact (is_fresh (dom cells : gset loc)). Qed.

Lemma load_mono cells cells' s : cells ⊆ cells' → allocated cells s → load cells' s = load cells s.
Proof.
  intros Hc Ha. unfold load. f_equal. destruct (s_ptr s) as [l|] eqn:E; [simpl|done].
  pose proof (Ha l E) as [b Hb]%elem_of_dom. rewrite Hb. by eapply lookup_weaken.
Qed.

(** What a copy has in common with the original, and what not. *)
Definition copies (cells cells' : gmap loc Backend) (l cs : list Struct) : Prop :=
  cells ⊆ cells' ∧ load cells' <$> cs = load cells <$> l ∧
  ∀ c p, c ∈ cs → s_ptr c = Some p → p ∉ dom cells ∧ p ∈ dom cells'.

Lemma Clone_copies cells s : allocated cells s → copies cells (Clone cells s).1 [s] [(Clone cells s).2].
Proof.
  intros Ha. unfold Clone. destruct (s_ptr s) as [l|] eqn:E; simpl.
  - pose proof (Ha l E) as [b Hb]%elem_of_dom. rewrite Hb. simpl. split_and!.
    + apply insert_subseteq, new_cell_fresh.
    + unfold load. simpl. by rewrite E, lookup_insert_eq, <-Hb.
    + intros c p ->%list_elem_of_singleton [= <-]. split; [apply not_elem_of_dom, new_cell_fresh|set_solver].
  - split_and!; [done..|]. intros c p ->%list_elem_of_singleton Hp. congruence.
Qed.

Lemma copies_cons cells cells1 cells2 s c l cs :
  copies cells cells1 [s] [c] → copies cells1 cells2 l cs → Forall (allocated cells) l → allocated cells1 c →
  copies cells cells2 (s :: l) (c :: cs).
Proof.
  intros (S1 & E1 & P1) (S2 & E2 & P2) Hl Hc. apply (f_equal head), (inj Some) in E1. split_and!.
  - by etrans.
  - rewrite !fmap_cons. f_equal; [by rewrite (load_mono cells1 cells2)|].
    rewrite E2. apply list_fmap_ext. intros i x Hx%list_elem_of_lookup_2.
    apply load_mono; [done|]. by eapply Forall_forall in Hl.
  - apply subseteq_dom in S1, S2. intros c' p [->|Hin]%elem_of_cons Hp.
    + destruct (P1 c p) as [? ?]; [by left|done|]. set_solver.
    + destruct (P2 c' p) as [? ?]; [done..|]. set_solver.
Qed.

Lemma clone_all_copies l cells : Forall (allocated cells) l →
  copies cells (clone_all cells l).1 l (clone_all cells l).2.
Proof.
  revert cells. induction l as [|s l IH]; intros cells Hl; simpl.
  - split_and!; [done..|]. by intros c p ?%elem_of_nil.
  - apply Forall_cons in Hl as [Hs Hl]. pose proof (Clone_copies cells s Hs) as Hc.
    destruct (Clone cells s) as [cells1 c]. simpl in Hc. pose proof Hc as (Hsub & _ & Hp).
    assert (Forall (allocated cells1) l) as Hl1.
    { apply (Forall_impl _ _ _ Hl). intros x Hx p Hxp. apply subseteq_dom in Hsub. specialize (Hx p Hxp). set_solver. }
    specialize (IH cells1 Hl1). destruct (clone_all cells1 l) as [cells2 cs]. simpl in *.
    eapply copies_cons; [exact Hc|exact IH|done|]. intros p Ep. by destruct (Hp c p ltac:(by left) Ep).
Qed.

(** ** The invariant *)

Record store_inv (w : Shared) : Prop := mkStoreInv {
  so_private : ∀ name s l, sh_services w !! name = Some s → s_ptr s = Some l → l ∈ dom (sh_cells w) ∧ l ∉ sh_held w;
  so_held : sh_held w ⊆ dom (sh_cells w);
  so_named : ∀ name s, sh_services w !! name = Some s → r_Name (s_val s) = name
}.

Lemma store_inv_New : store_inv shared_New.
Proof. by split. Qed.

Lemma store_allocated w name s : store_inv w → sh_services w !! name = Some s → allocated (sh_cells w) s.
Proof. intros Hw Hs l Hl. by eapply so_private. Qed.

Lemma contents_mono w cells : store_inv w → sh_cells w ⊆ cells →
  contents (mkShared cells (sh_services w) (sh_held w)) = contents w.
Proof.
  intros Hw Hc. unfold contents. simpl. apply map_fmap_ext. intros name s Hs.
  apply load_mono; [done|]. by eapply store_allocated.
Qed.

Lemma hand_out_spec w l : store_inv w → Forall (allocated (sh_cells w)) l →
  let '(w', cs) := hand_out w l in
  store_inv w' ∧ contents w' = contents w ∧ sh_services w' = sh_services w ∧ sh_cells w ⊆ sh_cells w' ∧
  load (sh_cells w') <$> cs = load (sh_cells w) <$> l ∧
  ∀ c p, c ∈ cs → s_ptr c = Some p → p ∈ sh_held w'.
Proof.
  intros Hw Hl. unfold hand_out. pose proof (clone_all_copies l (sh_cells w) Hl) as Hc.
  destruct (clone_all (sh_cells w) l) as [cells cs]. destruct Hc as (Hsub & Hload & Hp). simpl in *.
  assert (∀ p, p ∈ omap s_ptr cs → p ∉ dom (sh_cells w) ∧ p ∈ dom cells) as Hnew.
  { intros p (c & Hin & Ec)%list_elem_of_omap. by apply (Hp c). }
  pose proof (subseteq_dom _ _ Hsub) as Hd. split_and!; [split; simpl|..].
  - intros name s p Hs Ep. destruct (so_private _ Hw _ _ _ Hs Ep) as [Hin Hno]. split; [set_solver|].
    intros [?|[? _]%elem_of_list_to_set%Hnew]%elem_of_union; done.
  - pose proof (so_held _ Hw). intros p [?|[_ ?]%elem_of_list_to_set%Hnew]%elem_of_union; set_solver.
  - apply Hw.
  - by apply (contents_mono w).
  - done.
  - done.
  - done.
  - intros c p Hin Ep. apply elem_of_union_r, elem_of_list_to_set, list_elem_of_omap. eauto.
Qed.

Lemma contents_lookup w name : contents w !! name = load (sh_cells w) <$> sh_services w !! name.
Proof. apply lookup_fmap. Qed.

Lemma contents_put name s w : contents (put_service name s w) = <[name := load (sh_cells w) s]> (contents w).
Proof. apply fmap_insert. Qed.

Lemma put_service_inv name s w : store_inv w → allocated (sh_cells w) s → (∀ l, s_ptr s = Some l → l ∉ sh_held w) →
  r_Name (s_val s) = name → store_inv (put_service name s w).
Proof.
  intros Hw Ha Hno Hn. split; simpl.
  - intros n s' l [[<- <-]|[_ Hs]]%lookup_insert_Some Hl; [auto|by eapply so_private].
  - apply Hw.
  - intros n s' [[<- <-]|[_ Hs]]%lookup_insert_Some; [done|by apply Hw].
Qed.

Lemma contents_named w : store_inv w → ∀ name rec, contents w !! name = Some rec → r_Name rec = name.
Proof. intros Hw name rec. rewrite contents_lookup. intros (s & Hs & ->)%fmap_Some. by apply (so_named _ Hw). Qed.

(** A sorted listing of a registry is [List]. *)
Lemma List_unique `{MapRange} r l : (∀ name rec, r !! name = Some rec → r_Name rec = name) →
  l ≡ₚ (map_to_list r).*2 → StronglySorted by_name l → l = List r.
Proof.
  intros Hr Hl Hs. apply (StronglySorted_unique_strong by_name); [|done| |by rewrite List_perm].
  - intros a b Ha [m Hb]%List_elem Hab Hba. rewrite Hl in Ha.
    apply list_elem_of_fmap in Ha as ([n a'] & -> & Ha%elem_of_map_to_list). simpl in *.
    assert (n = m) as ->; [|congruence]. rewrite <-(Hr _ _ Ha), <-(Hr _ _ Hb). by apply (anti_symm String.le).
  - apply StronglySorted_merge_sort; apply _.
Qed.

(** ** The methods *)

(** What every method guarantees. *)
Definition method_ok `{MapRange} (m : method) (w : Shared) : Prop :=
  let '(w', ok, cs) := call m w in
  store_inv w' ∧ sh_cells w ⊆ sh_cells w' ∧
  answers m (sh_cells w) (contents w) (contents w') ok (load (sh_cells w') <$> cs) ∧
  ∀ c p, c ∈ cs → s_ptr c = Some p → p ∈ sh_held w'.

Lemma owned_by_other_contents w name ownerKey :
  owned_by_other (contents w) name ownerKey = shared_owned_by_other w name ownerKey.
Proof. unfold owned_by_other, shared_owned_by_other. rewrite contents_lookup. by destruct (sh_services w !! name). Qed.

(** The pointer that is handed over. *)
Lemma give_up_inv w l : store_inv w → store_inv (mkShared (sh_cells w) (sh_services w) (sh_held w ∖ l)).
Proof.
  intros Hw. split; simpl; [|pose proof (so_held _ Hw); set_solver|apply Hw].
  intros name s p Hs Hp. destruct (so_private _ Hw _ _ _ Hs Hp). set_solver.
Qed.

Lemma CreateOrReplaceOwned_ok `{MapRange} now s w : store_inv w → callable (MCreateOrReplaceOwned now s) w →
  method_ok (MCreateOrReplaceOwned now s) w.
Proof.
  intros Hw Hc. unfold method_ok. simpl. unfold shared_CreateOrReplaceOwned, CreateOrReplaceOwned.
  change (r_Name (load (sh_cells w) s)) with (r_Name (s_val s)).
  change (r_OwnerKey (load (sh_cells w) s)) with (r_OwnerKey (s_val s)). rewrite owned_by_other_contents.
  destruct (shared_owned_by_other w _ _). { split_and!; [done..|]. by intros c p ?%elem_of_nil. }
  set (s1 := if decide (r_UpdatedAt (s_val s) = 0%Z) then _ else s).
  set (w1 := mkShared _ _ _). set (w2 := put_service (r_Name (s_val s1)) s1 w1).
  assert (s_ptr s1 = s_ptr s ∧ r_Name (s_val s1) = r_Name (s_val s)) as [Ep En] by (unfold s1; by case_decide).
  assert (allocated (sh_cells w) s1) as Ha.
  { intros l Hl. rewrite Ep in Hl. apply Hc in Hl. pose proof (so_held _ Hw). set_solver. }
  assert (store_inv w2) as Hw2.
  { apply put_service_inv; [by apply give_up_inv|done| |done]. intros l Hl. unfold w1. simpl. rewrite Hl. set_solver. }
  pose proof (hand_out_spec w2 [s1] Hw2 ltac:(by constructor)) as Hh.
  destruct (hand_out w2 [s1]) as [w' cs]. destruct Hh as (Hw' & Eco & _ & Hsub & Hl & Hp).
  split_and!; [done|done| |done| |exact Hp].
  - rewrite Eco. unfold w2. rewrite contents_put. change (contents w1) with (contents w).
    unfold s1, load. simpl. by case_decide.
  - rewrite Hl. unfold w2, s1, load. simpl. by case_decide.
Qed.

Lemma SetBackend_ok `{MapRange} now name ownerKey b w : store_inv w → method_ok (MSetBackend now name ownerKey b) w.
Proof.
  intros Hw. unfold method_ok. simpl. unfold shared_SetBackend, SetBackend. rewrite contents_lookup.
  destruct (sh_services w !! name) as [s|] eqn:Es; simpl; [case_decide as Ho|];
    try (split_and!; [done..|by intros c p ?%elem_of_nil]).
  set (l := new_cell (sh_cells w)). pose proof (new_cell_fresh (sh_cells w)) as Hl.
  assert (sh_cells w ⊆ <[l:=b]> (sh_cells w)) as Hsub by (by apply insert_subseteq).
  pose proof (subseteq_dom _ _ Hsub) as Hd.
  split_and!; [|done| |done|by intros c p ?%elem_of_nil].
  - apply put_service_inv; [split; simpl| | |].
    + intros n s' p Hs Hp. destruct (so_private _ Hw _ _ _ Hs Hp). set_solver.
    + pose proof (so_held _ Hw). set_solver.
    + apply Hw.
    + intros p [= <-]. simpl. rewrite dom_insert. set_solver.
    + intros p [= <-]. simpl. intros Hin%(so_held _ Hw). by apply not_elem_of_dom in Hl.
    + simpl. by apply (so_named _ Hw).
  - rewrite contents_put, (contents_mono w _ Hw Hsub). unfold load. simpl. by rewrite lookup_insert_eq.
Qed.

Lemma ClearBackendIf_ok `{MapRange} now name producerID w : store_inv w → method_ok (MClearBackendIf now name producerID) w.
Proof.
  intros Hw. unfold method_ok. simpl. unfold shared_ClearBackendIf, ClearBackendIf. rewrite contents_lookup.
  destruct (sh_services w !! name) as [s|] eqn:Es; simpl; [case_decide as Ho|];
    try (split_and!; [done..|by intros c p ?%elem_of_nil]).
  split_and!; [|done| |done|by intros c p ?%elem_of_nil].
  - apply put_service_inv; [done..|]. simpl. by apply (so_named _ Hw).
  - by rewrite contents_put.
Qed.

Lemma Remove_ok `{MapRange} ownerKey w : store_inv w → method_ok (MRemove ownerKey) w.
Proof.
  intros Hw. unfold method_ok. simpl. unfold shared_Remove.
  destruct (filter _ (range (sh_services w))) as [|[name s] l] eqn:E.
  - split_and!; [done..| |by intros c p ?%elem_of_nil]. unfold Remove.
    destruct (filter _ (range (contents w))) as [|[name rec] l] eqn:E'; [done|]. exfalso.
    apply range_filter_cons in E' as [Ho Hr]. rewrite contents_lookup in Hr. apply fmap_Some in Hr as (s & Hs & ->).
    by apply (range_filter_nil _ _ _ _ E Hs).
  - apply range_filter_cons in E as [Ho Hs]. simpl in *.
    split_and!; [split; simpl|done|done| |by intros c p ?%elem_of_nil].
    + intros n s' p [_ Hs']%lookup_delete_Some. by apply (so_private _ Hw n).
    + apply Hw.
    + intros n s' [_ Hs']%lookup_delete_Some. by apply (so_named _ Hw).
    + exists name, (load (sh_cells w) s). rewrite contents_lookup, Hs. split_and!; [done..|].
      unfold contents. simpl. by rewrite fmap_delete.
Qed.

(** The methods that only read. *)
Lemma reader_ok `{MapRange} w l : store_inv w → Forall (allocated (sh_cells w)) l →
  let '(w', cs) := hand_out w l in
  store_inv w' ∧ sh_cells w ⊆ sh_cells w' ∧ contents w' = contents w ∧
  load (sh_cells w') <$> cs = load (sh_cells w) <$> l ∧
  (∀ c p, c ∈ cs → s_ptr c = Some p → p ∈ sh_held w') ∧ (cs = [] ↔ l = []).
Proof.
  intros Hw Hl. pose proof (hand_out_spec w l Hw Hl) as Hh. destruct (hand_out w l) as [w' cs].
  destruct Hh as (? & ? & _ & ? & E & ?). split_and!; try done.
  apply (f_equal length) in E. rewrite !length_fmap in E. by destruct cs, l.
Qed.

Lemma services_allocated `{MapRange} w : store_inv w → Forall (allocated (sh_cells w)) (range (sh_services w)).*2.
Proof.
  intros Hw. apply Forall_forall. intros s ([name s'] & -> & Hs%range_elem)%list_elem_of_fmap.
  by eapply store_allocated.
Qed.

Lemma Resolve_ok `{MapRange} name w : store_inv w → method_ok (MResolve name) w.
Proof.
  intros Hw. unfold method_ok. simpl. unfold shared_Resolve, Resolve. rewrite contents_lookup.
  pose proof (reader_ok w (option_list (sh_services w !! name)) Hw) as Hr.
  destruct (hand_out w _) as [w' cs]. destruct Hr as (Hw' & Hc & Ec & El & Hp & En).
  { destruct (sh_services w !! name) eqn:Es; simpl; [|constructor]. apply Forall_singleton. by eapply store_allocated. }
  refine (conj Hw' (conj Hc (conj (conj Ec (conj _ _)) Hp))).
  - rewrite El. by destruct (sh_services w !! name).
  - rewrite bool_decide_eq_true, fmap_is_Some, En. destruct (sh_services w !! name); simpl; by split.
Qed.

Lemma FindByHostname_ok `{MapRange} hostname w : store_inv w → method_ok (MFindByHostname hostname) w.
Proof.
  intros Hw. unfold method_ok. simpl. unfold shared_FindByHostname.
  set (P := λ s : Struct, r_Hostname (s_val s) = hostname).
  pose proof (reader_ok w (take 1 (filter P (range (sh_services w)).*2)) Hw) as Hr.
  destruct (hand_out w _) as [w' cs]. destruct Hr as (Hw' & Hc & Ec & El & Hp & En).
  { apply Forall_take. apply Forall_forall. intros s [_ Hin]%list_elem_of_filter.
    by apply (proj1 (Forall_forall _ _) (services_allocated w Hw)). }
  refine (conj Hw' (conj Hc (conj (conj Ec _) Hp))).
  destruct (filter P _) as [|s l] eqn:E; simpl in *.
  - rewrite bool_decide_eq_false_2 by (intros Hne; by apply Hne, En). rewrite El. split; [done|].
    apply FindByHostname_None. intros name rec Hr Hh. rewrite contents_lookup in Hr.
    apply fmap_Some in Hr as (s & Hs & ->). apply (not_elem_of_nil s). rewrite <-E.
    apply list_elem_of_filter. split; [done|]. apply list_elem_of_fmap. exists (name, s). by rewrite range_elem.
  - rewrite bool_decide_eq_true_2 by (by intros ?%En).
    assert (s ∈ s :: l) as Hin by left. rewrite <-E in Hin.
    apply list_elem_of_filter in Hin as [Hh ([name s'] & -> & Hs%range_elem)%list_elem_of_fmap]. simpl in *.
    exists name, (load (sh_cells w) s'). by rewrite contents_lookup, Hs.
Qed.

Lemma List_ok `{MapRange} w : store_inv w → method_ok MList w.
Proof.
  intros Hw. unfold method_ok. simpl. unfold shared_List.
  pose proof (reader_ok w (range (sh_services w)).*2 Hw (services_allocated w Hw)) as Hr.
  destruct (hand_out w _) as [w' cs]. destruct Hr as (Hw' & Hc & Ec & El & Hp & _).
  split_and!; [done..| |].
  - apply List_unique; [by apply contents_named| |].
    + rewrite merge_sort_Permutation, El, range_perm. unfold contents.
      by rewrite map_to_list_fmap, <-!list_fmap_compose.
    + assert (StronglySorted struct_by_name (merge_sort struct_by_name cs)) as Hs.
      { apply StronglySorted_merge_sort; unfold struct_by_name.
        - intros a b c. apply (transitivity (R:=by_name)).
        - intros a b. apply (total by_name). }
      induction Hs as [|c l _ IH Hf]; [constructor|]. rewrite fmap_cons. constructor; [done|].
      apply Forall_fmap. by apply (Forall_impl _ _ _ Hf).
  - intros c p. rewrite merge_sort_Permutation. apply Hp.
Qed.

Lemma call_ok `{MapRange} m w : store_inv w → callable m w → method_ok m w.
Proof.
  destruct m; eauto using CreateOrReplaceOwned_ok, SetBackend_ok, ClearBackendIf_ok, FindByHostname_ok, Remove_ok, Resolve_ok, List_ok.
Qed.

(** ** The callers *)

Lemma caller_step_ok w w' : store_inv w → caller_step w w' →
  store_inv w' ∧ contents w' = contents w.
Proof.
  intros Hw Hst. pose proof (so_held _ Hw) as Hh. destruct Hst as [w b|w l b Hl].
  - assert (sh_cells w ⊆ <[new_cell (sh_cells w):=b]> (sh_cells w)) as Hsub by apply insert_subseteq, new_cell_fresh.
    split; [split; simpl|exact (contents_mono w _ Hw Hsub)].
    + intros n s p Hs Hp. destruct (so_private _ Hw _ _ _ Hs Hp) as [Hin Hno]. split; [set_solver|].
      intros [->%elem_of_singleton|?]%elem_of_union; [|done].
      by apply elem_of_dom in Hin as [? Hn]; rewrite new_cell_fresh in Hn.
    + set_solver.
    + apply Hw.
  - split; [split; simpl; [|set_solver|apply Hw]|].
    { intros n s p Hs Hp. destruct (so_private _ Hw _ _ _ Hs Hp) as [Hin Hno]. split; [set_solver|done]. }
    unfold contents. simpl. apply map_fmap_ext. intros n s Hs. unfold load. f_equal.
    destruct (s_ptr s) as [p|] eqn:Ep; [simpl|done]. destruct (so_private _ Hw _ _ _ Hs Ep) as [_ Hno].
    apply lookup_insert_ne. intros ->. done.
Qed.

Lemma shared_run_inv `{MapRange} w : rtc shared_step shared_New w → store_inv w.
Proof.
  revert w. apply (rtc_ind_r store_inv); [apply store_inv_New|].
  intros w w' _ Hst Hw. destruct Hst as [m w Hc|w w' Hst].
  - pose proof (call_ok m w Hw Hc) as Hm. unfold method_ok in Hm. destruct (call m w) as [[w' ok] cs]. apply Hm.
  - by eapply caller_step_ok.
Qed.

(** C8: The registry shares no memory with its callers: with ServiceRecord's backend behind its
    pointer, whatever the callers write through every pointer they have, each method call does
    to the contents exactly what the method does to records held by value and returns those
    values, it changes no cell that existed before, the pointers it returns are not the
    registry's, and nothing a caller does changes the contents (a caller of CreateOrReplaceOwned
    is taken not to use the pointer it has passed, as registerLocked does not). *)
Theorem registry_shares_nothing `{MapRange} w :
  rtc shared_step shared_New w →
  (∀ m, callable m w →
     let '(w', ok, cs) := call m w in
     answers m (sh_cells w) (contents w) (contents w') ok (load (sh_cells w') <$> cs) ∧
     (∀ l, l ∈ dom (sh_cells w) → sh_cells w' !! l = sh_cells w !! l) ∧
     ∀ name s c l, sh_services w' !! name = Some s → c ∈ cs → s_ptr c = Some l → s_ptr s ≠ Some l) ∧
  (∀ w', caller_step w w' → contents w' = contents w).
Proof.
  intros Hw%shared_run_inv. split; [|intros w' Hst; by apply (caller_step_ok w)].
  intros m Hc. pose proof (call_ok m w Hw Hc) as Hm. unfold method_ok in Hm.
  destruct (call m w) as [[w' ok] cs]. destruct Hm as (Hw' & Hsub & Ha & Hp). split_and!; [done| |].
  - intros l [b Hb]%elem_of_dom. rewrite Hb. by eapply lookup_weaken.
  - intros name s c l Hs Hin Hcl Hsl. destruct (so_private _ Hw' _ _ _ Hs Hsl) as [_ Hno]. apply Hno.
    by apply (Hp c).
Qed.
