(* ===== verification/Lease.v ===== *)
(** * internal/lease: time-bounded registrations

    [manager.go]: every method of the lease manager as a function on its
    state; the clock reading [time.Now()] of a method is its argument [now]. *)

From S2P Require Import Prelude GoStrings.
From Stdlib Require Import Ascii.
Local Open Scope Z_scope.

(** [ErrNotFound] and [ErrUnauthorized]. *)
Inductive LeaseError := ErrNotFound | ErrUnauthorized.

Record Entry := mkEntry {
  le_RegistrationID : string;
  le_Name : string;
  le_OwnerKey : string;
  le_Token : string;
  le_TTL : Z;
  le_ExpiresAt : Z
}.

#[global] Instance Entry_eq_dec : EqDecision Entry.
Proof. solve_decision. Defined.

Record Manager := mkManager { m_ttl : Z; m_entries : gmap string Entry }.

Definition set_entries (es : gmap string Entry) (m : Manager) : Manager :=
  mkManager (m_ttl m) es.

Definition NewManager (ttl : Z) : Manager :=
  mkManager (if decide (ttl ≤ 0) then 15 * Second else ttl) ∅.

Definition TTL (m : Manager) : Z := m_ttl m.

(** [hex.EncodeToString]. *)
Definition hex_char (n : nat) : ascii :=
  ascii_of_nat (if (n <? 10)%nat then 48 + n else 87 + n)%nat.

Definition EncodeToString (buf : list ascii) : string :=
  str (b ← buf; [hex_char (nat_of_ascii b / 16); hex_char (nat_of_ascii b mod 16)]).

(** [NewToken]: [rnd] is the outcome of [rand.Read] on the 32 byte buffer. *)
Definition NewToken (rnd : option (list ascii)) : option string :=
  EncodeToString <$> rnd.

Definition AddWithTTL (now : Z) (m : Manager) (id name ownerKey token : string)
    (ttl : Z) : Manager * Entry :=
  let ttl := if decide (ttl ≤ 0) then m_ttl m else ttl in
  let e := mkEntry id name ownerKey token ttl (now + ttl) in
  (set_entries (<[id := e]> (m_entries m)) m, e).

Definition Add (now : Z) (m : Manager) (id name ownerKey token : string) :
  Manager * Entry :=
  AddWithTTL now m id name ownerKey token (m_ttl m).

(** [subtle.ConstantTimeCompare]: the or of all byte differences is zero. *)
Definition byte_xor (a b : ascii) : N := N.lxor (N_of_ascii a) (N_of_ascii b).

Definition ConstantTimeCompare (x y : list ascii) : bool :=
  N.eqb (foldl N.lor 0%N (zip_with byte_xor x y)) 0%N.

Definition tokenEqual (a b : string) : bool :=
  if decide (String.length a ≠ String.length b) then false
  else ConstantTimeCompare (bytes a) (bytes b).

(** [!now.Before(e.ExpiresAt)]. *)
Definition expired (now : Z) (e : Entry) : Prop := ¬ now < le_ExpiresAt e.

#[global] Instance expired_dec now e : Decision (expired now e).
Proof. unfold expired. apply _. Defined.

Definition set_ExpiresAt (t : Z) (e : Entry) : Entry :=
  mkEntry (le_RegistrationID e) (le_Name e) (le_OwnerKey e) (le_Token e) (le_TTL e) t.

Definition Renew (now : Z) (m : Manager) (id token : string) :
  Manager * result Z LeaseError :=
  match m_entries m !! id with
  | None => (m, Err ErrNotFound)
  | Some e =>
    if decide (expired now e) then
      (set_entries (delete id (m_entries m)) m, Err ErrNotFound)
    else if negb (tokenEqual (le_Token e) token) then (m, Err ErrUnauthorized)
    else
      let t := now + le_TTL e in
      (set_entries (<[id := set_ExpiresAt t e]> (m_entries m)) m, Ok t)
  end.

Definition Delete (m : Manager) (id token : string) : Manager * option LeaseError :=
  match m_entries m !! id with
  | None => (m, Some ErrNotFound)
  | Some e =>
    if negb (tokenEqual (le_Token e) token) then (m, Some ErrUnauthorized)
    else (set_entries (delete id (m_entries m)) m, None)
  end.

Definition Remove (m : Manager) (id : string) : Manager :=
  set_entries (delete id (m_entries m)) m.

Definition Get (m : Manager) (id : string) : option Entry := m_entries m !! id.

Definition Expired `{MapRange} (now : Z) (m : Manager) : list Entry :=
  filter (expired now) (range (m_entries m)).*2.

(** One round of the loop of [TakeExpired]. *)
Definition take_one (now : Z) (acc : gmap string Entry * list Entry)
    (kv : string * Entry) : gmap string Entry * list Entry :=
  if decide (expired now kv.2) then (delete kv.1 acc.1, acc.2 ++ [kv.2]) else acc.

Definition TakeExpired `{MapRange} (now : Z) (m : Manager) : Manager * list Entry :=
  let '(es, out) := foldl (take_one now) (m_entries m, []) (range (m_entries m)) in
  (set_entries es m, out).

Definition Len (m : Manager) : nat := size (m_entries m).

(** ** Tokens *)

Lemma byte_xor_0 a b : byte_xor a b = 0%N ↔ a = b.
Proof.
  unfold byte_xor. rewrite N.lxor_eq_0_iff. split; [|by intros ->].
  intros E. by rewrite <-(ascii_N_embedding a), <-(ascii_N_embedding b), E.
Qed.

Lemma foldl_lor_0 l acc :
  foldl N.lor acc l = 0%N ↔ acc = 0%N ∧ Forall (λ n, n = 0%N) l.
Proof.
  revert acc. induction l as [|n l IH]; intros acc; simpl; [naive_solver|].
  rewrite IH, N.lor_eq_0_iff, Forall_cons. naive_solver.
Qed.

Lemma ConstantTimeCompare_spec x y :
  length x = length y → ConstantTimeCompare x y = true ↔ x = y.
Proof.
  intros Hlen. unfold ConstantTimeCompare. rewrite N.eqb_eq, foldl_lor_0.
  revert y Hlen. induction x as [|a x IH]; intros [|b y] Hlen; simplify_eq/=.
  - split; [done|]. split; [done|constructor].
  - rewrite Forall_cons, byte_xor_0. specialize (IH y Hlen). naive_solver.
Qed.

Lemma tokenEqual_spec a b : tokenEqual a b = true ↔ a = b.
Proof.
  unfold tokenEqual. rewrite <-!bytes_length. case_decide as E.
  - split; [done|]. by intros ->.
  - rewrite ConstantTimeCompare_spec by lia. split; [apply bytes_inj|by intros ->].
Qed.

Lemma tokenEqual_refl a : tokenEqual a a = true.
Proof. by apply tokenEqual_spec. Qed.

Lemma tokenEqual_false a b : tokenEqual a b = false ↔ a ≠ b.
Proof. rewrite <-tokenEqual_spec. destruct (tokenEqual a b); naive_solver. Qed.

(** ** The sweep *)

Lemma take_loop_out now l es out :
  (foldl (take_one now) (es, out) l).2 = out ++ filter (expired now) l.*2.
Proof.
  revert es out. induction l as [|[k e] l IH]; intros es out; simpl.
  - by rewrite app_nil_r.
  - unfold take_one at 2; simpl. rewrite filter_cons.
    case_decide; simpl; rewrite IH; [|done]. by rewrite <-app_assoc.
Qed.

Lemma take_loop_entries now l es out k :
  (foldl (take_one now) (es, out) l).1 !! k =
  if decide (Exists (λ kv, kv.1 = k ∧ expired now kv.2) l) then None else es !! k.
Proof.
  revert es out. induction l as [|[k' e] l IH]; intros es out; simpl.
  { done. }
  unfold take_one at 2; cbn [fst snd].
  destruct (decide (expired now e)) as [He|He]; rewrite IH.
  - destruct (decide (k' = k)) as [->|Hk].
    + rewrite lookup_delete_eq, (decide_True (P := Exists _ (_ :: _))) by (left; done).
      by destruct (decide _).
    + rewrite lookup_delete_ne by done. apply decide_ext. rewrite Exists_cons. naive_solver.
  - apply decide_ext. rewrite Exists_cons. naive_solver.
Qed.

Lemma TakeExpired_entries `{MapRange} now m :
  m_entries (TakeExpired now m).1 = filter (λ kv, ¬ expired now kv.2) (m_entries m).
Proof.
  unfold TakeExpired. destruct (foldl _ _ _) as [es out] eqn:E. simpl.
  apply map_eq. intros k.
  replace es with (foldl (take_one now) (m_entries m, []) (range (m_entries m))).1
    by by rewrite E.
  rewrite take_loop_entries. symmetry. case_decide as Hex.
  - apply Exists_exists in Hex as ([k' e] & Hin%range_elem & [<- He]).
    apply map_lookup_filter_None. naive_solver.
  - destruct (m_entries m !! k) as [e|] eqn:Hk.
    + apply map_lookup_filter_Some. split; [done|]. simpl. intros He. apply Hex.
      apply Exists_exists. exists (k, e). by rewrite range_elem.
    + apply map_lookup_filter_None. by left.
Qed.

Lemma TakeExpired_out `{MapRange} now m : (TakeExpired now m).2 = Expired now m.
Proof.
  unfold TakeExpired, Expired. destruct (foldl _ _ _) as [es out] eqn:E. simpl.
  pose proof (take_loop_out now (range (m_entries m)) (m_entries m) []) as Hout.
  by rewrite E in Hout.
Qed.

Lemma Expired_elem `{MapRange} now m e :
  e ∈ Expired now m ↔ expired now e ∧ ∃ id, m_entries m !! id = Some e.
Proof.
  unfold Expired. rewrite list_elem_of_filter, list_elem_of_fmap.
  split; intros [He Hid]; (split; [done|]).
  - destruct Hid as ([k v] & -> & Hk%range_elem). eauto.
  - destruct Hid as [id Hid]. exists (id, e). by rewrite range_elem.
Qed.

(** A sweep returns exactly the expired entries, each once, removes exactly those, and a taken
    entry can no longer be renewed. *)
Theorem TakeExpired_exact `{MapRange} now m :
  let '(m', out) := TakeExpired now m in
  (∀ e, e ∈ out ↔ expired now e ∧ ∃ id, Get m id = Some e) ∧
  (length out + Len m' = Len m)%nat ∧
  (∀ id e, Get m' id = Some e ↔ Get m id = Some e ∧ now < le_ExpiresAt e) ∧
  (∀ id e token, Get m id = Some e → expired now e →
     (Renew now m' id token).2 = Err ErrNotFound).
Proof.
  destruct (TakeExpired now m) as [m' out] eqn:E.
  pose proof (TakeExpired_entries now m) as He. pose proof (TakeExpired_out now m) as Ho.
  rewrite E in He, Ho. simpl in *. unfold Get, Len. subst out.
  assert (∀ id e, m_entries m' !! id = Some e ↔
            m_entries m !! id = Some e ∧ now < le_ExpiresAt e) as Hget.
  { intros id e. rewrite He, map_lookup_filter_Some. unfold expired; simpl.
    naive_solver lia. }
  split; [|split; [|split]].
  - intros e. apply Expired_elem.
  - rewrite He. apply size_filter_split.
  - done.
  - intros id e token Hid Hexp. unfold Renew. destruct (m_entries m' !! id) eqn:Hm'; [|done].
    apply Hget in Hm'. unfold expired in Hexp. naive_solver lia.
Qed.

(** ** Traces of the manager

    The methods that change the entries, as labels of a step relation.  A
    step happens at a clock reading; the readings of a trace never decrease
    (Go's clock is monotonic). *)

Inductive op :=
| OpAdd (id name ownerKey token : string) (ttl : Z)
| OpRenew (id token : string)
| OpDelete (id token : string)
| OpRemove (id : string)
| OpTake (R : MapRange).

Definition apply_op (now : Z) (m : Manager) (o : op) : Manager :=
  match o with
  | OpAdd id name ownerKey token ttl => (AddWithTTL now m id name ownerKey token ttl).1
  | OpRenew id token => (Renew now m id token).1
  | OpDelete id token => (Delete m id token).1
  | OpRemove id => Remove m id
  | OpTake R => (TakeExpired now m).1
  end.

(** [steps t m tr t' m']: from [m] at time [t], the trace leads to [m'] at [t']. *)
Inductive steps : Z → Manager → list (Z * op) → Z → Manager → Prop :=
| steps_nil t m : steps t m [] t m
| steps_cons t m now o tr t' m' :
    t ≤ now → steps now (apply_op now m o) tr t' m' →
    steps t m ((now, o) :: tr) t' m'.

(** Every operation leaves an entry as it was, drops it, or renews it while
    it is live; an entry that is new was put there by [Add]. *)
Lemma apply_op_lookup now m o id e' :
  m_entries (apply_op now m o) !! id = Some e' →
  (∃ name owner token ttl, o = OpAdd id name owner token ttl ∧
     e' = (AddWithTTL now m id name owner token ttl).2) ∨
  ∃ e, m_entries m !! id = Some e ∧
    (e' = e ∨ now < le_ExpiresAt e ∧ e' = set_ExpiresAt (now + le_TTL e) e ∧
              o = OpRenew id (le_Token e)).
Proof.
  destruct o as [i n ow t ttl|i t|i t|i|R]; simpl.
  - intros [[<- <-]|[Hne He]]%lookup_insert_Some; [left; eauto 10|right; eauto].
  - unfold Renew. destruct (m_entries m !! i) as [e|] eqn:Ei; [|by eauto].
    destruct (decide (expired now e)) as [He|He]; simpl.
    + intros [? ?]%lookup_delete_Some. eauto.
    + destruct (tokenEqual (le_Token e) t) eqn:Et; simpl; [|by eauto].
      apply tokenEqual_spec in Et as <-.
      intros [[<- <-]|[? ?]]%lookup_insert_Some; [|by eauto].
      right. exists e. split; [done|]. right. unfold expired in He. split; [lia|done].
  - unfold Delete. repeat case_match; simpl; eauto.
    intros [? ?]%lookup_delete_Some. eauto.
  - intros [? ?]%lookup_delete_Some. eauto.
  - rewrite TakeExpired_entries. intros [? _]%map_lookup_filter_Some. eauto.
Qed.

(** No entry runs past its TTL from now, and TTLs are positive. *)
Definition lease_wf (now : Z) (m : Manager) : Prop :=
  0 < m_ttl m ∧
  map_Forall (λ id e, le_RegistrationID e = id ∧ 0 < le_TTL e ∧
                      le_ExpiresAt e ≤ now + le_TTL e) (m_entries m).

Lemma lease_wf_New now ttl : lease_wf now (NewManager ttl).
Proof.
  split; [unfold NewManager, Second; simpl; case_decide; lia|apply map_Forall_empty].
Qed.

Lemma apply_op_ttl now m o : m_ttl (apply_op now m o) = m_ttl m.
Proof.
  destruct o; simpl; try done; unfold Renew, Delete, TakeExpired;
    repeat case_match; simplify_eq/=; done.
Qed.

Lemma lease_wf_later t now m : t ≤ now → lease_wf t m → lease_wf now m.
Proof.
  intros Ht [Hm Hwf]. split; [done|]. intros id e He. 
  destruct (Hwf id e He) as (? & ? & ?). split_and!; [done|lia..].
Qed.

Lemma lease_wf_step t now m o : t ≤ now → lease_wf t m → lease_wf now (apply_op now m o).
Proof.
  intros Ht Hwf%(lease_wf_later t now); [|done]. destruct Hwf as [Hm Hwf].
  split; [by rewrite apply_op_ttl|]. intros id e'.
  intros [(n & ow & tk & ttl & -> & ->)|(e & He & Hor)]%apply_op_lookup.
  - simpl. split; [done|]. case_decide; lia.
  - destruct (Hwf id e He) as (? & ? & ?).
    destruct Hor as [->|(? & -> & _)]; simpl; split_and!; done || lia.
Qed.

#[export] Hint Resolve lease_wf_New lease_wf_step : devmesh.

Lemma steps_wf t m tr t' m' : steps t m tr t' m' → lease_wf t m → lease_wf t' m'.
Proof. induction 1; eauto with devmesh. Qed.

Lemma steps_time t m tr t' m' : steps t m tr t' m' → t ≤ t'.
Proof. induction 1; lia. Qed.

(** C31: Along every trace of the lease manager with a clock that does not run backwards, an
    entry is filed under its own ID, has a positive TTL, and expires no later than one TTL from
    now. *)
Theorem lease_never_outlives_ttl t ttl tr t' m' id e :
  steps t (NewManager ttl) tr t' m' → Get m' id = Some e →
  le_RegistrationID e = id ∧ 0 < le_TTL e ∧ le_ExpiresAt e ≤ t' + le_TTL e.
Proof.
  intros Hs%steps_wf He; [|apply lease_wf_New]. by apply (proj2 Hs).
Qed.

(** [tr] never adds [id]. *)
Definition never_adds (id : string) (tr : list (Z * op)) : Prop :=
  Forall (λ no, match no.2 with OpAdd i _ _ _ _ => i ≠ id | _ => True end) tr.

Lemma steps_absent t m tr t' m' id :
  steps t m tr t' m' → never_adds id tr →
  m_entries m !! id = None → m_entries m' !! id = None.
Proof.
  induction 1 as [|t m now o tr t' m' Ht Hs IH]; [done|].
  intros [Ho Hno]%Forall_cons Hm. apply IH; [done|].
  destruct (m_entries (apply_op now m o) !! id) as [e|] eqn:E; [|done].
  apply apply_op_lookup in E as [(n & ow & tk & l & -> & _)|(e0 & He0 & _)]; [done|].
  congruence.
Qed.

Lemma expired_later t now e : t ≤ now → expired t e → expired now e.
Proof. unfold expired. lia. Qed.

(** An expired lease is never extended: along every trace that does not add its ID again, the
    entry is unchanged or gone, whoever tries to renew it. *)
Theorem expired_lease_stays_dead t m tr t' m' id e :
  steps t m tr t' m' → never_adds id tr → Get m id = Some e → expired t e →
  Get m' id = None ∨ Get m' id = Some e.
Proof.
  unfold Get. induction 1 as [|t m now o tr t' m' Ht Hs IH]; [by right|].
  intros [Ho Hno]%Forall_cons He Hexp%(expired_later t now); [|done].
  destruct (m_entries (apply_op now m o) !! id) as [e'|] eqn:Ee';
    [|left; by eapply steps_absent].
  apply IH; [done| |done]. f_equal.
  apply apply_op_lookup in Ee' as [(n & ow & tk & l & -> & _)|(e0 & He0 & Hor)]; [done|].
  rewrite He in He0. injection He0 as <-. destruct Hor as [->|(Hlive & _)]; [done|].
  by unfold expired in Hexp.
Qed.
