(* ===== verification/State.v ===== *)
(** * internal/state: remembered frontend ports on disk

    [model.go] and [store.go].  The file system is a map from paths to
    contents, and every system call of a save can fail.  [encoding/json] is
    an interface: the encoder and decoder of the model with what its
    documentation promises of them. *)

From S2P Require Import Prelude GoStrings.
From Stdlib Require Import Ascii.
Local Open Scope Z_scope.

(** ** The model (model.go) *)

Definition version : Z := 1.

Record Model := mkModel { sm_Version : Z; sm_TCPPorts : gmap string Z }.

(** What the JSON encoder can represent: keys are UTF-8 (other bytes would
    be replaced) and numbers are Go ints. *)
Definition json_safe (m : Model) : Prop :=
  in_int64 (sm_Version m) ∧
  map_Forall (λ k p, valid_utf8 k = true ∧ in_int64 p) (sm_TCPPorts m).

(** [json.MarshalIndent] and [json.Unmarshal] on [Model]; an absent or null
    [tcp_ports] decodes to a nil map, here [None]. *)
Class JSON := {
  MarshalIndent : Model → string;
  Unmarshal : string → option (Z * option (gmap string Z));
  json_roundtrip m : json_safe m →
    Unmarshal (MarshalIndent m) = Some (sm_Version m, Some (sm_TCPPorts m));
  json_decoded s v ps : Unmarshal s = Some (v, ps) → json_safe (mkModel v (default ∅ ps));
  json_nonempty m : MarshalIndent m ≠ ""
}.

(** ** The store (store.go) *)

Abbreviation FS := (gmap string string).

Record Store := mkStore { s_path : string; s_m : Model; s_dirty : bool }.

(** The call of [saveLocked] that fails; a failing write may leave any
    prefix of the data in the temporary file. *)
Inductive stage :=
| AtMkdirAll
| AtCreateTemp
| AtWrite (written : string)
| AtSync
| AtClose
| AtRename.

#[global] Instance stage_eq_dec : EqDecision stage.
Proof. solve_decision. Defined.

(** What the operating system contributes to one save: the name
    [os.CreateTemp] makes up and the call that fails, if one does. *)
Record SaveIO := mkSaveIO { io_tmp : string; io_fault : option stage }.

Section Store.
Context `{JSON}.

(** [saveLocked]: the resulting files, every state of the files a crash
    could expose on the way, and the error. *)
Definition saveLocked (io : SaveIO) (s : Store) (fs : FS) :
  FS * list FS * option stage :=
  let tmpName := io_tmp io in
  if decide (io_fault io = Some AtMkdirAll) then (fs, [], io_fault io)
  else
    let data := MarshalIndent (s_m s) in
    if decide (io_fault io = Some AtCreateTemp) then (fs, [], io_fault io)
    else
      let fs1 := <[tmpName := ""]> fs in
      (* defer os.Remove(tmpName) *)
      let return_ fs' hist err := (delete tmpName fs', hist ++ [delete tmpName fs'], err) in
      match io_fault io with
      | Some (AtWrite written) =>
        let fs2 := <[tmpName := written]> fs1 in return_ fs2 [fs1; fs2] (io_fault io)
      | _ =>
        let fs2 := <[tmpName := data]> fs1 in
        if decide (io_fault io = Some AtSync) then return_ fs2 [fs1; fs2] (io_fault io)
        else if decide (io_fault io = Some AtClose) then return_ fs2 [fs1; fs2] (io_fault io)
        else if decide (io_fault io = Some AtRename) then return_ fs2 [fs1; fs2] (io_fault io)
        else
          let fs3 := <[s_path s := data]> (delete tmpName fs2) in
          return_ fs3 [fs1; fs2; fs3] None
      end.

Inductive LoadError := ReadFailed | BackupFailed | UnsupportedVersion.

(** What the operating system contributes to [Load]: whether an existing
    file can be read, whether the backup can be written, and the time. *)
Record LoadIO := mkLoadIO { io_readable : bool; io_backup_ok : bool; io_unix : Z }.

(** [Load]. *)
Definition Load (io : LoadIO) (path : string) (fs : FS) : FS * result Store LoadError :=
  let s := mkStore path (mkModel version ∅) false in
  match fs !! path with
  | None => (fs, Ok s)
  | Some data =>
    if negb (io_readable io) then (fs, Err ReadFailed)
    else if decide (data = "") then (fs, Ok s)
    else match Unmarshal data with
    | None =>
      let backup := path +:+ ".corrupt." +:+ Itoa (io_unix io) in
      if io_backup_ok io then (<[backup := data]> fs, Ok s) else (fs, Err BackupFailed)
    | Some (v, ports) =>
      if decide (version < v) then (fs, Err UnsupportedVersion)
      else
        let m := mkModel (if decide (v = 0) then version else v) (default ∅ ports) in
        (fs, Ok (mkStore path m false))
    end
  end.

(** [Port]: a missing key of a Go map reads as 0. *)
Definition Port (s : Store) (name : string) : Z := default 0 (sm_TCPPorts (s_m s) !! name).

Definition set_ports (ps : gmap string Z) (d : bool) (s : Store) : Store :=
  mkStore (s_path s) (mkModel (sm_Version (s_m s)) ps) d.

Definition set_dirty (d : bool) (s : Store) : Store := mkStore (s_path s) (s_m s) d.

(** The common end of [SetPort], [Forget] and [Save]: save, and clear the
    dirty flag when that worked. *)
Definition save_and_clear (io : SaveIO) (s : Store) (fs : FS) : Store * FS * option stage :=
  match saveLocked io s fs with
  | (fs', _, Some err) => (s, fs', Some err)
  | (fs', _, None) => (set_dirty false s, fs', None)
  end.

Definition SetPort (io : SaveIO) (s : Store) (fs : FS) (name : string) (port : Z) :
  Store * FS * option stage :=
  if decide (Port s name = port ∧ s_dirty s = false) then (s, fs, None)
  else save_and_clear io (set_ports (<[name := port]> (sm_TCPPorts (s_m s))) true s) fs.

Definition Forget (io : SaveIO) (s : Store) (fs : FS) (name : string) :
  Store * FS * option stage :=
  if decide (sm_TCPPorts (s_m s) !! name = None ∧ s_dirty s = false) then (s, fs, None)
  else save_and_clear io (set_ports (delete name (sm_TCPPorts (s_m s))) true s) fs.

Definition Snapshot (s : Store) : gmap string Z := sm_TCPPorts (s_m s).

Definition Save (io : SaveIO) (s : Store) (fs : FS) : Store * FS * option stage :=
  save_and_clear io s fs.

End Store.

(** ** Atomicity and durability *)

(** [os.CreateTemp] opens a file that did not exist, never the state file. *)
Definition io_fresh (io : SaveIO) (path : string) (fs : FS) : Prop :=
  fs !! io_tmp io = None ∧ io_tmp io ≠ path.

(** What a restart finds: the ports [Load] returns, if it returns a store. *)
Definition reload `{JSON} (path : string) (fs : FS) : option (gmap string Z) :=
  match (Load (mkLoadIO true true 0) path fs).2 with
  | Ok s => Some (Snapshot s)
  | Err _ => None
  end.

(** The store's invariant: its contents can be encoded, its version is one
    this binary reads, and unless it is dirty a restart reads the same ports. *)
Definition store_inv `{JSON} (s : Store) (fs : FS) : Prop :=
  json_safe (s_m s) ∧ sm_Version (s_m s) ≤ version ∧
  (s_dirty s = false → reload (s_path s) fs = Some (Snapshot s)).

Section Durability.
Context `{JSON}.

Lemma saveLocked_result io s fs fs' h err :
  io_fresh io (s_path s) fs → saveLocked io s fs = (fs', h, err) →
  fs' = match err with
        | None => <[s_path s := MarshalIndent (s_m s)]> fs
        | Some _ => fs
        end.
Proof.
  intros [Hn Hne]. unfold saveLocked.
  destruct (io_fault io) as [[]|]; simpl; intros [= <- _ <-]; try done;
    apply map_eq; intros k; rewrite ?lookup_insert, ?lookup_delete, ?lookup_insert;
    repeat case_decide; simplify_eq; simplify_map_eq; done.
Qed.

Lemma saveLocked_history io s fs fs' h err :
  io_fresh io (s_path s) fs → saveLocked io s fs = (fs', h, err) →
  Forall (λ f, f !! s_path s = fs !! s_path s ∨
               f !! s_path s = Some (MarshalIndent (s_m s))) h.
Proof.
  intros [Hn Hne]. unfold saveLocked.
  destruct (io_fault io) as [[]|]; simpl; intros [= _ <- _];
    repeat apply Forall_cons_2; try apply Forall_nil_2;
    first [left; by simplify_map_eq | right; by simplify_map_eq].
Qed.

Lemma reload_lookup path fs fs' :
  fs !! path = fs' !! path → reload path fs = reload path fs'.
Proof. unfold reload, Load. intros ->. repeat (case_match || case_decide); by simplify_eq/=. Qed.

Lemma reload_saved path fs m :
  json_safe m → sm_Version m ≤ version → fs !! path = Some (MarshalIndent m) →
  reload path fs = Some (sm_TCPPorts m).
Proof.
  intros Hsafe Hv E. unfold reload, Load. rewrite E. simpl.
  rewrite decide_False by apply json_nonempty. rewrite json_roundtrip by done.
  rewrite decide_False by lia. done.
Qed.

Lemma save_and_clear_inv io s fs s' fs' err :
  io_fresh io (s_path s) fs → json_safe (s_m s) → sm_Version (s_m s) ≤ version →
  (s_dirty s = false → reload (s_path s) fs = Some (Snapshot s)) →
  save_and_clear io s fs = (s', fs', err) →
  store_inv s' fs' ∧ s_m s' = s_m s ∧ s_path s' = s_path s ∧
  (err = None → reload (s_path s) fs' = Some (Snapshot s')).
Proof.
  intros Hio Hsafe Hv Hd. unfold save_and_clear.
  destruct (saveLocked io s fs) as [[fs1 h] e] eqn:E.
  apply saveLocked_result in E; [|done].
  destruct e as [e|]; intros; simplify_eq/=; [by split_and!|].
  assert (reload (s_path s) (<[s_path s:=MarshalIndent (s_m s)]> fs) = Some (Snapshot s))
    by (apply reload_saved; by simplify_map_eq).
  by split_and!.
Qed.

Lemma json_safe_insert m name port :
  json_safe m → valid_utf8 name = true → in_int64 port →
  json_safe (mkModel (sm_Version m) (<[name := port]> (sm_TCPPorts m))).
Proof. intros [? ?] ? ?. split; [done|]. by apply map_Forall_insert_2. Qed.

Lemma json_safe_delete m name :
  json_safe m → json_safe (mkModel (sm_Version m) (delete name (sm_TCPPorts m))).
Proof. intros [? ?]. split; [done|]. by apply map_Forall_delete. Qed.

Lemma SetPort_inv io s fs name port s' fs' err :
  store_inv s fs → io_fresh io (s_path s) fs → valid_utf8 name = true → in_int64 port →
  SetPort io s fs name port = (s', fs', err) →
  store_inv s' fs' ∧ Port s' name = port ∧ s_path s' = s_path s ∧
  (∀ n, n ≠ name → Port s' n = Port s n) ∧
  (err = None → reload (s_path s) fs' = Some (Snapshot s')).
Proof.
  intros Hinv Hio Hname Hport. unfold SetPort. case_decide as E.
  - intros; simplify_eq. destruct E as [? E]. split_and!; try done. intros _. by apply Hinv.
  - intros Hs. destruct Hinv as (Hsafe & Hv & _).
    apply save_and_clear_inv in Hs as (Hinv & Em & Ep & Hrel);
      [|done|by apply json_safe_insert|done|done].
    simpl in *. unfold Port. rewrite Em. simpl. rewrite lookup_insert_eq.
    split_and!; try done. intros n Hn. by rewrite lookup_insert_ne.
Qed.

(** The entries after [SetPort]; a failed save leaves the files alone. *)
Lemma SetPort_lookup io s fs name port s' fs' err :
  io_fresh io (s_path s) fs → port ≠ 0 → SetPort io s fs name port = (s', fs', err) →
  sm_TCPPorts (s_m s') !! name = Some port ∧
  (∀ n, n ≠ name → sm_TCPPorts (s_m s') !! n = sm_TCPPorts (s_m s) !! n) ∧
  (is_Some err → fs' = fs).
Proof.
  intros Hio Hp. unfold SetPort. case_decide as E.
  - destruct E as [E _]. unfold Port in E. intros; simplify_eq.
    split_and!; [|done|by intros [? ?]]. by destruct (_ !! name).
  - unfold save_and_clear. destruct (saveLocked _ _ _) as [[fs1 h] e] eqn:Es.
    apply saveLocked_result in Es; [|done].
    destruct e; intros; simplify_eq/=; (split_and!; [by rewrite lookup_insert_eq| |]);
      try (intros n Hn; by rewrite lookup_insert_ne); [done|by intros [? ?]].
Qed.

Lemma Forget_inv io s fs name s' fs' err :
  store_inv s fs → io_fresh io (s_path s) fs →
  Forget io s fs name = (s', fs', err) →
  store_inv s' fs' ∧ Port s' name = 0 ∧ s_path s' = s_path s ∧
  (err = None → reload (s_path s) fs' = Some (Snapshot s')).
Proof.
  intros Hinv Hio. unfold Forget. case_decide as E.
  - intros; simplify_eq. destruct E as [E1 E]. unfold Port. rewrite E1.
    split_and!; try done. intros _. by apply Hinv.
  - intros Hs. destruct Hinv as (Hsafe & Hv & _).
    apply save_and_clear_inv in Hs as (Hinv & Em & Ep & Hrel);
      [|done|by apply json_safe_delete|done|done].
    simpl in *. unfold Port. rewrite Em. simpl. rewrite lookup_delete_eq. done.
Qed.

Lemma version_int64 : in_int64 version.
Proof. unfold in_int64, version. lia. Qed.

(** The store [Load] starts from: it is right whenever a restart finds nothing. *)
Lemma store_inv_empty path fs :
  reload path fs = Some ∅ → store_inv (mkStore path (mkModel version ∅) false) fs.
Proof.
  intros E. split_and!; simpl; [|done|done].
  split; [apply version_int64|apply map_Forall_empty].
Qed.

Lemma backup_ne path u : path +:+ ".corrupt." +:+ Itoa u ≠ path.
Proof.
  intros Heq%(f_equal bytes). rewrite bytes_app in Heq.
  apply (f_equal length) in Heq. rewrite length_app in Heq. simpl in Heq. lia.
Qed.

Lemma Load_inv io path fs fs' s :
  Load io path fs = (fs', Ok s) →
  store_inv s fs' ∧ s_dirty s = false ∧ s_path s = path ∧ fs' !! path = fs !! path.
Proof.
  unfold Load. destruct (fs !! path) as [data|] eqn:E; simpl.
  2:{ intros [= <- <-]. split_and!; try done. apply store_inv_empty.
      unfold reload, Load; simpl. by rewrite E. }
  destruct (io_readable io); simpl; [|done].
  destruct (decide (data = "")) as [->|Hd].
  { intros [= <- <-]. split_and!; try done. apply store_inv_empty.
    unfold reload, Load; simpl. by rewrite E. }
  destruct (Unmarshal data) as [[v ports]|] eqn:Eu.
  - destruct (decide (version < v)) as [|Hv]; [done|]. intros [= <- <-].
    apply json_decoded in Eu as Hsafe. split_and!; try done. split_and!; simpl.
    + destruct Hsafe as [? ?]. split; [|done]. simpl. case_decide; [apply version_int64|done].
    + case_decide; lia.
    + intros _. unfold reload, Load; simpl. rewrite E, decide_False by done. simpl.
      by rewrite Eu, decide_False by done.
  - destruct (io_backup_ok io); [|done]. intros [= <- <-].
    pose proof (backup_ne path (io_unix io)) as Hne.
    split_and!; try done; [|by rewrite lookup_insert_ne]. apply store_inv_empty.
    unfold reload, Load; simpl. rewrite lookup_insert_ne, E by done. simpl.
    rewrite decide_False by done. by rewrite Eu.
Qed.

(** What a start loads is what [reload] reads. *)
Lemma Load_reload io path fs fs' s :
  Load io path fs = (fs', Ok s) → reload path fs = Some (Snapshot s).
Proof.
  intros ((_ & _ & Hr) & Hd & <- & Hp)%Load_inv. rewrite <-(reload_lookup _ _ _ Hp). by apply Hr.
Qed.

(** A state file that does not parse stays where it is: the backup is a copy
    beside it, and the daemon starts from nothing. *)
Theorem Load_keeps_corrupt_file io path fs data :
  fs !! path = Some data → data ≠ "" → io_readable io = true → io_backup_ok io = true →
  Unmarshal data = None →
  (Load io path fs).1 !! path = Some data ∧
  (Load io path fs).1 !! (path +:+ ".corrupt." +:+ Itoa (io_unix io)) = Some data ∧
  (Load io path fs).2 = Ok (mkStore path (mkModel version ∅) false).
Proof.
  intros E Hd Hr Hb Hu. unfold Load. rewrite E, Hr, Hu, Hb. simpl. rewrite decide_False by done. simpl.
  rewrite lookup_insert_ne by apply backup_ne. by rewrite lookup_insert_eq.
Qed.

(** When SetPort returns without error the assignment is durable: what a restart loads is the
    store's contents, in which the name has the port and every other assignment is as before,
    also when an earlier save had failed. *)
Theorem SetPort_durable io s fs name port s' fs' :
  store_inv s fs → io_fresh io (s_path s) fs → valid_utf8 name = true → in_int64 port →
  SetPort io s fs name port = (s', fs', None) →
  reload (s_path s) fs' = Some (Snapshot s') ∧ Port s' name = port ∧
  (∀ n, n ≠ name → Port s' n = Port s n) ∧ store_inv s' fs'.
Proof. intros. by edestruct SetPort_inv as (? & ? & ? & ? & ?); [done..|]; auto. Qed.

(** C11: A save is atomic: at every instant between its system calls, and whichever of them
    fails, a restart reads either the ports that were on disk before or all of the new ones; on
    success the file holds the new state and on failure no file has changed. *)
Theorem save_crash_atomic io s fs fs' hist err :
  store_inv s fs → io_fresh io (s_path s) fs →
  saveLocked io s fs = (fs', hist, err) →
  fs' = match err with None => <[s_path s := MarshalIndent (s_m s)]> fs | Some _ => fs end ∧
  Forall (λ f, reload (s_path s) f = reload (s_path s) fs ∨
               reload (s_path s) f = Some (Snapshot s)) hist.
Proof.
  intros (Hsafe & Hv & _) Hio E. split; [by eapply saveLocked_result|].
  apply saveLocked_history in E; [|done]. apply (Forall_impl _ _ _ E). intros f [Hf|Hf].
  - left. by apply reload_lookup.
  - right. by apply reload_saved.
Qed.

End Durability.
