(* ===== verification/Json.v ===== *)
(** * The state file's JSON

    What [store.go] uses of [encoding/json]: [json.MarshalIndent] on the
    model, and [json.Unmarshal] into it, as the Go library defines them; and
    the proof that they keep the promises of the class [JSON]. *)

From S2P Require Import Prelude GoStrings State.
From Stdlib Require DecimalFacts DecimalPos DecimalN.
From Stdlib Require Import Ascii DecimalString.
Local Open Scope char_scope.

Abbreviation text := (list ascii).

(** ** Runes *)

(** The length of the UTF-8 encoding at the head, 0 if there is none. *)
Definition rune_len (l : text) : nat :=
  match l with
  | [] => 0
  | a :: l1 =>
    if is_ascii a then 1
    else match l1 with
    | [] => 0
    | b :: l2 =>
      if in_range 194 223 a then if cont b then 2 else 0
      else match l2 with
      | [] => 0
      | c :: l3 =>
        if in_range 224 239 a then
          if (if in_range 224 224 a then in_range 160 191 b
              else if in_range 237 237 a then in_range 128 159 b else cont b) && cont c
          then 3 else 0
        else match l3 with
        | [] => 0
        | d :: _ =>
          if in_range 240 244 a &&
             (if in_range 240 240 a then in_range 144 191 b
              else if in_range 244 244 a then in_range 128 143 b else cont b) && cont c && cont d
          then 4 else 0
        end
      end
    end
  end.

Definition byte (n : N) : ascii := ascii_of_N n.

(** [utf8.AppendRune] for the runes up to U+10FFFF. *)
Definition append_rune (r : N) : text :=
  (if decide (r < 128) then [byte r]
   else if decide (r < 2048) then [byte (192 + r / 64); byte (128 + r mod 64)]
   else if decide (r < 65536) then
     [byte (224 + r / 4096); byte (128 + (r / 64) mod 64); byte (128 + r mod 64)]
   else [byte (240 + r / 262144); byte (128 + (r / 4096) mod 64);
         byte (128 + (r / 64) mod 64); byte (128 + r mod 64)])%N.

Definition RuneError : N := 65533.

(** ** Strings *)

Definition hex_lower (n : nat) : ascii :=
  ascii_of_nat (if n <? 10 then 48 + n else 87 + n)%nat.

(** The escape of a byte below 128, as [encoding/json] writes it with HTML
    escaping on. *)
Definition escape_ascii (c : ascii) : text :=
  let n := nat_of_ascii c in
  if decide (c = "034" ∨ c = "\") then ["\"; c]
  else if decide (n = 8) then ["\"; "b"]
  else if decide (n = 12) then ["\"; "f"]
  else if decide (n = 10) then ["\"; "n"]
  else if decide (n = 13) then ["\"; "r"]
  else if decide (n = 9) then ["\"; "t"]
  else if decide (n < 32 ∨ c = "<" ∨ c = ">" ∨ c = "&")
  then ["\"; "u"; "0"; "0"; hex_lower (n / 16); hex_lower (n mod 16)]
  else [c].

(** The line separators U+2028 and U+2029. *)
Definition line_sep (l : text) : option ascii :=
  match l with
  | a :: b :: c :: _ =>
    if decide (a = "226" ∧ b = "128" ∧ c = "168") then Some "8"
    else if decide (a = "226" ∧ b = "128" ∧ c = "169") then Some "9"
    else None
  | _ => None
  end.

Fixpoint escape (fuel : nat) (l : text) : text :=
  match fuel, l with
  | S fuel, c :: l' =>
    if is_ascii c then escape_ascii c ++ escape fuel l'
    else match rune_len l with
    | 0 => ["\"; "u"; "f"; "f"; "f"; "d"] ++ escape fuel l'
    | n => match line_sep l with
           | Some d => ["\"; "u"; "2"; "0"; "2"; d] ++ escape fuel (drop n l)
           | None => take n l ++ escape fuel (drop n l)
           end
    end
  | _, _ => []
  end.

Definition quote (l : text) : text := "034" :: escape (length l) l ++ ["034"].

(** ** The encoder *)

(** The members of [tcp_ports], in ascending order of the keys. *)
Definition sorted_ports (ps : gmap string Z) : list (string * Z) :=
  merge_sort (λ a b, String.le a.1 b.1) (map_to_list ps).

Definition newline : ascii := "010".

Definition member (kv : string * Z) : text :=
  newline :: bytes "    " ++ quote (bytes kv.1) ++ bytes ": " ++ bytes (Itoa kv.2).

Fixpoint members (l : list (string * Z)) : text :=
  match l with
  | [] => []
  | [kv] => member kv
  | kv :: l => member kv ++ "," :: members l
  end.

Definition ports_text (ps : gmap string Z) : text :=
  match sorted_ports ps with
  | [] => bytes "{}"
  | l => "{" :: members l ++ newline :: bytes "  }"
  end.

(** [json.MarshalIndent] with an indent of two spaces. *)
Definition marshal (m : Model) : text :=
  "{" :: newline :: bytes "  " ++ quote (bytes "version") ++ bytes ": " ++ bytes (Itoa (sm_Version m)) ++
  "," :: newline :: bytes "  " ++ quote (bytes "tcp_ports") ++ bytes ": " ++ ports_text (sm_TCPPorts m) ++
  newline :: bytes "}".

(** ** The decoder *)

Inductive json :=
| JNull
| JBool (b : bool)
| JNum (literal : text)
| JStr (s : text)
| JArr (vs : list json)
| JObj (ms : list (text * json)).

Fixpoint skip_ws (l : text) : text :=
  match l with
  | c :: l' => if decide (c = " " ∨ c = "009" ∨ c = newline ∨ c = "013") then skip_ws l' else l
  | [] => []
  end.

Definition hex_value (c : ascii) : option N :=
  let n := N_of_ascii c in
  (if (48 <=? n) && (n <=? 57) then Some (n - 48)
   else if (97 <=? n) && (n <=? 102) then Some (n - 87)
   else if (65 <=? n) && (n <=? 70) then Some (n - 55)
   else None)%N.

(** Four hexadecimal digits. *)
Definition getu4 (l : text) : option (N * text) :=
  match l with
  | a :: b :: c :: d :: l =>
    match hex_value a, hex_value b, hex_value c, hex_value d with
    | Some a, Some b, Some c, Some d => Some (((a * 16 + b) * 16 + c) * 16 + d, l)%N
    | _, _, _, _ => None
    end
  | _ => None
  end.

(** The rune of a [\u] escape whose digits are read, with the second half of
    a surrogate pair if one follows. *)
Definition unescape_rune (r : N) (l : text) : N * text :=
  if decide (55296 ≤ r < 57344)%N then
    match l with
    | "\" :: "u" :: l1 =>
      match getu4 l1 with
      | Some (r1, l2) =>
        if decide (r < 56320 ∧ 56320 ≤ r1 < 57344)%N
        then (65536 + (r - 55296) * 1024 + (r1 - 56320), l2)%N else (RuneError, l)
      | None => (RuneError, l)
      end
    | _ => (RuneError, l)
    end
  else (r, l).

Definition simple_escape (c : ascii) : option ascii :=
  if decide (c = "034" ∨ c = "\" ∨ c = "/") then Some c
  else if decide (c = "b") then Some "008"
  else if decide (c = "f") then Some "012"
  else if decide (c = "n") then Some "010"
  else if decide (c = "r") then Some "013"
  else if decide (c = "t") then Some "009"
  else None.

(** What is read, put in front of the result of the rest. *)
Definition prepend (p : text) (r : option (text * text)) : option (text * text) :=
  match r with Some (s, rest) => Some (p ++ s, rest) | None => None end.

(** A string after its opening quote: its contents and the rest. *)
Fixpoint parse_string (fuel : nat) (l : text) : option (text * text) :=
  match fuel, l with
  | S fuel, c :: l' =>
    if decide (c = "034") then Some ([], l')
    else if decide (c = "\") then
      match l' with
      | e :: l1 =>
        if decide (e = "u") then
          match getu4 l1 with
          | Some (r, l2) =>
            let '(r, l3) := unescape_rune r l2 in prepend (append_rune r) (parse_string fuel l3)
          | None => None
          end
        else
          match simple_escape e with
          | Some c => prepend [c] (parse_string fuel l1)
          | None => None
          end
      | [] => None
      end
    else if (nat_of_ascii c <? 32)%nat then None
    else
      match rune_len l with
      | O => prepend (append_rune RuneError) (parse_string fuel l')
      | n => prepend (take n l) (parse_string fuel (drop n l))
      end
  | _, _ => None
  end.

(** The longest run of digits, and the rest. *)
Fixpoint digits (l : text) : text * text :=
  match l with
  | c :: l' => if is_digit c then let '(ds, rest) := digits l' in (c :: ds, rest) else ([], l)
  | [] => ([], [])
  end.

(** The parts of a number: sign, integer without a leading zero, fraction and
    exponent. *)
Definition parse_integer (l : text) : option (text * text) :=
  match l with
  | "0" :: l => Some (["0"], l)
  | _ => match digits l with
         | ([], _) => None
         | (ds, rest) => Some (ds, rest)
         end
  end.

Definition parse_fraction (l : text) : option (text * text) :=
  match l with
  | "." :: l => match digits l with
                | ([], _) => None
                | (ds, rest) => Some ("." :: ds, rest)
                end
  | _ => Some ([], l)
  end.

Definition parse_exponent (l : text) : option (text * text) :=
  match l with
  | e :: l1 =>
    if decide (e = "e" ∨ e = "E") then
      let '(sign, l2) := match l1 with
                         | s :: l2 => if decide (s = "+" ∨ s = "-") then ([s], l2) else ([], l1)
                         | [] => ([], l1)
                         end in
      match digits l2 with
      | ([], _) => None
      | (ds, rest) => Some (e :: sign ++ ds, rest)
      end
    else Some ([], l)
  | [] => Some ([], l)
  end.

Definition parse_sign (l : text) : text * text :=
  match l with "-" :: l0 => (["-"], l0) | _ => ([], l) end.

Definition parse_number (l : text) : option (text * text) :=
  let '(sign, l0) := parse_sign l in
  match parse_integer l0 with
  | None => None
  | Some (i, l1) =>
    match parse_fraction l1 with
    | None => None
    | Some (f, l2) =>
      match parse_exponent l2 with
      | None => None
      | Some (e, l3) => Some (sign ++ i ++ f ++ e, l3)
      end
    end
  end.

(** A literal name such as [null]. *)
Definition literal (w : string) (v : json) (l : text) : option (json * text) :=
  match strip_prefix (bytes w) l with Some rest => Some (v, rest) | None => None end.

(** White space, then the byte [c]. *)
Definition expect (c : ascii) (l : text) : option text :=
  match skip_ws l with
  | x :: l' => if decide (x = c) then Some l' else None
  | [] => None
  end.

(** Values; [fuel] bounds the nested calls, at most two of which start at the
    same byte, [depth] is the nesting that is still allowed. *)
Fixpoint parse_value (fuel : nat) (depth : N) (l : text) : option (json * text) :=
  match fuel with
  | O => None
  | S fuel =>
    match skip_ws l with
    | [] => None
    | c :: l' =>
      if decide (c = "034") then
        match parse_string (length l') l' with
        | Some (s, rest) => Some (JStr s, rest)
        | None => None
        end
      else if decide (c = "{") then
        if decide (depth = 0%N) then None
        else match expect "}" l' with
             | Some rest => Some (JObj [], rest)
             | None => match parse_members fuel (depth - 1)%N l' with
                       | Some (ms, rest) => Some (JObj ms, rest)
                       | None => None
                       end
             end
      else if decide (c = "[") then
        if decide (depth = 0%N) then None
        else match expect "]" l' with
             | Some rest => Some (JArr [], rest)
             | None => match parse_elements fuel (depth - 1)%N l' with
                       | Some (vs, rest) => Some (JArr vs, rest)
                       | None => None
                       end
             end
      else if decide (c = "n") then literal "null" JNull (c :: l')
      else if decide (c = "t") then literal "true" (JBool true) (c :: l')
      else if decide (c = "f") then literal "false" (JBool false) (c :: l')
      else match parse_number (c :: l') with
           | Some (n, rest) => Some (JNum n, rest)
           | None => None
           end
    end
  end
with parse_members (fuel : nat) (depth : N) (l : text) : option (list (text * json) * text) :=
  match fuel with
  | O => None
  | S fuel =>
    match expect "034" l with
    | None => None
    | Some l1 =>
      match parse_string (length l1) l1 with
      | None => None
      | Some (k, l2) =>
        match expect ":" l2 with
        | None => None
        | Some l3 =>
          match parse_value fuel depth l3 with
          | None => None
          | Some (v, l4) =>
            match expect "}" l4, expect "," l4 with
            | Some rest, _ => Some ([(k, v)], rest)
            | None, Some l5 =>
              match parse_members fuel depth l5 with
              | Some (ms, rest) => Some ((k, v) :: ms, rest)
              | None => None
              end
            | None, None => None
            end
          end
        end
      end
    end
  end
with parse_elements (fuel : nat) (depth : N) (l : text) : option (list json * text) :=
  match fuel with
  | O => None
  | S fuel =>
    match parse_value fuel depth l with
    | None => None
    | Some (v, l1) =>
      match expect "]" l1, expect "," l1 with
      | Some rest, _ => Some ([v], rest)
      | None, Some l2 =>
        match parse_elements fuel depth l2 with
        | Some (vs, rest) => Some (v :: vs, rest)
        | None => None
        end
      | None, None => None
      end
    end
  end.

(** A document: one value and white space, nested at most 10000 deep. *)
Definition parse_json (l : text) : option json :=
  match parse_value (S (2 * length l)) 10000 l with
  | Some (v, rest) => if decide (skip_ws rest = []) then Some v else None
  | None => None
  end.

(** The rune folding that matches member names to field names: ASCII case, and
    the two other runes that fold to an ASCII letter, U+017F and U+212A. *)
Fixpoint fold_name (l : text) : text :=
  match l with
  | "197" :: "191" :: l => "s" :: fold_name l
  | "226" :: "132" :: "170" :: l => "k" :: fold_name l
  | c :: l => lower_byte c :: fold_name l
  | [] => []
  end.

Definition names (k : text) (field : string) : Prop := fold_name k = bytes field.

#[global] Instance names_dec k field : Decision (names k field).
Proof. unfold names. apply _. Defined.

(** Storing a value in an int field: null leaves the field as it is. *)
Definition store_int (old : Z) (v : json) : option Z :=
  match v with
  | JNull => Some old
  | JNum lit => Atoi (str lit)
  | _ => None
  end.

(** Storing a value in the map: an object is added to the map that is there,
    made if there is none. *)
Fixpoint store_entries (ps : gmap string Z) (ms : list (text * json)) : option (gmap string Z) :=
  match ms with
  | [] => Some ps
  | (k, v) :: ms =>
    match store_int 0 v with
    | Some p => store_entries (<[str k := p]> ps) ms
    | None => None
    end
  end.

Definition store_ports (old : option (gmap string Z)) (v : json) : option (option (gmap string Z)) :=
  match v with
  | JNull => Some None
  | JObj ms => Some <$> store_entries (default ∅ old) ms
  | _ => None
  end.

(** The members of the document, in order; other names are ignored. *)
Fixpoint store_fields (m : Z * option (gmap string Z)) (ms : list (text * json)) :
  option (Z * option (gmap string Z)) :=
  match ms with
  | [] => Some m
  | (k, v) :: ms =>
    match
      if decide (names k "version") then (λ n, (n, m.2)) <$> store_int m.1 v
      else if decide (names k "tcp_ports") then (λ ps, (m.1, ps)) <$> store_ports m.2 v
      else Some m
    with
    | Some m => store_fields m ms
    | None => None
    end
  end.

(** [json.Unmarshal] into a zero [Model]. *)
Definition unmarshal (l : text) : option (Z * option (gmap string Z)) :=
  match parse_json l with
  | Some JNull => Some (0%Z, None)
  | Some (JObj ms) => store_fields (0%Z, None) ms
  | _ => None
  end.

(** ** Runes *)

Lemma valid_rune l :
  valid_utf8_list l =
  match rune_len l with O => bool_decide (l = []) | S n => valid_utf8_list (drop n (tail l)) end.
Proof.
  destruct l as [|a l]; [done|].
  cbn [rune_len valid_utf8_list]. destruct (is_ascii a); [done|].
  destruct l as [|b l]; [done|]. destruct (in_range 194 223 a); [by destruct (cont b)|].
  destruct l as [|c l]; [done|]. destruct (in_range 224 239 a).
  { set (x := if in_range 224 224 a then _ else _). by destruct x, (cont c). }
  destruct l as [|d l]; [done|]. set (x := if in_range 240 240 a then _ else _).
  by destruct (in_range 240 244 a), x, (cont c), (cont d).
Qed.

(** The encoding at the head is a prefix that can be followed by anything. *)
Lemma rune_len_app l : rune_len l ≠ 0 →
  ∃ p k, l = p ++ k ∧ length p = rune_len l ∧ ∀ k', rune_len (p ++ k') = rune_len l.
Proof.
  destruct l as [|a l]; [done|].
  cbn [rune_len]. destruct (is_ascii a) eqn:Ea.
  { exists [a], l. split_and!; [done|done|]. intros k'. cbn [rune_len app]. by rewrite Ea. }
  destruct l as [|b l]; [done|]. destruct (in_range 194 223 a) eqn:Eb.
  { destruct (cont b) eqn:E; [|done]. exists [a; b], l. split_and!; [done|done|].
    intros k'. cbn [rune_len app]. by rewrite Ea, Eb, E. }
  destruct l as [|c l]; [done|]. destruct (in_range 224 239 a) eqn:Ec.
  { case_match eqn:E; [|done]. exists [a; b; c], l. split_and!; [done|done|].
    intros k'. cbn [rune_len app]. by rewrite Ea, Eb, Ec, E. }
  destruct l as [|d l]; [done|]. case_match eqn:E; [|done]. exists [a; b; c; d], l. split_and!; [done|done|].
  intros k'. cbn [rune_len app]. by rewrite Ea, Eb, Ec, E.
Qed.
Lemma rune_len_ascii c l : is_ascii c = true → rune_len (c :: l) = 1.
Proof. simpl. by intros ->. Qed.

Lemma rune_len_long c l : is_ascii c = false → rune_len (c :: l) ≠ 1.
Proof. intros Hc. cbn [rune_len]. rewrite Hc. by repeat case_match. Qed.

Lemma nat_of_byte n : (n < 256)%N → nat_of_ascii (byte n) = N.to_nat n.
Proof. intros. unfold nat_of_ascii, byte. by rewrite N_ascii_embedding. Qed.

Lemma in_range_byte lo hi n :
  (n < 256)%N → in_range lo hi (byte n) = bool_decide (lo ≤ N.to_nat n ≤ hi).
Proof.
  intros. unfold in_range. rewrite nat_of_byte by done. apply eq_true_iff_eq.
  by rewrite bool_decide_eq_true, andb_true_iff, !Nat.leb_le.
Qed.

Lemma is_ascii_byte n : (n < 256)%N → is_ascii (byte n) = bool_decide (n < 128)%N.
Proof.
  intros. unfold is_ascii. rewrite nat_of_byte by done. apply eq_true_iff_eq.
  rewrite bool_decide_eq_true, Nat.ltb_lt. lia.
Qed.

(** Unicode scalar values: what [append_rune] encodes as valid UTF-8. *)
Definition scalar (r : N) : Prop := (r < 1114112 ∧ ¬ 55296 ≤ r < 57344)%N.

(** Arithmetic with division by constants. *)
Ltac div_lia := zify; Z.to_euclidean_division_equations; lia.

Lemma cont_low n : cont (byte (128 + n mod 64)) = true.
Proof.
  pose proof (N.mod_lt n 64 ltac:(done)).
  unfold cont. rewrite in_range_byte by lia. apply bool_decide_eq_true. revert H. generalize (n mod 64)%N. intros. lia.
Qed.

Lemma rune_len_append r k : scalar r → rune_len (append_rune r ++ k) = length (append_rune r).
Proof.
  intros [H1 H2]. unfold append_rune. repeat case_decide; cbn [rune_len app length]; rewrite ?cont_low.
  - by rewrite is_ascii_byte, bool_decide_true by lia.
  - assert (2 ≤ r / 64 < 32)%N as Hq by div_lia. revert Hq. generalize (r / 64)%N. intros q ?.
    rewrite is_ascii_byte, in_range_byte by lia. repeat case_bool_decide; try done; lia.
  - assert (r / 4096 < 16)%N as Hq by div_lia.
    assert (r / 4096 = 0 → 32 ≤ (r / 64) mod 64)%N as Hlo by div_lia.
    assert (r / 4096 = 13 → (r / 64) mod 64 < 32)%N as Hhi by div_lia.
    pose proof (N.mod_lt (r / 64) 64 ltac:(done)) as Hm.
    revert Hq Hlo Hhi Hm. generalize (r / 4096)%N, ((r / 64) mod 64)%N. intros q x ????.
    rewrite is_ascii_byte, !in_range_byte by lia. repeat case_bool_decide; try done; lia.
  - assert (r / 262144 < 5)%N as Hq by div_lia.
    assert (r / 262144 = 0 → 16 ≤ (r / 4096) mod 64)%N as Hlo by div_lia.
    assert (r / 262144 = 4 → (r / 4096) mod 64 < 16)%N as Hhi by div_lia.
    pose proof (N.mod_lt (r / 4096) 64 ltac:(done)) as Hm.
    revert Hq Hlo Hhi Hm. generalize (r / 262144)%N, ((r / 4096) mod 64)%N. intros q x ????.
    rewrite is_ascii_byte, !in_range_byte by lia. repeat case_bool_decide; try done; lia.
Qed.

(** ** Strings *)

Lemma parse_escape_ascii fuel c l : is_ascii c = true →
  parse_string (S fuel) (escape_ascii c ++ l) = prepend [c] (parse_string fuel l).
Proof. destruct c as [[] [] [] [] [] [] [] []]; try done; intros _; reflexivity. Qed.

(** A byte that starts a longer rune is none of the bytes [parse_string] looks for. *)
Lemma parse_rune fuel p l : length p = rune_len p → 2 ≤ length p → (∀ k', rune_len (p ++ k') = rune_len p) →
  parse_string (S fuel) (p ++ l) = prepend p (parse_string fuel l).
Proof.
  intros Hn H2 Hk. specialize (Hk l).
  destruct p as [|c p]; [simpl in H2; lia|]. destruct (is_ascii c) eqn:Hc.
  { rewrite (rune_len_ascii c) in Hn by done. lia. }
  cbn [app parse_string].
  rewrite !decide_False by (intros ->; done).
  replace (nat_of_ascii c <? 32)%nat with false
    by (symmetry; apply Nat.ltb_ge; unfold is_ascii in Hc; apply Nat.ltb_ge in Hc; lia).
  change (c :: p ++ l) with ((c :: p) ++ l).
  rewrite Hk, <-Hn. cbn [length]. change (S (length p)) with (length (c :: p)).
  by rewrite drop_app_length, take_app_length.
Qed.

Lemma escape_ascii_pos c : 0 < length (escape_ascii c).
Proof. unfold escape_ascii. repeat case_decide; simpl; lia. Qed.

Lemma line_sep_spec l d : line_sep l = Some d →
  ∃ k x, l = "226" :: "128" :: x :: k ∧ (d = "8" ∧ x = "168" ∨ d = "9" ∧ x = "169").
Proof.
  unfold line_sep. destruct l as [|a [|b [|c k]]]; [done..|].
  repeat case_decide; destruct_and?; intros; simplify_eq; eauto 10.
Qed.

(** A longer rune is copied or, a line separator, escaped; either way it is read back. *)
Lemma escape_rune n p k : rune_len (p ++ k) = length p → 2 ≤ length p →
  (∀ k', rune_len (p ++ k') = length p) →
  ∃ q, escape (S n) (p ++ k) = q ++ escape n k ∧ 0 < length q ∧
       ∀ fuel l, parse_string (S fuel) (q ++ l) = prepend p (parse_string fuel l).
Proof.
  intros Hn H2 Hk.
  assert (length p = rune_len p) as Hp by (by rewrite <-(app_nil_r p) at 2; rewrite Hk).
  destruct p as [|c p]; [simpl in H2; lia|]. destruct (is_ascii c) eqn:Hc.
  { simpl in Hp. rewrite Hc in Hp. simpl in H2. lia. }
  cbn [escape app]. rewrite Hc. change (c :: p ++ k) with ((c :: p) ++ k). rewrite Hn.
  cbn [length]. destruct (line_sep _) as [d|] eqn:Hd.
  - apply line_sep_spec in Hd as (k0 & x & E & Hx).
    assert (length (c :: p) = 3) as H3. { rewrite <-Hn, E. by destruct Hx as [[_ ->]|[_ ->]]. }
    destruct p as [|b [|y [|]]]; [done..| |done]. cbn [app] in E. injection E as -> -> -> ->.
    eexists ["\"; "u"; "2"; "0"; "2"; d]. split_and!; [done|simpl; lia|].
    intros fuel l. by destruct Hx as [[-> ->]|[-> ->]].
  - exists (c :: p). change (S (length p)) with (length (c :: p)).
    rewrite take_app_length, drop_app_length. split_and!; [done|simpl; lia|].
    intros. apply parse_rune; [done|done|]. intros. by rewrite Hk.
Qed.

(** What a string is read back as: each byte that starts no rune is written as
    the escape of the replacement character. *)
Definition replacement : text := append_rune RuneError.

Fixpoint sanitize (fuel : nat) (l : text) : text :=
  match fuel, l with
  | S fuel, c :: l' =>
    match rune_len l with
    | 0 => replacement ++ sanitize fuel l'
    | n => take n l ++ sanitize fuel (drop n l)
    end
  | _, _ => []
  end.

(** One rune or one stray byte. *)
Lemma escape_step n c l : ∃ p k q, sanitize (S n) (c :: l) = p ++ sanitize n k ∧ length k ≤ length l ∧
  escape (S n) (c :: l) = q ++ escape n k ∧ 0 < length q ∧
  ∀ fuel l, parse_string (S fuel) (q ++ l) = prepend p (parse_string fuel l).
Proof.
  destruct (is_ascii c) eqn:Hc.
  - exists [c], l, (escape_ascii c). split_and!; [|done| |apply escape_ascii_pos|].
    + cbn [sanitize]. by rewrite rune_len_ascii.
    + simpl. by rewrite Hc.
    + intros. by apply parse_escape_ascii.
  - destruct (rune_len (c :: l)) as [|m] eqn:Em.
    + exists replacement, l, ["\"; "u"; "f"; "f"; "f"; "d"]. split_and!; [|done| |simpl; lia|].
      * cbn [sanitize]. by rewrite Em.
      * cbn [escape]. by rewrite Hc, Em.
      * reflexivity.
    + destruct (rune_len_app (c :: l)) as (p & k & E & Hp & Hk); [lia|]. rewrite Em in Hp, Hk.
      destruct (escape_rune n p k) as (q & Eq & Hq & Hparse).
      * rewrite <-E. lia.
      * pose proof (rune_len_long c l Hc). lia.
      * intros. rewrite Hk. lia.
      * assert (drop (S m) (c :: l) = k ∧ take (S m) (c :: l) = p) as [Ed Et]
          by (by rewrite E, <-Hp, drop_app_length, take_app_length).
        exists p, k, q. rewrite <-E in Eq. split_and!; try done.
        -- cbn [sanitize]. by rewrite Em, Ed, Et.
        -- assert (length (c :: l) = length (p ++ k)) as EL by congruence. rewrite length_app in EL. simpl in *. lia.
Qed.

Lemma parse_escape_any n l fuel rest :
  length l ≤ n → length (escape n l) < fuel →
  parse_string fuel (escape n l ++ "034" :: rest) = Some (sanitize n l, rest).
Proof.
  revert l fuel. induction n as [|n IH]; intros l fuel Hn Hf.
  { destruct l; [|simpl in Hn; lia]. by destruct fuel; [simpl in Hf; lia|]. }
  destruct l as [|c l]; [by destruct fuel; [simpl in Hf; lia|]|].
  destruct (escape_step n c l) as (p & k & q & Es & Hk & Eq & Hq & Hparse).
  rewrite Eq, Es in *. rewrite length_app in Hf. destruct fuel as [|fuel]; [lia|].
  rewrite <-app_assoc, Hparse, IH; [done|simpl in *; lia|lia].
Qed.

(** Valid strings are read back as they are. *)
Lemma sanitize_valid n l : length l ≤ n → valid_utf8_list l = true → sanitize n l = l.
Proof.
  revert l. induction n as [|n IH]; intros [|c l] Hn Hl; try done; [simpl in Hn; lia|].
  rewrite valid_rune in Hl. cbn [sanitize]. destruct (rune_len (c :: l)) as [|m]; [done|].
  change (drop m (tail (c :: l))) with (drop (S m) (c :: l)) in Hl.
  rewrite IH, take_drop; [done| |done]. cbn [drop length] in *. rewrite length_drop. lia.
Qed.

Lemma parse_escape n l fuel rest :
  length l ≤ n → length (escape n l) < fuel → valid_utf8_list l = true →
  parse_string fuel (escape n l ++ "034" :: rest) = Some (l, rest).
Proof. intros Hn Hf Hl. rewrite parse_escape_any by done. by rewrite sanitize_valid. Qed.

(** What is read is valid UTF-8, whatever the bytes are. *)
Lemma valid_prefix p s : p ≠ [] → rune_len (p ++ s) = length p →
  valid_utf8_list (p ++ s) = valid_utf8_list s.
Proof.
  intros Hp Hn. rewrite valid_rune, Hn. destruct p as [|c p]; [done|].
  simpl. by rewrite drop_app_length.
Qed.

Lemma append_rune_nonempty r : append_rune r ≠ [].
Proof. unfold append_rune. by repeat case_decide. Qed.

Lemma hex_value_bound c n : hex_value c = Some n → (n < 16)%N.
Proof. destruct c as [[] [] [] [] [] [] [] []]; try done; by intros [= <-]. Qed.

Lemma getu4_spec l r l' : getu4 l = Some (r, l') → (r < 65536)%N ∧ length l' < length l.
Proof.
  unfold getu4. repeat case_match; try done. intros; simplify_eq/=.
  repeat match goal with H : hex_value _ = Some _ |- _ => apply hex_value_bound in H end. split; lia.
Qed.

Lemma unescape_rune_spec r l r' l' : (r < 65536)%N → unescape_rune r l = (r', l') →
  scalar r' ∧ length l' ≤ length l.
Proof.
  intros Hr. unfold unescape_rune, scalar, RuneError. case_decide; [|by intros; simplify_eq; split; [lia|]].
  repeat case_match; intros; simplify_eq/=; try (split; lia).
  all: match goal with H : getu4 _ = Some _ |- _ => apply getu4_spec in H as [? ?] end; split; lia.
Qed.

Lemma simple_escape_ascii c e : simple_escape c = Some e → is_ascii e = true.
Proof. unfold simple_escape. repeat case_decide; destruct_or?; intros; by simplify_eq. Qed.

Lemma prepend_some p r s rest : prepend p r = Some (s, rest) →
  ∃ s', r = Some (s', rest) ∧ s = p ++ s'.
Proof. destruct r as [[s' rest']|]; [|done]. simpl. intros; simplify_eq. eauto. Qed.

Lemma parse_string_spec fuel l s rest : parse_string fuel l = Some (s, rest) →
  valid_utf8_list s = true ∧ length rest < length l.
Proof.
  revert l s rest. induction fuel as [|fuel IH]; intros l s rest; [done|].
  destruct l as [|c l]; [done|]. cbn [parse_string]. case_decide.
  { intros; simplify_eq/=. auto with lia. }
  case_decide.
  { destruct l as [|e l]; [done|]. case_decide.
    - destruct (getu4 l) as [[r l2]|] eqn:Eg; [|done]. apply getu4_spec in Eg as [Hr Hl].
      destruct (unescape_rune r l2) as [r' l3] eqn:Eu.
      apply unescape_rune_spec in Eu as [Hs Hl3]; [|done].
      intros (s' & [Hv Hrest]%IH & ->)%prepend_some. simpl. split; [|lia].
      rewrite valid_prefix; [done|apply append_rune_nonempty|by apply rune_len_append].
    - destruct (simple_escape e) as [x|] eqn:Ee; [|done]. apply simple_escape_ascii in Ee.
      intros (s' & [Hv Hrest]%IH & ->)%prepend_some. simpl. rewrite Ee. split; [done|lia]. }
  destruct (nat_of_ascii c <? 32)%nat; [done|].
  destruct (rune_len (c :: l)) as [|m] eqn:Em.
  - intros (s' & [Hv Hrest]%IH & ->)%prepend_some. split; [|simpl; lia].
    rewrite valid_prefix; [done|done|]. apply rune_len_append. unfold scalar, RuneError. lia.
  - destruct (rune_len_app (c :: l)) as (p & k & E & Hp & Hk); [lia|]. rewrite Em in Hp, Hk.
    rewrite E, <-Hp, take_app_length, drop_app_length.
    intros (s' & [Hv Hrest]%IH & ->)%prepend_some. rewrite length_app. split; [|lia].
    rewrite valid_prefix; [done|by destruct p|by rewrite Hk].
Qed.

(** ** Numbers *)

(** A run of digits ends where something else follows. *)
Definition no_digit (l : text) : Prop :=
  match l with c :: _ => is_digit c = false | [] => True end.

Lemma digits_app ds l : Forall (λ c, is_digit c = true) ds → no_digit l → digits (ds ++ l) = (ds, l).
Proof.
  induction 1 as [|c ds Hc Hds IH]; intros Hl; cbn [digits app].
  - destruct l as [|c l]; [done|]. simpl in *. by rewrite Hl.
  - by rewrite Hc, IH.
Qed.

(** What may follow a number that is an integer. *)
Definition number_end (l : text) : Prop :=
  match l with c :: _ => is_digit c = false ∧ c ∉ bytes ".eE" | [] => True end.

Lemma uint_digits d : Forall (λ c, is_digit c = true) (bytes (NilEmpty.string_of_uint d)).
Proof. induction d; simpl; constructor; done. Qed.

(** Decimal notation without leading zeros. *)
Lemma uint_integer d l : d ≠ Decimal.Nil → Decimal.unorm d = d → no_digit l →
  parse_integer (bytes (NilEmpty.string_of_uint d) ++ l) = Some (bytes (NilEmpty.string_of_uint d), l).
Proof.
  intros Hd Hn Hl.
  destruct d as [|d|d|d|d|d|d|d|d|d|d]; [done|..]; unfold parse_integer.
  { assert (d = Decimal.Nil) as ->; [|done].
    revert Hn. unfold Decimal.unorm. simpl. case_match eqn:E; [by intros [= <-]|..]; try done.
    intros; simplify_eq. by apply DecimalFacts.nzhead_nonzero in E. }
  all: cbn [NilEmpty.string_of_uint String.list_ascii_of_string app].
  all: match goal with |- context [digits (?c :: bytes ?x ++ ?l)] =>
         change (c :: bytes x ++ l) with ((c :: bytes x) ++ l); rewrite digits_app end; [done| |done].
  all: constructor; [done|apply uint_digits].
Qed.

Lemma N_unorm n : Decimal.unorm (N.to_uint n) = N.to_uint n.
Proof. by rewrite <-DecimalN.Unsigned.to_of, DecimalN.Unsigned.of_to. Qed.

Lemma Itoa_form n : ∃ sign d, bytes (Itoa n) = sign ++ bytes (NilEmpty.string_of_uint d) ∧
  (sign = [] ∨ sign = ["-"]) ∧ d ≠ Decimal.Nil ∧ Decimal.unorm d = d.
Proof.
  assert (∀ p, NilZero.string_of_uint (Pos.to_uint p) = NilEmpty.string_of_uint (Pos.to_uint p)) as E.
  { intros p. pose proof (DecimalPos.Unsigned.to_uint_nonnil p). by destruct (Pos.to_uint p). }
  destruct n as [|p|p]; unfold Itoa, Z.to_int, NilZero.string_of_int.
  - by exists [], (Decimal.D0 Decimal.Nil); auto.
  - exists [], (Pos.to_uint p). rewrite E. split_and!; [done|auto|apply DecimalPos.Unsigned.to_uint_nonnil|].
    apply (N_unorm (Npos p)).
  - exists ["-"], (Pos.to_uint p). rewrite E. split_and!; [done|auto|apply DecimalPos.Unsigned.to_uint_nonnil|].
    apply (N_unorm (Npos p)).
Qed.

Lemma number_end_fraction l : number_end l → parse_fraction l = Some ([], l) ∧ parse_exponent l = Some ([], l).
Proof.
  destruct l as [|c l]; [done|]. intros [_ Hc].
  assert (c ≠ "." ∧ c ≠ "e" ∧ c ≠ "E") as (H1 & H2 & H3) by (split_and!; intros ->; set_solver). split.
  - by destruct c as [[] [] [] [] [] [] [] []].
  - unfold parse_exponent. rewrite decide_False; [done|]. by intros [].
Qed.

Lemma parse_number_Itoa n l : number_end l →
  parse_number (bytes (Itoa n) ++ l) = Some (bytes (Itoa n), l).
Proof.
  intros Hl. destruct (number_end_fraction l Hl) as [Ef Ee].
  assert (no_digit l) as Hd by (destruct l; naive_solver).
  destruct (Itoa_form n) as (sign & d & -> & Hs & Hd0 & Hd1).
  pose proof (uint_integer d l Hd0 Hd1 Hd) as Ei. unfold parse_number.
  assert (parse_sign ((sign ++ bytes (NilEmpty.string_of_uint d)) ++ l) =
          (sign, bytes (NilEmpty.string_of_uint d) ++ l)) as ->.
  { destruct Hs as [-> | ->]; [|done]. by destruct d. }
  by rewrite Ei, Ef, Ee, !app_nil_r.
Qed.

(** ** Values *)

Definition white (c : ascii) : Prop := c = " " ∨ c = "009" ∨ c = newline ∨ c = "013".

#[global] Instance white_dec c : Decision (white c).
Proof. unfold white. apply _. Defined.

Ltac solve_white := apply (bool_decide_unpack (Forall white _)).

Lemma skip_ws_app ws l : Forall white ws → skip_ws (ws ++ l) = skip_ws l.
Proof. induction 1 as [|c ws Hc _ IH]; [done|]. cbn [skip_ws app]. by rewrite decide_True. Qed.

Lemma parse_value_number fuel depth c l : c = "-" ∨ is_digit c = true →
  parse_value (S fuel) depth (" " :: c :: l) =
  match parse_number (c :: l) with Some (n, rest) => Some (JNum n, rest) | None => None end.
Proof.
  destruct c as [[] [] [] [] [] [] [] []]; intros [?|?]; try done; reflexivity.
Qed.

Lemma parse_value_Itoa fuel depth n l : number_end l →
  parse_value (S fuel) depth (" " :: bytes (Itoa n) ++ l) = Some (JNum (bytes (Itoa n)), l).
Proof.
  intros Hl. pose proof (parse_number_Itoa n l Hl) as E.
  destruct (Itoa_form n) as (sign & d & Ei & Hs & Hd & _).
  destruct (bytes (Itoa n)) as [|c r] eqn:Eb.
  { by destruct Hs as [-> | ->]; destruct d. }
  cbn [app] in E |- *. rewrite parse_value_number, E; [done|].
  destruct Hs as [-> | ->]; [right|left; by simplify_eq/=].
  pose proof (uint_digits d) as Hds. rewrite app_nil_l in Ei. rewrite <-Ei in Hds. by inversion Hds.
Qed.

Lemma quote_app k l : quote k ++ l = "034" :: escape (length k) k ++ "034" :: l.
Proof. unfold quote. cbn [app]. by rewrite <-app_assoc. Qed.

(** One member of an object. *)
Lemma parse_members_step fuel depth ws k v l l4 :
  Forall white ws → valid_utf8_list k = true → parse_value fuel depth l = Some (v, l4) →
  parse_members (S fuel) depth (ws ++ quote k ++ ":" :: l) =
  match expect "}" l4, expect "," l4 with
  | Some rest, _ => Some ([(k, v)], rest)
  | None, Some l5 =>
    match parse_members fuel depth l5 with
    | Some (ms, rest) => Some ((k, v) :: ms, rest)
    | None => None
    end
  | None, None => None
  end.
Proof.
  intros Hws Hk Hv. cbn [parse_members].
  assert (expect "034" (ws ++ quote k ++ ":" :: l) = Some (escape (length k) k ++ "034" :: ":" :: l)) as ->.
  { unfold expect. rewrite skip_ws_app by done. by rewrite quote_app. }
  rewrite parse_escape; [|done|rewrite length_app; simpl; lia|done].
  change (expect ":" (":" :: l)) with (Some l). cbn match. by rewrite Hv.
Qed.

(** What is read back of a member the encoder wrote. *)
Definition entry (kv : string * Z) : text * json := (bytes kv.1, JNum (bytes (Itoa kv.2))).

Lemma number_end_comma l : number_end ("," :: l).
Proof. split; [done|]. by apply (bool_decide_unpack _). Qed.

Lemma number_end_newline l : number_end (newline :: l).
Proof. split; [done|]. by apply (bool_decide_unpack _). Qed.

Lemma parse_member fuel depth kv l : valid_utf8 kv.1 = true → number_end l →
  parse_members (S (S fuel)) depth (member kv ++ l) =
  match expect "}" l, expect "," l with
  | Some rest, _ => Some ([entry kv], rest)
  | None, Some l5 =>
    match parse_members (S fuel) depth l5 with
    | Some (ms, rest) => Some (entry kv :: ms, rest)
    | None => None
    end
  | None, None => None
  end.
Proof.
  intros Hk Hl. unfold member.
  change (newline :: bytes "    " ++ ?x) with ((newline :: bytes "    ") ++ x).
  rewrite <-!app_assoc. change (bytes ": " ++ ?x) with (":" :: " " :: x).
  apply parse_members_step; [by solve_white|done|by apply parse_value_Itoa].
Qed.

Lemma parse_members_ports l : ∀ fuel depth rest, l ≠ [] → Forall (λ kv, valid_utf8 kv.1 = true) l →
  length l < fuel →
  parse_members fuel depth (members l ++ newline :: bytes "  }" ++ rest) = Some (entry <$> l, rest).
Proof.
  induction l as [|kv l IH]; intros fuel depth rest Hne Hl Hf; [done|].
  apply Forall_cons in Hl as [Hk Hl]. destruct fuel as [|[|fuel]]; [simpl in Hf; lia..|].
  destruct l as [|kv' l].
  - cbn [members]. rewrite parse_member; [done|done|apply number_end_newline].
  - change (members (kv :: kv' :: l)) with (member kv ++ "," :: members (kv' :: l)).
    rewrite <-app_assoc, parse_member; [|done|apply number_end_comma].
    cbn [app]. change (expect "}" ("," :: ?x)) with (@None text). change (expect "," ("," :: ?x)) with (Some x).
    cbn match. rewrite IH; [done|done|done|simpl in *; lia].
Qed.

Lemma members_length l : length l ≤ length (members l).
Proof.
  induction l as [|kv l IH]; [done|]. destruct l as [|kv' l]; [unfold members, member; simpl; lia|].
  change (members (kv :: kv' :: l)) with (member kv ++ "," :: members (kv' :: l)).
  rewrite length_app. simpl in *. lia.
Qed.

Lemma parse_value_object fuel depth ws l : Forall white ws → depth ≠ 0%N →
  parse_value (S fuel) depth (ws ++ "{" :: l) =
  match expect "}" l with
  | Some rest => Some (JObj [], rest)
  | None => match parse_members fuel (depth - 1)%N l with
            | Some (ms, rest) => Some (JObj ms, rest)
            | None => None
            end
  end.
Proof.
  intros Hws Hd. cbn [parse_value]. rewrite skip_ws_app by done.
  change (skip_ws ("{" :: l)) with ("{" :: l). cbv beta iota.
  rewrite (decide_False (P := "{" = "034")), decide_True, decide_False by done. done.
Qed.

(** The value of [tcp_ports]. *)
Lemma parse_ports ps fuel depth rest :
  map_Forall (λ k _, valid_utf8 k = true) ps → length (ports_text ps) ≤ fuel → depth ≠ 0%N →
  parse_value fuel depth (" " :: ports_text ps ++ rest) = Some (JObj (entry <$> sorted_ports ps), rest).
Proof.
  intros Hps Hf Hd. unfold ports_text in *.
  assert (Forall (λ kv, valid_utf8 kv.1 = true) (sorted_ports ps)) as Hl.
  { apply map_Forall_to_list in Hps. unfold sorted_ports. rewrite merge_sort_Permutation.
    eapply Forall_impl; [done|]. by intros []. }
  pose proof (members_length (sorted_ports ps)) as HL.
  destruct (sorted_ports ps) as [|kv l] eqn:E; destruct fuel as [|fuel]; try (simpl in Hf; lia).
  { change (" " :: bytes "{}" ++ rest) with ([" "] ++ "{" :: "}" :: rest).
    by rewrite parse_value_object by (done || by solve_white). }
  rewrite <-E in *. cbn [length] in Hf. rewrite length_app in Hf. cbn [length] in Hf.
  change (" " :: ("{" :: ?x) ++ ?y) with ([" "] ++ "{" :: x ++ y).
  rewrite parse_value_object by (done || by solve_white). rewrite <-app_assoc.
  change ((newline :: bytes "  }") ++ rest) with (newline :: bytes "  }" ++ rest).
  rewrite parse_members_ports; [|by rewrite E|done|lia].
  assert (∀ x, expect "}" (members (sorted_ports ps) ++ x) = None) as ->; [|done].
  rewrite E. intros x. by destruct l.
Qed.

(** ** The document *)

Lemma parse_json_marshal m : map_Forall (λ k _, valid_utf8 k = true) (sm_TCPPorts m) →
  parse_json (marshal m) =
  Some (JObj [(bytes "version", JNum (bytes (Itoa (sm_Version m))));
              (bytes "tcp_ports", JObj (entry <$> sorted_ports (sm_TCPPorts m)))]).
Proof.
  intros Hps. set (ps := sm_TCPPorts m) in *. set (end_ := newline :: bytes "}").
  set (doc2 := newline :: bytes "  " ++ quote (bytes "tcp_ports") ++ ":" :: " " :: ports_text ps ++ end_).
  set (doc1 := newline :: bytes "  " ++ quote (bytes "version") ++ ":" :: " " ::
    bytes (Itoa (sm_Version m)) ++ "," :: doc2).
  assert (marshal m = "{" :: doc1) as E by done.
  assert (length (ports_text ps) + 10 ≤ length (marshal m)) as HL.
  { rewrite E. unfold doc1, doc2. repeat (cbn [length]; rewrite ?length_app). simpl. lia. }
  unfold parse_json. destruct (length (marshal m)) as [|[|[|n]]]; [lia..|]. rewrite E.
  change ("{" :: doc1) with ([] ++ "{" :: doc1).
  rewrite parse_value_object; [|by solve_white|done]. change (expect "}" doc1) with (@None text).
  replace (2 * S (S (S n))) with (S (S (S (S (2 * n + 2))))) by lia.
  unfold doc1. change (newline :: bytes "  " ++ ?x) with ((newline :: bytes "  ") ++ x).
  erewrite parse_members_step; [|by solve_white|done|apply parse_value_Itoa, number_end_comma].
  change (expect "}" ("," :: doc2)) with (@None text). change (expect "," ("," :: doc2)) with (Some doc2).
  cbv beta iota. unfold doc2. change (newline :: bytes "  " ++ ?x) with ((newline :: bytes "  ") ++ x).
  erewrite parse_members_step; [|by solve_white|done|apply parse_ports; [done|lia|done]].
  done.
Qed.

Lemma store_int_Itoa old n : in_int64 n → store_int old (JNum (bytes (Itoa n))) = Some n.
Proof. intros Hn. simpl. rewrite str_bytes. unfold Atoi. by rewrite parse_int_Itoa, decide_True. Qed.

Lemma store_entries_app l : ∀ ps, Forall (λ kv, in_int64 kv.2) l → NoDup l.*1 →
  store_entries ps (entry <$> l) = Some (list_to_map l ∪ ps).
Proof.
  induction l as [|[k v] l IH]; intros ps Hl Hd.
  { simpl. by rewrite (left_id_L ∅ (∪)). }
  apply Forall_cons in Hl as [Hv Hl]. apply NoDup_cons in Hd as [Hk Hd].
  change (store_entries ps (entry <$> ((k, v) :: l))) with
    (match store_int 0 (JNum (bytes (Itoa v))) with
     | Some p => store_entries (<[str (bytes k) := p]> ps) (entry <$> l) | None => None end).
  rewrite store_int_Itoa, str_bytes, IH by done. f_equal. simpl.
  rewrite <-insert_union_l, insert_union_r; [done|]. by apply not_elem_of_list_to_map.
Qed.

Lemma sorted_ports_map ps : NoDup (sorted_ports ps).*1 ∧ list_to_map (sorted_ports ps) = ps.
Proof.
  assert (sorted_ports ps ≡ₚ map_to_list ps) as HP by apply merge_sort_Permutation.
  assert (NoDup (sorted_ports ps).*1) as Hd by (rewrite HP; apply NoDup_fst_map_to_list).
  split; [done|]. rewrite (list_to_map_proper _ _ Hd HP). apply list_to_map_to_list.
Qed.

Lemma unmarshal_marshal m : json_safe m → unmarshal (marshal m) = Some (sm_Version m, Some (sm_TCPPorts m)).
Proof.
  intros [Hv Hps]. unfold unmarshal. rewrite parse_json_marshal.
  2:{ eapply map_Forall_impl; [done|]. naive_solver. }
  cbn [store_fields].
  rewrite (decide_True (P := names (bytes "version") "version")) by done. rewrite store_int_Itoa by done.
  cbn [fmap option_fmap option_map].
  rewrite (decide_False (P := names (bytes "tcp_ports") "version")) by done.
  rewrite (decide_True (P := names (bytes "tcp_ports") "tcp_ports")) by done. cbn [store_ports].
  destruct (sorted_ports_map (sm_TCPPorts m)) as [Hd E].
  rewrite store_entries_app, E; [|  |done].
  - simpl. by rewrite (right_id_L ∅ (∪)).
  - unfold sorted_ports. rewrite merge_sort_Permutation. apply map_Forall_to_list in Hps.
    eapply Forall_impl; [done|]. intros [] []. done.
Qed.

(** ** What the decoder returns, on any bytes *)

(** The member names of a value are valid UTF-8. *)
Fixpoint utf8_json (v : json) : Prop :=
  match v with
  | JArr vs => foldr (λ v P, utf8_json v ∧ P) True vs
  | JObj ms => foldr (λ kv P, (valid_utf8_list kv.1 = true ∧ utf8_json kv.2) ∧ P) True ms
  | _ => True
  end.

Lemma digits_split l ds rest : digits l = (ds, rest) → l = ds ++ rest.
Proof.
  revert ds rest. induction l as [|c l IH]; intros ds rest; cbn [digits]; [by intros [= <- <-]|].
  destruct (is_digit c); [|by intros [= <- <-]].
  destruct (digits l) as [ds' rest'] eqn:E. intros [= <- <-]. simpl. f_equal. by apply IH.
Qed.

Lemma parse_integer_split l i rest : parse_integer l = Some (i, rest) → l = i ++ rest ∧ i ≠ [].
Proof.
  unfold parse_integer. destruct (digits l) as [ds r] eqn:E. apply digits_split in E as ->.
  repeat case_match; intros; by simplify_eq.
Qed.

Lemma parse_fraction_split l f rest : parse_fraction l = Some (f, rest) → l = f ++ rest.
Proof.
  unfold parse_fraction. destruct l as [|c l]; [by intros [= <- <-]|].
  destruct (digits l) as [ds r] eqn:E. apply digits_split in E as ->.
  repeat case_match; intros; by simplify_eq.
Qed.

Lemma parse_exponent_split l e rest : parse_exponent l = Some (e, rest) → l = e ++ rest.
Proof.
  unfold parse_exponent. destruct l as [|c l]; [by intros [= <- <-]|].
  case_decide; [|by intros [= <- <-]].
  set (p := match l with s :: l2 => if decide (s = "+" ∨ s = "-") then ([s], l2) else ([], l) | [] => ([], l) end).
  assert (l = p.1 ++ p.2) as El. { subst p. destruct l; [done|]. by case_decide. }
  clearbody p. subst l. destruct p as [sign l2]. simpl. destruct (digits l2) as [ds r] eqn:E. apply digits_split in E as ->.
  destruct ds as [|d ds]; [done|]. intros [= <- <-]. simpl. by rewrite <-app_assoc.
Qed.

Lemma parse_number_split l n rest : parse_number l = Some (n, rest) → l = n ++ rest ∧ n ≠ [].
Proof.
  unfold parse_number. destruct (parse_sign l) as [sign l0] eqn:E0.
  assert (l = sign ++ l0) as ->.
  { revert E0. unfold parse_sign. repeat case_match; by intros [= <- <-]. }
  destruct (parse_integer l0) as [[i l1]|] eqn:E1; [|done]. apply parse_integer_split in E1 as [-> Hi].
  destruct (parse_fraction l1) as [[f l2]|] eqn:E2; [|done]. apply parse_fraction_split in E2 as ->.
  destruct (parse_exponent l2) as [[e l3]|] eqn:E3; [|done]. apply parse_exponent_split in E3 as ->.
  intros [= <- <-]. rewrite !app_assoc. split; [done|]. by destruct sign, i.
Qed.

Lemma skip_ws_length l : length (skip_ws l) ≤ length l.
Proof. induction l as [|c l IH]; simpl; [lia|]. case_decide; simpl; lia. Qed.

Lemma expect_length c l l' : expect c l = Some l' → length l' < length l.
Proof.
  unfold expect. pose proof (skip_ws_length l). destruct (skip_ws l) as [|x k]; [done|].
  case_decide; intros; simplify_eq/=; lia.
Qed.

Lemma strip_prefix_some p l l' : strip_prefix p l = Some l' → l = p ++ l'.
Proof.
  revert l. induction p as [|a p IH]; intros l; simpl; [by intros [= ->]|].
  destruct l as [|b l]; [done|]. case_decide; [|done]. intros ?%IH. by subst.
Qed.

Lemma literal_length w v l v' rest : bytes w ≠ [] → literal w v l = Some (v', rest) → v' = v ∧ length rest < length l.
Proof.
  unfold literal. destruct (strip_prefix (bytes w) l) eqn:E; [|done]. intros Hw [= <- <-].
  split; [done|]. apply strip_prefix_some in E as ->. rewrite length_app.
  destruct (bytes w); [done|]. simpl. lia.
Qed.

(** Every parser consumes bytes and keeps member names valid. *)
Lemma parse_sound fuel :
  (∀ depth l v rest, parse_value fuel depth l = Some (v, rest) → utf8_json v ∧ length rest < length l) ∧
  (∀ depth l ms rest, parse_members fuel depth l = Some (ms, rest) → utf8_json (JObj ms) ∧ length rest < length l) ∧
  (∀ depth l vs rest, parse_elements fuel depth l = Some (vs, rest) → utf8_json (JArr vs) ∧ length rest < length l).
Proof.
  induction fuel as [|fuel (IHv & IHm & IHe)]; [done|]. split_and!; intros depth l v rest.
  - cbn [parse_value]. pose proof (skip_ws_length l) as Hl. destruct (skip_ws l) as [|c l']; [done|].
    cbn [length] in Hl. case_decide.
    { destruct (parse_string _ l') as [[s r]|] eqn:E; [|done]. apply parse_string_spec in E as [_ ?].
      intros [= <- <-]. split; [done|lia]. }
    case_decide.
    { case_decide; [done|]. destruct (expect "}" l') eqn:Ee.
      - apply expect_length in Ee. intros [= <- <-]. split; [done|lia].
      - destruct (parse_members _ _ _) as [[ms r]|] eqn:E; [|done]. intros [= <- <-].
        apply IHm in E as [? ?]. split; [done|lia]. }
    case_decide.
    { case_decide; [done|]. destruct (expect "]" l') eqn:Ee.
      - apply expect_length in Ee. intros [= <- <-]. split; [done|lia].
      - destruct (parse_elements _ _ _) as [[vs r]|] eqn:E; [|done]. intros [= <- <-].
        apply IHe in E as [? ?]. split; [done|lia]. }
    do 3 (case_decide; [intros [-> ?]%literal_length; [split; [done|simpl in *; lia]|done]|]).
    destruct (parse_number _) as [[n r]|] eqn:E; [|done]. apply parse_number_split in E as [E Hn].
    intros [= <- <-]. split; [done|]. apply (f_equal length) in E. rewrite length_app in E.
    destruct n; [done|]. simpl in *. lia.
  - cbn [parse_members]. destruct (expect _ l) as [l1|] eqn:E1; [|done]. apply expect_length in E1.
    destruct (parse_string _ l1) as [[k l2]|] eqn:E2; [|done]. apply parse_string_spec in E2 as [Hk ?].
    destruct (expect _ l2) as [l3|] eqn:E3; [|done]. apply expect_length in E3.
    destruct (parse_value _ _ l3) as [[w l4]|] eqn:E4; [|done]. apply IHv in E4 as [Hw ?].
    destruct (expect "}" l4) as [r|] eqn:E5.
    { apply expect_length in E5. intros [= <- <-]. split; [done|lia]. }
    destruct (expect "," l4) as [l5|] eqn:E6; [|done]. apply expect_length in E6.
    destruct (parse_members _ _ l5) as [[ms r]|] eqn:E7; [|done]. apply IHm in E7 as [Hms ?].
    intros [= <- <-]. split; [done|lia].
  - cbn [parse_elements]. destruct (parse_value _ _ l) as [[w l4]|] eqn:E4; [|done]. apply IHv in E4 as [Hw ?].
    destruct (expect "]" l4) as [r|] eqn:E5.
    { apply expect_length in E5. intros [= <- <-]. split; [done|lia]. }
    destruct (expect "," l4) as [l5|] eqn:E6; [|done]. apply expect_length in E6.
    destruct (parse_elements _ _ l5) as [[ms r]|] eqn:E7; [|done]. apply IHe in E7 as [Hms ?].
    intros [= <- <-]. split; [done|lia].
Qed.

(** The fuel of [parse_json] is enough: more of it changes nothing. *)
Lemma parse_fuel n : ∀ m,
  (∀ depth l, 2 * length l < n → 2 * length l < m → parse_value n depth l = parse_value m depth l) ∧
  (∀ depth l, 2 * length l < n → 2 * length l < m → parse_members n depth l = parse_members m depth l) ∧
  (∀ depth l, S (2 * length l) < n → S (2 * length l) < m → parse_elements n depth l = parse_elements m depth l).
Proof.
  induction n as [|n IH]; intros m; [split_and!; intros; lia|].
  destruct m as [|m]; [split_and!; intros; lia|]. destruct (IH m) as (IHv & IHm & IHe); clear IH.
  destruct (parse_sound m) as (Sv & _ & _). split_and!; intros depth l Hn Hm.
  - cbn [parse_value]. pose proof (skip_ws_length l) as Hl. destruct (skip_ws l) as [|c l']; [done|].
    cbn [length] in Hl. by rewrite IHm, IHe by lia.
  - cbn [parse_members]. destruct (expect _ l) as [l1|] eqn:E1; [|done]. apply expect_length in E1.
    destruct (parse_string _ l1) as [[k l2]|] eqn:E2; [|done]. apply parse_string_spec in E2 as [_ ?].
    destruct (expect _ l2) as [l3|] eqn:E3; [|done]. apply expect_length in E3. rewrite IHv by lia.
    destruct (parse_value _ _ l3) as [[w l4]|] eqn:E4; [|done]. apply Sv in E4 as [_ ?].
    destruct (expect "}" l4) as [r|]; [done|].
    destruct (expect "," l4) as [l5|] eqn:E6; [|done]. apply expect_length in E6. by rewrite IHm by lia.
  - cbn [parse_elements]. rewrite IHv by lia.
    destruct (parse_value _ _ l) as [[w l4]|] eqn:E4; [|done]. apply Sv in E4 as [_ ?].
    destruct (expect "]" l4) as [r|]; [done|].
    destruct (expect "," l4) as [l5|] eqn:E6; [|done]. apply expect_length in E6. by rewrite IHe by lia.
Qed.

(** Ports that are Go ints under names that are valid UTF-8. *)
Definition safe_ports (ps : gmap string Z) : Prop :=
  map_Forall (λ k p, valid_utf8 k = true ∧ in_int64 p) ps.

Lemma store_int_in old v n : in_int64 old → store_int old v = Some n → in_int64 n.
Proof.
  intros Hold. destruct v; simpl; try done; [by intros [= <-]|].
  unfold Atoi. destruct (parse_int _) as [z|]; [|done]. case_decide; [|done]. by intros [= <-].
Qed.

Lemma store_entries_safe ms ps ps' : utf8_json (JObj ms) → safe_ports ps →
  store_entries ps ms = Some ps' → safe_ports ps'.
Proof.
  revert ps. induction ms as [|[k v] ms IH]; intros ps Hms Hps; simpl; [by intros [= <-]|].
  destruct Hms as [[Hk Hv] Hms]. destruct (store_int 0 v) as [p|] eqn:E; [|done].
  apply store_int_in in E; [|by apply (bool_decide_unpack _)]. apply IH; [done|].
  apply map_Forall_insert_2; [|done]. unfold valid_utf8. by rewrite bytes_str.
Qed.

Lemma store_fields_safe ms m m' : utf8_json (JObj ms) → in_int64 m.1 → safe_ports (default ∅ m.2) →
  store_fields m ms = Some m' → in_int64 m'.1 ∧ safe_ports (default ∅ m'.2).
Proof.
  revert m. induction ms as [|[k v] ms IH]; intros m Hms Hn Hps; cbn [store_fields]; [by intros [= <-]|].
  destruct Hms as [[_ Hv] Hms]. repeat case_decide.
  - destruct (store_int m.1 v) as [n|] eqn:E; [|done]. apply store_int_in in E; [|done]. by apply IH.
  - destruct (store_ports m.2 v) as [ps|] eqn:E; [|done]. apply IH; [done|done|].
    destruct v as [| | | | |ms']; try done; simpl in E; [by simplify_eq|].
    destruct (store_entries _ ms') as [ps'|] eqn:Es; [|done]. simplify_eq/=.
    eapply store_entries_safe; [exact Hv|exact Hps|exact Es].
  - by apply IH.
Qed.

Lemma unmarshal_safe l v ps : unmarshal l = Some (v, ps) → json_safe (mkModel v (default ∅ ps)).
Proof.
  assert (in_int64 0) as H0 by by apply (bool_decide_unpack _).
  assert (safe_ports ∅) as He by apply map_Forall_empty.
  unfold unmarshal, parse_json. destruct (parse_value _ _ l) as [[w rest]|] eqn:E; [|done].
  apply parse_sound in E as [Hw _]. case_decide; [|done].
  destruct w as [| | | | |ms]; try done; [intros [= <- <-]; done|].
  intros Es. by apply store_fields_safe in Es.
Qed.

(** ** The promises of [JSON], kept *)

#[global] Instance go_json : JSON.
Proof.
  refine {| MarshalIndent m := str (marshal m); Unmarshal s := unmarshal (bytes s) |}.
  - intros m Hm. rewrite bytes_str. by apply unmarshal_marshal.
  - intros s v ps. apply unmarshal_safe.
  - done.
Defined.

(** C24: The state file is read back as the state it was written from: for every version and
    port that is a Go int and every name that is valid UTF-8, whatever characters the encoder
    has to escape, decoding the indented JSON text gives the same version and the same map. *)
Theorem state_file_roundtrip m : json_safe m →
  unmarshal (marshal m) = Some (sm_Version m, Some (sm_TCPPorts m)).
Proof. apply unmarshal_marshal. Qed.

(** The decoder's fuel is enough. *)
Theorem decoder_fuel_enough l fuel depth : 2 * length l < fuel →
  parse_value fuel depth l = parse_value (S (2 * length l)) depth l.
Proof. intros. apply parse_fuel; lia. Qed.
