(* ===== verification/Runtime.v ===== *)
(** * internal/runtime: frontend ports and the runtimes that own them

    [allocator.go] and [manager.go].  A frontend is allocated by binding, so
    the ports the daemon holds are part of the state; which other ports are
    free is up to the operating system, an argument of every allocation. *)

From S2P Require Import Prelude GoStrings GoNet Registry State.
From Stdlib Require Import Ascii.
Local Open Scope Z_scope.

(** ** The allocator (allocator.go) *)

Record Allocator := mkAllocator { a_host : string; a_min : Z; a_max : Z }.

Definition NewAllocator (host : string) (minPort maxPort : Z) : Allocator :=
  mkAllocator host minPort maxPort.

(** A bound frontend port with the listener that owns it (the port the
    kernel bound). *)
Record Allocation := mkAllocation { al_Port : Z; al_Listener : Z }.

Inductive AllocError :=
| ErrPortExhausted (min max : Z)
| ErrPersist (st : stage).

(** What an allocation works on: the state store ([a.state], which may be
    nil), its file system, and the ports the daemon listens on. *)
Record World := mkWorld { w_state : option Store; w_fs : FS; w_bound : gset Z }.

(** What the operating system contributes to one allocation: the ports other
    processes leave free, the port it picks for port 0, and the save. *)
Record AllocIO := mkAllocIO {
  io_free : Z → bool;
  io_ephemeral : Z;
  io_save : SaveIO
}.

(** [net.Listen("tcp", host:port)]: the bound port, [None] for an error. *)
Definition Listen (io : AllocIO) (bound : gset Z) (port : Z) : option Z :=
  let p := if decide (port = 0) then io_ephemeral io else port in
  if decide (0 < p ≤ 65535 ∧ io_free io p = true ∧ p ∉ bound) then Some p else None.

Definition allocAddr (host : string) (port : Z) : string := JoinHostPort host (Itoa port).

(** [fnv.New32a]: FNV-1a over the bytes, in 32 bits. *)
Definition fnv32a (l : list ascii) : Z :=
  foldl (λ h c, (Z.lxor h (Z.of_N (N_of_ascii c)) * 16777619) mod 2 ^ 32) 2166136261 l.

Definition startOffset (name : string) (size : Z) : Z := fnv32a (bytes name) mod size.

Section Allocator.
Context `{JSON}.

(** [try]: bind, then remember the assignment; if that is not durable the
    listener is closed again. [Ok None] is a port that cannot be bound. *)
Definition try_port (io : AllocIO) (w : World) (name : string) (port : Z) :
  World * result (option Allocation) AllocError :=
  match Listen io (w_bound w) port with
  | None => (w, Ok None)
  | Some ln =>
    match w_state w with
    | None => (mkWorld None (w_fs w) ({[ln]} ∪ w_bound w), Ok (Some (mkAllocation port ln)))
    | Some s =>
      match SetPort (io_save io) s (w_fs w) name port with
      | (s', fs', Some err) => (mkWorld (Some s') fs' (w_bound w), Err (ErrPersist err))
      | (s', fs', None) =>
        (mkWorld (Some s') fs' ({[ln]} ∪ w_bound w), Ok (Some (mkAllocation port ln)))
      end
    end
  end.

(** The loop over the range, [n] rounds before it ends. *)
Fixpoint scan (a : Allocator) (io : AllocIO) (w : World) (name : string)
    (remembered preferred start size : Z) (n : nat) (i : Z) :
  World * result Allocation AllocError :=
  match n with
  | O => (w, Err (ErrPortExhausted (a_min a) (a_max a)))
  | S n =>
    let port := a_min a + (start + i) mod size in
    if decide (port = remembered ∨ port = preferred) then
      scan a io w name remembered preferred start size n (i + 1)
    else match try_port io w name port with
         | (w', Err e) => (w', Err e)
         | (w', Ok (Some alloc)) => (w', Ok alloc)
         | (w', Ok None) => scan a io w' name remembered preferred start size n (i + 1)
         end
  end.

(** The end of [Allocate]: the deterministic walk over the range. *)
Definition allocate_range (a : Allocator) (io : AllocIO) (w : World) (name : string)
    (remembered preferred : Z) : World * result Allocation AllocError :=
  let size := a_max a - a_min a + 1 in
  if decide (size ≤ 0) then (w, Err (ErrPortExhausted (a_min a) (a_max a)))
  else scan a io w name remembered preferred (startOffset name size) size
         (Z.to_nat size) 0.

Definition allocate_preferred (a : Allocator) (io : AllocIO) (w : World) (name : string)
    (remembered preferred : Z) : World * result Allocation AllocError :=
  if decide (preferred = 0) then allocate_range a io w name remembered preferred
  else match try_port io w name preferred with
       | (w', Err e) => (w', Err e)
       | (w', Ok (Some alloc)) => (w', Ok alloc)
       | (w', Ok None) => allocate_range a io w' name remembered preferred
       end.

(** [Allocate]. *)
Definition Allocate (a : Allocator) (io : AllocIO) (w : World) (name : string)
    (preferred : Z) : World * result Allocation AllocError :=
  let remembered := match w_state w with Some s => Port s name | None => 0 end in
  if decide (remembered = 0) then allocate_preferred a io w name remembered preferred
  else match try_port io w name remembered with
       | (w', Err e) => (w', Err e)
       | (w', Ok (Some alloc)) => (w', Ok alloc)
       | (w', Ok None) => allocate_preferred a io w' name remembered preferred
       end.

(** ** The runtime manager (manager.go)

    A runtime is its frontend and the listener it owns; the connections of a
    runtime are modelled with its accept loop. *)

Record ServiceRuntime := mkRuntime { rt_Name : string; rt_Frontend : Frontend; rt_listener : Z }.

Record Runtimes := mkRuntimes {
  rm_runtimes : gmap string ServiceRuntime;
  rm_alloc : Allocator
}.

Definition NewManager (alloc : Allocator) : Runtimes := mkRuntimes ∅ alloc.

Definition EnsureTCPRuntime (io : AllocIO) (m : Runtimes) (w : World) (name : string)
    (preferred : Z) : Runtimes * World * result ServiceRuntime AllocError :=
  match rm_runtimes m !! name with
  | Some rt => (m, w, Ok rt)
  | None =>
    match Allocate (rm_alloc m) io w name preferred with
    | (w', Err e) => (m, w', Err e)
    | (w', Ok alloc) =>
      let rt := mkRuntime name (mkFrontend (a_host (rm_alloc m)) (al_Port alloc) "")
                  (al_Listener alloc) in
      (mkRuntimes (<[name := rt]> (rm_runtimes m)) (rm_alloc m), w', Ok rt)
    end
  end.

Definition Get (m : Runtimes) (name : string) : option ServiceRuntime := rm_runtimes m !! name.

(** Closing a runtime closes its listener: the port is free again. *)
Definition close_runtime (rt : ServiceRuntime) (w : World) : World :=
  mkWorld (w_state w) (w_fs w) (w_bound w ∖ {[rt_listener rt]}).

Definition RemoveRuntime (m : Runtimes) (w : World) (name : string) :
  Runtimes * World * bool :=
  match rm_runtimes m !! name with
  | None => (m, w, false)
  | Some rt =>
    (mkRuntimes (delete name (rm_runtimes m)) (rm_alloc m), close_runtime rt w, true)
  end.

(** The listeners are closed in the order the map is ranged over. *)
Definition Shutdown `{MapRange} (m : Runtimes) (w : World) : Runtimes * World :=
  (mkRuntimes ∅ (rm_alloc m), foldl (λ w rt, close_runtime rt w) w (range (rm_runtimes m)).*2).

Definition Names `{MapRange} (m : Runtimes) : list string := (range (rm_runtimes m)).*1.

End Allocator.

(** ** The walk over the range visits every port once *)

Definition cyclic_ports (min start size : Z) : list Z :=
  (λ i, min + (start + Z.of_nat i) mod size) <$> seq 0 (Z.to_nat size).

Lemma cyclic_inj start size i j :
  0 ≤ i < size → 0 ≤ j < size →
  (start + i) mod size = (start + j) mod size → i = j.
Proof.
  intros Hi Hj E.
  pose proof (Z.div_mod (start + i) size ltac:(lia)) as Ei.
  pose proof (Z.div_mod (start + j) size ltac:(lia)) as Ej. rewrite E in Ei.
  generalize dependent ((start + i) / size). intros q Ei.
  generalize dependent ((start + j) / size). intros q' Ej.
  destruct (Z.lt_trichotomy q q') as [?|[->|?]]; nia.
Qed.

Lemma cyclic_ports_perm min start size :
  cyclic_ports min start size ≡ₚ seqZ min size.
Proof.
  apply NoDup_Permutation.
  - apply NoDup_fmap_2_strong; [|apply NoDup_seq].
    intros i j Hi%elem_of_seq Hj%elem_of_seq E.
    apply Nat2Z.inj, (cyclic_inj start size); lia.
  - apply NoDup_seqZ.
  - intros p. rewrite elem_of_seqZ. unfold cyclic_ports. rewrite list_elem_of_fmap. split.
    + intros (i & -> & Hi%elem_of_seq).
      pose proof (Z.mod_pos_bound (start + Z.of_nat i) size ltac:(lia)). lia.
    + intros Hp. set (k := (p - min - start) mod size).
      assert (0 ≤ k < size) as Hk by (apply Z.mod_pos_bound; lia).
      exists (Z.to_nat k). split; [|apply elem_of_seq; lia].
      rewrite Z2Nat.id by lia. unfold k. rewrite Z.add_mod_idemp_r by lia.
      rewrite Z.mod_small by lia. lia.
Qed.

(** ** Allocation as a search *)

(** The ports [Allocate] may try, in its order of preference. *)
Definition candidates (a : Allocator) (name : string) (remembered preferred : Z) : list Z :=
  let size := a_max a - a_min a + 1 in
  (if decide (remembered = 0) then [] else [remembered]) ++
  (if decide (preferred = 0) then [] else [preferred]) ++
  filter (λ p, ¬ (p = remembered ∨ p = preferred))
    (cyclic_ports (a_min a) (startOffset name size) size).

Section AllocatorFacts.
Context `{JSON}.

(** Try the ports of a list until one can be bound. *)
Fixpoint try_list (a : Allocator) (io : AllocIO) (w : World) (name : string) (l : list Z) :
  World * result Allocation AllocError :=
  match l with
  | [] => (w, Err (ErrPortExhausted (a_min a) (a_max a)))
  | p :: l =>
    match try_port io w name p with
    | (w', Err e) => (w', Err e)
    | (w', Ok (Some alloc)) => (w', Ok alloc)
    | (w', Ok None) => try_list a io w' name l
    end
  end.

Lemma scan_try_list a io w name r p start size n (i : nat) :
  scan a io w name r p start size n (Z.of_nat i) =
  try_list a io w name
    (filter (λ q, ¬ (q = r ∨ q = p))
       ((λ j, a_min a + (start + Z.of_nat j) mod size) <$> seq i n)).
Proof.
  revert w i. induction n as [|n IH]; intros w i; [done|].
  cbn [scan seq]. rewrite fmap_cons, filter_cons.
  replace (Z.of_nat i + 1) with (Z.of_nat (S i)) by lia.
  destruct (decide (_ ∨ _)) as [Hs|Hs].
  - rewrite decide_False by tauto. apply IH.
  - rewrite decide_True by tauto. cbn [try_list].
    destruct (try_port _ _ _ _) as [w' [[al|]|e]]; [done|apply IH|done].
Qed.

Lemma allocate_range_try_list a io w name r p :
  allocate_range a io w name r p =
  try_list a io w name
    (filter (λ q, ¬ (q = r ∨ q = p))
       (cyclic_ports (a_min a) (startOffset name (a_max a - a_min a + 1))
          (a_max a - a_min a + 1))).
Proof.
  unfold allocate_range. case_decide as Hs.
  - unfold cyclic_ports. replace (Z.to_nat _) with 0%nat by lia. done.
  - apply (scan_try_list _ _ _ _ _ _ _ _ _ 0).
Qed.

Lemma allocate_preferred_try_list a io w name r p :
  allocate_preferred a io w name r p =
  try_list a io w name
    ((if decide (p = 0) then [] else [p]) ++
     filter (λ q, ¬ (q = r ∨ q = p))
       (cyclic_ports (a_min a) (startOffset name (a_max a - a_min a + 1))
          (a_max a - a_min a + 1))).
Proof.
  unfold allocate_preferred. case_decide; cbn [app try_list].
  - apply allocate_range_try_list.
  - destruct (try_port _ _ _ _) as [w' [[al|]|e]]; [done| |done].
    apply allocate_range_try_list.
Qed.

Lemma Allocate_try_list a io w name preferred :
  Allocate a io w name preferred =
  try_list a io w name
    (candidates a name (match w_state w with Some s => Port s name | None => 0 end) preferred).
Proof.
  unfold Allocate, candidates.
  set (r := match w_state w with Some s => Port s name | None => 0 end).
  destruct (decide (r = 0)); cbn [app try_list].
  - apply allocate_preferred_try_list.
  - destruct (try_port _ _ _ _) as [w' [[al|]|e]]; [done| |done].
    apply allocate_preferred_try_list.
Qed.

Lemma try_port_None io w name p :
  Listen io (w_bound w) p = None → try_port io w name p = (w, Ok None).
Proof. unfold try_port. by intros ->. Qed.

Lemma try_list_exhausted a io w name l :
  Forall (λ p, Listen io (w_bound w) p = None) l →
  try_list a io w name l = (w, Err (ErrPortExhausted (a_min a) (a_max a))).
Proof. induction 1; simpl; [done|]. by rewrite try_port_None. Qed.

(** A port that can be bound is taken, or the save fails and it is released. *)
Lemma try_port_Some io w name p ln :
  Listen io (w_bound w) p = Some ln →
  ∃ w', try_port io w name p = (w', Ok (Some (mkAllocation p ln))) ∧
          w_bound w' = {[ln]} ∪ w_bound w ∨
        ∃ st, try_port io w name p = (w', Err (ErrPersist st)) ∧ w_bound w' = w_bound w.
Proof. unfold try_port. intros ->. repeat case_match; eauto 10. Qed.

Definition drop_option (r : World * result (option Allocation) AllocError) (al : Allocation) :
  World * result Allocation AllocError :=
  match r with (w', Err e) => (w', Err e) | (w', Ok _) => (w', Ok al) end.

Lemma try_list_first a io w name l p k ln :
  Forall (λ q, Listen io (w_bound w) q = None) l → Listen io (w_bound w) p = Some ln →
  try_list a io w name (l ++ p :: k) =
  drop_option (try_port io w name p) (mkAllocation p ln).
Proof.
  intros Hl Hp. induction Hl; simpl; [|by rewrite try_port_None].
  destruct (try_port_Some io w name p ln Hp) as [w' [[-> _]|(st & -> & _)]]; done.
Qed.

(** Either no port of the list can be bound, or there is a first one. *)
Lemma first_bindable io bound l :
  Forall (λ p, Listen io bound p = None) l ∨
  ∃ l1 p ln l2, l = l1 ++ p :: l2 ∧ Forall (λ q, Listen io bound q = None) l1 ∧
                Listen io bound p = Some ln.
Proof.
  induction l as [|p l [IH|(l1 & q & ln & l2 & -> & Hl1 & Hq)]]; [by left| |];
    destruct (Listen io bound p) as [ln'|] eqn:E.
  - right. exists [], p, ln', l. auto.
  - left. auto.
  - right. exists [], p, ln', (l1 ++ q :: l2). auto.
  - right. exists (p :: l1), q, ln, l2. auto.
Qed.
End AllocatorFacts.

Lemma Listen_Some io bound p ln :
  Listen io bound p = Some ln →
  0 < ln ≤ 65535 ∧ io_free io ln = true ∧ ln ∉ bound ∧ (p ≠ 0 → ln = p).
Proof. unfold Listen. repeat case_decide; intros; simplify_eq; naive_solver. Qed.

Lemma candidates_elem a name r p q :
  q ∈ candidates a name r p ↔
  (q = r ∧ r ≠ 0) ∨ (q = p ∧ p ≠ 0) ∨ (a_min a ≤ q ≤ a_max a ∧ q ≠ r ∧ q ≠ p).
Proof.
  unfold candidates. rewrite !elem_of_app, list_elem_of_filter, cyclic_ports_perm, elem_of_seqZ.
  repeat case_decide; rewrite ?list_elem_of_singleton, ?elem_of_nil; naive_solver lia.
Qed.

(** The port [Allocate] prefers over all others: the one it remembers. *)
Definition remembered (w : World) (name : string) : Z :=
  match w_state w with Some s => Port s name | None => 0 end.

Section AllocatorTheorems.
Context `{JSON}.

(** The search behind [Allocate], with what it does to the world. *)
Lemma Allocate_cases a io w name preferred :
  let l := candidates a name (remembered w name) preferred in
  (Forall (λ p, Listen io (w_bound w) p = None) l ∧
   Allocate a io w name preferred = (w, Err (ErrPortExhausted (a_min a) (a_max a)))) ∨
  ∃ l1 p ln l2 w', l = l1 ++ p :: l2 ∧ Forall (λ q, Listen io (w_bound w) q = None) l1 ∧
    Listen io (w_bound w) p = Some ln ∧
    (Allocate a io w name preferred = (w', Ok (mkAllocation p ln)) ∧
     try_port io w name p = (w', Ok (Some (mkAllocation p ln))) ∧
     w_bound w' = {[ln]} ∪ w_bound w ∨
     ∃ st, Allocate a io w name preferred = (w', Err (ErrPersist st)) ∧
           try_port io w name p = (w', Err (ErrPersist st)) ∧ w_bound w' = w_bound w).
Proof.
  intros l. rewrite Allocate_try_list. fold (remembered w name) l.
  destruct (first_bindable io (w_bound w) l) as [Hno|(l1 & p & ln & l2 & -> & Hl1 & Hp)].
  - left. split; [done|]. by apply try_list_exhausted.
  - right. rewrite (try_list_first _ _ _ _ _ _ _ ln) by done.
    destruct (try_port_Some io w name p ln Hp) as [w' Hw'].
    exists l1, p, ln, l2, w'. split_and!; try done.
    destruct Hw' as [[E ?]|(st & E & ?)]; rewrite E; simpl; eauto 10.
Qed.

(** Allocation reports an exhausted range exactly when none of the remembered port, the
    preferred port and the ports of the range can be bound: the walk from the hashed offset
    misses no port. *)
Theorem Allocate_exhausted_iff a io w name preferred :
  1 ≤ a_min a →
  (Allocate a io w name preferred).2 = Err (ErrPortExhausted (a_min a) (a_max a)) ↔
  ∀ p, p ≠ 0 → p = remembered w name ∨ p = preferred ∨ a_min a ≤ p ≤ a_max a →
       Listen io (w_bound w) p = None.
Proof.
  intros Hmin. split.
  - intros E p Hp0 Hp.
    destruct (Allocate_cases a io w name preferred)
      as [[Hall _]|(? & ? & ? & ? & w' & _ & _ & _ & [[E' _]|(st & E' & _)])];
      [|rewrite E' in E; done..].
    rewrite Forall_forall in Hall. apply Hall, candidates_elem.
    destruct (decide (p = remembered w name)), (decide (p = preferred)); naive_solver.
  - intros Hall.
    destruct (Allocate_cases a io w name preferred)
      as [[_ ->]|(l1 & p & ln & l2 & w' & El & _ & Hp & _)]; [done|].
    assert (p ∈ candidates a name (remembered w name) preferred) as Hin
      by (rewrite El; set_solver).
    apply candidates_elem in Hin. rewrite Hall in Hp; [done| |]; naive_solver lia.
Qed.

Lemma try_port_durable io w s name p w' al :
  w_state w = Some s → store_inv s (w_fs w) → io_fresh (io_save io) (s_path s) (w_fs w) →
  valid_utf8 name = true → in_int64 p → try_port io w name p = (w', Ok (Some al)) →
  ∃ s', w_state w' = Some s' ∧ s_path s' = s_path s ∧ store_inv s' (w_fs w') ∧
        Port s' name = p ∧ reload (s_path s) (w_fs w') = Some (Snapshot s').
Proof.
  intros Es Hinv Hio Hn Hp. unfold try_port. rewrite Es.
  destruct (Listen _ _ _); [|done].
  destruct (SetPort _ _ _ _ _) as [[s' fs'] [st|]] eqn:E; [done|].
  intros; simplify_eq/=. apply SetPort_inv in E; [|done..]. naive_solver.
Qed.

(** A successful allocation returns a port that was free and is now bound by the returned
    listener, that is the remembered one, the preferred one or one of the range, that is the
    remembered one whenever that could be bound, and that is saved under the name before it is
    returned. *)
Theorem Allocate_sound a io w s name preferred w' al :
  1 ≤ a_min a → w_state w = Some s → store_inv s (w_fs w) →
  io_fresh (io_save io) (s_path s) (w_fs w) → valid_utf8 name = true →
  Allocate a io w name preferred = (w', Ok al) →
  let port := al_Port al in
  al_Listener al = port ∧ 0 < port ≤ 65535 ∧ io_free io port = true ∧
  port ∉ w_bound w ∧ w_bound w' = {[port]} ∪ w_bound w ∧
  (port = Port s name ∨ port = preferred ∨ a_min a ≤ port ≤ a_max a) ∧
  (Port s name ≠ 0 → Listen io (w_bound w) (Port s name) ≠ None → port = Port s name) ∧
  ∃ s', w_state w' = Some s' ∧ store_inv s' (w_fs w') ∧ Port s' name = port ∧
        reload (s_path s) (w_fs w') = Some (Snapshot s').
Proof.
  intros Hmin Es Hinv Hio Hn E.
  destruct (Allocate_cases a io w name preferred)
    as [[_ E']|(l1 & p & ln & l2 & wx & El & Hl1 & Hp & [(E' & Et & Hb)|(st & E' & _)])];
    rewrite E' in E; [done| |done]. injection E as <- <-. simpl.
  assert (p ∈ candidates a name (remembered w name) preferred) as Hin
    by (rewrite El; set_solver).
  unfold remembered in *. rewrite Es in *. apply candidates_elem in Hin.
  apply Listen_Some in Hp as (Hr & Hf & Hnb & Heq).
  assert (ln = p) as -> by (apply Heq; naive_solver lia).
  eapply try_port_durable in Et as (s' & ? & ? & ? & ? & ?); [|done..|unfold in_int64; lia].
  split_and!; try done; [lia|lia|naive_solver| |naive_solver].
  intros Hr0 Hl. unfold candidates in El. rewrite decide_False in El by done.
  destruct l1 as [|q l1]; simplify_eq/=; [done|].
  by apply Forall_cons in Hl1 as [? _].
Qed.

(** What may be tried for a name. *)
Definition candidate (a : Allocator) (w : World) (name : string) (preferred p : Z) : Prop :=
  p ≠ 0 ∧ (p = remembered w name ∨ p = preferred ∨ a_min a ≤ p ≤ a_max a).

(** C25: Allocation, on every outcome: a port that is returned was free, is now bound by the
    returned listener, is the remembered one whenever that could be bound and otherwise the
    preferred one or one of the range, and is saved under the name before it is returned;
    port_exhausted is reported only when none of the remembered port, the preferred port and the
    ports of the range can be bound, so the walk from the hashed offset misses none; and a
    failed save leaves no listener open. *)
Theorem Allocate_spec a io w s name preferred :
  1 ≤ a_min a → w_state w = Some s → store_inv s (w_fs w) →
  io_fresh (io_save io) (s_path s) (w_fs w) → valid_utf8 name = true →
  match Allocate a io w name preferred with
  | (w', Ok al) =>
    let port := al_Port al in
    al_Listener al = port ∧ 0 < port ≤ 65535 ∧ io_free io port = true ∧
    port ∉ w_bound w ∧ w_bound w' = {[port]} ∪ w_bound w ∧ candidate a w name preferred port ∧
    (Port s name ≠ 0 → Listen io (w_bound w) (Port s name) ≠ None → port = Port s name) ∧
    ∃ s', w_state w' = Some s' ∧ store_inv s' (w_fs w') ∧ Port s' name = port ∧
          reload (s_path s) (w_fs w') = Some (Snapshot s')
  | (w', Err (ErrPortExhausted lo hi)) =>
    lo = a_min a ∧ hi = a_max a ∧ w' = w ∧
    ∀ p, candidate a w name preferred p → Listen io (w_bound w) p = None
  | (w', Err (ErrPersist _)) =>
    w_bound w' = w_bound w ∧ ∃ p ln, candidate a w name preferred p ∧ Listen io (w_bound w) p = Some ln
  end.
Proof.
  intros Hmin Es Hinv Hio Hn. pose proof (λ w' al, Allocate_sound a io w s name preferred w' al Hmin Es Hinv Hio Hn) as Hsound.
  pose proof (Allocate_exhausted_iff a io w name preferred Hmin) as Hex.
  destruct (Allocate_cases a io w name preferred) as [[_ E]|(l1 & p & ln & l2 & w' & El & _ & Hp & Hcase)].
  - rewrite E in *. split_and!; try done. intros p [? ?]. by apply Hex.
  - destruct Hcase as [(E & _ & _)|(st & E & _ & Hb)]; rewrite E in *.
    + destruct (Hsound _ _ eq_refl) as (H1' & H2' & H3' & H4' & H5' & H6' & H7' & H8').
      split_and!; try done; [lia..|]. unfold candidate, remembered. rewrite Es. split; [lia|exact H6'].
    + split; [done|]. exists p, ln. split; [|done].
      assert (p ∈ candidates a name (remembered w name) preferred) as Hin by (rewrite El; set_solver).
      apply candidates_elem in Hin. unfold candidate. naive_solver lia.
Qed.
End AllocatorTheorems.

(** ** The runtimes own distinct bound frontends *)

(** Every runtime sits under its name, advertises the port its listener is
    bound to, and holds that port; no two runtimes hold the same one. *)
Definition runtimes_inv (m : Runtimes) (w : World) : Prop :=
  map_Forall (λ name rt,
    rt_Name rt = name ∧
    rt_Frontend rt = mkFrontend (a_host (rm_alloc m)) (rt_listener rt) "" ∧
    0 < rt_listener rt ≤ 65535 ∧ rt_listener rt ∈ w_bound w) (rm_runtimes m) ∧
  (∀ n1 n2 rt1 rt2, rm_runtimes m !! n1 = Some rt1 → rm_runtimes m !! n2 = Some rt2 →
     rt_listener rt1 = rt_listener rt2 → n1 = n2).

Section ManagerFacts.
Context `{JSON}.

Lemma EnsureTCPRuntime_inv io m w name preferred m' w' r :
  1 ≤ a_min (rm_alloc m) → runtimes_inv m w →
  EnsureTCPRuntime io m w name preferred = (m', w', r) →
  runtimes_inv m' w' ∧ rm_alloc m' = rm_alloc m ∧
  match r with
  | Ok rt => rm_runtimes m' !! name = Some rt ∧
             (∀ n rt', rm_runtimes m !! n = Some rt' → rm_runtimes m' !! n = Some rt')
  | Err _ => m' = m ∧ rm_runtimes m !! name = None
  end.
Proof.
  intros Hmin [Hwf Hinj]. unfold EnsureTCPRuntime.
  destruct (rm_runtimes m !! name) as [rt|] eqn:En; [intros; by simplify_eq|].
  destruct (Allocate_cases (rm_alloc m) io w name preferred)
    as [[_ ->]|(l1 & p & ln & l2 & wx & El & _ & Hp & [(-> & _ & Hb)|(st & -> & _ & Hb)])];
    intros; simplify_eq/=.
  - done.
  - assert (p ∈ candidates (rm_alloc m) name (remembered w name) preferred) as Hin
      by (rewrite El; set_solver).
    apply candidates_elem in Hin. apply Listen_Some in Hp as (Hr & _ & Hnb & Heq).
    assert (ln = p) as -> by (apply Heq; naive_solver lia).
    split; [split; simpl|split_and!; [done| |]].
    + apply map_Forall_insert_2; simpl; [rewrite Hb; set_solver|].
      intros n rt Hn. destruct (Hwf n rt Hn) as (? & ? & ? & ?). rewrite Hb. set_solver.
    + intros n1 n2 rt1 rt2 [[<- <-]|[? H1]]%lookup_insert_Some
        [[<- <-]|[? H2]]%lookup_insert_Some Hl; simpl in Hl; eauto.
      * destruct (Hwf _ _ H2) as (_ & _ & _ & ?). congruence.
      * destruct (Hwf _ _ H1) as (_ & _ & _ & ?). congruence.
    + apply lookup_insert_eq.
    + intros n rt' Hn. rewrite lookup_insert_ne; congruence.
  - split; [|done]. split; [|done].
    intros n rt Hn. destruct (Hwf n rt Hn) as (? & ? & ? & ?). by rewrite Hb.
Qed.

Lemma RemoveRuntime_inv m w name m' w' b :
  runtimes_inv m w → RemoveRuntime m w name = (m', w', b) →
  runtimes_inv m' w' ∧ rm_runtimes m' = delete name (rm_runtimes m).
Proof.
  intros [Hwf Hinj]. unfold RemoveRuntime.
  destruct (rm_runtimes m !! name) as [rt|] eqn:En; intros; simplify_eq/=.
  2:{ split; [done|]. by rewrite delete_id. }
  split; [|done]. split; simpl.
  - intros n rt' [Hne Hn]%lookup_delete_Some. destruct (Hwf n rt' Hn) as (? & ? & ? & ?).
    do 3 (split; [done|]). apply elem_of_difference. split; [done|].
    intros Heq%elem_of_singleton. apply Hne. by eapply Hinj.
  - intros n1 n2 rt1 rt2 [_ ?]%lookup_delete_Some [_ ?]%lookup_delete_Some. eauto.
Qed.

Lemma foldl_close_bound rts w p :
  p ∈ w_bound (foldl (λ w rt, close_runtime rt w) w rts) ↔
  p ∈ w_bound w ∧ Forall (λ rt, rt_listener rt ≠ p) rts.
Proof.
  revert w. induction rts as [|rt rts IH]; intros w; simpl; [naive_solver|].
  rewrite IH, Forall_cons. unfold close_runtime; simpl. set_solver.
Qed.

Lemma foldl_close_state rts w :
  w_state (foldl (λ w rt, close_runtime rt w) w rts) = w_state w ∧
  w_fs (foldl (λ w rt, close_runtime rt w) w rts) = w_fs w.
Proof. revert w. induction rts as [|rt rts IH]; intros w; simpl; [done|].
  by destruct (IH (close_runtime rt w)) as [-> ->]. Qed.
End ManagerFacts.

(** Shutting the runtime manager down forgets every runtime and releases exactly the ports of
    their frontends, in whatever order the map is walked, and leaves the persistent state alone.
    *)
Theorem Shutdown_releases_ports `{MapRange} m w m' w' :
  runtimes_inv m w → Shutdown m w = (m', w') →
  rm_runtimes m' = ∅ ∧ w_state w' = w_state w ∧ w_fs w' = w_fs w ∧
  ∀ p, p ∈ w_bound w' ↔
       p ∈ w_bound w ∧ ∀ name rt, rm_runtimes m !! name = Some rt → f_Port (rt_Frontend rt) ≠ p.
Proof.
  intros [Hwf _] [= <- <-]. split_and!; [done|apply foldl_close_state..|].
  intros p. rewrite foldl_close_bound, Forall_fmap, Forall_forall. f_equiv. split.
  - intros Hall name rt Hn. destruct (Hwf _ _ Hn) as (_ & -> & _).
    apply (Hall (name, rt)). by rewrite range_elem.
  - intros Hall [name rt] Hn%range_elem. destruct (Hwf _ _ Hn) as (_ & Ef & _).
    specialize (Hall _ _ Hn). by rewrite Ef in Hall.
Qed.


Section StoreFacts.
Context `{JSON}.

(** An allocation, whatever its outcome, keeps the store's invariant. *)
Lemma Allocate_store a io w s name preferred w' r :
  w_state w = Some s → store_inv s (w_fs w) → io_fresh (io_save io) (s_path s) (w_fs w) →
  valid_utf8 name = true → Allocate a io w name preferred = (w', r) →
  ∃ s', w_state w' = Some s' ∧ s_path s' = s_path s ∧ store_inv s' (w_fs w').
Proof.
  intros Es Hinv Hio Hn E.
  assert (∀ p o, try_port io w name p = (w', o) → Listen io (w_bound w) p ≠ None →
    ∃ s', w_state w' = Some s' ∧ s_path s' = s_path s ∧ store_inv s' (w_fs w')) as Htry.
  { intros p o Et Hl. unfold try_port in Et. rewrite Es in Et.
    destruct (Listen io (w_bound w) p) as [ln|] eqn:El; [|done].
    assert (in_int64 p) as Hp.
    { unfold Listen in El. unfold in_int64. repeat case_decide; simplify_eq; lia. }
    destruct (SetPort _ _ _ _ _) as [[s' fs'] e] eqn:Esp.
    apply SetPort_inv in Esp as (? & ? & ? & ? & ?); [|done..].
    destruct e; simplify_eq/=; eauto. }
  destruct (Allocate_cases a io w name preferred)
    as [[_ E']|(l1 & p & ln & l2 & wx & _ & _ & Hp & [(E' & Et & _)|(st & E' & Et & _)])];
    rewrite E' in E; simplify_eq; [by eauto|..]; (eapply Htry; [done|by rewrite Hp]).
Qed.

Lemma EnsureTCPRuntime_store io m w s name preferred m' w' r :
  w_state w = Some s → store_inv s (w_fs w) → io_fresh (io_save io) (s_path s) (w_fs w) →
  valid_utf8 name = true → EnsureTCPRuntime io m w name preferred = (m', w', r) →
  ∃ s', w_state w' = Some s' ∧ s_path s' = s_path s ∧ store_inv s' (w_fs w').
Proof.
  intros Es Hinv Hio Hn. unfold EnsureTCPRuntime.
  destruct (rm_runtimes m !! name); [intros; simplify_eq; eauto|].
  destruct (Allocate _ _ _ _ _) as [w1 r1] eqn:Ea. apply (Allocate_store _ _ _ s) in Ea; [|done..].
  destruct r1; intros; by simplify_eq.
Qed.

(** The port of every runtime is in the store and, whatever else has failed
    to be saved, in the state file. *)
Definition ports_persisted (m : Runtimes) (w : World) : Prop :=
  ∀ name rt, rm_runtimes m !! name = Some rt →
  ∃ s ports, w_state w = Some s ∧ sm_TCPPorts (s_m s) !! name = Some (rt_listener rt) ∧
    reload (s_path s) (w_fs w) = Some ports ∧ ports !! name = Some (rt_listener rt).

(** The entries and files after [try_port], which tries a port of a name
    that has no runtime. *)
Lemma try_port_persisted io m w s name p w' o :
  w_state w = Some s → store_inv s (w_fs w) → io_fresh (io_save io) (s_path s) (w_fs w) →
  valid_utf8 name = true → p ≠ 0 → rm_runtimes m !! name = None →
  ports_persisted m w → try_port io w name p = (w', o) →
  ports_persisted m w' ∧
  (∀ ln, o = Ok (Some (mkAllocation p ln)) →
     ∃ s' ports, w_state w' = Some s' ∧ sm_TCPPorts (s_m s') !! name = Some ln ∧
       reload (s_path s') (w_fs w') = Some ports ∧ ports !! name = Some ln).
Proof.
  intros Es Hinv Hio Hu Hp Hn Hpp. unfold try_port. rewrite Es.
  destruct (Listen io (w_bound w) p) as [ln|] eqn:El; [|intros; simplify_eq; by split].
  apply Listen_Some in El as (Hr & _ & _ & Heq). specialize (Heq Hp) as ->.
  destruct (SetPort _ _ _ _ _) as [[s' fs'] err] eqn:Esp.
  pose proof Esp as (_ & _ & Epath & _ & Hrel)%SetPort_inv; [|done..|unfold in_int64; lia].
  apply SetPort_lookup in Esp as (Hl & Hne & Hfs); [|done..].
  assert (∀ n rt, rm_runtimes m !! n = Some rt → ∃ ports,
    sm_TCPPorts (s_m s') !! n = Some (rt_listener rt) ∧
    reload (s_path s') fs' = Some ports ∧ ports !! n = Some (rt_listener rt)) as Hold.
  { intros n rt Hrt. destruct (Hpp n rt Hrt) as (s0 & ports & E0 & Hm & Hd & Hlk).
    rewrite Es in E0. injection E0 as <-. rewrite Hne by congruence. rewrite Epath.
    destruct err as [e|].
    - rewrite Hfs by done. eauto.
    - rewrite Hrel by done. exists (Snapshot s'). split_and!; [done..|].
      unfold Snapshot. rewrite Hne by congruence. done. }
  destruct err as [e|]; intros; simplify_eq/=; split; simpl;
    try (intros n rt (ports & ? & ? & ?)%Hold; eauto 10); [done|].
  intros ln [= <-]. exists s', (Snapshot s'). rewrite Epath. split_and!; [done..|by apply Hrel|done].
Qed.

Lemma EnsureTCPRuntime_persisted io m w s name preferred m' w' r :
  1 ≤ a_min (rm_alloc m) →
  w_state w = Some s → store_inv s (w_fs w) → io_fresh (io_save io) (s_path s) (w_fs w) →
  valid_utf8 name = true → ports_persisted m w →
  EnsureTCPRuntime io m w name preferred = (m', w', r) → ports_persisted m' w'.
Proof.
  intros Hmin Es Hinv Hio Hu Hpp. unfold EnsureTCPRuntime.
  destruct (rm_runtimes m !! name) as [rt|] eqn:En; [intros; by simplify_eq|].
  destruct (Allocate_cases (rm_alloc m) io w name preferred)
    as [[_ ->]|(l1 & p & ln & l2 & wx & El & _ & Hp & Hor)]; [intros; by simplify_eq|].
  assert (p ∈ candidates (rm_alloc m) name (remembered w name) preferred) as Hin
    by (rewrite El; set_solver).
  apply candidates_elem in Hin. assert (p ≠ 0) as Hp0 by naive_solver lia.
  destruct Hor as [(-> & Et & _)|(st & -> & Et & _)];
    eapply try_port_persisted in Et as [Hpp' Hnew]; try done; intros; simplify_eq/=; [|done].
  intros n rt Hrt. simpl in Hrt.
  apply lookup_insert_Some in Hrt as [[<- <-]|[_ Hrt]]; [by apply Hnew|by apply Hpp'].
Qed.

(** A remembered port that is free is bound again, with nothing to save. *)
Lemma EnsureTCPRuntime_remembered io m w s name preferred q :
  w_state w = Some s → s_dirty s = false → Port s name = q → q ≠ 0 →
  rm_runtimes m !! name = None → Listen io (w_bound w) q = Some q →
  let rt := mkRuntime name (mkFrontend (a_host (rm_alloc m)) q "") q in
  EnsureTCPRuntime io m w name preferred =
    (mkRuntimes (<[name := rt]> (rm_runtimes m)) (rm_alloc m),
     mkWorld (Some s) (w_fs w) ({[q]} ∪ w_bound w), Ok rt).
Proof.
  intros Es Hd Hq Hq0 Hn Hl. unfold EnsureTCPRuntime, Allocate, try_port.
  rewrite Hn, Es, Hq, decide_False, Hl by done. unfold SetPort.
  by rewrite Hq, decide_True.
Qed.
End StoreFacts.
