(* ===== verification/AcceptLoop.v ===== *)
(** * internal/runtime/service.go: the accept loop of a frontend

    One runtime as a state machine: the accept loop, the proxy workers it
    starts, and the shutdown that runs beside them.  A step is what one
    goroutine does between two points where another one can interfere: a
    critical section of [connMu], a channel or socket operation, an operation
    of the wait group. *)

From S2P Require Import Prelude Registry.

(** Client connections, by number in the order they are accepted. *)
Abbreviation Conn := nat (only parsing).

(** Where the accept loop is. *)
Inductive loop_pc :=
| AtAccept                           (* in listener.Accept() *)
| GotClient (c : Conn)               (* before CurrentBackend() *)
| HasBackend (c : Conn) (b : Backend) (* before the send on rt.sem *)
| HasSlot (c : Conn) (b : Backend)   (* before beginProxy *)
| LoopExited.

(** Where a proxy worker is: in [proxy.TCP], before [endProxy], between the
    two halves of it, before the receive from [rt.sem]. *)
Inductive worker_pc := Proxying | Returned | Untracked | Finished.

#[global] Instance worker_pc_eq_dec : EqDecision worker_pc.
Proof. solve_decision. Defined.

(** How far the shutdown has come: [Close] stores [closed], closes [done] and
    the listener; then [CloseActiveConnections] runs. *)
Inductive close_pc := NotClosing | ClosedStored | DoneClosed | ListenerClosed | ConnsClosed.

Record State := mkState {
  st_loop : loop_pc;
  st_sem : nat;                                 (* len(rt.sem) *)
  st_connections : gset Conn;                   (* rt.connections *)
  st_proxies : nat;                             (* the counter of rt.proxies *)
  st_workers : gmap Conn (worker_pc * Backend); (* the running goroutines *)
  st_open : gset Conn;                          (* client sockets not closed yet *)
  st_accepted : nat;                            (* connections accepted so far *)
  st_close : close_pc
}.

Definition sem_capacity : nat := 4096.

(** [NewServiceRuntime] and [Start]. *)
Definition NewServiceRuntime : State := mkState AtAccept 0 ∅ 0 ∅ ∅ 0 NotClosing.

(** [rt.closed], the [done] channel and the listener, as far as [Close] got. *)
Definition closed (s : State) : bool :=
  match st_close s with NotClosing => false | _ => true end.
Definition listening (s : State) : bool :=
  match st_close s with ListenerClosed | ConnsClosed => false | _ => true end.

(** The loop drops its client and goes back to [Accept]. *)
Definition drop_client (c : Conn) (s : State) : State :=
  mkState AtAccept (st_sem s) (st_connections s) (st_proxies s) (st_workers s)
    (st_open s ∖ {[c]}) (st_accepted s) (st_close s).

Definition set_loop (pc : loop_pc) (s : State) : State :=
  mkState pc (st_sem s) (st_connections s) (st_proxies s) (st_workers s) (st_open s)
    (st_accepted s) (st_close s).

Definition set_sem (n : nat) (s : State) : State :=
  mkState (st_loop s) n (st_connections s) (st_proxies s) (st_workers s) (st_open s)
    (st_accepted s) (st_close s).

(** [acceptLoop], up to the next point of interference.  [accept] is the
    outcome of [Accept], [backend] that of the backend provider. *)
Definition loop_step (accept : bool) (backend : option Backend) (s : State) : State :=
  match st_loop s with
  | AtAccept =>
    if accept && listening s then
      let c := st_accepted s in
      mkState (GotClient c) (st_sem s) (st_connections s) (st_proxies s) (st_workers s)
        ({[c]} ∪ st_open s) (S c) (st_close s)
    else if closed s then set_loop LoopExited s
    else s
  | GotClient c =>
    match backend with
    | None => drop_client c s
    | Some b => set_loop (HasBackend c b) s
    end
  | HasBackend c b =>
    if decide (st_sem s < sem_capacity) then set_loop (HasSlot c b) (set_sem (S (st_sem s)) s)
    else drop_client c s
  | HasSlot c b =>
    (* beginProxy *)
    if closed s then drop_client c (set_sem (st_sem s - 1) s)
    else
      mkState AtAccept (st_sem s) ({[c]} ∪ st_connections s) (S (st_proxies s))
        (<[c := (Proxying, b)]> (st_workers s)) (st_open s) (st_accepted s) (st_close s)
  | LoopExited => s
  end.

(** The worker of connection [c]: [proxy.TCP] returns, having closed the
    client; [endProxy] untracks the connection, then counts down; the slot
    is given back. *)
Definition worker_step (c : Conn) (s : State) : State :=
  match st_workers s !! c with
  | None => s
  | Some (Proxying, b) =>
    mkState (st_loop s) (st_sem s) (st_connections s) (st_proxies s)
      (<[c := (Returned, b)]> (st_workers s)) (st_open s ∖ {[c]}) (st_accepted s) (st_close s)
  | Some (Returned, b) =>
    mkState (st_loop s) (st_sem s) (st_connections s ∖ {[c]}) (st_proxies s)
      (<[c := (Untracked, b)]> (st_workers s)) (st_open s) (st_accepted s) (st_close s)
  | Some (Untracked, b) =>
    mkState (st_loop s) (st_sem s) (st_connections s) (st_proxies s - 1)
      (<[c := (Finished, b)]> (st_workers s)) (st_open s) (st_accepted s) (st_close s)
  | Some (Finished, _) =>
    mkState (st_loop s) (st_sem s - 1) (st_connections s) (st_proxies s)
      (delete c (st_workers s)) (st_open s) (st_accepted s) (st_close s)
  end.

(** [Close], behind its [closeOnce], and then [CloseActiveConnections]. *)
Definition close_step (s : State) : State :=
  let at_ pc o := mkState (st_loop s) (st_sem s) (st_connections s) (st_proxies s)
                    (st_workers s) o (st_accepted s) pc in
  match st_close s with
  | NotClosing => at_ ClosedStored (st_open s)
  | ClosedStored => at_ DoneClosed (st_open s)
  | DoneClosed => at_ ListenerClosed (st_open s)
  | ListenerClosed => at_ ConnsClosed (st_open s ∖ st_connections s)
  | ConnsClosed => s
  end.

Inductive step : State → State → Prop :=
| step_loop s accept backend : step s (loop_step accept backend s)
| step_worker s c : step s (worker_step c s)
| step_close s : step s (close_step s).

Definition reachable (s : State) : Prop := rtc step NewServiceRuntime s.

(** ** The invariant *)

(** The connection the loop is busy with, and the slot it may hold. *)
Definition loop_conn (pc : loop_pc) : option Conn :=
  match pc with
  | GotClient c | HasBackend c _ | HasSlot c _ => Some c
  | AtAccept | LoopExited => None
  end.
Definition loop_slot (pc : loop_pc) : nat := match pc with HasSlot _ _ => 1 | _ => 0 end.

(** The workers the wait group counts. *)
Definition counted (ws : gmap Conn (worker_pc * Backend)) : gmap Conn (worker_pc * Backend) :=
  filter (λ kv, kv.2.1 ≠ Finished) ws.

Record inv (s : State) : Prop := mkInv {
  inv_sem : st_sem s = size (st_workers s) + loop_slot (st_loop s);
  inv_cap : st_sem s ≤ sem_capacity;
  inv_proxies : st_proxies s = size (counted (st_workers s));
  inv_conns : ∀ c, c ∈ st_connections s ↔
    ∃ p b, st_workers s !! c = Some (p, b) ∧ (p = Proxying ∨ p = Returned);
  inv_open : ∀ c, c ∈ st_open s →
    loop_conn (st_loop s) = Some c ∨ ∃ b, st_workers s !! c = Some (Proxying, b);
  inv_fresh : ∀ c, loop_conn (st_loop s) = Some c → st_workers s !! c = None ∧ c < st_accepted s;
  inv_old : ∀ c w, st_workers s !! c = Some w → c < st_accepted s
}.

Lemma counted_same ws c p b w :
  ws !! c = Some w → w.1 ≠ Finished → p ≠ Finished →
  size (counted (<[c := (p, b)]> ws)) = size (counted ws).
Proof.
  intros Hc Hw Hp. unfold counted. rewrite map_filter_insert_True by done.
  apply map_size_insert_Some. exists w. by apply map_lookup_filter_Some.
Qed.

Lemma counted_finish ws c b w :
  ws !! c = Some w → w.1 ≠ Finished →
  size (counted (<[c := (Finished, b)]> ws)) = size (counted ws) - 1.
Proof.
  intros Hc Hw. unfold counted. rewrite map_filter_insert_False by (simpl; tauto).
  rewrite map_filter_delete, map_size_delete_Some; [lia|]. exists w. by apply map_lookup_filter_Some.
Qed.

Lemma counted_drop ws c b :
  ws !! c = Some (Finished, b) → counted (delete c ws) = counted ws.
Proof.
  intros Hc. unfold counted. rewrite map_filter_delete. apply delete_id.
  apply map_lookup_filter_None. right. intros w Hw. simplify_eq. simpl. tauto.
Qed.

Lemma inv_New : inv NewServiceRuntime.
Proof. split; simpl; try done; try set_solver; unfold sem_capacity; naive_solver lia. Qed.

Lemma close_step_inv s : inv s → inv (close_step s).
Proof.
  intros []. unfold close_step. destruct (st_close s); split; simpl; try done.
  intros c [? _]%elem_of_difference. auto.
Qed.

Lemma loop_step_inv a ob s : inv s → inv (loop_step a ob s).
Proof.
  intros Hs. unfold loop_step. destruct (st_loop s) as [|c|c b|c b|] eqn:El; [| | | |done].
  - destruct (a && listening s); [|destruct (closed s); [|done]].
    + destruct Hs. rewrite El in *. split; simpl in *; try done.
      * intros c [->%elem_of_singleton|[?|?]%inv_open0]%elem_of_union; naive_solver.
      * intros c [= <-]. split; [|lia]. destruct (st_workers s !! st_accepted s) eqn:E; [|done].
        apply inv_old0 in E. lia.
      * intros c w Hw%inv_old0. lia.
    + destruct Hs. rewrite El in *. by split; simpl in *.
  - destruct ob as [b|]; destruct Hs; rewrite El in *; split; simpl in *; try done.
    intros c' [[[= ->]|?]%inv_open0 ?]%elem_of_difference; set_solver.
  - case_decide; destruct Hs; rewrite El in *; split; simpl in *; try done; try lia.
    intros c' [[[= ->]|?]%inv_open0 ?]%elem_of_difference; set_solver.
  - destruct Hs; rewrite El in *. destruct (inv_fresh0 c eq_refl) as [Hn Hlt].
    destruct (closed s); split; simpl in *; try done; try lia.
    + intros c' [[[= ->]|?]%inv_open0 ?]%elem_of_difference; set_solver.
    + rewrite map_size_insert_None by done. lia.
    + unfold counted in *. rewrite map_filter_insert_True by done.
      rewrite map_size_insert_None; [lia|]. apply map_lookup_filter_None. by left.
    + intros c'. rewrite elem_of_union, elem_of_singleton, lookup_insert, inv_conns0.
      case_decide as E; subst; naive_solver.
    + intros c' [[= ->]|[b' Hb]]%inv_open0; right.
      * exists b. apply lookup_insert_eq.
      * exists b'. rewrite lookup_insert_ne; [done|]. congruence.
    + intros c' w [[<- <-]|[_ ?]]%lookup_insert_Some; eauto.
Qed.

Lemma worker_step_inv c s : inv s → inv (worker_step c s).
Proof.
  intros Hs. unfold worker_step. destruct (st_workers s !! c) as [[[] b]|] eqn:Ec; [..|done]; destruct Hs.
  all: assert (∀ c', loop_conn (st_loop s) = Some c' → c' ≠ c) as Hlc
    by (intros c' [Hn _]%inv_fresh0 ->; congruence).
  - split; simpl; rewrite ?(counted_same _ _ _ _ _ Ec), ?map_size_insert_Some by done; try done.
    + intros c'. rewrite inv_conns0, lookup_insert. case_decide as E; subst; naive_solver.
    + intros c' [[?|[b' ?]]%inv_open0 ?]%elem_of_difference; [auto|right].
      exists b'. rewrite lookup_insert_ne; [done|set_solver].
    + intros c' Hc'. rewrite lookup_insert_ne by (symmetry; auto). auto.
    + intros c' w [[<- <-]|[_ ?]]%lookup_insert_Some; eauto.
  - split; simpl; rewrite ?(counted_same _ _ _ _ _ Ec), ?map_size_insert_Some by done; try done.
    + intros c'. rewrite elem_of_difference, elem_of_singleton, inv_conns0, lookup_insert.
      case_decide as E; subst; naive_solver.
    + intros c' [?|[b' ?]]%inv_open0; [auto|right].
      exists b'. rewrite lookup_insert_ne; [done|]. congruence.
    + intros c' Hc'. rewrite lookup_insert_ne by (symmetry; auto). auto.
    + intros c' w [[<- <-]|[_ ?]]%lookup_insert_Some; eauto.
  - split; simpl; rewrite ?(counted_finish _ _ _ _ Ec), ?map_size_insert_Some by done; try done; try lia.
    + intros c'. rewrite inv_conns0, lookup_insert. case_decide as E; subst; naive_solver.
    + intros c' [?|[b' ?]]%inv_open0; [auto|right].
      exists b'. rewrite lookup_insert_ne; [done|]. congruence.
    + intros c' Hc'. rewrite lookup_insert_ne by (symmetry; auto). auto.
    + intros c' w [[<- <-]|[_ ?]]%lookup_insert_Some; eauto.
  - assert (size (st_workers s) ≠ 0) by (eapply map_size_ne_0_lookup_2; eauto).
    split; simpl; rewrite ?(counted_drop _ _ _ Ec), ?map_size_delete_Some by done; try done; try lia.
    + intros c'. rewrite inv_conns0, lookup_delete. case_decide as E; subst; naive_solver.
    + intros c' [?|[b' ?]]%inv_open0; [auto|right].
      exists b'. rewrite lookup_delete_ne; [done|]. congruence.
    + intros c' Hc'. rewrite lookup_delete_ne by (symmetry; auto). auto.
    + intros c' w [_ ?]%lookup_delete_Some; eauto.
Qed.

Lemma runtime_step_inv s s' : step s s' → inv s → inv s'.
Proof. destruct 1; eauto using loop_step_inv, worker_step_inv, close_step_inv. Qed.

Lemma runtime_reachable_inv s : reachable s → inv s.
Proof.
  unfold reachable. generalize inv_New. generalize NewServiceRuntime.
  intros s0 Hi Hr. induction Hr; eauto using runtime_step_inv.
Qed.

(** ** No admission after [Close] *)

Lemma loop_step_closed a ob s :
  closed s = true →
  closed (loop_step a ob s) = true ∧ st_workers (loop_step a ob s) = st_workers s ∧
  st_proxies (loop_step a ob s) = st_proxies s.
Proof.
  intros Hc. unfold loop_step. rewrite Hc. destruct (st_loop s); repeat case_match; done.
Qed.

Lemma worker_step_count c s :
  closed (worker_step c s) = closed s ∧ listening (worker_step c s) = listening s ∧
  dom (st_workers (worker_step c s)) ⊆ dom (st_workers s) ∧
  st_proxies (worker_step c s) ≤ st_proxies s.
Proof.
  unfold worker_step. destruct (st_workers s !! c) as [[[] b]|] eqn:Ec; split_and!; simpl; try done; try lia.
  all: rewrite ?dom_insert_lookup_L, ?dom_delete_L by eauto; set_solver.
Qed.

Lemma close_step_count s :
  closed (close_step s) = true ∧ st_workers (close_step s) = st_workers s ∧
  st_proxies (close_step s) = st_proxies s.
Proof. unfold close_step, closed. by destruct (st_close s) eqn:E; simpl; rewrite ?E. Qed.

Lemma step_closed s s' :
  step s s' → closed s = true →
  closed s' = true ∧ dom (st_workers s') ⊆ dom (st_workers s) ∧ st_proxies s' ≤ st_proxies s.
Proof.
  destruct 1 as [s a ob|s c|s]; intros Hc.
  - destruct (loop_step_closed a ob s Hc) as (? & -> & ->). done.
  - destruct (worker_step_count c s) as (-> & _ & ? & ?). done.
  - destruct (close_step_count s) as (? & -> & ->). done.
Qed.

Lemma rtc_closed s s' :
  rtc step s s' → closed s = true →
  closed s' = true ∧ dom (st_workers s') ⊆ dom (st_workers s) ∧ st_proxies s' ≤ st_proxies s.
Proof.
  induction 1 as [|s s1 s2 Hs _ IH]; [done|]. intros Hc.
  destruct (step_closed _ _ Hs Hc) as (Hc1 & ? & ?). destruct (IH Hc1) as (? & ? & ?).
  split_and!; [done|set_solver|lia].
Qed.

Lemma counted_0_connections s : inv s → st_proxies s = 0 → st_connections s = ∅.
Proof.
  intros Hs H0. apply elem_of_equiv_empty_L. intros c (p & b & Hw & Hp)%(inv_conns s Hs).
  rewrite (inv_proxies s Hs) in H0. apply map_size_empty_iff in H0.
  assert (counted (st_workers s) !! c = Some (p, b)) as E; [|by rewrite H0 in E].
  apply map_lookup_filter_Some. split; [done|]. by destruct Hp as [-> | ->].
Qed.

(** Once Close has stored the closed flag no proxy worker is admitted any more: the set of
    workers and the wait group's counter only shrink, so when Wait returns there is and will be
    no worker and no tracked connection. *)
Theorem wait_is_final s s' :
  reachable s → closed s = true → rtc step s s' →
  dom (st_workers s') ⊆ dom (st_workers s) ∧ st_proxies s' ≤ st_proxies s ∧
  (st_proxies s = 0 → st_proxies s' = 0 ∧ st_connections s' = ∅).
Proof.
  intros Hr Hc Hst. destruct (rtc_closed _ _ Hst Hc) as (_ & ? & ?). split_and!; [done..|].
  intros Hz. split; [lia|]. apply counted_0_connections; [|lia].
  apply runtime_reachable_inv. unfold reachable. by etrans.
Qed.

(** In every reachable state of a runtime at most 4096 workers run, each holding a slot of the
    semaphore, the wait group counts exactly the workers that have not finished, and every open
    client socket is held by the accept loop or by a worker: none is leaked. *)
Theorem accept_bounds s :
  reachable s →
  size (st_workers s) ≤ st_sem s ≤ sem_capacity ∧
  st_proxies s = size (counted (st_workers s)) ∧
  (∀ c, c ∈ st_open s →
     loop_conn (st_loop s) = Some c ∨ ∃ b, st_workers s !! c = Some (Proxying, b)).
Proof.
  intros Hs%runtime_reachable_inv. pose proof (inv_sem s Hs). pose proof (inv_cap s Hs).
  split; [lia|]. split; [apply Hs|apply Hs].
Qed.

(** ** Shutdown completes *)

Definition loop_weight (pc : loop_pc) : nat :=
  match pc with
  | LoopExited => 0 | AtAccept => 1 | HasSlot _ _ => 2 | HasBackend _ _ => 3 | GotClient _ => 4
  end.
Definition worker_weight (w : worker_pc * Backend) : nat :=
  match w.1 with Finished => 1 | Untracked => 2 | Returned => 3 | Proxying => 4 end.
Definition close_weight (pc : close_pc) : nat := match pc with ConnsClosed => 0 | _ => 1 end.

(** What is left to do once the listener is closed. *)
Definition remaining (s : State) : nat :=
  loop_weight (st_loop s) + close_weight (st_close s) +
  sum_list_with (λ kv, worker_weight kv.2) (map_to_list (st_workers s)).

Lemma weights_delete (ws : gmap Conn (worker_pc * Backend)) c w :
  ws !! c = Some w →
  sum_list_with (λ kv, worker_weight kv.2) (map_to_list ws) =
  worker_weight w + sum_list_with (λ kv, worker_weight kv.2) (map_to_list (delete c ws)).
Proof. intros Hc. by rewrite <-(map_to_list_delete ws c w Hc). Qed.

Lemma weights_insert (ws : gmap Conn (worker_pc * Backend)) c w :
  sum_list_with (λ kv, worker_weight kv.2) (map_to_list (<[c := w]> ws)) =
  worker_weight w + sum_list_with (λ kv, worker_weight kv.2) (map_to_list (delete c ws)).
Proof.
  rewrite <-insert_delete_eq, map_to_list_insert; [done|]. apply lookup_delete_eq.
Qed.

Lemma worker_step_remaining c s :
  is_Some (st_workers s !! c) → remaining (worker_step c s) < remaining s.
Proof.
  intros [[p b] Hc]. unfold remaining, worker_step. rewrite Hc.
  destruct p; simpl; rewrite ?weights_insert, (weights_delete _ _ _ Hc); unfold worker_weight; simpl; lia.
Qed.

Lemma loop_step_remaining a ob s :
  listening s = false → st_loop s ≠ LoopExited → remaining (loop_step a ob s) < remaining s.
Proof.
  intros Hl Hne. assert (closed s = true) as Hc by (unfold closed, listening in *; by destruct (st_close s)).
  unfold remaining, loop_step. rewrite Hc, Hl, andb_false_r.
  destruct (st_loop s); repeat case_match; simpl; try done; lia.
Qed.

Lemma loop_step_listening a ob s : listening (loop_step a ob s) = listening s.
Proof. unfold loop_step. destruct (st_loop s); repeat case_match; done. Qed.

(** C28: After Close has closed the listener every step of the accept loop, the workers and the
    shutdown either does nothing or decreases what remains to be done, and a runtime in which
    nothing can happen any more has left its loop, has no worker and no tracked connection, and
    has closed every client socket. *)
Theorem shutdown_completes s :
  reachable s → listening s = false →
  (∀ s', step s s' → listening s' = false ∧ (s' = s ∨ remaining s' < remaining s)) ∧
  ((∀ s', step s s' → s' = s) →
     st_loop s = LoopExited ∧ st_workers s = ∅ ∧ st_proxies s = 0 ∧ st_connections s = ∅ ∧
     st_open s = ∅).
Proof.
  intros Hs%runtime_reachable_inv Hl. split.
  - destruct 1 as [s a ob|s c|s].
    + rewrite loop_step_listening. split; [done|].
      destruct (st_loop s) eqn:El; [right; apply loop_step_remaining; congruence..|].
      left. unfold loop_step. by rewrite El.
    + destruct (worker_step_count c s) as (_ & -> & _). split; [done|].
      destruct (st_workers s !! c) eqn:Ec; [right; by apply worker_step_remaining|].
      left. unfold worker_step. by rewrite Ec.
    + unfold listening, close_step, remaining in *.
      destruct (st_close s) eqn:Ec; try done; simpl; rewrite ?Ec; (split; [done|]); [right; lia|by left].
  - intros Hstuck.
    assert (st_loop s = LoopExited) as El.
    { destruct (st_loop s) eqn:El; try done; exfalso;
        pose proof (loop_step_remaining false None s Hl ltac:(congruence)) as Hr;
        rewrite (Hstuck _ (step_loop s false None)) in Hr; lia. }
    assert (st_workers s = ∅) as Ew.
    { apply map_empty. intros c. destruct (st_workers s !! c) eqn:Ec; [exfalso|done].
      pose proof (worker_step_remaining c s ltac:(eauto)) as Hr.
      rewrite (Hstuck _ (step_worker s c)) in Hr. lia. }
    assert (st_proxies s = 0) as Ep by (rewrite (inv_proxies s Hs), Ew; done).
    split_and!; try done; [by apply counted_0_connections|].
    apply elem_of_equiv_empty_L. intros c [Hc|[b Hc]]%(inv_open s Hs).
    + by rewrite El in Hc.
    + by rewrite Ew in Hc.
Qed.
