(* ===== verification/Drain.v ===== *)
(** * internal/runtime: the shutdown of all runtimes under one deadline

    [Manager.Shutdown] of manager.go with [Close], [CloseActiveConnections] and
    [WaitForProxies] of service.go: every listener is closed, then every client
    connection, then the workers of one runtime after the other are waited for,
    as long as the caller's context has not expired.  Meanwhile the accept
    loops and the workers of [AcceptLoop.v] go on. *)

From S2P Require Import Prelude Registry AcceptLoop.

(** Where [Shutdown] is: at the [i]th runtime of one of its three loops, or
    returned. *)
Inductive drain_pc := Closing (i : nat) | Cutting (i : nat) | Waiting (i : nat) | Drained.

(** [dr_rts] is [rts], the runtimes taken out of the map; [dr_expired] the
    context's [Done]; [dr_warned] the runtimes that the log reports as timed
    out. *)
Record Drain := mkDrain {
  dr_rts : list State;
  dr_pc : drain_pc;
  dr_expired : bool;
  dr_warned : list nat
}.

Definition drain_at (pc : drain_pc) (d : Drain) : Drain := mkDrain (dr_rts d) pc (dr_expired d) (dr_warned d).

Definition put_rt (i : nat) (s : State) (d : Drain) : Drain :=
  mkDrain (<[i := s]> (dr_rts d)) (dr_pc d) (dr_expired d) (dr_warned d).

Definition warn (i : nat) (d : Drain) : Drain := mkDrain (dr_rts d) (dr_pc d) (dr_expired d) (dr_warned d ++ [i]).

(** The steps of [Shutdown] itself. *)
Inductive own_step : Drain → Drain → Prop :=
| own_close d i s :
    dr_pc d = Closing i → dr_rts d !! i = Some s → listening s = true → own_step d (put_rt i (close_step s) d)
| own_closed d i s :
    dr_pc d = Closing i → dr_rts d !! i = Some s → listening s = false → own_step d (drain_at (Closing (S i)) d)
| own_all_closed d i : dr_pc d = Closing i → dr_rts d !! i = None → own_step d (drain_at (Cutting 0) d)
| own_cut d i s :
    dr_pc d = Cutting i → dr_rts d !! i = Some s → own_step d (drain_at (Cutting (S i)) (put_rt i (close_step s) d))
| own_all_cut d i : dr_pc d = Cutting i → dr_rts d !! i = None → own_step d (drain_at (Waiting 0) d)
(* [WaitForProxies]: the wait group's counter is zero, or the context is done *)
| own_waited d i s :
    dr_pc d = Waiting i → dr_rts d !! i = Some s → st_proxies s = 0 → own_step d (drain_at (Waiting (S i)) d)
| own_timed_out d i s :
    dr_pc d = Waiting i → dr_rts d !! i = Some s → dr_expired d = true →
    own_step d (drain_at (Waiting (S i)) (warn i d))
| own_returns d i : dr_pc d = Waiting i → dr_rts d !! i = None → own_step d (drain_at Drained d).

(** The accept loops and the workers. *)
Inductive rt_step : Drain → Drain → Prop :=
| rt_loop d i s accept backend :
    dr_rts d !! i = Some s → rt_step d (put_rt i (loop_step accept backend s) d)
| rt_worker d i s c : dr_rts d !! i = Some s → rt_step d (put_rt i (worker_step c s) d).

Definition expire (d : Drain) : Drain := mkDrain (dr_rts d) (dr_pc d) true (dr_warned d).

Inductive drain_step : Drain → Drain → Prop :=
| drain_own d d' : own_step d d' → drain_step d d'
| drain_rt d d' : rt_step d d' → drain_step d d'
| drain_expires d : drain_step d (expire d).

(** The runtimes of a running daemon, none of them closed. *)
Definition drain_start (d : Drain) : Prop :=
  dr_pc d = Closing 0 ∧ dr_expired d = false ∧ dr_warned d = [] ∧
  Forall (λ s, AcceptLoop.reachable s ∧ st_close s = NotClosing) (dr_rts d).

(** ** What holds in each of the three loops *)

(** Once the connections have been closed none that is tracked is open. *)
Definition cut (s : State) : Prop := st_close s = ConnsClosed → st_connections s ## st_open s.

Lemma step_cut s s' : AcceptLoop.step s s' → cut s → cut s'.
Proof.
  unfold cut. intros Hst Hs. destruct Hst as [s a ob|s c|s].
  - unfold loop_step. destruct (st_loop s) as [|c|c b|c b|]; try done.
    + destruct (a && listening s) eqn:El; simpl.
      * intros E. unfold listening in El. rewrite E, andb_false_r in El. done.
      * destruct (closed s); done.
    + destruct ob; simpl; [done|]. intros ?%Hs. set_solver.
    + case_decide; simpl; [done|]. intros ?%Hs. set_solver.
    + destruct (closed s) eqn:Ec; simpl; [intros ?%Hs; set_solver|].
      intros E. unfold closed in Ec. by rewrite E in Ec.
  - unfold worker_step. repeat case_match; simpl; try done; intros ?%Hs; set_solver.
  - unfold close_step. destruct (st_close s) eqn:E; simpl; try done; [set_solver|rewrite E; auto].
Qed.

Lemma reachable_cut s : AcceptLoop.reachable s → cut s.
Proof.
  revert s. apply (rtc_ind_r cut); [done|]. intros s s' _ Hst. by apply step_cut.
Qed.

(** How many of the runtimes are past each loop. *)
Definition past_close (d : Drain) : nat := match dr_pc d with Closing i => i | _ => length (dr_rts d) end.
Definition past_cut (d : Drain) : nat :=
  match dr_pc d with Closing _ => 0 | Cutting i => i | _ => length (dr_rts d) end.
Definition past_wait (d : Drain) : nat :=
  match dr_pc d with Closing _ | Cutting _ => 0 | Waiting i => i | Drained => length (dr_rts d) end.

(** What each loop leaves behind it. *)
Definition rt_inv (d : Drain) (j : nat) (s : State) : Prop :=
  AcceptLoop.reachable s ∧
  (j < past_close d → listening s = false) ∧
  (j < past_cut d → st_close s = ConnsClosed) ∧
  (j < past_wait d → st_proxies s = 0 ∨ j ∈ dr_warned d).

Definition drain_inv (d : Drain) : Prop :=
  (∀ j s, dr_rts d !! j = Some s → rt_inv d j s) ∧ past_wait d ≤ past_close d ∧
  (dr_warned d ≠ [] → dr_expired d = true).

Lemma drain_inv_start d : drain_start d → drain_inv d.
Proof.
  intros (E & Ex & Ew & Hf). split_and!; [|unfold past_wait; rewrite E; lia|by rewrite Ew]. intros j s Hs.
  destruct (proj1 (Forall_lookup _ _) Hf _ _ Hs) as [Hr _]. unfold rt_inv, past_close, past_cut, past_wait. rewrite E.
  split; [done|]. split_and!; lia.
Qed.

(** What the loops have achieved stays, whatever a runtime does. *)
Lemma step_keeps s s' : AcceptLoop.step s s' →
  (listening s = false → listening s' = false) ∧ (st_close s = ConnsClosed → st_close s' = ConnsClosed) ∧
  (listening s = false → st_proxies s = 0 → st_proxies s' = 0).
Proof.
  intros Hst. split_and!.
  - destruct Hst as [s a ob|s c|s]; [by rewrite loop_step_listening| |].
    + by destruct (worker_step_count c s) as (_ & -> & _).
    + unfold listening, close_step. by destruct (st_close s) eqn:E; simpl; rewrite ?E.
  - destruct Hst as [s a ob|s c|s]; intros E.
    + unfold loop_step. by repeat case_match.
    + unfold worker_step. by repeat case_match.
    + unfold close_step. by rewrite E.
  - intros Hl Hp. assert (closed s = true) as Hc by (unfold closed, listening in *; by destruct (st_close s)).
    destruct (step_closed _ _ Hst Hc) as (_ & _ & ?). lia.
Qed.

Lemma rt_inv_step d j s s' : rt_inv d j s → AcceptLoop.step s s' → past_wait d ≤ past_close d → rt_inv d j s'.
Proof.
  intros (Hr & Hc & Hk & Hw) Hst Hle. destruct (step_keeps _ _ Hst) as (K1 & K2 & K3).
  split; [by eapply rtc_r|]. split_and!; [auto..|]. intros Hj. destruct (Hw Hj) as [?|?]; [left|by right].
  apply K3; [apply Hc; lia|done].
Qed.

Lemma past_put i s d : past_close (put_rt i s d) = past_close d ∧ past_cut (put_rt i s d) = past_cut d ∧
  past_wait (put_rt i s d) = past_wait d.
Proof. unfold past_close, past_cut, past_wait, put_rt. simpl. by rewrite length_insert. Qed.

(** A step of one runtime. *)
Lemma drain_inv_put d i s s' : drain_inv d → dr_rts d !! i = Some s →
  AcceptLoop.step s s' → drain_inv (put_rt i s' d).
Proof.
  intros (Hrt & Hle & Hw) Hi Hst. destruct (past_put i s' d) as (E1 & E2 & E3).
  split_and!; [|by rewrite E1, E3|done]. intros j s0 Hj.
  simpl in Hj. assert (rt_inv d j s0) as Hs0.
  { destruct (decide (i = j)) as [<-|Hne]; [|by rewrite list_lookup_insert_ne in Hj; auto].
    rewrite list_lookup_insert_eq in Hj by (by eapply lookup_lt_Some). injection Hj as <-.
    eapply rt_inv_step; eauto. }
  unfold rt_inv in *. by rewrite E1, E2, E3.
Qed.

(** [Shutdown] moves on. *)
Lemma drain_inv_at d pc : drain_inv d → past_wait (drain_at pc d) ≤ past_close (drain_at pc d) →
  (∀ j s, dr_rts d !! j = Some s →
     (j < past_close (drain_at pc d) → listening s = false) ∧
     (j < past_cut (drain_at pc d) → st_close s = ConnsClosed) ∧
     (j < past_wait (drain_at pc d) → st_proxies s = 0 ∨ j ∈ dr_warned d)) →
  drain_inv (drain_at pc d).
Proof.
  intros (Hrt & _ & Hw) Hle Hnew. split_and!; [|done|done]. intros j s Hs. destruct (Hrt j s Hs) as [Hr _].
  split; [done|]. by apply Hnew.
Qed.

Lemma drain_inv_warn d i : drain_inv d → dr_expired d = true → drain_inv (warn i d).
Proof.
  intros (Hrt & Hle & Hw) Hx. split_and!; [|done|done]. intros j s Hs. destruct (Hrt j s Hs) as (? & ? & ? & Hp).
  split; [done|]. split_and!; [done..|]. intros Hj. destruct (Hp Hj); [by left|right]. simpl. set_solver.
Qed.

Ltac pasts := unfold past_close, past_cut, past_wait in *; simpl in *.

Lemma own_step_inv d d' : own_step d d' → drain_inv d → drain_inv d'.
Proof.
  intros Hst Hd. pose proof Hd as (Hrt & Hle & _).
  destruct Hst as [d i s E Hi Hl|d i s E Hi Hl|d i E Hi|d i s E Hi|d i E Hi|d i s E Hi Hp|d i s E Hi Hx|d i E Hi].
  - by eapply drain_inv_put; [|done|constructor].
  - apply drain_inv_at; [done|pasts; lia|]. intros j s' Hj. destruct (Hrt j s' Hj) as (_ & Hc & _). pasts. rewrite E in *.
    split_and!; [|lia|lia]. intros Hlt. destruct (decide (j = i)) as [->|]; [congruence|apply Hc; lia].
  - apply drain_inv_at; [done|pasts; lia|]. intros j s' Hj. destruct (Hrt j s' Hj) as (_ & Hc & _). pasts. rewrite E in *.
    apply lookup_ge_None in Hi. apply lookup_lt_Some in Hj as ?. split_and!; [|lia|lia]. intros _. apply Hc. lia.
  - assert (drain_inv (put_rt i (close_step s) d)) as Hd' by (by eapply drain_inv_put; [|done|constructor]).
    pose proof Hd' as (Hrt' & _ & _). apply drain_inv_at; [done|pasts; lia|]. intros j s' Hj.
    destruct (Hrt' j s' Hj) as (_ & Hc & Hk & _). pasts. rewrite E in *. rewrite length_insert in *.
    split_and!; [done| |lia]. intros Hlt. destruct (decide (j = i)) as [->|]; [|apply Hk; lia].
    rewrite list_lookup_insert_eq in Hj by (by eapply lookup_lt_Some). injection Hj as <-.
    destruct (Hrt i s Hi) as (_ & Hcl & _). unfold past_close in Hcl. rewrite E in Hcl. apply lookup_lt_Some in Hi. specialize (Hcl Hi).
    unfold listening, close_step in *. by destruct (st_close s) eqn:Es; simpl; rewrite ?Es.
  - apply drain_inv_at; [done|pasts; lia|]. intros j s' Hj. destruct (Hrt j s' Hj) as (_ & Hc & Hk & _). pasts. rewrite E in *.
    apply lookup_ge_None in Hi. apply lookup_lt_Some in Hj as ?. split_and!; [done| |lia]. intros _. apply Hk. lia.
  - apply lookup_lt_Some in Hi as ?. apply drain_inv_at; [done|pasts; lia|]. intros j s' Hj.
    destruct (Hrt j s' Hj) as (_ & Hc & Hk & Hw). pasts. rewrite E in *. split_and!; [done..|]. intros Hlt.
    destruct (decide (j = i)) as [->|]; [left; congruence|apply Hw; lia].
  - apply lookup_lt_Some in Hi as ?. pose proof (drain_inv_warn d i Hd Hx) as Hd'. pose proof Hd' as (Hrt' & _ & _).
    apply drain_inv_at; [done|pasts; lia|]. intros j s' Hj.
    destruct (Hrt' j s' Hj) as (_ & Hc & Hk & Hw). pasts. rewrite E in *. split_and!; [done..|]. intros Hlt.
    destruct (decide (j = i)) as [->|]; [right; set_solver|apply Hw; lia].
  - apply drain_inv_at; [done|pasts; lia|]. intros j s' Hj. destruct (Hrt j s' Hj) as (_ & Hc & Hk & Hw). pasts. rewrite E in *.
    apply lookup_ge_None in Hi. apply lookup_lt_Some in Hj as ?. split_and!; [done..|]. intros _. apply Hw. lia.
Qed.

Lemma drain_step_inv d d' : drain_step d d' → drain_inv d → drain_inv d'.
Proof.
  destruct 1 as [d d' Hst|d d' Hst|d]; intros Hd.
  - by eapply own_step_inv.
  - destruct Hst as [d i s a ob Hi|d i s c Hi]; by eapply drain_inv_put; [|done|constructor].
  - destruct Hd as (Hrt & Hle & _). split_and!; [|done|done]. exact Hrt.
Qed.

Lemma drain_run_inv d0 d : drain_start d0 → rtc drain_step d0 d → drain_inv d.
Proof. intros Hs Hr. apply drain_inv_start in Hs. induction Hr; eauto using drain_step_inv. Qed.

(** ** Progress *)

Definition close_stages (s : State) : nat :=
  match st_close s with NotClosing => 3 | ClosedStored => 2 | DoneClosed => 1 | _ => 0 end.

(** What [Shutdown] has to do on its own. *)
Definition own_left (d : Drain) : nat :=
  let n := length (dr_rts d) in
  match dr_pc d with
  | Closing i => from_option close_stages 0 (dr_rts d !! i) + 4 * (n - i) + 2 * n + 3
  | Cutting i => (n - i) + n + 2
  | Waiting i => (n - i) + 1
  | Drained => 0
  end.

Lemma own_step_left d d' : own_step d d' → own_left d' < own_left d.
Proof.
  destruct 1 as [d i s E Hi Hl|d i s E Hi Hl|d i E Hi|d i s E Hi|d i E Hi|d i s E Hi Hp|d i s E Hi Hx|d i E Hi];
    unfold own_left; simpl; rewrite E; rewrite ?length_insert;
    try (apply lookup_lt_Some in Hi as Hlt); try (apply lookup_ge_None in Hi as Hge); try lia.
  - rewrite list_lookup_insert_eq, Hi by done. simpl. unfold listening in Hl. unfold close_stages, close_step.
    destruct (st_close s) eqn:Es; simpl; try done; lia.
  - rewrite Hi. simpl. assert (from_option close_stages 0 (dr_rts d !! S i) ≤ 3); [|lia].
    destruct (dr_rts d !! S i) as [s'|]; simpl; [unfold close_stages; destruct (st_close s')|]; lia.
Qed.

(** With the context expired it is never blocked; otherwise only a runtime
    that still has a worker blocks it. *)
Lemma own_step_enabled d : dr_pc d ≠ Drained →
  (∃ d', own_step d d') ∨
  ∃ i s, dr_pc d = Waiting i ∧ dr_rts d !! i = Some s ∧ st_proxies s ≠ 0 ∧ dr_expired d = false.
Proof.
  intros Hne. destruct (dr_pc d) as [i|i|i|] eqn:E; [| | |done]; destruct (dr_rts d !! i) as [s|] eqn:Hi;
    try (left; by eexists; econstructor).
  - left. destruct (listening s) eqn:Hl; eexists; [by eapply own_close|by eapply own_closed].
  - destruct (decide (st_proxies s = 0)); [left; by eexists; eapply own_waited|].
    destruct (dr_expired d) eqn:Hx; [left; by eexists; eapply own_timed_out|].
    right. by exists i, s.
Qed.

(** What is left for everybody once all listeners are closed. *)
Definition drain_left (d : Drain) : nat := own_left d + sum_list_with remaining (dr_rts d).

Lemma sum_insert l i (s s' : State) : l !! i = Some s →
  sum_list_with remaining (<[i := s']> l) + remaining s = sum_list_with remaining l + remaining s'.
Proof.
  revert i. induction l as [|s0 l IH]; intros [|i] Hi; simplify_eq/=; [lia|]. specialize (IH i Hi). lia.
Qed.

Lemma rt_step_left d d' : drain_inv d → past_close d = length (dr_rts d) → (∀ i, dr_pc d ≠ Closing i) →
  rt_step d d' → d' = d ∨ drain_left d' < drain_left d.
Proof.
  intros (Hrt & _ & _) Hpc Hne Hst.
  assert (∀ i s s', dr_rts d !! i = Some s → s' = s ∨ remaining s' < remaining s →
    put_rt i s' d = d ∨ drain_left (put_rt i s' d) < drain_left d) as Hput.
  { intros i s s' Hi [->|Hlt]; [left|right].
    - unfold put_rt. rewrite list_insert_id by done. by destruct d.
    - pose proof (sum_insert _ _ _ s' Hi). unfold drain_left, own_left. simpl. rewrite length_insert.
      destruct (dr_pc d) as [k| | |]; [by destruct (Hne k)|lia..]. }
  destruct Hst as [d i s a ob Hi|d i s c Hi]; eapply Hput; try done.
  - destruct (Hrt i s Hi) as (_ & Hc & _). apply lookup_lt_Some in Hi as Hlt. rewrite <-Hpc in Hlt. specialize (Hc Hlt).
    destruct (st_loop s) eqn:El; [right; apply loop_step_remaining; congruence..|]. left. unfold loop_step. by rewrite El.
  - destruct (st_workers s !! c) eqn:Ec; [right; by apply worker_step_remaining|]. left. unfold worker_step. by rewrite Ec.
Qed.

Lemma own_step_drain_left d d' : own_step d d' → drain_left d' < drain_left d.
Proof.
  intros Hst. pose proof (own_step_left _ _ Hst) as Hl. unfold drain_left.
  assert (sum_list_with remaining (dr_rts d') ≤ sum_list_with remaining (dr_rts d)); [|lia].
  assert (∀ s, remaining (close_step s) ≤ remaining s) as Hc.
  { intros s. unfold remaining, close_step. destruct (st_close s) eqn:E; simpl; rewrite ?E; simpl; lia. }
  destruct Hst as [d i s E Hi|d i s E Hi|d i E Hi|d i s E Hi|d i E Hi|d i s E Hi|d i s E Hi|d i E Hi]; simpl; try lia.
  all: pose proof (sum_insert _ _ _ (close_step s) Hi); specialize (Hc s); lia.
Qed.

(** A runtime with a worker is not at rest. *)
Lemma busy_moves d i s : AcceptLoop.reachable s → dr_rts d !! i = Some s → st_proxies s ≠ 0 →
  ∃ d', rt_step d d' ∧ d' ≠ d.
Proof.
  intros Hr%runtime_reachable_inv Hi Hp. rewrite (inv_proxies s Hr) in Hp.
  destruct (map_choose (counted (st_workers s))) as (c & w & Hw).
  { intros E. by rewrite E in Hp. }
  apply map_lookup_filter_Some in Hw as [Hw _]. exists (put_rt i (worker_step c s) d). split; [by constructor|].
  intros E. pose proof (worker_step_remaining c s ltac:(eauto)) as Hlt.
  assert (dr_rts (put_rt i (worker_step c s) d) !! i = Some s) as E' by (by rewrite E).
  simpl in E'. rewrite list_lookup_insert_eq in E' by (by eapply lookup_lt_Some). injection E' as E'.
  rewrite E' in Hlt. lia.
Qed.

(** C27: Shutting down all runtimes under one deadline, beside their accept loops and workers:
    when Shutdown returns every listener is closed, no tracked client socket is open, and every
    runtime has no worker and no tracked connection left, or is one of those that the log
    reports as timed out, and none is reported before the context has expired; once it has
    expired Shutdown is never blocked and returns after a bounded number of its own steps;
    without it, once the listeners are closed every step brings the end nearer, and only the end
    is at rest. *)
Theorem shutdown_drains_or_reports d0 d :
  drain_start d0 → rtc drain_step d0 d →
  (dr_pc d = Drained → ∀ j s, dr_rts d !! j = Some s →
     listening s = false ∧ st_connections s ## st_open s ∧
     (j ∈ dr_warned d ∨ st_proxies s = 0 ∧ st_connections s = ∅)) ∧
  (dr_warned d ≠ [] → dr_expired d = true) ∧
  (∀ d', own_step d d' → own_left d' < own_left d) ∧
  (dr_expired d = true → dr_pc d ≠ Drained → ∃ d', own_step d d') ∧
  ((∀ i, dr_pc d ≠ Closing i) → ∀ d', own_step d d' ∨ rt_step d d' → d' = d ∨ drain_left d' < drain_left d) ∧
  ((∀ d', own_step d d' ∨ rt_step d d' → d' = d) → dr_pc d = Drained).
Proof.
  intros H0' Hrun. pose proof (drain_run_inv _ _ H0' Hrun) as Hd. pose proof Hd as (Hrt & Hle & Hw). split_and!.
  - intros E j s Hs. destruct (Hrt j s Hs) as (Hr & Hc & Hk & Hp). apply lookup_lt_Some in Hs.
    unfold past_close, past_cut, past_wait in *. rewrite E in *. split_and!; [auto|by apply reachable_cut; auto|].
    destruct (Hp Hs); [right|by left]. split; [done|]. by apply counted_0_connections; [apply runtime_reachable_inv|].
  - done.
  - apply own_step_left.
  - intros Hx Hne. destruct (own_step_enabled d Hne) as [?|(i & s & _ & _ & _ & ?)]; [done|congruence].
  - intros Hne d' [Hst|Hst]; [right; by apply own_step_drain_left|]. apply rt_step_left; try done.
    unfold past_close. destruct (dr_pc d) as [i| | |] eqn:E; try done. by destruct (Hne i).
  - intros Hstuck. destruct (decide (own_left d = 0)) as [Hz|Hnz].
    { unfold own_left in Hz. destruct (dr_pc d); [lia..|done]. }
    destruct (own_step_enabled d) as [[d' Hst]|(i & s & _ & Hi & Hp & _)].
    + intros E. unfold own_left in Hnz. by rewrite E in Hnz.
    + pose proof (own_step_left _ _ Hst) as Hl. rewrite (Hstuck d') in Hl by auto. lia.
    + destruct (Hrt i s Hi) as [Hr _]. destruct (busy_moves d i s Hr Hi Hp) as (d' & Hst & Hne).
      destruct Hne. auto.
Qed.
