(* ===== verification/TcpProxy.v ===== *)
(** * internal/proxy/tcp.go: the TCP forwarder

    [TCP] after its dial: two goroutines that copy one direction each, with
    [io.Copy], [CloseWrite] and the message on [done], and the function that
    waits for both and closes the connections.  The peers, the goroutines and
    connection failures interleave as steps. *)

From S2P Require Import Prelude.
From Stdlib Require Import Ascii.

(** ** One direction *)

(** Where the goroutine is: in [io.Copy], before [CloseWrite], before the send
    on [done], at its end. *)
Inductive copy_pc := Copying | AtCloseWrite | AtDone | CopyEnded.

#[global] Instance copy_pc_eq_dec : EqDecision copy_pc.
Proof. solve_decision. Defined.

(** What the sending peer has sent and whether it has closed its side, the
    chunk [io.Copy] holds, what is still to be read, what the receiving peer
    was given, and whether it was given the end of the stream. *)
Record Flow := mkFlow {
  fl_sent : list ascii;
  fl_eof : bool;
  fl_unread : list ascii;
  fl_held : list ascii;
  fl_delivered : list ascii;
  fl_fin : bool;
  fl_broken : bool;
  fl_pc : copy_pc
}.

Definition new_flow : Flow := mkFlow [] false [] [] [] false false Copying.

(** The buffer of [io.Copy]. *)
Definition bufsize : Z := 32 * 1024.

(** What the peers do. *)
Inductive peer_step : Flow → Flow → Prop :=
| peer_sends f data :
    fl_eof f = false → data ≠ [] →
    peer_step f (mkFlow (fl_sent f ++ data) false (fl_unread f ++ data) (fl_held f) (fl_delivered f)
                   (fl_fin f) (fl_broken f) (fl_pc f))
| peer_closes f :
    fl_eof f = false →
    peer_step f (mkFlow (fl_sent f) true (fl_unread f) (fl_held f) (fl_delivered f)
                   (fl_fin f) (fl_broken f) (fl_pc f)).

(** What the goroutine does: reads a chunk, writes it, ends at the end of the
    stream or on an error of either connection, closes the other side for
    writing and reports.  The label says whether a connection failed. *)
Inductive copy_step : bool → Flow → Flow → Prop :=
| copy_reads f chunk rest :
    fl_pc f = Copying → fl_held f = [] → fl_unread f = chunk ++ rest → chunk ≠ [] → (Z.of_nat (length chunk) ≤ bufsize)%Z →
    copy_step false f (mkFlow (fl_sent f) (fl_eof f) rest chunk (fl_delivered f) (fl_fin f) (fl_broken f) Copying)
| copy_writes f :
    fl_pc f = Copying → fl_held f ≠ [] →
    copy_step false f (mkFlow (fl_sent f) (fl_eof f) (fl_unread f) [] (fl_delivered f ++ fl_held f)
                   (fl_fin f) (fl_broken f) Copying)
| copy_at_eof f :
    fl_pc f = Copying → fl_held f = [] → fl_unread f = [] → fl_eof f = true →
    copy_step false f (mkFlow (fl_sent f) (fl_eof f) [] [] (fl_delivered f) (fl_fin f) (fl_broken f) AtCloseWrite)
| copy_fails f :
    fl_pc f = Copying →
    copy_step true f (mkFlow (fl_sent f) (fl_eof f) (fl_unread f) (fl_held f) (fl_delivered f) (fl_fin f) true AtCloseWrite)
| copy_closes_write f :
    fl_pc f = AtCloseWrite →
    copy_step false f (mkFlow (fl_sent f) (fl_eof f) (fl_unread f) (fl_held f) (fl_delivered f) true (fl_broken f) AtDone)
| copy_reports f :
    fl_pc f = AtDone →
    copy_step false f (mkFlow (fl_sent f) (fl_eof f) (fl_unread f) (fl_held f) (fl_delivered f) (fl_fin f)
                   (fl_broken f) CopyEnded).

(** ** The connection *)

(** [up] carries the client's bytes to the backend, [down] the answers. *)
Record Pipe := mkPipe {
  pi_up : Flow;
  pi_down : Flow;
  pi_client_closed : bool;
  pi_upstream_closed : bool
}.

(** After the dial: without a backend the client is closed at once. *)
Definition TCP (dial_ok : bool) : option Pipe :=
  if dial_ok then Some (mkPipe new_flow new_flow false false) else None.

(** The steps of the program; the last one is the return of [TCP] with its
    deferred calls. *)
Inductive program_step : bool → Pipe → Pipe → Prop :=
| step_up l p f : pi_client_closed p = false → copy_step l (pi_up p) f →
    program_step l p (mkPipe f (pi_down p) (pi_client_closed p) (pi_upstream_closed p))
| step_down l p f : pi_client_closed p = false → copy_step l (pi_down p) f →
    program_step l p (mkPipe (pi_up p) f (pi_client_closed p) (pi_upstream_closed p))
| step_return p : pi_client_closed p = false → fl_pc (pi_up p) = CopyEnded → fl_pc (pi_down p) = CopyEnded →
    program_step false p (mkPipe (pi_up p) (pi_down p) true true).

Inductive pipe_step : Pipe → Pipe → Prop :=
| pipe_program l p p' : program_step l p p' → pipe_step p p'
| pipe_client p f : peer_step (pi_up p) f →
    pipe_step p (mkPipe f (pi_down p) (pi_client_closed p) (pi_upstream_closed p))
| pipe_backend p f : peer_step (pi_down p) f →
    pipe_step p (mkPipe (pi_up p) f (pi_client_closed p) (pi_upstream_closed p)).

Create HintDb tcp.
#[export] Hint Constructors peer_step copy_step program_step pipe_step : tcp.

Definition pipe_reachable (p : Pipe) : Prop := ∃ p0, TCP true = Some p0 ∧ rtc pipe_step p0 p.

(** ** What a direction guarantees *)

Record flow_inv (f : Flow) : Prop := mkFlowInv {
  flow_bytes : fl_delivered f ++ fl_held f ++ fl_unread f = fl_sent f;
  flow_ended : fl_pc f ≠ Copying → fl_broken f = false → fl_eof f = true ∧ fl_held f = [] ∧ fl_unread f = [];
  flow_fin : fl_fin f = true ↔ fl_pc f = AtDone ∨ fl_pc f = CopyEnded
}.

Lemma flow_inv_new : flow_inv new_flow.
Proof. by split; try done; cbn; split; [|intros [?|?]]. Qed.

Lemma flow_inv_peer f f' : flow_inv f → peer_step f f' → flow_inv f'.
Proof.
  intros [Hb He Hf] Hs. destruct Hs as [f data Heof Hd|f Heof]; split; cbn; try done.
  - by rewrite !app_assoc, <-(app_assoc (fl_delivered f)), Hb.
  - intros Hp Hk. destruct (He Hp Hk) as [? _]. congruence.
  - intros Hp Hk. destruct (He Hp Hk) as [? _]. congruence.
Qed.

Lemma flow_inv_copy l f f' : flow_inv f → copy_step l f f' → flow_inv f'.
Proof.
  intros [Hb He Hf] Hs.
  destruct Hs as [f chunk rest Hp Hh Hu|f Hp Hh|f Hp Hh Hu Heof|f Hp|f Hp|f Hp]; split; cbn;
    rewrite ?Hp in *; try (rewrite Hh in *); try (rewrite Hu in *); try done.
  all: try (by rewrite <-?Hb, ?app_nil_l, <-?app_assoc).
  all: try (rewrite Hf; naive_solver).
  all: try naive_solver.
Qed.

Definition pipe_inv (p : Pipe) : Prop :=
  flow_inv (pi_up p) ∧ flow_inv (pi_down p) ∧ pi_upstream_closed p = pi_client_closed p ∧
  (pi_client_closed p = true → fl_pc (pi_up p) = CopyEnded ∧ fl_pc (pi_down p) = CopyEnded).

Lemma peer_step_pc f f' : peer_step f f' → fl_pc f' = fl_pc f.
Proof. by destruct 1. Qed.

Lemma pipe_inv_step p p' : pipe_inv p → pipe_step p p' → pipe_inv p'.
Proof.
  intros (Hu & Hd & Hc & He) Hs. unfold pipe_inv.
  destruct Hs as [l p p' Hs|p f Hs|p f Hs]; [destruct Hs as [l p f Ho Hs|l p f Ho Hs|p Ho H1 H2]|..]; cbn;
    split_and!; eauto using flow_inv_copy, flow_inv_peer; rewrite ?Ho; try done; try congruence.
  - intros H. apply He in H as [? ?]. by rewrite (peer_step_pc _ _ Hs).
  - intros H. apply He in H as [? ?]. by rewrite (peer_step_pc _ _ Hs).
Qed.

Lemma pipe_reachable_inv p : pipe_reachable p → pipe_inv p.
Proof.
  intros (p0 & [= <-] & Hr). revert p Hr.
  apply (rtc_ind_r pipe_inv); [|intros y z _ Hs Hy; by eapply pipe_inv_step].
  unfold pipe_inv. cbn. split_and!; [apply flow_inv_new|apply flow_inv_new|done|done].
Qed.

(** In every state of a forwarded connection each side has been given a prefix of the bytes the
    other side sent; a side that is given the end of the stream has been given all of them,
    unless a connection failed; and the two connections are closed only after both directions
    have ended, both together. *)
Theorem forwarder_is_transparent p :
  pipe_reachable p →
  (∀ f, f = pi_up p ∨ f = pi_down p →
     fl_delivered f `prefix_of` fl_sent f ∧
     (fl_fin f = true → fl_broken f = true ∨ (fl_eof f = true ∧ fl_delivered f = fl_sent f))) ∧
  (pi_client_closed p = true ∨ pi_upstream_closed p = true →
     pi_client_closed p = true ∧ pi_upstream_closed p = true ∧
     fl_fin (pi_up p) = true ∧ fl_fin (pi_down p) = true).
Proof.
  intros Hp. apply pipe_reachable_inv in Hp as (Hu & Hd & Hc & He).
  split.
  - assert (∀ f, flow_inv f → fl_delivered f `prefix_of` fl_sent f ∧
       (fl_fin f = true → fl_broken f = true ∨ (fl_eof f = true ∧ fl_delivered f = fl_sent f))) as Hf.
    { intros f [Hb Hend Hfin]. split; [rewrite <-Hb; by apply prefix_app_r|].
      intros Hft. destruct (fl_broken f) eqn:Ebr; [by left|]. right.
      apply Hfin in Hft. assert (fl_pc f ≠ Copying) as Hpc by (destruct Hft; congruence).
      destruct (Hend Hpc eq_refl) as (? & Hh & Hun). split; [done|].
      by rewrite <-Hb, Hh, Hun, !app_nil_r. }
    intros f [->| ->]; by apply Hf.
  - intros Hclosed. assert (pi_client_closed p = true) as Hcl by (destruct Hclosed; congruence).
    destruct (He Hcl) as [H1 H2]. split_and!; [done|congruence|..].
    + apply (flow_fin _ Hu). by right.
    + apply (flow_fin _ Hd). by right.
Qed.

(** ** It ends *)

(** The steps a goroutine can still take without its peer. *)
Definition flow_work (f : Flow) : nat :=
  match fl_pc f with
  | Copying => 3 + 2 * length (fl_unread f) + (if decide (fl_held f = []) then 0 else 1)
  | AtCloseWrite => 2
  | AtDone => 1
  | CopyEnded => 0
  end.

Definition pipe_work (p : Pipe) : nat :=
  flow_work (pi_up p) + flow_work (pi_down p) + (if pi_client_closed p then 0 else 1).

Lemma copy_step_work l f f' : copy_step l f f' → flow_work f' < flow_work f.
Proof.
  destruct 1 as [f chunk rest Hp Hh Hu Hne Hl|f Hp Hh|f Hp Hh Hu Heof|f Hp|f Hp|f Hp]; unfold flow_work; cbn; rewrite Hp;
    try (rewrite Hh); try (rewrite Hu); rewrite ?length_app; repeat case_decide; try done; try lia.
  destruct chunk; [done|]. cbn [length]. lia.
Qed.

Lemma program_step_work l p p' : program_step l p p' → pipe_work p' < pipe_work p.
Proof.
  destruct 1 as [l p f Ho Hs|l p f Ho Hs|p Ho H1 H2]; unfold pipe_work; cbn.
  - apply copy_step_work in Hs. lia.
  - apply copy_step_work in Hs. lia.
  - rewrite Ho. lia.
Qed.

Lemma copy_progress f : fl_eof f = true → fl_pc f ≠ CopyEnded → ∃ f', copy_step false f f'.
Proof.
  intros Heof Hpc. destruct (fl_pc f) eqn:Ep; [|by eauto with tcp..|done].
  destruct (decide (fl_held f = [])) as [Hh|Hh]; [|by eauto with tcp].
  destruct (fl_unread f) as [|c rest] eqn:Hu; [by eauto with tcp|].
  eexists. by eapply (copy_reads f [c] rest).
Qed.

Lemma program_progress p :
  pi_client_closed p = false → fl_eof (pi_up p) = true → fl_eof (pi_down p) = true → ∃ p', program_step false p p'.
Proof.
  intros Ho Hu Hd. destruct (decide (fl_pc (pi_up p) = CopyEnded)) as [E1|E1].
  - destruct (decide (fl_pc (pi_down p) = CopyEnded)) as [E2|E2]; [by eauto with tcp|].
    destruct (copy_progress _ Hd E2) as [f' ?]. eauto with tcp.
  - destruct (copy_progress _ Hu E1) as [f' ?]. eauto with tcp.
Qed.

Lemma copy_step_peer l f f' : copy_step l f f' →
  fl_eof f' = fl_eof f ∧ fl_sent f' = fl_sent f ∧ (l = false → fl_broken f' = fl_broken f).
Proof. by destruct 1. Qed.

Lemma program_step_peer l p p' : program_step l p p' →
  fl_eof (pi_up p') = fl_eof (pi_up p) ∧ fl_eof (pi_down p') = fl_eof (pi_down p) ∧
  fl_sent (pi_up p') = fl_sent (pi_up p) ∧ fl_sent (pi_down p') = fl_sent (pi_down p) ∧
  (l = false → fl_broken (pi_up p') = fl_broken (pi_up p) ∧ fl_broken (pi_down p') = fl_broken (pi_down p)).
Proof. destruct 1 as [l p f Ho Hs|l p f Ho Hs|p Ho H1 H2]; cbn; try apply copy_step_peer in Hs as (? & ? & ?); naive_solver. Qed.

(** Once both peers have closed, the forwarder runs to its return. *)
Lemma program_completes p :
  fl_eof (pi_up p) = true → fl_eof (pi_down p) = true →
  ∃ p', rtc (program_step false) p p' ∧ pi_client_closed p' = true ∧
    fl_sent (pi_up p') = fl_sent (pi_up p) ∧ fl_sent (pi_down p') = fl_sent (pi_down p) ∧
    fl_broken (pi_up p') = fl_broken (pi_up p) ∧ fl_broken (pi_down p') = fl_broken (pi_down p).
Proof.
  induction p as [p IH] using (induction_ltof1 _ pipe_work). intros Hu Hd.
  destruct (pi_client_closed p) eqn:Ho; [by exists p; split_and!|].
  destruct (program_progress p Ho Hu Hd) as [p1 Hs].
  pose proof (program_step_peer _ _ _ Hs) as (E1 & E2 & E3 & E4 & E5). destruct (E5 eq_refl) as [E6 E7].
  destruct (IH p1 (program_step_work _ _ _ Hs)) as (p' & Hr & Hcl & ? & ? & ? & ?); [congruence..|].
  exists p'. split_and!; try congruence. by eapply rtc_l.
Qed.

(** A direction that is still copying can be drained. *)
Lemma flow_drains f : flow_inv f → fl_pc f = Copying →
  ∃ f', rtc (copy_step false) f f' ∧ fl_delivered f' = fl_sent f ∧ fl_pc f' = Copying.
Proof.
  induction f as [f IH] using (induction_ltof1 _ flow_work). intros Hinv Hpc.
  destruct (decide (fl_held f = [])) as [Hh|Hh]; [destruct (fl_unread f) as [|c rest] eqn:Hu|].
  - exists f. split_and!; [done| |done]. rewrite <-(flow_bytes f Hinv), Hh, Hu. by rewrite !app_nil_r.
  - assert (Z.of_nat (length [c]) ≤ bufsize)%Z as Hbuf by done.
    pose proof (copy_reads f [c] rest Hpc Hh Hu ltac:(done) Hbuf) as Hs.
    destruct (IH _ (copy_step_work _ _ _ Hs) (flow_inv_copy _ _ _ Hinv Hs) eq_refl) as (f' & Hr & ? & ?).
    exists f'. split_and!; [by eapply rtc_l|done|done].
  - pose proof (copy_writes f Hpc Hh) as Hs.
    destruct (IH _ (copy_step_work _ _ _ Hs) (flow_inv_copy _ _ _ Hinv Hs) eq_refl) as (f' & Hr & ? & ?).
    exists f'. split_and!; [by eapply rtc_l|done|done].
Qed.

Lemma rtc_down p f : pi_client_closed p = false → rtc (copy_step false) (pi_down p) f →
  rtc (program_step false) p (mkPipe (pi_up p) f (pi_client_closed p) (pi_upstream_closed p)).
Proof.
  intros Ho Hr. remember (pi_down p) as f0 eqn:E. revert p Ho E.
  induction Hr as [f|f0 f1 f2 Hs _ IH]; intros p Ho ->; [by destruct p|].
  eapply rtc_l; [by apply step_down|]. by refine (IH (mkPipe _ _ _ _) _ _).
Qed.

(** C18: The forwarder never runs on its own for more than a bounded number of steps; once both
    peers have closed their side it can always go on without failures to its return, with
    everything delivered both ways and both connections closed; and after the client has closed
    its side alone, the backend's answers can still all be delivered. *)
Theorem forwarder_completes p :
  pipe_reachable p →
  (* never more than so many steps without the peers *)
  (∀ n p', nsteps (λ p p', ∃ l, program_step l p p') n p p' → n ≤ pipe_work p) ∧
  (* peers that have closed get everything, then the connections close *)
  (fl_eof (pi_up p) = true → fl_eof (pi_down p) = true →
     ∃ p', rtc (program_step false) p p' ∧ pi_client_closed p' = true ∧ pi_upstream_closed p' = true ∧
       (fl_broken (pi_up p) = false → fl_delivered (pi_up p') = fl_sent (pi_up p)) ∧
       (fl_broken (pi_down p) = false → fl_delivered (pi_down p') = fl_sent (pi_down p))) ∧
  (* answers still arrive after the client's side is closed *)
  (fl_pc (pi_up p) ≠ Copying → fl_pc (pi_down p) = Copying →
     ∃ p', rtc (program_step false) p p' ∧ fl_delivered (pi_down p') = fl_sent (pi_down p) ∧ pi_up p' = pi_up p).
Proof.
  intros Hreach. pose proof (pipe_reachable_inv p Hreach) as Hinv. split_and!.
  - intros n p' Hn. induction Hn as [p|n p p1 p2 [l Hs] Hn IH]; [lia|].
    assert (pipe_reachable p1) as Hr1.
    { destruct Hreach as (p0 & ? & ?). exists p0. split; [done|]. eapply rtc_r; [done|]. by econstructor. }
    specialize (IH Hr1 (pipe_reachable_inv p1 Hr1)). apply program_step_work in Hs. lia.
  - intros Hu Hd. destruct (program_completes p Hu Hd) as (p' & Hr & Hcl & E1 & E2 & E3 & E4).
    assert (pipe_inv p') as (Hu' & Hd' & Hc' & He').
    { clear -Hinv Hr. induction Hr as [|p p1 p2 Hs _ IH]; [done|]. apply IH. eapply pipe_inv_step; [done|]. by econstructor. }
    destruct (He' Hcl) as [P1 P2]. exists p'. split_and!; [done|done|congruence|..]; intros Hb.
    + destruct (flow_ended _ Hu') as (_ & Hh & Hn); [congruence|congruence|].
      rewrite <-E1, <-(flow_bytes _ Hu'), Hh, Hn. by rewrite !app_nil_r.
    + destruct (flow_ended _ Hd') as (_ & Hh & Hn); [congruence|congruence|].
      rewrite <-E2, <-(flow_bytes _ Hd'), Hh, Hn. by rewrite !app_nil_r.
  - intros _ Hpc. destruct Hinv as (_ & Hd & _ & He).
    destruct (flow_drains _ Hd Hpc) as (f' & Hr & Hdel & _).
    assert (pi_client_closed p = false) as Ho.
    { destruct (pi_client_closed p); [|done]. destruct (He eq_refl) as [_ ?]. congruence. }
    exists (mkPipe (pi_up p) f' (pi_client_closed p) (pi_upstream_closed p)). split_and!; [by apply rtc_down|done|done].
Qed.
