(* ===== verification/Router.v ===== *)
(** * internal/proxy/http.go: the HTTP router

    The router maps a normalized host name to a route.  A route's provider
    is a closure that reads the registry; it is an abstract value [P] here,
    evaluated by the function given to [ServeHTTP]. *)

From S2P Require Import Prelude GoStrings GoNet GoUrl Registry.
From Stdlib Require Import Ascii.

(** ** net/url *)

(** [url.shouldEscape] in host mode, negated: the bytes that stay. *)
Definition host_unescaped (c : ascii) : bool :=
  is_lower c || is_upper c || is_digit c ||
  bool_decide (c ∈ bytes "-_.~!$&'()*+,;=:[]<>") ||
  bool_decide (c = ascii_of_nat 34).

Definition escape_host (s : string) : string :=
  str (c ← bytes s;
       if host_unescaped c then [c]
       else ["%"%char; upper_hex (nat_of_ascii c / 16); upper_hex (nat_of_ascii c mod 16)]).

(** [(&url.URL{Scheme: scheme, Host: host}).String()]. *)
Definition url_string (scheme host : string) : string :=
  (if decide (scheme = "") then "" else scheme +:+ ":") +:+
  (if decide (host = "") then "" else "//" +:+ escape_host host).

(** ** The router *)

Section Router.
Context {P : Type} `{Unicode}.

Record httpProxy := mkProxy { hp_hostname : string; hp_provider : P }.

Record Router := mkRouter {
  ro_routes : gmap string httpProxy;
  ro_scheme : string;
  ro_port : Z
}.

Definition normalizeHost (host : string) : string :=
  let h := ToLower (TrimSpace host) in
  if decide (h = "") then h
  else
    let h := match SplitHostPort h with Ok (hostPart, _) => hostPart | Err _ => h end in
    TrimSuffix (TrimSuffix (TrimPrefix h "[") "]") ".".

Definition NewRouter (scheme : string) (port : Z) : Router :=
  mkRouter ∅ (if decide (scheme = "") then "http" else scheme) port.

Definition set_routes (rs : gmap string httpProxy) (r : Router) : Router :=
  mkRouter rs (ro_scheme r) (ro_port r).

(** [Set]. *)
Definition SetRoute (r : Router) (hostname : string) (provider : P) : Router :=
  let key := normalizeHost hostname in
  set_routes (<[key := mkProxy key provider]> (ro_routes r)) r.

(** [Delete]. *)
Definition DeleteRoute (r : Router) (hostname : string) : Router :=
  set_routes (delete (normalizeHost hostname) (ro_routes r)) r.

(** [Lookup]. *)
Definition LookupRoute (r : Router) (hostname : string) : option P :=
  hp_provider <$> ro_routes r !! normalizeHost hostname.

Definition FrontendURL (r : Router) (hostname : string) : string :=
  let host := normalizeHost hostname in
  let host :=
    if decide ((0 < ro_port r)%Z ∧ (ro_scheme r ≠ "http" ∨ ro_port r ≠ 80%Z) ∧
               (ro_scheme r ≠ "https" ∨ ro_port r ≠ 443%Z))
    then JoinHostPort host (Itoa (ro_port r)) else host in
  url_string (ro_scheme r) host.

(** The snapshot a request carries through [Rewrite]. *)
Record routeSnapshot := mkSnapshot { rs_backend : Backend; rs_publicHost : string }.

Inductive response :=
| NotFound                       (* 404 *)
| ServiceUnavailable             (* 503 *)
| Proxied (snap : routeSnapshot).

(** [ServeHTTP]: the provider is evaluated at most once per request. *)
Definition ServeHTTP (eval : P → option Backend) (r : Router) (reqHost : string) : response :=
  let host := normalizeHost reqHost in
  match ro_routes r !! host with
  | None => NotFound
  | Some hp =>
    match eval (hp_provider hp) with
    | None => ServiceUnavailable
    | Some backend => Proxied (mkSnapshot backend host)
    end
  end.

End Router.
Arguments httpProxy P : clear implicits.
Arguments Router P : clear implicits.

(** ** Rewrite *)

(** The parts of a request the rewrite reads or writes. *)
Record inRequest := mkIn {
  in_Path : string;
  in_RawQuery : string;
  in_Host : string;
  in_RemoteAddr : string;
  in_TLS : bool;
  in_Header : gmap string (list string)
}.

Record outRequest := mkOut {
  out_URLScheme : string;
  out_URLHost : string;
  out_Path : string;
  out_RawQuery : string;
  out_Host : string;
  out_Header : gmap string (list string)
}.

(** [ProxyRequest.SetXForwarded] on the outbound headers. *)
Definition SetXForwarded (req : inRequest) (h : gmap string (list string)) :
  gmap string (list string) :=
  let h :=
    match SplitHostPort (in_RemoteAddr req) with
    | Ok (clientIP, _) =>
      let ip := match h !! "X-Forwarded-For" with
                | Some (p :: ps) =>
                  foldl (λ acc q, acc +:+ ", " +:+ q) p (ps ++ [clientIP])
                | _ => clientIP
                end in
      <["X-Forwarded-For" := [ip]]> h
    | Err _ => delete "X-Forwarded-For" h
    end in
  <["X-Forwarded-Proto" := [if in_TLS req then "https" else "http"]]>
    (<["X-Forwarded-Host" := [in_Host req]]> h).

(** [pr.SetURL] with a URL that has only a scheme and a host, on the outbound
    request [pr.Out]: the target's empty path and query are joined with those
    of the outbound request, and the Host header is the target's. *)
Definition join_root (path : string) : string :=
  match path with String "/" _ => path | _ => "/" +:+ path end.

Definition SetURL (scheme host : string) (o : outRequest) : outRequest :=
  mkOut scheme host (join_root (out_Path o)) (out_RawQuery o) "" (out_Header o).

Definition set_out (host : string) (h : gmap string (list string)) (o : outRequest) : outRequest :=
  mkOut (out_URLScheme o) (out_URLHost o) (out_Path o) (out_RawQuery o) host h.

(** The [Rewrite] closure of [Set], applied to the inbound request, the
    outbound one and the snapshot found in the request context. *)
Definition Rewrite (snapshot : option routeSnapshot) (req : inRequest) (o : outRequest) : outRequest :=
  match snapshot with
  | None => SetURL "http" "127.0.0.1:0" o
  | Some snap =>
    let out := SetURL "http" (Backend_Addr (rs_backend snap)) o in
    let h := delete "X-Forwarded-Proto"
               (delete "X-Forwarded-Host" (delete "X-Forwarded-For" (out_Header out))) in
    set_out (rs_publicHost snap) (SetXForwarded req h) out
  end.

(** What [httputil.ReverseProxy] gives to [Rewrite] as [pr.Out]: a copy of the
    inbound request with its query cleaned.  It also takes headers away; they
    are left open. *)
Definition outbound (req : inRequest) (o : outRequest) : Prop :=
  out_Path o = in_Path req ∧ outbound_query (in_RawQuery req) (out_RawQuery o).

(** The copy with given headers. *)
Definition outbound_copy (req : inRequest) (h : gmap string (list string)) : outRequest :=
  mkOut "" "" (in_Path req) (cleanQueryParams (in_RawQuery req)) (in_Host req) h.

Lemma outbound_copy_ok req h : outbound req (outbound_copy req h).
Proof. done. Qed.

(** ** Host names *)

(** The bytes of DNS-style host names. *)
Definition host_byte (c : ascii) : bool :=
  is_lower c || is_digit c || bool_decide (c ∈ bytes "-._").

Definition clean_host (h : string) : Prop :=
  h ≠ "" ∧ Forall (λ c, host_byte c = true) (bytes h) ∧ last (bytes h) ≠ Some "."%char.

#[global] Instance clean_host_dec h : Decision (clean_host h).
Proof. unfold clean_host. apply _. Defined.

(** What a byte of a host name, or of [host:port], is not. *)
Lemma host_byte_class c :
  host_byte c || bool_decide (c = ":"%char) = true →
  is_ascii c = true ∧ is_upper c = false ∧ no_space c = true ∧ host_unescaped c = true ∧
  c ≠ "["%char ∧ c ≠ "]"%char.
Proof.
  intros Hc.
  assert (implb (host_byte c || bool_decide (c = ":"%char))
    (is_ascii c && negb (is_upper c) && no_space c && host_unescaped c &&
     bool_decide (c ≠ "["%char ∧ c ≠ "]"%char)) = true) as Hall.
  { clear Hc. revert c. apply byte_all. by vm_compute. }
  rewrite Hc in Hall. simpl in Hall. rewrite !andb_true_iff, bool_decide_eq_true in Hall.
  destruct (is_upper c); naive_solver.
Qed.

Lemma digit_host_byte c : is_digit c = true → host_byte c = true.
Proof. unfold host_byte. intros ->. by rewrite orb_true_r. Qed.

Section HostFacts.
Context `{Unicode}.

(** A string of such bytes is left alone by the trimming and lower-casing. *)
Lemma normalize_prefix_id s :
  Forall (λ c, host_byte c || bool_decide (c = ":"%char) = true) (bytes s) →
  ToLower (TrimSpace s) = s.
Proof.
  intros Hs. rewrite Forall_forall in Hs.
  assert (∀ c, c ∈ bytes s → is_ascii c = true ∧ is_upper c = false ∧ no_space c = true) as Hc
    by (intros c Hin%Hs; destruct (host_byte_class c Hin); naive_solver).
  rewrite TrimSpace_id.
  - apply ToLower_id.
    + unfold all_ascii. apply forallb_forall. intros c Hin%list_elem_of_In. by apply Hc.
    + apply Forall_forall. intros c Hin. by apply Hc.
  - intros c Hh. apply Hc. destruct (bytes s); simplify_eq/=. by left.
  - intros c Hl. apply Hc. apply last_Some in Hl as [l ->]. set_solver.
Qed.

Lemma clean_host_bytes h c :
  clean_host h → c ∈ bytes h → host_byte c || bool_decide (c = ":"%char) = true.
Proof.
  intros (_ & Hb & _) Hin. rewrite Forall_forall in Hb. by rewrite (Hb c Hin).
Qed.

Lemma clean_host_no h c : clean_host h → host_byte c = false → c ∉ bytes h.
Proof. intros (_ & Hb & _) Hc. by apply (class_not_elem host_byte). Qed.

(** Nothing of a clean host name is a bracket or a trailing dot. *)
Lemma trim_brackets_clean h :
  clean_host h → TrimSuffix (TrimSuffix (TrimPrefix h "[") "]") "." = h.
Proof.
  intros Hc. rewrite (TrimPrefix_id h "["%char "").
  - rewrite (TrimSuffix1_id h "]"%char); [apply TrimSuffix1_id, Hc|].
    intros Hl. apply (clean_host_no h "]"%char Hc); [done|].
    apply last_Some in Hl as [l ->]. set_solver.
  - intros Hl. apply (clean_host_no h "["%char Hc); [done|].
    destruct (bytes h); simplify_eq/=. by left.
Qed.

Lemma normalizeHost_clean h : clean_host h → normalizeHost h = h.
Proof.
  intros Hc. unfold normalizeHost.
  rewrite normalize_prefix_id by (apply Forall_forall; by intros c; apply clean_host_bytes).
  rewrite decide_False by apply Hc.
  assert (SplitHostPort h = Err MissingPort) as ->; [|by apply trim_brackets_clean].
  unfold SplitHostPort, split_host_port.
  by rewrite last_index_byte_None by by apply clean_host_no.
Qed.

Lemma normalizeHost_port h p :
  clean_host h → (0 ≤ p)%Z → normalizeHost (JoinHostPort h (Itoa p)) = h.
Proof.
  intros Hc Hp. destruct (Itoa_digits p Hp) as [Hd Hne].
  assert (":"%char ∉ bytes h) as Hcol by by apply clean_host_no.
  assert (JoinHostPort h (Itoa p) = h +:+ ":" +:+ Itoa p) as E
    by (unfold JoinHostPort, has_byte; by rewrite decide_False).
  unfold normalizeHost. rewrite normalize_prefix_id.
  - rewrite decide_False by (rewrite E; destruct h; [by destruct Hc|done]).
    rewrite SplitHostPort_JoinHostPort; [by apply trim_brackets_clean|..].
    + by split; apply clean_host_no.
    + by split; apply (class_not_elem is_digit).
    + by apply (class_not_elem is_digit).
  - rewrite E, !bytes_app. apply Forall_app. split.
    + apply Forall_forall. by intros c; apply clean_host_bytes.
    + apply Forall_cons. split; [done|]. apply (Forall_impl _ _ _ Hd).
      intros c Hdc. by rewrite digit_host_byte.
Qed.

Lemma escape_host_id s :
  Forall (λ c, host_byte c || bool_decide (c = ":"%char) = true) (bytes s) →
  escape_host s = s.
Proof.
  intros Hs. unfold escape_host. rewrite <-(str_bytes s) at 2. f_equal.
  induction Hs as [|c l Hc _ IH]; [done|]. rewrite bind_cons, IH.
  destruct (host_byte_class c Hc) as (_ & _ & _ & -> & _). done.
Qed.
End HostFacts.

(** ** The published URL leads to the route *)

(** The authority (host[:port]) of the public URL of a host name. *)
Definition authority (scheme : string) (port : Z) (h : string) : string :=
  if decide ((0 < port)%Z ∧ (scheme ≠ "http" ∨ port ≠ 80%Z) ∧
             (scheme ≠ "https" ∨ port ≠ 443%Z))
  then JoinHostPort h (Itoa port) else h.

Section RouterFacts.
Context {P : Type} `{Unicode}.

Lemma normalizeHost_authority scheme port h :
  clean_host h → normalizeHost (authority scheme port h) = h.
Proof.
  intros Hc. unfold authority. case_decide.
  - apply normalizeHost_port; [done|lia].
  - by apply normalizeHost_clean.
Qed.

Lemma authority_bytes scheme port h :
  clean_host h →
  Forall (λ c, host_byte c || bool_decide (c = ":"%char) = true)
    (bytes (authority scheme port h)).
Proof.
  intros Hc. unfold authority, JoinHostPort, has_byte.
  rewrite (decide_False (P := ":"%char ∈ bytes h)) by by apply clean_host_no.
  assert (Forall (λ c, host_byte c || bool_decide (c = ":"%char) = true) (bytes h))
    by (apply Forall_forall; by intros c; apply clean_host_bytes).
  case_decide; [|done]. rewrite !bytes_app. apply Forall_app; split; [done|].
  apply Forall_cons. split; [done|].
  destruct (Itoa_digits port) as [Hd _]; [lia|]. apply (Forall_impl _ _ _ Hd).
  intros c Hdc. by rewrite digit_host_byte.
Qed.

Lemma LookupRoute_SetRoute (r : Router P) h p k :
  LookupRoute (SetRoute r h p) k =
  if decide (normalizeHost h = normalizeHost k) then Some p else LookupRoute r k.
Proof.
  unfold LookupRoute, SetRoute. simpl. rewrite lookup_insert. by case_decide.
Qed.
End RouterFacts.

(** C29: For a DNS-style host name, the public URL of a route has the scheme and authority of
    the proxy listener, a request to that authority is answered by the route's backend (503
    without one), and the routes of other host names are not affected. *)
Theorem FrontendURL_reaches_route {P} `{Unicode} (r : Router P) h p eval :
  clean_host h → ro_scheme r ≠ "" →
  let auth := authority (ro_scheme r) (ro_port r) h in
  FrontendURL r h = ro_scheme r +:+ "://" +:+ auth ∧
  ServeHTTP eval (SetRoute r h p) auth =
    match eval p with
    | Some b => Proxied (mkSnapshot b h)
    | None => ServiceUnavailable
    end ∧
  (∀ h', clean_host h' → h' ≠ h →
     ServeHTTP eval (SetRoute r h p) (authority (ro_scheme r) (ro_port r) h') =
     ServeHTTP eval r (authority (ro_scheme r) (ro_port r) h')).
Proof.
  intros Hc Hs auth. split_and!.
  - unfold FrontendURL. rewrite normalizeHost_clean by done.
    fold (authority (ro_scheme r) (ro_port r) h). fold auth.
    unfold url_string. rewrite decide_False by done.
    rewrite decide_False; [rewrite escape_host_id by by apply authority_bytes|].
    + apply bytes_inj. rewrite !bytes_app. simpl. by rewrite <-app_assoc.
    + intros E. pose proof (normalizeHost_authority (ro_scheme r) (ro_port r) h Hc) as Hn.
      fold auth in Hn. rewrite E in Hn. destruct Hc as [Hne _]. by rewrite <-Hn in Hne.
  - unfold ServeHTTP. unfold auth. rewrite normalizeHost_authority by done.
    unfold SetRoute. simpl. by rewrite normalizeHost_clean, lookup_insert_eq by done.
  - intros h' Hc' Hne. unfold ServeHTTP. rewrite !normalizeHost_authority by done.
    unfold SetRoute. simpl. by rewrite normalizeHost_clean, lookup_insert_ne by done.
Qed.

(** ** Forwarded headers *)

Definition forwarded_keys : list string :=
  ["X-Forwarded-For"; "X-Forwarded-Host"; "X-Forwarded-Proto"].

(** The rewritten request does not depend on any X-Forwarded header the client sent: it goes to
    the backend's address under the public host name, and X-Forwarded-For holds the client's
    address alone. *)
Theorem Rewrite_ignores_forwarded_headers snap req o1 o2 :
  out_Path o1 = out_Path o2 → out_RawQuery o1 = out_RawQuery o2 →
  (∀ k, k ∉ forwarded_keys → out_Header o1 !! k = out_Header o2 !! k) →
  Rewrite (Some snap) req o1 = Rewrite (Some snap) req o2 ∧
  out_URLHost (Rewrite (Some snap) req o1) = Backend_Addr (rs_backend snap) ∧
  out_Host (Rewrite (Some snap) req o1) = rs_publicHost snap ∧
  out_Header (Rewrite (Some snap) req o1) !! "X-Forwarded-For" =
    match SplitHostPort (in_RemoteAddr req) with
    | Ok (ip, _) => Some [ip]
    | Err _ => None
    end.
Proof.
  intros Hp Hq Hagree.
  assert (delete "X-Forwarded-Proto" (delete "X-Forwarded-Host" (delete "X-Forwarded-For" (out_Header o1)))
        = delete "X-Forwarded-Proto" (delete "X-Forwarded-Host" (delete "X-Forwarded-For" (out_Header o2))))
    as E.
  { apply map_eq. intros k. rewrite !lookup_delete. repeat case_decide; try done.
    apply Hagree. unfold forwarded_keys. set_solver. }
  split_and!; try done; [unfold Rewrite, SetURL; cbn [out_Header]; by rewrite E, Hp, Hq|].
  simpl. unfold SetXForwarded. rewrite !lookup_insert_ne by done.
  destruct (SplitHostPort _) as [[ip port]|]; by simplify_map_eq.
Qed.
