(* ===== verification/Config.v ===== *)
(** * internal/config: the daemon configuration

    [config.go]: the configuration record, its compiled defaults and the
    validation that every daemon start goes through. *)

From S2P Require Import Prelude GoStrings GoNet.
Local Open Scope Z_scope.

Definition MinLeaseTTL : Z := 3 * Second.
Definition MaxLeaseTTL : Z := Hour.

Record DockerConfig := mkDockerConfig {
  dc_Enabled : bool;
  dc_AllowNonLoopbackPublishedPorts : bool
}.

Record HTTPConfig := mkHTTPConfig {
  hc_Enabled : bool;
  hc_HTTPAddr : string;
  hc_HTTPSAddr : string;
  hc_BaseDomain : string;
  hc_CertFile : string;
  hc_KeyFile : string
}.

Record Config := mkConfig {
  c_Socket : string;
  c_TCPFrontendHost : string;
  c_TCPFrontendMin : Z;
  c_TCPFrontendMax : Z;
  c_LeaseTTL : Z;
  c_ShutdownTimeout : Z;
  c_StatePath : string;
  c_Docker : DockerConfig;
  c_HTTP : HTTPConfig
}.

Definition Default : Config :=
  mkConfig "" "127.0.0.1" 15000 19999 (15 * Second) (5 * Second) ""
    (mkDockerConfig true false)
    (mkHTTPConfig false "127.0.0.1:8088" "127.0.0.1:8443" "" "" "").

Inductive ConfigError :=
| InvalidPortRange
| EmptyFrontendHost
| LeaseTTLOutOfRange
| ShutdownTimeoutNotPositive
| InvalidHTTPAddr (e : AddrError)
| InvalidHTTPSAddr (e : AddrError).

(** [Validate]; [None] is a nil error. *)
Definition Validate (c : Config) : option ConfigError :=
  if decide (c_TCPFrontendMin c < 1 ∨ 65535 < c_TCPFrontendMax c ∨
             c_TCPFrontendMax c < c_TCPFrontendMin c) then Some InvalidPortRange
  else if decide (c_TCPFrontendHost c = "") then Some EmptyFrontendHost
  else if decide (c_LeaseTTL c < MinLeaseTTL ∨ MaxLeaseTTL < c_LeaseTTL c)
  then Some LeaseTTLOutOfRange
  else if decide (c_ShutdownTimeout c ≤ 0) then Some ShutdownTimeoutNotPositive
  else
    match (if hc_Enabled (c_HTTP c) then SplitHostPort (hc_HTTPAddr (c_HTTP c)) else Ok ("", "")) with
    | Err e => Some (InvalidHTTPAddr e)
    | Ok _ =>
      if decide (hc_CertFile (c_HTTP c) ≠ "" ∨ hc_KeyFile (c_HTTP c) ≠ "") then
        match SplitHostPort (hc_HTTPSAddr (c_HTTP c)) with
        | Err e => Some (InvalidHTTPSAddr e)
        | Ok _ => None
        end
      else None
    end.

(** What the rest of the daemon relies on. *)
Lemma Validate_bounds c :
  Validate c = None →
  1 ≤ c_TCPFrontendMin c ∧ c_TCPFrontendMin c ≤ c_TCPFrontendMax c ≤ 65535 ∧
  c_TCPFrontendHost c ≠ "" ∧ MinLeaseTTL ≤ c_LeaseTTL c ≤ MaxLeaseTTL ∧
  0 < c_ShutdownTimeout c.
Proof.
  unfold Validate. do 4 (case_decide; [done|]). intros _. split_and!; done || lia.
Qed.

Lemma Validate_Default : Validate Default = None.
Proof. by vm_compute. Qed.
