(* ===== verification/ConfigFile.v ===== *)
(** * internal/config: the configuration file and the default paths

    [FileMapper], [asStringMap] and [DefaultStatePath] of [config.go], and
    [DefaultSocketPath] of [transport/unix.go].  The file has been decoded
    into dynamic values by the configuration library; a Go map is the list of
    its entries in the order in which a range loop meets them. *)

From S2P Require Import Prelude GoStrings GoPath.
From Stdlib Require Import Ascii.

(** ** Dynamic values *)

Inductive any :=
| ANil
| ABool (b : bool)
| ANumber (n : string)
| AString (s : string)
| AList (l : list any)
| AMap (m : list (string * any))
| AAnyMap (m : list (any * any))
| ARaw (raw : string).

Inductive MapError :=
| KeyNotAString
| NotAMapping
| IdleTTLUnsupported.

Section Mapper.

(** [json.Unmarshal] of a raw message into a [map[string]any]. *)
Variable decode_raw : string → option (list (string * any)).

(** A [map[any]any] whose keys are strings. *)
Fixpoint string_keys (m : list (any * any)) : result (list (string * any)) MapError :=
  match m with
  | [] => Ok []
  | (AString k, v) :: m =>
    match string_keys m with Ok out => Ok ((k, v) :: out) | Err e => Err e end
  | _ :: _ => Err KeyNotAString
  end.

Definition asStringMap (v : any) : result (list (string * any)) MapError :=
  match v with
  | AMap m => Ok m
  | AAnyMap m => string_keys m
  | ANil => Ok []
  | ARaw raw => match decode_raw raw with Some m => Ok m | None => Err NotAMapping end
  | _ => Err NotAMapping
  end.

(** The index expression [m[key]]; an absent key reads as nil. *)
Fixpoint index (m : list (string * any)) (key : string) : any :=
  match m with
  | [] => ANil
  | (k, v) :: m => if decide (k = key) then v else index m key
  end.

Definition put (field : string) (v : any) (out : gmap string any) : gmap string any :=
  match v with ANil => out | _ => <[field := v]> out end.

(** The keys at the top of the file that hold one field each. *)
Definition flat_field (key : string) : option string :=
  if decide (key = "socket") then Some "socket"
  else if decide (key = "state_path") then Some "state"
  else if decide (key = "tcp_frontend_host") then Some "tcp-frontend-host"
  else if decide (key = "tcp_frontend_min") then Some "tcp-frontend-min"
  else if decide (key = "tcp_frontend_max") then Some "tcp-frontend-max"
  else if decide (key = "lease_ttl") then Some "lease-ttl"
  else if decide (key = "shutdown_timeout") then Some "shutdown-timeout"
  else None.

(** The keys of the nested objects. *)
Definition docker_fields : list (string * string) :=
  [("docker-enabled", "enabled");
   ("docker-allow-non-loopback-published-ports", "allow_non_loopback_published_ports")].

Definition http_fields : list (string * string) :=
  [("http-enabled", "enabled"); ("http-addr", "http_addr"); ("https-addr", "https_addr");
   ("http-base-domain", "base_domain"); ("http-cert-file", "cert_file"); ("http-key-file", "key_file")].

Definition put_all (fields : list (string * string)) (m : list (string * any)) (out : gmap string any) :
  gmap string any :=
  foldl (λ out fk, put fk.1 (index m fk.2) out) out fields.

(** One round of the loop of [FileMapper]. *)
Definition map_key (key : string) (v : any) (out : gmap string any) : result (gmap string any) MapError :=
  if decide (key = "runtime_idle_ttl") then Err IdleTTLUnsupported
  else if decide (key = "docker") then
    match asStringMap v with Ok m => Ok (put_all docker_fields m out) | Err e => Err e end
  else if decide (key = "http") then
    match asStringMap v with Ok m => Ok (put_all http_fields m out) | Err e => Err e end
  else Ok (match flat_field key with Some field => put field v out | None => out end).

Fixpoint map_keys (root : list (string * any)) (out : gmap string any) : result (gmap string any) MapError :=
  match root with
  | [] => Ok out
  | (key, v) :: root =>
    match map_key key v out with Ok out => map_keys root out | Err e => Err e end
  end.

(** [FileMapper]: the fields of the default section. *)
Definition FileMapper (raw : any) : result (gmap string any) MapError :=
  match asStringMap raw with
  | Err e => Err e
  | Ok root => map_keys root ∅
  end.

(** ** What the mapper does, as a table *)

(** Where the value of each field is in the file. *)
Definition file_table : list (string * list string) :=
  [("socket", ["socket"]); ("state", ["state_path"]); ("tcp-frontend-host", ["tcp_frontend_host"]);
   ("tcp-frontend-min", ["tcp_frontend_min"]); ("tcp-frontend-max", ["tcp_frontend_max"]);
   ("lease-ttl", ["lease_ttl"]); ("shutdown-timeout", ["shutdown_timeout"]);
   ("docker-enabled", ["docker"; "enabled"]);
   ("docker-allow-non-loopback-published-ports", ["docker"; "allow_non_loopback_published_ports"]);
   ("http-enabled", ["http"; "enabled"]); ("http-addr", ["http"; "http_addr"]);
   ("https-addr", ["http"; "https_addr"]); ("http-base-domain", ["http"; "base_domain"]);
   ("http-cert-file", ["http"; "cert_file"]); ("http-key-file", ["http"; "key_file"])].

Definition file_path (field : string) : list string :=
  default [] (list_to_map (M := gmap string (list string)) file_table !! field).

(** The key at the top of the file a field comes from. *)
Definition file_key (field : string) : option string := head (file_path field).

Definition non_nil (v : any) : option any := match v with ANil => None | _ => Some v end.

(** The value at a path: nothing for nil or a missing key on the way. *)
Definition at_path (root : list (string * any)) (path : list string) : option any :=
  match path with
  | [k] => non_nil (index root k)
  | [k1; k2] => match asStringMap (index root k1) with Ok m => non_nil (index m k2) | Err _ => None end
  | _ => None
  end.

(** ** Lemmas *)

Lemma lookup_put field v out f :
  put field v out !! f = if decide (f = field) then (match v with ANil => out !! f | _ => Some v end) else out !! f.
Proof. destruct v; simpl; case_decide; subst; by simplify_map_eq. Qed.

(** What one entry of the file says about a field. *)
Definition entry_value (key : string) (v : any) (f : string) : option any :=
  if decide (file_key f = Some key) then at_path [(key, v)] (file_path f) else None.

Definition orelse (o o' : option any) : option any := match o with Some _ => o | None => o' end.

Lemma lookup_put_all fields m out f :
  NoDup fields.*1 →
  put_all fields m out !! f =
    orelse (list_to_map (M := gmap string string) fields !! f ≫= λ k, non_nil (index m k)) (out !! f).
Proof.
  unfold put_all. revert out. induction fields as [|[g k] fields IH]; intros out Hnd; [done|].
  apply NoDup_cons in Hnd as [Hg Hnd]. cbn [foldl list_to_map foldr fst snd uncurry].
  rewrite IH, lookup_put by done. case_decide as Hf.
  - subst g. rewrite lookup_insert, (not_elem_of_list_to_map_1 _ f) by done.
    destruct (decide _); [|done]. simpl. by destruct (index m k).
  - by rewrite lookup_insert_ne by done.
Qed.

Lemma flat_field_path key f : flat_field key = Some f → file_path f = [key].
Proof. unfold flat_field. intros H. by repeat case_decide; simplify_eq. Qed.

(** The fields of a nested object. *)
Definition nested (key : string) : list (string * string) :=
  if decide (key = "docker") then docker_fields else if decide (key = "http") then http_fields else [].

Definition row_ok (row : string * list string) : Prop :=
  match row.2 with
  | [k] => flat_field k = Some row.1
  | [k1; k2] => list_to_map (M := gmap string string) (nested k1) !! row.1 = Some k2
  | _ => False
  end.

Lemma table_ok : Forall row_ok file_table.
Proof. repeat constructor. Qed.

Lemma file_path_ok f k p : file_path f = k :: p → row_ok (f, k :: p).
Proof.
  unfold file_path. destruct (_ !! f) as [q|] eqn:Hq; [|done]. cbn. intros ->.
  apply elem_of_list_to_map_2 in Hq. exact (proj1 (Forall_forall _ _) table_ok _ Hq).
Qed.

Lemma nested_rows : Forall (λ key, Forall (λ fk, file_path fk.1 = [key; fk.2]) (nested key)) ["docker"; "http"].
Proof. repeat constructor. Qed.

Lemma nested_path key f k :
  list_to_map (M := gmap string string) (nested key) !! f = Some k → file_path f = [key; k].
Proof.
  intros H%elem_of_list_to_map_2.
  assert (key ∈ ["docker"; "http"]) as Hkey.
  { unfold nested in H. repeat case_decide; subst; [set_solver.. | by apply elem_of_nil in H]. }
  exact (proj1 (Forall_forall _ _) (proj1 (Forall_forall _ _) nested_rows _ Hkey) _ H).
Qed.

(** The loop body on a key, by what the table says of it. *)
Lemma map_key_eq key v out :
  key ≠ "runtime_idle_ttl" →
  map_key key v out =
    match nested key with
    | [] => Ok (match flat_field key with Some f => put f v out | None => out end)
    | fields => match asStringMap v with Ok m => Ok (put_all fields m out) | Err e => Err e end
    end.
Proof. intros Hne. unfold map_key, nested. by repeat case_decide. Qed.

Lemma flat_not_nested key f : flat_field key = Some f → nested key = [].
Proof. unfold flat_field, nested. intros H. by repeat case_decide; simplify_eq. Qed.

Lemma nested_not_flat key : nested key ≠ [] → flat_field key = None.
Proof. intros H. destruct (flat_field key) eqn:Hf; [|done]. by apply flat_not_nested in Hf. Qed.

Lemma nested_NoDup key : NoDup (nested key).*1.
Proof. unfold nested. repeat case_decide; refine (bool_decide_unpack _ _); vm_compute; exact I. Qed.

(** One entry of the file settles exactly the fields whose path begins with
    its key. *)
Lemma map_key_spec key v out out' f :
  map_key key v out = Ok out' → out' !! f = orelse (entry_value key v f) (out !! f).
Proof.
  intros Hk. destruct (decide (key = "runtime_idle_ttl")) as [->|Hne]; [by inversion Hk|].
  rewrite map_key_eq in Hk by done. unfold entry_value, file_key.
  pose proof (file_path_ok f) as Hpath. pose proof (nested_path key f) as Hnest.
  destruct (nested key) as [|fk fks] eqn:Hn.
  - simplify_eq. destruct (file_path f) as [|k p] eqn:Hp; simpl.
    + destruct (flat_field key) as [g|] eqn:Hg; [|done]. rewrite lookup_put, decide_False; [done|].
      intros <-. apply flat_field_path in Hg. congruence.
    + specialize (Hpath k p eq_refl). case_decide as Hkey; simplify_eq.
      * destruct p as [|k2 [|]]; unfold row_ok in Hpath; cbn [fst snd] in Hpath; [|by rewrite Hn in Hpath|done].
        rewrite Hpath, lookup_put, decide_True by done. cbn. rewrite decide_True by done. by destruct v.
      * destruct (flat_field key) as [g|] eqn:Hg; [|done]. rewrite lookup_put, decide_False; [done|].
        intros <-. apply flat_field_path in Hg. congruence.
  - rewrite <- Hn in *. destruct (asStringMap v) as [m|] eqn:Hm; [|done]. simplify_eq.
    rewrite lookup_put_all by apply nested_NoDup. f_equal.
    destruct (file_path f) as [|k p] eqn:Hp; simpl.
    + destruct (_ !! f) as [k|] eqn:Hl; [|done]. by specialize (Hnest _ eq_refl).
    + specialize (Hpath k p eq_refl). case_decide as Hkey; simplify_eq.
      * destruct p as [|k2 [|]]; unfold row_ok in Hpath; cbn [fst snd] in Hpath; [|rewrite Hpath; cbn|done].
        -- apply flat_not_nested in Hpath. congruence.
        -- rewrite decide_True by done. by rewrite Hm.
      * destruct (_ !! f) as [k'|] eqn:Hl; [|done]. specialize (Hnest _ eq_refl). by simplify_eq.
Qed.

(** ** The whole file *)

Lemma entry_value_root key v root f :
  entry_value key v f = if decide (file_key f = Some key) then at_path ((key, v) :: root) (file_path f) else None.
Proof.
  unfold entry_value, file_key. case_decide as Hk; [|done].
  destruct (file_path f) as [|k [|k2 [|]]]; simplify_eq/=; try done; by rewrite !decide_True.
Qed.

Lemma at_path_cons key v root f :
  file_key f ≠ Some key → at_path ((key, v) :: root) (file_path f) = at_path root (file_path f).
Proof.
  unfold file_key. intros Hk.
  destruct (file_path f) as [|k [|k2 [|]]]; simplify_eq/=; try done; by rewrite decide_False by congruence.
Qed.

Lemma at_path_absent root f :
  (∀ k, file_key f = Some k → k ∉ root.*1) → at_path root (file_path f) = None.
Proof.
  unfold file_key. intros Hk.
  assert (∀ k, k ∉ root.*1 → index root k = ANil) as Hidx.
  { clear. intros k. induction root as [|[k' v] root IH]; [done|]. intros Hk. cbn in *.
    rewrite decide_False by set_solver. apply IH. set_solver. }
  destruct (file_path f) as [|k [|k2 [|]]]; simpl in *; try done; by rewrite Hidx by auto.
Qed.

Lemma map_keys_spec root out out' f :
  NoDup root.*1 → map_keys root out = Ok out' → out' !! f = orelse (at_path root (file_path f)) (out !! f).
Proof.
  revert out. induction root as [|[key v] root IH]; intros out Hnd Hk; cbn [map_keys] in Hk.
  - injection Hk as <-. by rewrite at_path_absent by (intros ? _; apply not_elem_of_nil).
  - apply NoDup_cons in Hnd as [Hkey Hnd].
    destruct (map_key key v out) as [out1|] eqn:H1; [|done].
    rewrite (IH _ Hnd Hk), (map_key_spec _ _ _ _ f H1), (entry_value_root _ _ root).
    case_decide as Hf; [|by rewrite at_path_cons].
    by rewrite (at_path_absent root) by (intros k Hk'; rewrite Hf in Hk'; by injection Hk' as <-).
Qed.

(** When the loop fails. *)
Definition bad_entry (kv : string * any) : Prop :=
  kv.1 = "runtime_idle_ttl" ∨
  ((kv.1 = "docker" ∨ kv.1 = "http") ∧ is_Ok (asStringMap kv.2) = false).

Lemma map_keys_error root out :
  is_Ok (map_keys root out) = false ↔ Exists bad_entry root.
Proof.
  revert out. induction root as [|[key v] root IH]; intros out; cbn [map_keys].
  { by rewrite Exists_nil. }
  rewrite Exists_cons. unfold bad_entry at 1. cbn [fst snd]. unfold map_key.
  repeat case_decide; try destruct (asStringMap v); cbn [is_Ok]; rewrite ?IH; intuition congruence.
Qed.

(** A Go map ranges in no fixed order; a mapping that decodes without errors
    gives the same fields in every order. *)
Lemma map_keys_permutation root root' out out' :
  NoDup root.*1 → root' ≡ₚ root → map_keys root ∅ = Ok out → map_keys root' ∅ = Ok out' → out' = out.
Proof.
  intros Hnd Hp Hk Hk'. apply map_eq. intros f.
  rewrite (map_keys_spec root ∅ out f) by done.
  rewrite (map_keys_spec root' ∅ out' f); [|by rewrite Hp|done]. f_equal.
  assert (∀ k, index root' k = index root k) as Hidx.
  { assert (∀ l k v, NoDup (l.*1 : list string) → (k, v) ∈ l → index l k = v) as Hin.
    { clear. intros l k v. induction l as [|[k0 v0] l IH]; [by intros ? ?%elem_of_nil|].
      intros [Hk Hnd]%NoDup_cons Hel. cbn in Hk |- *. apply elem_of_cons in Hel as [[= -> ->]|Hel]; [by case_decide|].
      rewrite decide_False; [by apply IH|]. intros ->. apply Hk, list_elem_of_fmap. by exists (k, v). }
    intros k. destruct (decide (k ∈ root.*1)) as [Hk0|Hk0].
    - apply list_elem_of_fmap in Hk0 as ([k' v] & -> & Hel). cbn.
      rewrite (Hin root k' v), (Hin root' k' v); [done|by rewrite Hp|by rewrite Hp|done|done].
    - assert (∀ l, k ∉ (l.*1 : list string) → index l k = ANil) as Hout.
      { clear. intros l. induction l as [|[k0 v0] l IH]; [done|]. cbn. rewrite not_elem_of_cons.
        intros [? ?]. rewrite decide_False by done. auto. }
      rewrite !Hout; [done|done|by rewrite Hp]. }
  destruct (file_path f) as [|k [|k2 [|]]]; cbn; by rewrite ?Hidx.
Qed.

(** FileMapper does what a table of paths says: a file is refused exactly when it has
    runtime_idle_ttl or a docker or http entry that is not a mapping with string keys; otherwise
    each field has the value at its path of the file and no other field is set, whatever the
    order in which the map is walked. *)
Theorem FileMapper_table raw root :
  asStringMap raw = Ok root → NoDup root.*1 →
  (is_Ok (FileMapper raw) = false ↔ Exists bad_entry root) ∧
  (∀ out, FileMapper raw = Ok out →
     (∀ field, out !! field = at_path root (file_path field)) ∧
     (∀ root' out', root' ≡ₚ root → FileMapper (AMap root') = Ok out' → out' = out)).
Proof.
  intros Hroot Hnd. unfold FileMapper. rewrite Hroot. split; [apply map_keys_error|].
  intros out Hout. split.
  - intros f. rewrite (map_keys_spec _ _ _ _ Hnd Hout), lookup_empty. by destruct (at_path _ _).
  - intros root' out' Hp Hout'. by apply (map_keys_permutation root root').
Qed.

End Mapper.

(** ** Default paths *)

(** What the operating system says about the user; [None] is an error. *)
Record OS := mkOS {
  os_UserConfigDir : option string;
  os_UserHomeDir : option string;
  os_TempDir : string
}.

Definition DefaultStatePath (os : OS) : string :=
  match (match os_UserConfigDir os with
         | Some dir => if decide (dir = "") then None else Some dir
         | None => None
         end) with
  | Some dir => Join [dir; "devmesh"; "state.json"]
  | None =>
    match os_UserHomeDir os with
    | None => "devmesh-state.json"
    | Some home => Join [Join [home; ".config"]; "devmesh"; "state.json"]
    end
  end.

Definition DefaultSocketPath (os : OS) : string :=
  match os_UserHomeDir os with
  | Some home =>
    if decide (home = "") then Join [os_TempDir os; "devmesh.sock"]
    else Join [home; ".devmesh"; "run"; "devmesh.sock"]
  | None => Join [os_TempDir os; "devmesh.sock"]
  end.

(** Neither path is ever empty. *)
Lemma Clean_nonempty p : Clean p ≠ "".
Proof.
  unfold Clean. intros H%str_nil. destruct (is_rooted _); [done|]. by destruct (join_path _).
Qed.

Lemma Join_nonempty elem : Exists (λ e, e ≠ "") elem → Join elem ≠ "".
Proof.
  induction elem as [|e elem IH]; [by rewrite Exists_nil|]. cbn [Join].
  rewrite Exists_cons. intros [He|He]; case_decide; try done; auto using Clean_nonempty.
Qed.

Lemma DefaultStatePath_nonempty os : DefaultStatePath os ≠ "".
Proof.
  unfold DefaultStatePath.
  repeat case_match; try done; apply Join_nonempty; do 2 (apply Exists_cons; right); by apply Exists_cons; left.
Qed.

Lemma DefaultSocketPath_nonempty os : DefaultSocketPath os ≠ "".
Proof.
  unfold DefaultSocketPath.
  repeat case_match; apply Join_nonempty; apply Exists_cons; right; by apply Exists_cons; left.
Qed.

(** The socket is below an ordinary home directory, in a directory of its own. *)
Lemma DefaultSocketPath_home os segs :
  segs ≠ [] → Forall plain segs → os_UserHomeDir os = Some (abs_path segs) →
  DefaultSocketPath os = abs_path (segs ++ [bytes ".devmesh"; bytes "run"; bytes "devmesh.sock"]) ∧
  Dir (DefaultSocketPath os) = abs_path (segs ++ [bytes ".devmesh"; bytes "run"]).
Proof.
  intros Hne Hs Hos. unfold DefaultSocketPath. rewrite Hos, decide_False by done.
  rewrite Join_abs; [|done|done|done|repeat constructor; by vm_compute; set_solver].
  split; [done|]. cbn [fmap list_fmap].
  change (segs ++ [bytes ".devmesh"; bytes "run"; bytes "devmesh.sock"])
    with (segs ++ [bytes ".devmesh"; bytes "run"] ++ [bytes "devmesh.sock"]).
  rewrite app_assoc, Dir_abs; [done|by destruct segs| |].
  - apply Forall_app. split; [done|]. repeat constructor; by vm_compute; set_solver.
  - by vm_compute; set_solver.
Qed.
