(* ===== verification/Serve.v ===== *)
(** * cmd/devmeshd: the serve command

    [serve.go]: the declared fields and their defaults, the chain of sources
    they are read from, and the conversion of the decoded settings into the
    daemon's configuration.  The Glazed library, which runs the chain and
    decodes its values, is an interface with the promises the code relies on. *)

From S2P Require Import Prelude GoStrings GoNet GoTime GoPath Config ConfigFile.
Local Open Scope Z_scope.

(** ** Settings *)

Record ServeSettings := mkSettings {
  s_Config : string;
  s_Socket : string;
  s_TCPFrontendHost : string;
  s_TCPFrontendMin : Z;
  s_TCPFrontendMax : Z;
  s_RuntimeIdleTTL : string;
  s_LeaseTTL : string;
  s_ShutdownTimeout : string;
  s_StatePath : string;
  s_DockerEnabled : bool;
  s_DockerAllowNonLoopbackPublishedPorts : bool;
  s_HTTPEnabled : bool;
  s_HTTPAddr : string;
  s_HTTPSAddr : string;
  s_HTTPBaseDomain : string;
  s_HTTPCertFile : string;
  s_HTTPKeyFile : string
}.

(** The [glazed] tags, by the type of their field. *)
Definition string_tags : list (string * (ServeSettings → string)) :=
  [("config", s_Config); ("socket", s_Socket); ("tcp-frontend-host", s_TCPFrontendHost);
   ("runtime-idle-ttl", s_RuntimeIdleTTL); ("lease-ttl", s_LeaseTTL); ("shutdown-timeout", s_ShutdownTimeout);
   ("state", s_StatePath); ("http-addr", s_HTTPAddr); ("https-addr", s_HTTPSAddr);
   ("http-base-domain", s_HTTPBaseDomain); ("http-cert-file", s_HTTPCertFile); ("http-key-file", s_HTTPKeyFile)].

Definition int_tags : list (string * (ServeSettings → Z)) :=
  [("tcp-frontend-min", s_TCPFrontendMin); ("tcp-frontend-max", s_TCPFrontendMax)].

Definition bool_tags : list (string * (ServeSettings → bool)) :=
  [("docker-enabled", s_DockerEnabled);
   ("docker-allow-non-loopback-published-ports", s_DockerAllowNonLoopbackPublishedPorts);
   ("http-enabled", s_HTTPEnabled)].

(** A value as a number: an integer literal of the file, or a Go integer. *)
Definition AInt (n : Z) : any := ANumber (Itoa n).

(** The fields [NewServeCommand] declares, each with its default. *)
Definition serve_fields : list (string * option any) :=
  let d := Default in
  [("config", None);
   ("socket", None);
   ("tcp-frontend-host", Some (AString (c_TCPFrontendHost d)));
   ("tcp-frontend-min", Some (AInt (c_TCPFrontendMin d)));
   ("tcp-frontend-max", Some (AInt (c_TCPFrontendMax d)));
   ("lease-ttl", Some (AString (Duration_String (c_LeaseTTL d))));
   ("shutdown-timeout", Some (AString (Duration_String (c_ShutdownTimeout d))));
   ("state", None);
   ("docker-enabled", Some (ABool (dc_Enabled (c_Docker d))));
   ("docker-allow-non-loopback-published-ports", Some (ABool (dc_AllowNonLoopbackPublishedPorts (c_Docker d))));
   ("http-enabled", Some (ABool (hc_Enabled (c_HTTP d))));
   ("http-addr", Some (AString (hc_HTTPAddr (c_HTTP d))));
   ("https-addr", Some (AString (hc_HTTPSAddr (c_HTTP d))));
   ("http-base-domain", Some (AString (hc_BaseDomain (c_HTTP d))));
   ("http-cert-file", None);
   ("http-key-file", None)].

Definition field_default (field : string) : option any :=
  mjoin (list_to_map (M := gmap string (option any)) serve_fields !! field).

(** ** Where values come from *)

Inductive source :=
| FromCobra
| FromArgs
| FromEnv (prefix : string)
| FromFile (path : string)
| FromDefaults.

(** [resolveConfigPath]: the flag, else what the environment gives. *)
Definition resolveConfigPath (flag env : string) : string :=
  if decide (flag ≠ "") then flag else env.

(** The chain [ParserConfig] builds, strongest first. *)
Definition serve_chain (path : string) : list source :=
  [FromCobra; FromArgs; FromEnv "DEVMESH"] ++
  (if decide (path ≠ "") then [FromFile path] else []) ++ [FromDefaults].

(** The first source that has a value wins. *)
Fixpoint first_value (values : source → gmap string any) (chain : list source) (field : string) : option any :=
  match chain with
  | [] => None
  | s :: chain =>
    match values s !! field with
    | Some v => Some v
    | None => first_value values chain field
    end
  end.

(** What Glazed promises: sources earlier in the chain override later ones,
    and decoding a value of a
    field's own type stores it, an absent one leaves the zero value. *)
Class Glazed := {
  execute : (source → gmap string any) → list source → gmap string any;
  decode : gmap string any → ServeSettings;
  execute_first : ∀ values chain field, execute values chain !! field = first_value values chain field;
  decode_string : ∀ m, Forall (λ tg, ∀ v, m !! tg.1 = Some (AString v) → tg.2 (decode m) = v) string_tags;
  decode_no_string : ∀ m, Forall (λ tg, m !! tg.1 = None → tg.2 (decode m) = "") string_tags;
  decode_int : ∀ m, Forall (λ tg, ∀ n, in_int64 n → m !! tg.1 = Some (AInt n) → tg.2 (decode m) = n) int_tags;
  decode_bool : ∀ m, Forall (λ tg, ∀ b, m !! tg.1 = Some (ABool b) → tg.2 (decode m) = b) bool_tags
}.

(** ** The configuration *)

Inductive SettingsError :=
| BadLeaseTTL
| BadShutdownTimeout.

(** [parseDuration]; [None] is an error. *)
Definition parseDuration (s : string) (def : Z) : option Z :=
  if decide (s = "") then Some def else ParseDuration s.

Definition configFromSettings (os : OS) (s : ServeSettings) : result Config SettingsError :=
  let def := Default in
  match parseDuration (s_LeaseTTL s) (c_LeaseTTL def) with
  | None => Err BadLeaseTTL
  | Some leaseTTL =>
    match parseDuration (s_ShutdownTimeout s) (c_ShutdownTimeout def) with
    | None => Err BadShutdownTimeout
    | Some shutdownTimeout =>
      Ok (mkConfig
        (if decide (s_Socket s = "") then DefaultSocketPath os else s_Socket s)
        (s_TCPFrontendHost s) (s_TCPFrontendMin s) (s_TCPFrontendMax s) leaseTTL shutdownTimeout
        (if decide (s_StatePath s = "") then DefaultStatePath os else s_StatePath s)
        (mkDockerConfig (s_DockerEnabled s) (s_DockerAllowNonLoopbackPublishedPorts s))
        (mkHTTPConfig (s_HTTPEnabled s) (s_HTTPAddr s) (s_HTTPSAddr s) (s_HTTPBaseDomain s)
           (s_HTTPCertFile s) (s_HTTPKeyFile s)))
    end
  end.

(** The checks of [Run] before it makes a daemon. *)
Inductive ServeError := ServeSettingsError (e : SettingsError) | ServeInvalid (e : ConfigError).

Definition serve_config (os : OS) (s : ServeSettings) : result Config ServeError :=
  match configFromSettings os s with
  | Err e => Err (ServeSettingsError e)
  | Ok cfg => match Validate cfg with Some e => Err (ServeInvalid e) | None => Ok cfg end
  end.

Definition with_LeaseTTL (ttl : string) (s : ServeSettings) : ServeSettings :=
  mkSettings (s_Config s) (s_Socket s) (s_TCPFrontendHost s) (s_TCPFrontendMin s) (s_TCPFrontendMax s)
    (s_RuntimeIdleTTL s) ttl (s_ShutdownTimeout s) (s_StatePath s) (s_DockerEnabled s)
    (s_DockerAllowNonLoopbackPublishedPorts s) (s_HTTPEnabled s) (s_HTTPAddr s) (s_HTTPSAddr s)
    (s_HTTPBaseDomain s) (s_HTTPCertFile s) (s_HTTPKeyFile s).

(** ** Declared fields *)

(** The fields the configuration file can set are exactly the fields devmeshd serve declares,
    without the path of the file itself, and each of them has a field of the settings struct
    that carries its tag. *)
Theorem file_fields_declared field :
  (file_path field ≠ [] ↔ field ∈ serve_fields.*1 ∧ field ≠ "config") ∧
  (file_path field ≠ [] → field ∈ string_tags.*1 ++ int_tags.*1 ++ bool_tags.*1).
Proof.
  assert (file_path field ≠ [] ↔ field ∈ file_table.*1) as ->.
  { unfold file_path. split.
    - intros H. destruct (decide (field ∈ file_table.*1)) as [|Hn]; [done|].
      by rewrite (not_elem_of_list_to_map_1 _ _ Hn) in H.
    - intros H. assert (Forall (λ f, file_path f ≠ []) file_table.*1) as Hall by (repeat constructor; done).
      rewrite Forall_forall in Hall. exact (Hall _ H). }
  split.
  - assert (file_table.*1 ≡ₚ filter (λ f, f ≠ "config") serve_fields.*1) as ->.
    { refine (bool_decide_unpack _ _). vm_compute. exact I. }
    rewrite list_elem_of_filter. tauto.
  - intros H. assert (Forall (λ f, f ∈ string_tags.*1 ++ int_tags.*1 ++ bool_tags.*1) file_table.*1) as Hall.
    { refine (bool_decide_unpack _ _). vm_compute. exact I. }
    rewrite Forall_forall in Hall. exact (Hall _ H).
Qed.

(** ** Reading the chain *)

Section Chain.
Context `{Glazed}.
Variable decode_raw : string → option (list (string * any)).

(** The sources as a run of [devmeshd serve] has them: the defaults of the
    declared fields, and the file as the mapper reads it. *)
Definition sources_ok (values : source → gmap string any) (path : string) (root : list (string * any)) : Prop :=
  (∀ field, values FromDefaults !! field = field_default field) ∧
  ∃ out, FileMapper decode_raw (AMap root) = Ok out ∧ values (FromFile path) = out.

(** The settings of a run. *)
Definition serve_settings (values : source → gmap string any) (path : string) : ServeSettings :=
  decode (execute values (serve_chain path)).

(** A setting of devmeshd serve comes from the flags, else the arguments, else the environment,
    else the place in the configuration file the mapper assigns it, else its declared default;
    the file is the one of the flag, or of the environment without one, and is left out when
    neither is given. *)
Theorem serve_precedence values flag env root field :
  let path := resolveConfigPath flag env in
  NoDup root.*1 → sources_ok values path root →
  execute values (serve_chain path) !! field =
    orelse (values FromCobra !! field)
      (orelse (values FromArgs !! field)
        (orelse (values (FromEnv "DEVMESH") !! field)
          (orelse (if decide (flag = "" ∧ env = "") then None else at_path decode_raw root (file_path field))
            (field_default field)))).
Proof.
  intros path Hnd (Hdef & out & Hout & Hfile). rewrite execute_first. unfold serve_chain. cbn [app first_value].
  do 3 (case_match; [done|]; cbn [orelse]).
  assert (path = "" ↔ flag = "" ∧ env = "") as Hpath.
  { unfold path, resolveConfigPath. case_decide; naive_solver. }
  destruct (decide (path = "")) as [Hp|Hp].
  - rewrite (decide_False (P := path ≠ "")), decide_True by tauto. cbn [app first_value orelse]. rewrite Hdef. by case_match.
  - rewrite (decide_True (P := path ≠ "")), decide_False by tauto. cbn [app first_value]. rewrite Hfile, Hdef.
    pose proof (map_keys_spec decode_raw root ∅ out field Hnd Hout) as ->. rewrite lookup_empty.
    destruct (at_path _ _ _); cbn [orelse]; [done|by case_match].
Qed.

Lemma string_at i tag get m v :
  string_tags !! i = Some (tag, get) → m !! tag = Some (AString v) → get (decode m) = v.
Proof. intros Hi. exact (Forall_lookup_1 _ _ i _ (decode_string m) Hi v). Qed.

Lemma no_string_at i tag get m :
  string_tags !! i = Some (tag, get) → m !! tag = None → get (decode m) = "".
Proof. intros Hi. exact (Forall_lookup_1 _ _ i _ (decode_no_string m) Hi). Qed.

Lemma int_at i tag get m n :
  int_tags !! i = Some (tag, get) → in_int64 n → m !! tag = Some (AInt n) → get (decode m) = n.
Proof. intros Hi. exact (Forall_lookup_1 _ _ i _ (decode_int m) Hi n). Qed.

Lemma bool_at i tag get m b :
  bool_tags !! i = Some (tag, get) → m !! tag = Some (ABool b) → get (decode m) = b.
Proof. intros Hi. exact (Forall_lookup_1 _ _ i _ (decode_bool m) Hi b). Qed.

(** Without flags, arguments, environment and file, the declared defaults decode, through the
    text of the durations and back, to the compiled default configuration, with the default
    socket and state paths filled in, and that configuration is valid. *)
Theorem serve_defaults_match os values :
  (∀ src, src ≠ FromDefaults → values src = ∅) → (∀ field, values FromDefaults !! field = field_default field) →
  serve_config os (serve_settings values "") =
    Ok (mkConfig (DefaultSocketPath os) (c_TCPFrontendHost Default) (c_TCPFrontendMin Default)
          (c_TCPFrontendMax Default) (c_LeaseTTL Default) (c_ShutdownTimeout Default) (DefaultStatePath os)
          (c_Docker Default) (c_HTTP Default)).
Proof.
  intros Hother Hdef.
  assert (∀ f, execute values (serve_chain "") !! f = field_default f) as Hm.
  { intros f. rewrite execute_first. unfold serve_chain.
    rewrite (decide_False (P := "" ≠ "")) by (intros Hne; by apply Hne). cbn [app first_value].
    rewrite !Hother by done. rewrite !lookup_empty, Hdef. by case_match. }
  unfold serve_settings. set (m := execute _ _) in *.
  unfold serve_config, configFromSettings.
  assert (s_LeaseTTL (decode m) = Duration_String (c_LeaseTTL Default)) as ->
    by (apply (string_at 4 "lease-ttl"); [done|by rewrite Hm]).
  assert (s_ShutdownTimeout (decode m) = Duration_String (c_ShutdownTimeout Default)) as ->
    by (apply (string_at 5 "shutdown-timeout"); [done|by rewrite Hm]).
  assert (s_Socket (decode m) = "") as -> by (apply (no_string_at 1 "socket"); [done|by rewrite Hm]).
  assert (s_StatePath (decode m) = "") as -> by (apply (no_string_at 6 "state"); [done|by rewrite Hm]).
  assert (s_TCPFrontendHost (decode m) = c_TCPFrontendHost Default) as ->
    by (apply (string_at 2 "tcp-frontend-host"); [done|by rewrite Hm]).
  assert (s_TCPFrontendMin (decode m) = c_TCPFrontendMin Default) as ->
    by (apply (int_at 0 "tcp-frontend-min"); [done|by split|by rewrite Hm]).
  assert (s_TCPFrontendMax (decode m) = c_TCPFrontendMax Default) as ->
    by (apply (int_at 1 "tcp-frontend-max"); [done|by split|by rewrite Hm]).
  assert (s_DockerEnabled (decode m) = true) as -> by (apply (bool_at 0 "docker-enabled"); [done|by rewrite Hm]).
  assert (s_DockerAllowNonLoopbackPublishedPorts (decode m) = false) as ->
    by (apply (bool_at 1 "docker-allow-non-loopback-published-ports"); [done|by rewrite Hm]).
  assert (s_HTTPEnabled (decode m) = false) as -> by (apply (bool_at 2 "http-enabled"); [done|by rewrite Hm]).
  assert (s_HTTPAddr (decode m) = hc_HTTPAddr (c_HTTP Default)) as ->
    by (apply (string_at 7 "http-addr"); [done|by rewrite Hm]).
  assert (s_HTTPSAddr (decode m) = hc_HTTPSAddr (c_HTTP Default)) as ->
    by (apply (string_at 8 "https-addr"); [done|by rewrite Hm]).
  assert (s_HTTPBaseDomain (decode m) = "") as -> by (apply (string_at 9 "http-base-domain"); [done|by rewrite Hm]).
  assert (s_HTTPCertFile (decode m) = "") as -> by (apply (no_string_at 10 "http-cert-file"); [done|by rewrite Hm]).
  assert (s_HTTPKeyFile (decode m) = "") as -> by (apply (no_string_at 11 "http-key-file"); [done|by rewrite Hm]).
  reflexivity.
Qed.

End Chain.

(** ** Durations *)

(** On top of settings that are accepted, a lease TTL of n seconds is accepted exactly from 3 to
    3600, as that duration; otherwise the start is refused, never with another value in its
    place. *)
Theorem serve_lease_ttl os s cfg0 n :
  serve_config os s = Ok cfg0 → 0 ≤ n →
  match serve_config os (with_LeaseTTL (Itoa n +:+ "s") s) with
  | Ok cfg => 3 ≤ n ≤ 3600 ∧ c_LeaseTTL cfg = n * Second
  | Err e => ¬ 3 ≤ n ≤ 3600 ∧
      e = if decide (n ≤ 9223372036) then ServeInvalid LeaseTTLOutOfRange else ServeSettingsError BadLeaseTTL
  end.
Proof.
  intros Hok Hn. unfold serve_config, configFromSettings in *.
  destruct (parseDuration (s_LeaseTTL s) _) as [ttl0|]; [|done].
  cbn [s_LeaseTTL s_ShutdownTimeout with_LeaseTTL]. unfold parseDuration at 1.
  assert (Itoa n +:+ "s" ≠ "") as Hne.
  { intros E%(f_equal bytes). rewrite bytes_app in E. by apply app_eq_nil in E as [_ ?]. }
  rewrite decide_False, ParseDuration_seconds by done.
  destruct (parseDuration (s_ShutdownTimeout s) _) as [st|]; [|by case_match].
  destruct (decide (n ≤ 9223372036)) as [Hmax|Hmax]; [|split; [lia|done]].
  cbn [s_Socket s_TCPFrontendHost s_TCPFrontendMin s_TCPFrontendMax s_StatePath s_DockerEnabled
       s_DockerAllowNonLoopbackPublishedPorts s_HTTPEnabled s_HTTPAddr s_HTTPSAddr s_HTTPBaseDomain
       s_HTTPCertFile s_HTTPKeyFile with_LeaseTTL].
  unfold Validate in *. cbn [c_TCPFrontendMin c_TCPFrontendMax c_TCPFrontendHost c_LeaseTTL c_ShutdownTimeout c_HTTP] in *.
  destruct (decide (s_TCPFrontendMin s < 1 ∨ _)) as [|_]; [done|].
  destruct (decide (s_TCPFrontendHost s = "")) as [|_]; [done|].
  destruct (decide (ttl0 < MinLeaseTTL ∨ _)) as [|_]; [done|].
  unfold MinLeaseTTL, MaxLeaseTTL in *. change Hour with (3600 * Second) in *. change Second with 1000000000 in *.
  destruct (decide (n * 1000000000 < _ ∨ _)) as [Hr|Hr]; [split; [lia|done]|].
  destruct (decide (st ≤ 0)) as [|_]; [done|].
  destruct (if s_HTTPEnabled s then _ else _); [|done].
  destruct (decide (_ ∨ _)); [destruct (SplitHostPort _); [|done]|]; cbn; lia.
Qed.
