(* ===== verification/Daemon.v ===== *)
(** * internal/daemon: the operations of the daemon

    [daemon.go] and [errors.go]: the state that combines the registry, the
    runtimes, the leases, the persistent state and the HTTP router, and every
    operation on it.  Random identifiers, tokens, clock readings, name
    resolution and the operating system are the argument [Env].  Errors are
    their stable codes; the message texts and the log are left out. *)

From S2P Require Import Prelude GoStrings GoNet Registry Lease State Runtime Router Config.
From Stdlib Require Import Ascii.
Local Open Scope Z_scope.

(** ** Error codes (errors.go) *)

Abbreviation Code := string (only parsing).
Definition CodeInvalidRequest : Code := "invalid_request".
Definition CodeInvalidName : Code := "invalid_name".
Definition CodeInvalidBackend : Code := "invalid_backend".
Definition CodeNameConflict : Code := "name_conflict".
Definition CodePortExhausted : Code := "port_exhausted".
Definition CodeRegistrationNotFound : Code := "registration_not_found".
Definition CodeUnauthorized : Code := "unauthorized".
Definition CodeServiceNotFound : Code := "service_not_found".
Definition CodeUnsupportedKind : Code := "unsupported_kind".
Definition CodeDockerUnavailable : Code := "docker_unavailable".
Definition CodeInternal : Code := "internal_error".

(** ** The daemon's state *)

(** A route's provider is the closure over a service name that
    [registerLocked] installs, represented by that name. *)
Record Daemon := mkDaemon {
  d_cfg : Config;
  d_Registry : Registry;
  d_Runtime : Runtimes;
  d_World : World;
  d_Lease : Lease.Manager;
  d_HTTP : Router string;
  d_dockerStatus : string
}.

Definition with_Registry (r : Registry) (d : Daemon) : Daemon :=
  mkDaemon (d_cfg d) r (d_Runtime d) (d_World d) (d_Lease d) (d_HTTP d) (d_dockerStatus d).
Definition with_Runtime (m : Runtimes) (w : World) (d : Daemon) : Daemon :=
  mkDaemon (d_cfg d) (d_Registry d) m w (d_Lease d) (d_HTTP d) (d_dockerStatus d).
Definition with_Lease (l : Lease.Manager) (d : Daemon) : Daemon :=
  mkDaemon (d_cfg d) (d_Registry d) (d_Runtime d) (d_World d) l (d_HTTP d) (d_dockerStatus d).
Definition with_HTTP (h : Router string) (d : Daemon) : Daemon :=
  mkDaemon (d_cfg d) (d_Registry d) (d_Runtime d) (d_World d) (d_Lease d) h (d_dockerStatus d).
Definition SetDockerStatus (status : string) (d : Daemon) : Daemon :=
  mkDaemon (d_cfg d) (d_Registry d) (d_Runtime d) (d_World d) (d_Lease d) (d_HTTP d) status.

Definition DockerStatus (d : Daemon) : string := d_dockerStatus d.

(** The provider [New] gives the runtimes: the ready backend of a name. *)
Definition backendProvider (d : Daemon) (name : string) : option Backend :=
  match Resolve (d_Registry d) name with
  | None => None
  | Some rec => if decide (r_Status rec ≠ StatusReady) then None else r_Backend rec
  end.

(** ** Requests *)

Record RegisterParams := mkParams {
  p_Name : string;
  p_Kind : Kind;
  p_AppProtocol : string;
  p_Backend : Backend;
  p_PreferredPort : Z;
  p_TTLSeconds : Z;
  p_Source : Source;
  p_OwnerKey : string;
  p_RegistrationID : string;
  p_DockerContainerID : string;
  p_HTTPHost : string
}.

Record RegisterResult := mkResult {
  rr_RegistrationID : string;
  rr_LeaseToken : string;
  rr_Name : string;
  rr_Frontend : Frontend;
  rr_ExpiresAt : option Z;
  rr_TTLSeconds : Z
}.

(** What a registration takes from outside the daemon. *)
Record Env := mkEnv {
  e_now : Z;                          (* time.Now() of the record *)
  e_lease_now : Z;                    (* time.Now() of the lease *)
  e_newID : string;                   (* newID() *)
  e_rand : option (list ascii);       (* rand.Read for the token *)
  e_LookupHost : Resolver;
  e_alloc : AllocIO
}.

Section Daemon.
Context `{JSON} `{Unicode} `{MapRange}.

(** [canonicalHTTPHost]; [None] is the error. *)
Definition canonicalHTTPHost (raw : string) : option string :=
  let host := TrimSuffix (ToLower (TrimSpace raw)) "." in
  if decide (host = "") then None
  else if ContainsAny host ":/@" then None
  else Some host.

(** ** Registration *)

(** What the checks of [registerLocked] compute before anything changes. *)
Record Prepared := mkPrepared {
  pr_kind : Kind;
  pr_source : Source;
  pr_ttl : Z;
  pr_hostname : string;
  pr_regID : string;
  pr_ownerKey : string;
  pr_producerID : string
}.

(** The effective lease: the requested seconds (in Go's wrapping 64-bit
    multiplication) or the configured default. *)
Definition effective_ttl (d : Daemon) (source : Source) (ttlSeconds : Z) : Z :=
  if decide (source ≠ SourceDocker ∧ 0 < ttlSeconds)
  then int64 (ttlSeconds * Second) else c_LeaseTTL (d_cfg d).

(** The host name of an HTTP service, [""] for the other kind. *)
Definition request_hostname (kind : Kind) (httpHost : string) : option string :=
  if decide (kind = KindHTTP) then canonicalHTTPHost httpHost else Some "".

(** Kind and host name of an existing service are immutable. *)
Definition immutable_conflict (d : Daemon) (name : string) (kind : Kind) (hostname : string) : bool :=
  match Resolve (d_Registry d) name with
  | None => false
  | Some existing =>
    bool_decide (r_Kind existing ≠ kind ∨
                 (kind = KindHTTP ∧ r_Hostname existing ≠ hostname))
  end.

(** One HTTP route owner per host name. *)
Definition hostname_conflict (d : Daemon) (name : string) (kind : Kind) (hostname : string) : bool :=
  if decide (kind = KindHTTP) then
    match FindByHostname (d_Registry d) hostname with
    | Some existing => bool_decide (r_Name existing ≠ name)
    | None => false
    end
  else false.

(** [registerLocked], up to and including the ownership check. *)
Definition prepare (d : Daemon) (p : RegisterParams) (env : Env) : result Prepared Code :=
  match ValidateName (p_Name p) with
  | Some _ => Err CodeInvalidName
  | None =>
  let kind := if decide (p_Kind p = "") then KindTCP else p_Kind p in
  if decide (kind ≠ KindTCP ∧ kind ≠ KindHTTP) then Err CodeUnsupportedKind else
  match ValidateBackend (e_LookupHost env) (p_Backend p) with
  | Some _ => Err CodeInvalidBackend
  | None =>
  let source := if decide (p_Source p = "") then SourceProcess else p_Source p in
  let ttl := effective_ttl d source (p_TTLSeconds p) in
  if decide (source ≠ SourceDocker ∧ (ttl < MinLeaseTTL ∨ MaxLeaseTTL < ttl))
  then Err CodeInvalidRequest else
  match request_hostname kind (p_HTTPHost p) with
  | None => Err CodeInvalidRequest
  | Some hostname =>
  if immutable_conflict d (p_Name p) kind hostname then Err CodeNameConflict else
  if hostname_conflict d (p_Name p) kind hostname then Err CodeNameConflict else
  let regID := if decide (p_RegistrationID p = "") then e_newID env else p_RegistrationID p in
  let ownerKey := if decide (p_OwnerKey p = "") then source +:+ ":" +:+ regID else p_OwnerKey p in
  if decide (source = SourceDocker ∧ p_DockerContainerID p = "") then Err CodeInvalidRequest else
  let producerID := if decide (source = SourceDocker) then p_DockerContainerID p else regID in
  match CheckOwnership (d_Registry d) (p_Name p) ownerKey with
  | Some _ => Err CodeNameConflict
  | None => Ok (mkPrepared kind source ttl hostname regID ownerKey producerID)
  end end end end.

(** A same-owner replacement retires the previous publication's lease. *)
Definition retire_previous (d : Daemon) (name : string) (pr : Prepared) : Daemon :=
  match Resolve (d_Registry d) name with
  | None => d
  | Some existing =>
    if decide (r_OwnerKey existing = pr_ownerKey pr ∧
               r_ProducerID existing ≠ pr_producerID pr ∧
               (r_Source existing = SourceProcess ∨ r_Source existing = SourceManual))
    then with_Lease (Lease.Remove (d_Lease d) (r_ProducerID existing)) d
    else d
  end.

(** The frontend: a host name's URL, or the port the runtime listens on. *)
Definition assign_frontend (d : Daemon) (p : RegisterParams) (pr : Prepared) (env : Env) :
  Daemon * result Frontend Code :=
  if decide (pr_kind pr = KindHTTP) then
    (d, Ok (mkFrontend "" 0 (FrontendURL (d_HTTP d) (pr_hostname pr))))
  else
    match EnsureTCPRuntime (e_alloc env) (d_Runtime d) (d_World d) (p_Name p)
            (p_PreferredPort p) with
    | (m, w, Err (ErrPortExhausted _ _)) => (with_Runtime m w d, Err CodePortExhausted)
    | (m, w, Err (ErrPersist _)) => (with_Runtime m w d, Err CodeInternal)
    | (m, w, Ok rt) => (with_Runtime m w d, Ok (rt_Frontend rt))
    end.

Definition new_record (p : RegisterParams) (pr : Prepared) (f : Frontend) (now : Z) :
  ServiceRecord :=
  mkRecord (p_Name p) (pr_kind pr) (p_AppProtocol p) (pr_ownerKey pr) (pr_producerID pr)
    (pr_source pr) (Some (p_Backend p)) f
    (if decide (pr_kind pr = KindHTTP) then pr_hostname pr else "")
    StatusReady (p_DockerContainerID p) now.

(** The route of an HTTP service. *)
Definition install_route (d : Daemon) (p : RegisterParams) (pr : Prepared) : Daemon :=
  if decide (pr_kind pr = KindHTTP)
  then with_HTTP (SetRoute (d_HTTP d) (pr_hostname pr) (p_Name p)) d else d.

(** The lease of a process or manual registration; Docker has none. *)
Definition grant_lease (d : Daemon) (p : RegisterParams) (pr : Prepared) (f : Frontend)
    (env : Env) : Daemon * result RegisterResult Code :=
  if decide (pr_source pr = SourceDocker) then
    (d, Ok (mkResult (pr_regID pr) "" (p_Name p) f None 0))
  else
    match NewToken (e_rand env) with
    | None => (d, Err CodeInternal)
    | Some token =>
      let '(l, entry) := AddWithTTL (e_lease_now env) (d_Lease d) (pr_regID pr) (p_Name p)
                           (pr_ownerKey pr) token (pr_ttl pr) in
      (with_Lease l d,
       Ok (mkResult (pr_regID pr) token (p_Name p) f (Some (le_ExpiresAt entry))
             (seconds (pr_ttl pr))))
    end.

(** [registerLocked], after the checks. *)
Definition commit (d : Daemon) (p : RegisterParams) (pr : Prepared) (env : Env) :
  Daemon * result RegisterResult Code :=
  let d := retire_previous d (p_Name p) pr in
  match assign_frontend d p pr env with
  | (d, Err e) => (d, Err e)
  | (d, Ok f) =>
    match CreateOrReplaceOwned (e_now env) (d_Registry d) (new_record p pr f (e_now env)) with
    | (r, Err _) => (with_Registry r d, Err CodeNameConflict)
    | (r, Ok _) =>
      let d := install_route (with_Registry r d) p pr in
      grant_lease d p pr f env
    end
  end.

(** [Register]. *)
Definition Register (d : Daemon) (p : RegisterParams) (env : Env) :
  Daemon * result RegisterResult Code :=
  match prepare d p env with
  | Err e => (d, Err e)
  | Ok pr => commit d p pr env
  end.

(** ** The end of a publication *)

Definition endPublication (now : Z) (d : Daemon) (name producerID : string) : Daemon * bool :=
  let '(r, b) := ClearBackendIf now (d_Registry d) name producerID in
  (with_Registry r d, b).

(** One sweep at the ticker's reading [now]; [clock i] is the reading that
    the [i]-th record cleared by the loop is stamped with. *)
Definition sweepLeases (now : Z) (clock : nat → Z) (d : Daemon) : Daemon :=
  let '(l, out) := TakeExpired now (d_Lease d) in
  foldl (λ d te, (endPublication te.1 d (le_Name te.2) (le_RegistrationID te.2)).1)
    (with_Lease l d) (imap (λ i e, (clock i, e)) out).

Definition Heartbeat (now : Z) (d : Daemon) (id token : string) : Daemon * result Z Code :=
  match Renew now (d_Lease d) id token with
  | (l, Ok exp) => (with_Lease l d, Ok exp)
  | (l, Err ErrNotFound) => (with_Lease l d, Err CodeRegistrationNotFound)
  | (l, Err ErrUnauthorized) => (with_Lease l d, Err CodeUnauthorized)
  end.

Definition DeleteRegistration (now : Z) (d : Daemon) (id token : string) :
  Daemon * option Code :=
  match Lease.Get (d_Lease d) id with
  | None => (d, Some CodeRegistrationNotFound)
  | Some e =>
    match Delete (d_Lease d) id token with
    | (l, Some ErrUnauthorized) => (with_Lease l d, Some CodeUnauthorized)
    | (l, Some ErrNotFound) => (with_Lease l d, Some CodeRegistrationNotFound)
    | (l, None) =>
      ((endPublication now (with_Lease l d) (le_Name e) (le_RegistrationID e)).1, None)
    end
  end.

Definition ForgetDockerPublication (now : Z) (d : Daemon) (name ownerKey containerID : string) :
  Daemon :=
  (endPublication now d name containerID).1.

(** ** Queries *)

Record ServiceInfo := mkInfo {
  i_Name : string;
  i_Kind : Kind;
  i_AppProtocol : string;
  i_Status : Status;
  i_Frontend : Frontend;
  i_Backend : option Backend;
  i_Source : Source;
  i_OwnerKey : string;
  i_ProducerID : string;
  i_DockerContainerID : string;
  i_Hostname : string
}.

Definition infoFromRecord (rec : ServiceRecord) (includeBackend : bool) : ServiceInfo :=
  mkInfo (r_Name rec) (r_Kind rec) (r_AppProtocol rec) (r_Status rec) (r_Frontend rec)
    (if includeBackend then r_Backend rec else None) (r_Source rec) (r_OwnerKey rec)
    (r_ProducerID rec) (r_DockerContainerID rec) (r_Hostname rec).

Definition ListServices (d : Daemon) : list ServiceInfo :=
  (λ rec, infoFromRecord rec false) <$> List (d_Registry d).

Definition ResolveService (d : Daemon) (name : string) : result ServiceInfo Code :=
  match Resolve (d_Registry d) name with
  | None => Err CodeServiceNotFound
  | Some rec => Ok (infoFromRecord rec false)
  end.

Definition Inspect (d : Daemon) (name : string) : result ServiceInfo Code :=
  match Resolve (d_Registry d) name with
  | None => Err CodeServiceNotFound
  | Some rec => Ok (infoFromRecord rec true)
  end.

Definition frontendLabel (f : Frontend) : string :=
  if decide (f_URL f ≠ "") then f_URL f else Frontend_Addr f.

(** ** Start and shutdown *)

Inductive NewError :=
| NewConfig (e : ConfigError)
| NewState (e : LoadError)
| NewTLSIncomplete
| NewTLSInvalid
| NewListenerAddr
| NewBindHTTP
| NewBindHTTPS.

(** What the operating system contributes to [New]: the default state path,
    the read of the state file, whether the certificate pair loads, and which
    address can be listened on beside the listeners already open. *)
Record StartIO := mkStartIO {
  st_defaultStatePath : string;
  st_load : LoadIO;
  st_keypair_ok : bool;
  st_listen : list string → string → bool
}.

(** [loadTLS]: whether a certificate is in use. *)
Definition loadTLS (io : StartIO) (c : HTTPConfig) : result bool NewError :=
  if decide (hc_CertFile c = "" ∧ hc_KeyFile c = "") then Ok false
  else if decide (hc_CertFile c = "" ∨ hc_KeyFile c = "") then Err NewTLSIncomplete
  else if st_keypair_ok io then Ok true else Err NewTLSInvalid.

Definition listenerPort (addr : string) : option Z :=
  match SplitHostPort addr with
  | Err _ => None
  | Ok (_, rawPort) => Atoi rawPort
  end.

(** [bindProxyListeners]: the listeners left open, and the outcome. *)
Definition bindProxyListeners (io : StartIO) (c : HTTPConfig) (tls : bool) :
  list string * result unit NewError :=
  if hc_Enabled c && negb (st_listen io [] (hc_HTTPAddr c)) then ([], Err NewBindHTTP)
  else
    let http := if hc_Enabled c then [hc_HTTPAddr c] else [] in
    if tls then
      if negb (st_listen io http (hc_HTTPSAddr c)) then ([], Err NewBindHTTPS)
      else (http ++ [hc_HTTPSAddr c], Ok tt)
    else (http, Ok tt).

Definition set_StatePath (path : string) (c : Config) : Config :=
  mkConfig (c_Socket c) (c_TCPFrontendHost c) (c_TCPFrontendMin c) (c_TCPFrontendMax c)
    (c_LeaseTTL c) (c_ShutdownTimeout c) path (c_Docker c) (c_HTTP c).

(** [New]: the files and open proxy listeners it leaves, and the daemon. *)
Definition NewDaemon (io : StartIO) (fs : FS) (cfg : Config) :
  FS * list string * result Daemon NewError :=
  match Validate cfg with
  | Some e => (fs, [], Err (NewConfig e))
  | None =>
  let cfg := if decide (c_StatePath cfg = "")
             then set_StatePath (st_defaultStatePath io) cfg else cfg in
  match Load (st_load io) (c_StatePath cfg) fs with
  | (fs, Err e) => (fs, [], Err (NewState e))
  | (fs, Ok st) =>
  let alloc := NewAllocator (c_TCPFrontendHost cfg) (c_TCPFrontendMin cfg) (c_TCPFrontendMax cfg) in
  match loadTLS io (c_HTTP cfg) with
  | Err e => (fs, [], Err e)
  | Ok tls =>
  let scheme := if tls then "https" else "http" in
  let addr := if tls then hc_HTTPSAddr (c_HTTP cfg) else hc_HTTPAddr (c_HTTP cfg) in
  match listenerPort addr with
  | None => (fs, [], Err NewListenerAddr)
  | Some port =>
  match bindProxyListeners io (c_HTTP cfg) tls with
  | (lns, Err e) => (fs, lns, Err e)
  | (lns, Ok _) =>
    (fs, lns,
     Ok (mkDaemon cfg New (Runtime.NewManager alloc) (mkWorld (Some st) fs ∅)
           (Lease.NewManager (c_LeaseTTL cfg)) (NewRouter scheme port)
           (if dc_Enabled (c_Docker cfg) then "degraded" else "disabled")))
  end end end end end.

(** [Shutdown], once the background workers are done: the runtimes are
    closed and the state is flushed. *)
Definition ShutdownDaemon (io : SaveIO) (d : Daemon) : Daemon * option stage :=
  let '(m, w) := Runtime.Shutdown (d_Runtime d) (d_World d) in
  match w_state w with
  | None => (with_Runtime m w d, None)
  | Some s =>
    let '(s', fs', err) := Save io s (w_fs w) in
    (with_Runtime m (mkWorld (Some s') fs' (w_bound w)) d, err)
  end.

(** The probe loop of [CheckFrontendRange]; [None] is a nil error. *)
Fixpoint check_range (io : AllocIO) (bound : gset Z) (port : Z) (n : nat) : option Code :=
  match n with
  | O => Some CodePortExhausted
  | S n => match Listen io bound port with
           | Some _ => None
           | None => check_range io bound (port + 1) n
           end
  end.

Definition CheckFrontendRange (io : AllocIO) (d : Daemon) : option Code :=
  let lo := c_TCPFrontendMin (d_cfg d) in
  check_range io (w_bound (d_World d)) lo (Z.to_nat (c_TCPFrontendMax (d_cfg d) - lo + 1)).

End Daemon.
