(* ===== verification/Lifecycle.v ===== *)
(** * internal/daemon: background workers and shutdown

    [Start], [serveProxy], [StartDockerWatcher] and [Shutdown] of [daemon.go]
    as the goroutines they are: the lease sweeper, one server per proxy
    listener with the goroutine that shuts it down, the Docker watcher, and
    the goroutine that stops the daemon.  What the sweeper and the watcher do
    in one turn is modelled in [DaemonSystem.v] and [WatcherRun.v]; here a turn
    is an entry in the log. *)

From S2P Require Import Prelude Config.

(** ** The goroutines *)

(** A worker of the wait group: running, or past its [wg.Done]. *)
Inductive worker := Running | Ended.

#[global] Instance worker_eq_dec : EqDecision worker.
Proof. solve_decision. Defined.

(** The goroutine that [serveProxy] starts: before [ctx.Done], in
    [srv.Shutdown], after it. *)
Inductive helper := HelperWaits | HelperInShutdown | HelperEnded.

(** A proxy: [srv.Serve], the goroutine that will shut it down, and the
    requests in flight. *)
Record Proxy := mkProxyState { px_serve : worker; px_helper : helper; px_active : nat }.

(** Where [Shutdown] is. *)
Inductive stopper :=
| NotCalled
| WaitingForWorkers
| ClosingRuntimes
| SavingState
| ShutdownReturned.

Inductive effect := EffSweep | EffDocker | EffCloseRuntimes | EffSave.

Record Life := mkLife {
  lf_cancelled : bool;
  lf_sweeper : worker;
  lf_watcher : option worker;
  lf_proxies : list Proxy;
  lf_wg : nat;
  lf_stop : stopper;
  lf_timed_out : bool;
  lf_status : option string;
  lf_log : list effect                     (* the latest first *)
}.

(** [StartDockerWatcher]: the worker it starts, if any, and the status it sets. *)
Definition StartDockerWatcher (cfg : Config) (client_ok : bool) : option worker * option string :=
  if negb (dc_Enabled (c_Docker cfg)) then (None, Some "disabled")
  else if negb client_ok then (None, Some "degraded")
  else (Some Running, None).

(** [serveProxy] of a listener. *)
Definition serveProxy : Proxy := mkProxyState Running HelperWaits 0.

(** [Start], with the number of proxy listeners that [New] has bound. *)
Definition Start (cfg : Config) (listeners : nat) (client_ok : bool) : Life :=
  let '(watcher, status) := StartDockerWatcher cfg client_ok in
  mkLife false Running watcher (replicate listeners serveProxy)
    (1 + listeners + (if watcher then 1 else 0)) NotCalled false status [].

Definition with_proxies (l : list Proxy) (s : Life) : Life :=
  mkLife (lf_cancelled s) (lf_sweeper s) (lf_watcher s) l (lf_wg s) (lf_stop s) (lf_timed_out s) (lf_status s) (lf_log s).

Definition with_log (e : effect) (s : Life) : Life :=
  mkLife (lf_cancelled s) (lf_sweeper s) (lf_watcher s) (lf_proxies s) (lf_wg s) (lf_stop s) (lf_timed_out s)
    (lf_status s) (e :: lf_log s).

Definition stop_at (st : stopper) (timed_out : bool) (s : Life) : Life :=
  mkLife (lf_cancelled s) (lf_sweeper s) (lf_watcher s) (lf_proxies s) (lf_wg s) st timed_out (lf_status s) (lf_log s).

(** [wg.Done]. *)
Definition wg_done (sweeper : worker) (watcher : option worker) (proxies : list Proxy) (s : Life) : Life :=
  mkLife (lf_cancelled s) sweeper watcher proxies (lf_wg s - 1) (lf_stop s) (lf_timed_out s) (lf_status s) (lf_log s).

Inductive life_step : Life → Life → Prop :=
(* the parent context is canceled by a signal *)
| life_signal s :
    life_step s (mkLife true (lf_sweeper s) (lf_watcher s) (lf_proxies s) (lf_wg s) (lf_stop s) (lf_timed_out s)
                   (lf_status s) (lf_log s))
(* the sweeper's select takes a tick, or the end of the context *)
| life_sweep s :
    lf_sweeper s = Running → life_step s (with_log EffSweep s)
| life_sweeper_ends s :
    lf_sweeper s = Running → lf_cancelled s = true →
    life_step s (wg_done Ended (lf_watcher s) (lf_proxies s) s)
(* the watcher *)
| life_watch s :
    lf_watcher s = Some Running → life_step s (with_log EffDocker s)
| life_watcher_ends s :
    lf_watcher s = Some Running → lf_cancelled s = true →
    life_step s (wg_done (lf_sweeper s) (Some Ended) (lf_proxies s) s)
(* requests on a proxy *)
| life_request s i p :
    lf_proxies s !! i = Some p → px_serve p = Running → px_helper p = HelperWaits →
    life_step s (with_proxies (<[i := mkProxyState Running HelperWaits (S (px_active p))]> (lf_proxies s)) s)
| life_response s i p n :
    lf_proxies s !! i = Some p → px_active p = S n →
    life_step s (with_proxies (<[i := mkProxyState (px_serve p) (px_helper p) n]> (lf_proxies s)) s)
(* [srv.Shutdown] closes the listener at once and returns when no request is
   left or its time is up *)
| life_helper_begins s i p :
    lf_proxies s !! i = Some p → px_helper p = HelperWaits → lf_cancelled s = true →
    life_step s (with_proxies (<[i := mkProxyState (px_serve p) HelperInShutdown (px_active p)]> (lf_proxies s)) s)
| life_helper_ends s i p (timeout : bool) :
    lf_proxies s !! i = Some p → px_helper p = HelperInShutdown → px_active p = 0 ∨ timeout = true →
    life_step s (with_proxies (<[i := mkProxyState (px_serve p) HelperEnded (px_active p)]> (lf_proxies s)) s)
(* [srv.Serve] returns as soon as [srv.Shutdown] has been called, or when the
   listener fails *)
| life_serve_returns s i p (failed : bool) :
    lf_proxies s !! i = Some p → px_serve p = Running → px_helper p ≠ HelperWaits ∨ failed = true →
    life_step s (wg_done (lf_sweeper s) (lf_watcher s)
                   (<[i := mkProxyState Ended (px_helper p) (px_active p)]> (lf_proxies s)) s)
(* [Shutdown] *)
| life_stop_called s :
    lf_stop s = NotCalled →
    life_step s (stop_at WaitingForWorkers false
      (mkLife true (lf_sweeper s) (lf_watcher s) (lf_proxies s) (lf_wg s) (lf_stop s) (lf_timed_out s)
         (lf_status s) (lf_log s)))
| life_workers_done s :
    lf_stop s = WaitingForWorkers → lf_wg s = 0 → life_step s (stop_at ClosingRuntimes false s)
| life_stop_timeout s :
    lf_stop s = WaitingForWorkers → life_step s (stop_at ClosingRuntimes true s)
| life_close_runtimes s :
    lf_stop s = ClosingRuntimes → life_step s (stop_at SavingState (lf_timed_out s) (with_log EffCloseRuntimes s))
| life_save s :
    lf_stop s = SavingState → life_step s (stop_at ShutdownReturned (lf_timed_out s) (with_log EffSave s)).


Definition life_reachable (cfg : Config) (listeners : nat) (client_ok : bool) (s : Life) : Prop :=
  rtc life_step (Start cfg listeners client_ok) s.

(** ** The wait group *)

Definition running (w : worker) : nat := match w with Running => 1 | Ended => 0 end.

Definition running_proxies (l : list Proxy) : nat := sum_list_with (λ p, running (px_serve p)) l.

Definition live_workers (s : Life) : nat :=
  running (lf_sweeper s) + from_option running 0 (lf_watcher s) + running_proxies (lf_proxies s).

Lemma running_proxies_insert l i p q :
  l !! i = Some p → running_proxies (<[i := q]> l) + running (px_serve p) = running_proxies l + running (px_serve q).
Proof.
  unfold running_proxies. revert i. induction l as [|p0 l IH]; intros [|i] Hi; simplify_eq/=; [lia|].
  specialize (IH i Hi). lia.
Qed.

(** The log once the runtimes are closed: whatever the workers did is older. *)
Definition settled (log : list effect) : Prop :=
  ∃ rest, (log = EffCloseRuntimes :: rest ∨ log = EffSave :: EffCloseRuntimes :: rest) ∧
    EffCloseRuntimes ∉ rest ∧ EffSave ∉ rest.

Definition unsettled (log : list effect) : Prop := EffCloseRuntimes ∉ log ∧ EffSave ∉ log.

Definition life_inv (s : Life) : Prop :=
  lf_wg s = live_workers s ∧
  (lf_stop s ≠ NotCalled → lf_cancelled s = true) ∧
  (lf_stop s = NotCalled ∨ lf_stop s = WaitingForWorkers → lf_timed_out s = false) ∧
  (lf_timed_out s = false →
   match lf_stop s with
   | NotCalled | WaitingForWorkers => unsettled (lf_log s)
   | ClosingRuntimes => live_workers s = 0 ∧ unsettled (lf_log s)
   | SavingState => live_workers s = 0 ∧ settled (lf_log s) ∧ head (lf_log s) = Some EffCloseRuntimes
   | ShutdownReturned => live_workers s = 0 ∧ settled (lf_log s) ∧ head (lf_log s) = Some EffSave
   end).

Lemma life_inv_Start cfg n ok : life_inv (Start cfg n ok).
Proof.
  unfold Start, StartDockerWatcher, life_inv, live_workers.
  assert (running_proxies (replicate n serveProxy) = n) as Hn by (unfold running_proxies; induction n as [|n IH]; cbn in *; lia).
  destruct (dc_Enabled _), ok; cbn -[running_proxies]; rewrite Hn; (split_and!; [lia|done|done|]; intros _; split; apply not_elem_of_nil).
Qed.


Lemma unsettled_cons e log : e ≠ EffCloseRuntimes → e ≠ EffSave → unsettled log → unsettled (e :: log).
Proof. unfold unsettled. intros ? ? [? ?]. rewrite !not_elem_of_cons. done. Qed.

Lemma settled_close log : unsettled log → settled (EffCloseRuntimes :: log).
Proof. intros [? ?]. exists log. auto. Qed.

Lemma settled_save log : settled log → head log = Some EffCloseRuntimes → settled (EffSave :: log).
Proof. intros (rest & [-> | ->] & ? & ?) Hh; [|done]. exists rest. auto. Qed.

Ltac settle Hl :=
  let Ht := fresh in
  intros Ht; specialize (Hl Ht); repeat case_match; simplify_eq; destruct_and?;
  split_and?; auto using unsettled_cons, settled_close, settled_save; try lia; try congruence.

(** A step of a worker changes nothing that the stopping goroutine has
    settled: it needs a live worker. *)
Lemma life_inv_step s s' : life_inv s → life_step s s' → life_inv s'.
Proof.
  intros (Hwg & Hc & Hto & Hl) Hs. unfold life_inv, live_workers in *.
  destruct Hs as [s|s Hw|s Hw Hx|s Hw|s Hw Hx|s i p Hi Hp Hh|s i p n Hi Ha|s i p Hi Hh Hx|s i p to Hi Hh Ha
    |s i p fl Hi Hp Hh|s Hst|s Hst Hz|s Hst|s Hst|s Hst];
    cbn [lf_cancelled lf_sweeper lf_watcher lf_proxies lf_wg lf_stop lf_timed_out lf_log with_proxies with_log
         stop_at wg_done] in *;
    try (pose proof (running_proxies_insert _ _ _ (mkProxyState Running HelperWaits (S (px_active p))) Hi) as Hins);
    rewrite ?Hw, ?Hst in *; cbn [running from_option px_serve] in *.
  - split_and!; [done|done|done|settle Hl].
  - split_and!; [done|done|done|settle Hl].
  - split_and!; [lia|done|done|settle Hl].
  - split_and!; [done|done|done|settle Hl].
  - split_and!; [lia|done|done|settle Hl].
  - rewrite Hp in Hins. cbn in Hins. split_and!; [lia|done|done|settle Hl].
  - pose proof (running_proxies_insert _ _ _ (mkProxyState (px_serve p) (px_helper p) n) Hi) as Hi2. cbn in Hi2.
    split_and!; [lia|done|done|settle Hl].
  - pose proof (running_proxies_insert _ _ _ (mkProxyState (px_serve p) HelperInShutdown (px_active p)) Hi) as Hi2.
    cbn in Hi2. split_and!; [lia|done|done|settle Hl].
  - pose proof (running_proxies_insert _ _ _ (mkProxyState (px_serve p) HelperEnded (px_active p)) Hi) as Hi2.
    cbn in Hi2. split_and!; [lia|done|done|settle Hl].
  - pose proof (running_proxies_insert _ _ _ (mkProxyState Ended (px_helper p) (px_active p)) Hi) as Hi2.
    rewrite Hp in Hi2. cbn in Hi2. split_and!; [lia|done|done|settle Hl].
  - split_and!; [done|done|done|]. intros _. apply Hl, Hto. by left.
  - split_and!; [done|by intros _; apply Hc|done|]. intros _. split; [lia|]. apply Hl, Hto. by right.
  - split_and!; [done|by intros _; apply Hc|by intros [?|?]|done].
  - split_and!; [done|by intros _; apply Hc|by intros [?|?]|settle Hl].
  - split_and!; [done|by intros _; apply Hc|by intros [?|?]|settle Hl].
Qed.

Lemma life_reachable_inv cfg n ok s : life_reachable cfg n ok s → life_inv s.
Proof.
  unfold life_reachable. revert s.
  apply (rtc_ind_r life_inv); [apply life_inv_Start|]. intros y z _ Hs Hy. by eapply life_inv_step.
Qed.

(** C16: The wait group counts exactly the sweeper, the proxy servers and the Docker watcher
    that still run; when Shutdown returns without having timed out none of them is left, the
    runtimes were closed once and the state saved once after that, everything the workers did
    lies before, and no later step does anything to the daemon. *)
Theorem shutdown_waits_for_workers cfg n ok s :
  life_reachable cfg n ok s →
  lf_wg s = live_workers s ∧
  (lf_stop s = ShutdownReturned → lf_timed_out s = false →
     live_workers s = 0 ∧
     ∃ rest, lf_log s = EffSave :: EffCloseRuntimes :: rest ∧ EffCloseRuntimes ∉ rest ∧ EffSave ∉ rest ∧
     ∀ s', life_step s s' → lf_log s' = lf_log s).
Proof.
  intros Hr. apply life_reachable_inv in Hr as (Hwg & _ & _ & Hl). split; [done|].
  intros Hst Hto. specialize (Hl Hto). rewrite Hst in Hl. destruct Hl as (H0 & (rest & Hlog & H1 & H2) & Hh).
  split; [done|]. exists rest.
  assert (lf_log s = EffSave :: EffCloseRuntimes :: rest) as E by (destruct Hlog as [E|E]; [rewrite E in Hh|]; done).
  split_and!; [done|done|done|]. intros s' Hs. unfold live_workers in H0.
  destruct Hs as [s|s Hw|s Hw Hx|s Hw|s Hw Hx|s i p Hi Hp Hh'|s i p k Hi Ha|s i p Hi Hh' Hx|s i p to Hi Hh' Ha
    |s i p fl Hi Hp Hh'|s Hst'|s Hst' Hz|s Hst'|s Hst'|s Hst']; try done; try (by rewrite Hst in Hst').
  - rewrite Hw in H0. cbn in H0. lia.
  - rewrite Hw in H0. cbn in H0. lia.
Qed.

(** ** Requests in flight *)

(** Shutdown can return, in time, while a proxied request is still being answered: Serve returns
    as soon as its server's Shutdown has begun, and nothing waits for that to end. *)
Theorem requests_in_flight_are_cut cfg :
  dc_Enabled (c_Docker cfg) = false →
  ∃ s p, life_reachable cfg 1 true s ∧ lf_stop s = ShutdownReturned ∧ lf_timed_out s = false ∧
    lf_proxies s = [p] ∧ px_helper p = HelperInShutdown ∧ px_active p = 1.
Proof.
  intros Hd. unfold life_reachable, Start, StartDockerWatcher. rewrite Hd. cbn.
  eexists _, (mkProxyState Ended HelperInShutdown 1). split.
  - eapply rtc_l; [by apply (life_request _ 0 serveProxy)|].
    eapply rtc_l; [by apply life_stop_called|].
    eapply rtc_l; [by eapply (life_helper_begins _ 0)|].
    eapply rtc_l; [by eapply (life_serve_returns _ 0 _ false); [| |left]|].
    eapply rtc_l; [by apply life_sweeper_ends|].
    eapply rtc_l; [by apply life_workers_done|].
    eapply rtc_l; [by apply life_close_runtimes|].
    eapply rtc_l; [by apply life_save|]. apply rtc_refl.
  - done.
Qed.
