(* ===== verification/DaemonInv.v ===== *)
(** * The daemon's invariant and the outcome of a registration

    The facts about single operations of [Daemon.v] that the theorems on the
    running system build on. *)

From S2P Require Import Prelude GoStrings GoNet Registry Lease State Runtime Router Config Daemon.
From Stdlib Require Import Ascii.
Local Open Scope Z_scope.

(** ** What the checks establish *)

(** The backend passed validation, under the name resolution of its time. *)
Definition backend_ok (b : Backend) : Prop :=
  0 < b_Port b ≤ 65535 ∧ TrimSpace (b_Host b) ≠ "" ∧
  ∃ lk, IsLoopbackHost lk (b_Host b) = true.

Lemma ValidateBackend_None lk b : ValidateBackend lk b = None → backend_ok b.
Proof.
  unfold ValidateBackend. do 2 (case_decide; [done|]).
  destruct (IsLoopbackHost lk (b_Host b)) eqn:E; [|done]. intros _.
  split; [lia|]. split; [done|]. by exists lk.
Qed.

(** The identity a registration gets. *)
Definition request_source (p : RegisterParams) : Source :=
  if decide (p_Source p = "") then SourceProcess else p_Source p.
Definition request_kind (p : RegisterParams) : Kind :=
  if decide (p_Kind p = "") then KindTCP else p_Kind p.
Definition request_regID (p : RegisterParams) (env : Env) : string :=
  if decide (p_RegistrationID p = "") then e_newID env else p_RegistrationID p.
Definition request_owner (p : RegisterParams) (env : Env) : string :=
  if decide (p_OwnerKey p = "") then request_source p +:+ ":" +:+ request_regID p env
  else p_OwnerKey p.
Definition request_producer (p : RegisterParams) (env : Env) : string :=
  if decide (request_source p = SourceDocker) then p_DockerContainerID p
  else request_regID p env.

Section Facts.
Context `{JSON} `{Unicode} `{MapRange}.

Lemma prepare_Ok d p env pr :
  prepare d p env = Ok pr →
  ValidateName (p_Name p) = None ∧
  (pr_kind pr = request_kind p ∧ (pr_kind pr = KindTCP ∨ pr_kind pr = KindHTTP)) ∧
  backend_ok (p_Backend p) ∧
  (pr_source pr = request_source p ∧
   pr_ttl pr = effective_ttl d (request_source p) (p_TTLSeconds p) ∧
   (pr_source pr ≠ SourceDocker → MinLeaseTTL ≤ pr_ttl pr ≤ MaxLeaseTTL)) ∧
  request_hostname (pr_kind pr) (p_HTTPHost p) = Some (pr_hostname pr) ∧
  immutable_conflict d (p_Name p) (pr_kind pr) (pr_hostname pr) = false ∧
  hostname_conflict d (p_Name p) (pr_kind pr) (pr_hostname pr) = false ∧
  (pr_regID pr = request_regID p env ∧ pr_ownerKey pr = request_owner p env ∧
   pr_producerID pr = request_producer p env) ∧
  owned_by_other (d_Registry d) (p_Name p) (pr_ownerKey pr) = false.
Proof.
  unfold prepare. destruct (ValidateName (p_Name p)) eqn:En; [done|].
  fold (request_kind p) (request_source p).
  destruct (decide (request_kind p ≠ KindTCP ∧ request_kind p ≠ KindHTTP)) as [|Hk]; [done|].
  destruct (ValidateBackend _ _) eqn:Eb; [done|]. apply ValidateBackend_None in Eb.
  destruct (decide (request_source p ≠ SourceDocker ∧ _)) as [|Ht]; [done|].
  destruct (request_hostname _ _) as [h|] eqn:Eh; [|done].
  destruct (immutable_conflict _ _ _ _) eqn:Ei; [done|].
  destruct (hostname_conflict _ _ _ _) eqn:Ec; [done|].
  destruct (decide (request_source p = SourceDocker ∧ _)) as [|Hd]; [done|].
  unfold CheckOwnership. destruct (owned_by_other _ _ _) eqn:Eo; [done|].
  intros [= <-]. simpl. split_and!; try done.
  - destruct (decide (request_kind p = KindTCP)), (decide (request_kind p = KindHTTP)); tauto.
  - intros Hs. split; apply Z.nlt_ge; tauto.
Qed.

(** ** The effects of a registration *)

Lemma retire_previous_fields d name pr :
  d_Registry (retire_previous d name pr) = d_Registry d ∧
  d_Runtime (retire_previous d name pr) = d_Runtime d ∧
  d_World (retire_previous d name pr) = d_World d ∧
  d_HTTP (retire_previous d name pr) = d_HTTP d ∧
  d_cfg (retire_previous d name pr) = d_cfg d.
Proof. unfold retire_previous. by repeat case_match. Qed.

(** The lease entries that survive the retirement are the old ones. *)
Lemma retire_previous_lease d name pr id e :
  m_entries (d_Lease (retire_previous d name pr)) !! id = Some e →
  m_entries (d_Lease d) !! id = Some e.
Proof.
  unfold retire_previous. repeat case_match; simpl; try done.
  by intros [_ ?]%lookup_delete_Some.
Qed.

(** What the retirement drops is the lease of the publication it replaces. *)
Lemma retire_previous_keeps d name pr id e :
  m_entries (d_Lease d) !! id = Some e →
  m_entries (d_Lease (retire_previous d name pr)) !! id = Some e ∨
  ∃ rec, d_Registry d !! name = Some rec ∧ r_ProducerID rec = id ∧
         r_OwnerKey rec = pr_ownerKey pr ∧ r_Source rec ≠ SourceDocker.
Proof.
  intros Hid. unfold retire_previous, Resolve.
  destruct (d_Registry d !! name) as [rec|]; [|by left].
  case_decide as Hd; [|by left].
  destruct (decide (r_ProducerID rec = id)).
  { right. exists rec. destruct Hd as (? & _ & [-> | ->]); by split_and!. }
  left. simpl. by rewrite lookup_delete_ne.
Qed.

Lemma assign_frontend_fields d p pr env d' r :
  assign_frontend d p pr env = (d', r) →
  d_Registry d' = d_Registry d ∧ d_Lease d' = d_Lease d ∧ d_HTTP d' = d_HTTP d ∧
  d_cfg d' = d_cfg d.
Proof. unfold assign_frontend. repeat (case_match || case_decide); intros; by simplify_eq. Qed.

Lemma CreateOrReplaceOwned_Ok now r rec :
  owned_by_other r (r_Name rec) (r_OwnerKey rec) = false → r_UpdatedAt rec = now →
  CreateOrReplaceOwned now r rec = (<[r_Name rec := rec]> r, Ok rec).
Proof.
  intros Ho Ht. unfold CreateOrReplaceOwned. rewrite Ho.
  assert (set_UpdatedAt now rec = rec) as E by (rewrite <-Ht; by destruct rec).
  rewrite E. by case_decide.
Qed.

(** Once the checks have passed the registry accepts the record: the second
    ownership check cannot fail. *)
Lemma commit_cases d p pr env :
  prepare d p env = Ok pr →
  let '(d1, rf) := assign_frontend (retire_previous d (p_Name p) pr) p pr env in
  commit d p pr env =
  match rf with
  | Err e => (d1, Err e)
  | Ok f =>
    let rec := new_record p pr f (e_now env) in
    let d2 := install_route (with_Registry (<[p_Name p := rec]> (d_Registry d)) d1) p pr in
    grant_lease d2 p pr f env
  end.
Proof.
  intros Hp. apply prepare_Ok in Hp as (_ & _ & _ & _ & _ & _ & _ & _ & Ho).
  unfold commit. destruct (assign_frontend _ _ _ _) as [d1 rf] eqn:E.
  apply assign_frontend_fields in E as (E & _).
  destruct (retire_previous_fields d (p_Name p) pr) as (E' & _).
  destruct rf as [f|e]; [|done].
  rewrite CreateOrReplaceOwned_Ok; [|by rewrite E, E'|done].
  by rewrite E, E'.
Qed.

(** ** The invariant *)

(** The advertised frontend of a record: the port its runtime listens on, or
    the public URL of its host name. *)
Definition frontend_ok (rts : Runtimes) (http : Router string) (rec : ServiceRecord) : Prop :=
  (r_Kind rec = KindTCP ∧ r_Hostname rec = "" ∧
   ∃ rt, rm_runtimes rts !! r_Name rec = Some rt ∧ r_Frontend rec = rt_Frontend rt) ∨
  (r_Kind rec = KindHTTP ∧ r_Hostname rec ≠ "" ∧
   r_Frontend rec = mkFrontend "" 0 (FrontendURL http (r_Hostname rec))).

Definition service_ok (rts : Runtimes) (http : Router string) (name : string)
    (rec : ServiceRecord) : Prop :=
  record_wf name rec ∧ ValidateName name = None ∧
  (∀ b, r_Backend rec = Some b → backend_ok b) ∧ frontend_ok rts http rec.

(** Every route belongs to an HTTP service that normalizes to its key, every
    HTTP service has a route, and no two have the same host name. *)
Definition routes_ok (reg : Registry) (http : Router string) : Prop :=
  map_Forall (λ key hp, ∃ rec, reg !! hp_provider hp = Some rec ∧ r_Kind rec = KindHTTP ∧
                normalizeHost (r_Hostname rec) = key) (ro_routes http) ∧
  map_Forall (λ _ rec, r_Kind rec = KindHTTP → is_Some (LookupRoute http (r_Hostname rec))) reg ∧
  (∀ n1 n2 r1 r2, reg !! n1 = Some r1 → reg !! n2 = Some r2 → r_Kind r1 = KindHTTP →
     r_Kind r2 = KindHTTP → r_Hostname r1 = r_Hostname r2 → n1 = n2).

Definition lease_ok (id : string) (e : Entry) : Prop :=
  le_RegistrationID e = id ∧ MinLeaseTTL ≤ le_TTL e ≤ MaxLeaseTTL.

Definition world_ok (w : World) : Prop :=
  ∃ s, w_state w = Some s ∧ store_inv s (w_fs w).

Record daemon_inv (d : Daemon) : Prop := mkDaemonInv {
  inv_cfg : Validate (d_cfg d) = None;
  inv_alloc : rm_alloc (d_Runtime d) =
    NewAllocator (c_TCPFrontendHost (d_cfg d)) (c_TCPFrontendMin (d_cfg d))
      (c_TCPFrontendMax (d_cfg d));
  inv_services : map_Forall (service_ok (d_Runtime d) (d_HTTP d)) (d_Registry d);
  inv_routes : routes_ok (d_Registry d) (d_HTTP d);
  inv_runtimes : runtimes_inv (d_Runtime d) (d_World d);
  inv_world : world_ok (d_World d);
  inv_ports : ports_persisted (d_Runtime d) (d_World d);
  inv_leases : map_Forall lease_ok (m_entries (d_Lease d))
}.

(** What a registration needs of its environment: [os.CreateTemp] opens a
    new file. *)
Definition env_ok (d : Daemon) (env : Env) : Prop :=
  ∀ s, w_state (d_World d) = Some s →
       io_fresh (io_save (e_alloc env)) (s_path s) (w_fs (d_World d)).

Lemma inv_registry_wf d : daemon_inv d → registry_wf (d_Registry d).
Proof. intros Hd n rec Hn. by apply (inv_services d Hd). Qed.

Lemma retire_previous_inv d name pr : daemon_inv d → daemon_inv (retire_previous d name pr).
Proof.
  intros Hd. destruct (retire_previous_fields d name pr) as (E1 & E2 & E3 & E4 & E5).
  destruct Hd. split; rewrite ?E1, ?E2, ?E3, ?E4, ?E5; try done.
  intros id e He%retire_previous_lease. by apply inv_leases0.
Qed.

(** A runtime that is added leaves the frontends of the others alone. *)
Lemma services_mono rts rts' http (reg : Registry) :
  (∀ n rt, rm_runtimes rts !! n = Some rt → rm_runtimes rts' !! n = Some rt) →
  map_Forall (service_ok rts http) reg → map_Forall (service_ok rts' http) reg.
Proof.
  intros Hm Hs n rec Hn. destruct (Hs n rec Hn) as (? & ? & ? & Hf).
  split_and!; try done. destruct Hf as [(? & ? & rt & ? & ?)|?]; [left|by right].
  split_and!; try done. eauto.
Qed.

Lemma assign_frontend_inv d p pr env d' r :
  daemon_inv d → env_ok d env → ValidateName (p_Name p) = None →
  pr_kind pr = KindTCP ∨ pr_kind pr = KindHTTP →
  assign_frontend d p pr env = (d', r) →
  daemon_inv d' ∧
  match r with
  | Err _ => pr_kind pr = KindTCP ∧ rm_runtimes (d_Runtime d) !! p_Name p = None
  | Ok f => (pr_kind pr = KindTCP ∧ ∃ rt, rm_runtimes (d_Runtime d') !! p_Name p = Some rt ∧
                                          f = rt_Frontend rt) ∨
            (pr_kind pr = KindHTTP ∧ f = mkFrontend "" 0 (FrontendURL (d_HTTP d') (pr_hostname pr)))
  end.
Proof.
  intros Hd Henv Hn Hk E. pose proof E as (Er & El & Eh & Ec)%assign_frontend_fields.
  unfold assign_frontend in E. case_decide as Hkd; [simplify_eq; by auto|].
  destruct Hk as [Hk|?]; [|done].
  destruct (EnsureTCPRuntime _ _ _ _ _) as [[m w] o] eqn:Ee.
  destruct (inv_world d Hd) as (s & Es & Hs).
  pose proof Ee as (s' & Es' & _ & Hs')%(EnsureTCPRuntime_store _ _ _ s);
    [|done|done|by apply Henv|by apply all_ascii_utf8, ValidateName_ascii].
  assert (1 ≤ a_min (rm_alloc (d_Runtime d))) as Hmin
    by (rewrite (inv_alloc d Hd); simpl; apply Validate_bounds, Hd).
  pose proof Ee as Hpp%(EnsureTCPRuntime_persisted _ _ _ s);
    [|done|done|done|by apply Henv|by apply all_ascii_utf8, ValidateName_ascii|apply Hd].
  apply EnsureTCPRuntime_inv in Ee as (Hri & Ha & Ho); [|done|apply Hd].
  assert (∀ n rt, rm_runtimes (d_Runtime d) !! n = Some rt → rm_runtimes m !! n = Some rt)
    as Hmono by (destruct o; [by apply Ho|by destruct Ho as [-> _]]).
  assert (daemon_inv (with_Runtime m w d)) as Hd'.
  { destruct Hd. split; simpl; try done; [by rewrite Ha|by eapply services_mono|by exists s']. }
  destruct o as [rt|[]]; simplify_eq/=; (split; [done|]); [left; naive_solver|tauto..].
Qed.

(** ** Publishing a record *)

Lemma immutable_conflict_false d name kind hostname ex :
  immutable_conflict d name kind hostname = false → d_Registry d !! name = Some ex →
  r_Kind ex = kind ∧ (kind = KindHTTP → r_Hostname ex = hostname).
Proof.
  unfold immutable_conflict, Resolve. intros E Hex. rewrite Hex in E.
  apply bool_decide_eq_false in E.
  destruct (decide (r_Kind ex = kind)), (decide (r_Hostname ex = hostname)); tauto.
Qed.

Lemma service_http_kind rts http n rec :
  service_ok rts http n rec → r_Hostname rec ≠ "" → r_Kind rec = KindHTTP.
Proof. intros (_ & _ & _ & [(_ & ? & _)|(? & _)]); naive_solver. Qed.

Lemma hostname_conflict_false d name hostname n ex :
  daemon_inv d → hostname_conflict d name KindHTTP hostname = false → hostname ≠ "" →
  d_Registry d !! n = Some ex → r_Hostname ex = hostname → n = name.
Proof.
  intros Hd E Hne Hn Hh. unfold hostname_conflict in E. rewrite decide_True in E by done.
  destruct (FindByHostname (d_Registry d) hostname) as [ex'|] eqn:Ef.
  - apply FindByHostname_Some in Ef as (Hh' & m & Hm).
    apply bool_decide_eq_false, dec_stable in E.
    pose proof (inv_services d Hd n ex Hn) as Hso. pose proof (inv_services d Hd m ex' Hm) as Hso'.
    destruct (proj1 Hso') as [Em _]. rewrite <-E, Em.
    eapply (proj2 (proj2 (inv_routes d Hd))); [done..| | |by rewrite Hh, Hh'];
      eapply service_http_kind; (done || congruence).
  - rewrite FindByHostname_None in Ef. by destruct (Ef n ex Hn).
Qed.

(** The routes stay right when a record of the same kind and host name
    replaces the one before it. *)
Lemma routes_insert_tcp (reg : Registry) http name rec :
  routes_ok reg http → r_Kind rec = KindTCP →
  (∀ ex, reg !! name = Some ex → r_Kind ex = KindTCP) →
  routes_ok (<[name := rec]> reg) http.
Proof.
  intros (Hr & Hs & Hu) Hk Hex. split_and!.
  - intros key hp Hkey. destruct (Hr key hp Hkey) as (r & Hlk & Hhk & Hn). exists r.
    rewrite lookup_insert_ne; [done|]. intros ->. specialize (Hex _ Hlk). by rewrite Hex in Hhk.
  - apply map_Forall_insert_2; [by rewrite Hk|done].
  - intros n1 n2 r1 r2 [[<- <-]|[? H1']]%lookup_insert_Some
      [[<- <-]|[? H2']]%lookup_insert_Some Hk1 Hk2 Hh;
      [done|by rewrite Hk in Hk1|by rewrite Hk in Hk2|by eapply Hu].
Qed.

Lemma routes_insert_http (reg : Registry) http name rec :
  routes_ok reg http → r_Kind rec = KindHTTP →
  (∀ ex, reg !! name = Some ex → r_Hostname ex = r_Hostname rec) →
  (∀ n ex, reg !! n = Some ex → r_Hostname ex = r_Hostname rec → n = name) →
  routes_ok (<[name := rec]> reg) (SetRoute http (r_Hostname rec) name).
Proof.
  intros (Hr & Hs & Hu) Hk Hex Hfree. split_and!.
  - simpl. apply map_Forall_insert_2; simpl.
    { exists rec. by rewrite lookup_insert_eq. }
    intros key hp Hkey. destruct (Hr key hp Hkey) as (r & Hlk & Hhk & <-).
    destruct (decide (hp_provider hp = name)) as [E|E].
    + exists rec. rewrite E, lookup_insert_eq. rewrite E in Hlk. by rewrite (Hex _ Hlk).
    + exists r. by rewrite lookup_insert_ne.
  - apply map_Forall_insert_2.
    + intros _. by rewrite LookupRoute_SetRoute, decide_True.
    + intros n ex Hn Hke. rewrite LookupRoute_SetRoute. case_decide; [done|]. by apply (Hs n ex).
  - intros n1 n2 r1 r2 [[<- <-]|[? H1']]%lookup_insert_Some
      [[<- <-]|[? H2']]%lookup_insert_Some Hk1 Hk2 Hh; try done.
    + symmetry. by eapply Hfree.
    + by eapply Hfree.
    + by eapply Hu.
Qed.

Lemma canonicalHTTPHost_nonempty raw h : canonicalHTTPHost raw = Some h → h ≠ "".
Proof. unfold canonicalHTTPHost. repeat case_match; intros; by simplify_eq. Qed.

(** The record a registration publishes, with its route. *)
Definition publish (d : Daemon) (p : RegisterParams) (pr : Prepared) (f : Frontend)
    (now : Z) : Daemon :=
  install_route (with_Registry (<[p_Name p := new_record p pr f now]> (d_Registry d)) d) p pr.

Lemma publish_inv d p pr f now env :
  daemon_inv d → prepare d p env = Ok pr →
  (pr_kind pr = KindTCP ∧ (∃ rt, rm_runtimes (d_Runtime d) !! p_Name p = Some rt ∧
                                 f = rt_Frontend rt)) ∨
  (pr_kind pr = KindHTTP ∧ f = mkFrontend "" 0 (FrontendURL (d_HTTP d) (pr_hostname pr))) →
  daemon_inv (publish d p pr f now).
Proof.
  intros Hd (Hn & _ & Hb & _ & Hh & Hi & Hc & _)%prepare_Ok Hf.
  pose proof (λ ex, immutable_conflict_false d _ _ _ ex Hi) as Hex.
  unfold publish, install_route.
  destruct Hf as [(Hk & rt & Hrt & ->)|(Hk & ->)].
  - rewrite decide_False by by rewrite Hk.
    destruct Hd; split; simpl; try done.
    + apply map_Forall_insert_2; [|done]. split_and!; try done; [split; [done|left; by split]| |].
      * simpl. by intros b [= <-].
      * left. simpl. rewrite decide_False by by rewrite Hk. eauto.
    + apply routes_insert_tcp; [done|done|]. intros ex E. rewrite <-Hk. by apply Hex.
  - rewrite Hk in *. rewrite decide_True by done. unfold request_hostname in Hh.
    rewrite decide_True in Hh by done. apply canonicalHTTPHost_nonempty in Hh.
    set (rec := new_record p pr _ now).
    assert (r_Hostname rec = pr_hostname pr) as Er by (simpl; by rewrite decide_True).
    pose proof (λ n ex, hostname_conflict_false d _ _ n ex Hd Hc Hh) as Hfree.
    destruct Hd; split; simpl; try done.
    + apply map_Forall_insert_2; [|done]. split_and!; try done; [split; [done|left; by split]| |].
      * simpl. by intros b [= <-].
      * right. rewrite Er. by split_and!.
    + replace (SetRoute (d_HTTP d) (pr_hostname pr) (p_Name p))
        with (SetRoute (d_HTTP d) (r_Hostname rec) (p_Name p)) by by rewrite Er.
      apply routes_insert_http; rewrite ?Er; [done|done| |done].
      intros ex E. by apply Hex.
Qed.

Lemma grant_lease_inv d p pr f env d' r :
  daemon_inv d → (pr_source pr ≠ SourceDocker → MinLeaseTTL ≤ pr_ttl pr ≤ MaxLeaseTTL) →
  grant_lease d p pr f env = (d', r) → daemon_inv d'.
Proof.
  intros Hd Ht. unfold grant_lease. case_decide as Hs; [intros; by simplify_eq|].
  destruct (NewToken _); [|intros; by simplify_eq]. simpl. intros [= <- _].
  destruct Hd; split; simpl; try done. apply map_Forall_insert_2; [|done].
  split; [done|]. simpl. specialize (Ht Hs). unfold MinLeaseTTL in *.
  rewrite decide_False; [done|]. unfold Second in *. lia.
Qed.

(** The checks read the registry only, which nothing before the publication
    changes. *)
Lemma prepare_registry d d' p env :
  d_Registry d' = d_Registry d → d_cfg d' = d_cfg d → prepare d' p env = prepare d p env.
Proof.
  intros Er Ec. unfold prepare, effective_ttl, immutable_conflict, hostname_conflict.
  by rewrite Er, Ec.
Qed.

Lemma Register_inv d p env d' r :
  daemon_inv d → env_ok d env → Register d p env = (d', r) → daemon_inv d'.
Proof.
  intros Hd Henv. unfold Register.
  destruct (prepare d p env) as [pr|e] eqn:Ep; [|intros; by simplify_eq].
  pose proof (commit_cases d p pr env Ep) as Hc.
  destruct (retire_previous_fields d (p_Name p) pr) as (E1 & E2 & E3 & E4 & E5).
  destruct (assign_frontend _ p pr env) as [d1 rf] eqn:Ea. rewrite Hc. clear Hc.
  pose proof Ep as (Hn & (_ & Hk) & _ & (_ & _ & Ht) & _)%prepare_Ok.
  pose proof Ea as (Er & _ & _ & Ec)%assign_frontend_fields.
  apply assign_frontend_inv in Ea as [Hd1 Hf];
    [|by apply retire_previous_inv|intros s; rewrite E3; apply Henv|done|done].
  destruct rf as [f|e]; [|intros; by simplify_eq].
  rewrite <-E1, <-Er. apply grant_lease_inv; [|done].
  eapply (publish_inv _ _ _ _ _ env); [done| |done].
  by rewrite (prepare_registry d) by congruence.
Qed.

(** ** The other operations *)

Lemma ClearBackendIf_lookup now r name producer n :
  (ClearBackendIf now r name producer).1 !! n =
  match r !! n with
  | Some rec => if decide (n = name ∧ r_ProducerID rec = producer)
                then Some (set_Backend None StatusUnavailable now rec) else Some rec
  | None => None
  end.
Proof.
  unfold ClearBackendIf. destruct (r !! name) as [rec|] eqn:E; simpl.
  - destruct (decide (name = n)) as [<-|Hn].
    + rewrite E. destruct (decide (r_ProducerID rec ≠ producer)); simpl.
      * rewrite E, decide_False; [done|tauto].
      * rewrite lookup_insert_eq, decide_True; [done|]. split; [done|]. by apply dec_stable.
    + destruct (decide (r_ProducerID rec ≠ producer)); simpl; rewrite ?lookup_insert_ne by done;
        destruct (r !! n); try done; (rewrite decide_False; [done|naive_solver]).
  - destruct (r !! n) eqn:En; [|done]. rewrite decide_False; [done|naive_solver].
Qed.

(** Ending a publication changes status, backend and time of one record. *)
Lemma endPublication_record now d name producer n rec' :
  d_Registry (endPublication now d name producer).1 !! n = Some rec' →
  ∃ rec, d_Registry d !! n = Some rec ∧
    (rec' = rec ∨ rec' = set_Backend None StatusUnavailable now rec).
Proof.
  unfold endPublication. destruct (ClearBackendIf _ _ _ _) as [r b] eqn:E. simpl.
  pose proof (ClearBackendIf_lookup now (d_Registry d) name producer n) as Hl.
  rewrite E in Hl. simpl in Hl. rewrite Hl. destruct (d_Registry d !! n) as [rec|]; [|done].
  case_decide; intros; simplify_eq; eauto.
Qed.

Lemma endPublication_keeps now d name producer n rec :
  d_Registry d !! n = Some rec →
  ∃ rec', d_Registry (endPublication now d name producer).1 !! n = Some rec' ∧
    (rec' = rec ∨ rec' = set_Backend None StatusUnavailable now rec).
Proof.
  unfold endPublication. destruct (ClearBackendIf _ _ _ _) as [r b] eqn:E. simpl.
  pose proof (ClearBackendIf_lookup now (d_Registry d) name producer n) as Hl.
  rewrite E in Hl. simpl in Hl. rewrite Hl. intros ->.
  destruct (decide (n = name ∧ r_ProducerID rec = producer)); eauto.
Qed.

Lemma endPublication_fields now d name producer :
  d_Runtime (endPublication now d name producer).1 = d_Runtime d ∧
  d_World (endPublication now d name producer).1 = d_World d ∧
  d_Lease (endPublication now d name producer).1 = d_Lease d ∧
  d_HTTP (endPublication now d name producer).1 = d_HTTP d ∧
  d_cfg (endPublication now d name producer).1 = d_cfg d.
Proof. unfold endPublication. by destruct (ClearBackendIf _ _ _ _). Qed.

Lemma endPublication_inv now d name producer :
  daemon_inv d → daemon_inv (endPublication now d name producer).1.
Proof.
  intros Hd. destruct (endPublication_fields now d name producer) as (E1 & E2 & E3 & E4 & E5).
  pose proof (inv_registry_wf d Hd) as Hwf. destruct Hd; split; rewrite ?E1, ?E2, ?E3, ?E4, ?E5; try done.
  - intros n rec' (rec & Hn & Hor)%endPublication_record.
    destruct (inv_services0 n rec Hn) as (Hw & Hv & Hb & Hf).
    destruct Hor as [->| ->]; [done|]. destruct Hw as [? _].
    split; [split; [done|by right]|]. split; [done|]. split; [done|]. exact Hf.
  - destruct inv_routes0 as (Hr & Hs & Hu). split_and!.
    + intros key hp Hk. destruct (Hr key hp Hk) as (rec & Hn & ? & ?).
      apply (endPublication_keeps now d name producer) in Hn as (rec' & Hn' & [->| ->]); eauto.
    + intros n rec' (rec & Hn & [->| ->])%endPublication_record; exact (Hs n rec Hn).
    + intros n1 n2 r1 r2 (r1' & H1' & Ho1)%endPublication_record (r2' & H2' & Ho2)%endPublication_record.
      destruct Ho1 as [->| ->], Ho2 as [->| ->]; simpl; by apply Hu.
Qed.

Lemma with_Lease_inv l d :
  (∀ id e, m_entries l !! id = Some e → lease_ok id e) → daemon_inv d → daemon_inv (with_Lease l d).
Proof. intros Hl []. by split. Qed.

Lemma Renew_entries now m id token i e :
  m_entries (Renew now m id token).1 !! i = Some e →
  ∃ e0, m_entries m !! i = Some e0 ∧ le_RegistrationID e = le_RegistrationID e0 ∧
        le_TTL e = le_TTL e0 ∧ le_Name e = le_Name e0.
Proof.
  intros [(? & ? & ? & ? & ? & _)|(e0 & He0 & [->|(_ & -> & _)])]%(apply_op_lookup now m (OpRenew id token));
    [done|by exists e0..].
Qed.

Lemma Delete_entries m id token i e :
  m_entries (Delete m id token).1 !! i = Some e → m_entries m !! i = Some e.
Proof.
  unfold Delete. repeat case_match; simpl; try done. by intros [_ ?]%lookup_delete_Some.
Qed.

Lemma Heartbeat_inv now d id token : daemon_inv d → daemon_inv (Heartbeat now d id token).1.
Proof.
  intros Hd. unfold Heartbeat.
  assert (daemon_inv (with_Lease (Renew now (d_Lease d) id token).1 d)) as Hi.
  { apply with_Lease_inv; [|done]. intros i e (e0 & He0 & E1 & E2 & _)%Renew_entries.
    unfold lease_ok. rewrite E1, E2. by apply (inv_leases d Hd). }
  by destruct (Renew _ _ _ _) as [l [exp|[]]].
Qed.

Lemma DeleteRegistration_inv now d id token :
  daemon_inv d → daemon_inv (DeleteRegistration now d id token).1.
Proof.
  intros Hd. unfold DeleteRegistration. destruct (Lease.Get _ _) as [e|]; [|done].
  assert (daemon_inv (with_Lease (Delete (d_Lease d) id token).1 d)) as Hi.
  { apply with_Lease_inv; [|done]. intros i e' He'%Delete_entries. by apply (inv_leases d Hd). }
  destruct (Delete _ _ _) as [l [[]|]]; simpl in *; [done..|]. by apply endPublication_inv.
Qed.

Lemma end_all_inv es d :
  daemon_inv d →
  daemon_inv (foldl (λ d te, (endPublication te.1 d (le_Name te.2) (le_RegistrationID te.2)).1) d es).
Proof.
  revert d. induction es as [|te es IH]; intros d Hd; simpl; [done|]. by apply IH, endPublication_inv.
Qed.

Lemma sweepLeases_inv now clock d : daemon_inv d → daemon_inv (sweepLeases now clock d).
Proof.
  intros Hd. unfold sweepLeases. pose proof (TakeExpired_entries now (d_Lease d)) as He.
  destruct (TakeExpired _ _) as [l out]. apply end_all_inv, with_Lease_inv; [|done].
  simpl in He. rewrite He. intros id e [? _]%map_lookup_filter_Some. by apply (inv_leases d Hd).
Qed.

Lemma NewDaemon_inv io fs cfg fs' lns d :
  NewDaemon io fs cfg = (fs', lns, Ok d) → daemon_inv d.
Proof.
  unfold NewDaemon. destruct (Validate cfg) eqn:Ev; [done|].
  set (cfg' := if decide _ then _ else cfg).
  assert (Validate cfg' = None) as Ev' by (unfold cfg'; by case_decide).
  clearbody cfg'. destruct (Load _ _ _) as [fs1 [st|]] eqn:El; [|done].
  destruct (loadTLS _ _); [|done]. destruct (listenerPort _); [|done].
  destruct (bindProxyListeners _ _ _) as [lns' [u|]]; [|done]. intros [= <- <- <-].
  apply Load_inv in El as (Hs & _). split; simpl; try done. by exists st.
Qed.
End Facts.

#[export] Hint Resolve Register_inv endPublication_inv Heartbeat_inv DeleteRegistration_inv
  sweepLeases_inv NewDaemon_inv : devmesh.
