(* ===== verification/DaemonSpec.v ===== *)
(** * What the daemon's operations promise

    The contract of registration, its error paths, the stability of
    frontends within and across runs of the daemon, and the start-up. *)

From S2P Require Import Prelude GoStrings GoNet Registry Lease State Runtime Router Config Daemon DaemonInv.
From Stdlib Require Import Ascii.
Local Open Scope Z_scope.

Section Spec.
Context `{JSON} `{Unicode} `{MapRange}.

(** ** Registration *)

(** A registration that succeeds has passed the checks, assigned a frontend
    and published its record. *)
Lemma Register_Ok_inv d p env d' res :
  Register d p env = (d', Ok res) →
  ∃ pr d1 f, prepare d p env = Ok pr ∧
    assign_frontend (retire_previous d (p_Name p) pr) p pr env = (d1, Ok f) ∧
    d_Registry d1 = d_Registry d ∧ d_HTTP d1 = d_HTTP d ∧
    grant_lease (publish d1 p pr f (e_now env)) p pr f env = (d', Ok res).
Proof.
  unfold Register. destruct (prepare d p env) as [pr|] eqn:Ep; [|done].
  pose proof (commit_cases d p pr env Ep) as Hc.
  destruct (assign_frontend _ p pr env) as [d1 rf] eqn:Ea. rewrite Hc. clear Hc.
  destruct rf as [f|]; [|done].
  pose proof Ea as (Er & _ & Eh & _)%assign_frontend_fields.
  destruct (retire_previous_fields d (p_Name p) pr) as (E1 & _ & _ & E4 & _).
  intros Hg. exists pr, d1, f. unfold publish. rewrite Er, Eh, E1, E4. done.
Qed.

Lemma grant_lease_Ok d p pr f env d' res :
  grant_lease d p pr f env = (d', Ok res) →
  d_Registry d' = d_Registry d ∧ d_HTTP d' = d_HTTP d ∧ d_Runtime d' = d_Runtime d ∧
  d_World d' = d_World d ∧ rr_Frontend res = f ∧ rr_RegistrationID res = pr_regID pr ∧
  rr_Name res = p_Name p ∧
  (pr_source pr = SourceDocker → d_Lease d' = d_Lease d ∧ rr_LeaseToken res = "" ∧
     rr_ExpiresAt res = None) ∧
  (pr_source pr ≠ SourceDocker → 0 < pr_ttl pr →
     let e := mkEntry (pr_regID pr) (p_Name p) (pr_ownerKey pr) (rr_LeaseToken res) (pr_ttl pr)
                (e_lease_now env + pr_ttl pr) in
     NewToken (e_rand env) = Some (rr_LeaseToken res) ∧
     m_entries (d_Lease d') = <[pr_regID pr := e]> (m_entries (d_Lease d)) ∧
     rr_ExpiresAt res = Some (le_ExpiresAt e) ∧ rr_TTLSeconds res = seconds (pr_ttl pr)).
Proof.
  unfold grant_lease. case_decide as Hs; [intros; by simplify_eq|].
  destruct (NewToken _) as [tok|]; [|done]. unfold AddWithTTL. intros; simplify_eq/=.
  split_and!; try done. intros _ Ht. by rewrite decide_False by lia.
Qed.

Lemma publish_fields d p pr f now :
  d_Registry (publish d p pr f now) = <[p_Name p := new_record p pr f now]> (d_Registry d) ∧
  d_Lease (publish d p pr f now) = d_Lease d ∧ d_Runtime (publish d p pr f now) = d_Runtime d ∧
  d_World (publish d p pr f now) = d_World d ∧
  d_HTTP (publish d p pr f now) =
    (if decide (pr_kind pr = KindHTTP) then SetRoute (d_HTTP d) (pr_hostname pr) (p_Name p)
     else d_HTTP d).
Proof. unfold publish, install_route. by case_decide. Qed.

(** The record a successful registration leaves. *)
Definition registered (p : RegisterParams) (env : Env) (hostname : string) (f : Frontend) :
  ServiceRecord :=
  mkRecord (p_Name p) (request_kind p) (p_AppProtocol p) (request_owner p env)
    (request_producer p env) (request_source p) (Some (p_Backend p)) f hostname StatusReady
    (p_DockerContainerID p) (e_now env).

Lemma new_record_registered d p env pr f :
  prepare d p env = Ok pr →
  request_hostname (request_kind p) (p_HTTPHost p) = Some (pr_hostname pr) ∧
  new_record p pr f (e_now env) = registered p env (pr_hostname pr) f.
Proof.
  intros (_ & (Ek & _) & _ & (Es & _) & Hh & _ & _ & (_ & Eo & Ep) & _)%prepare_Ok.
  rewrite Ek in Hh. split; [done|]. unfold new_record, registered. rewrite Ek, Es, Eo, Ep.
  f_equal. unfold request_hostname in Hh. case_decide; [done|by simplify_eq].
Qed.

Lemma Register_registry d p env d' res :
  Register d p env = (d', Ok res) →
  ∃ hostname, request_hostname (request_kind p) (p_HTTPHost p) = Some hostname ∧
    d_Registry d' = <[p_Name p := registered p env hostname (rr_Frontend res)]> (d_Registry d) ∧
    owned_by_other (d_Registry d) (p_Name p) (request_owner p env) = false ∧
    d_HTTP d' = if decide (request_kind p = KindHTTP)
                then SetRoute (d_HTTP d) hostname (p_Name p) else d_HTTP d.
Proof.
  intros (pr & d1 & f & Ep & Ea & Er & Eh & Hg)%Register_Ok_inv.
  apply grant_lease_Ok in Hg as (G1 & G2 & _ & _ & <- & _).
  destruct (publish_fields d1 p pr (rr_Frontend res) (e_now env)) as (P1 & _ & _ & _ & P5).
  destruct (new_record_registered d p env pr (rr_Frontend res) Ep) as [Hh En].
  apply prepare_Ok in Ep as (_ & (Ek & _) & _ & _ & _ & _ & _ & (_ & Eo & _) & Ho).
  exists (pr_hostname pr). rewrite G1, P1, Er, En, G2, P5, Ek, Eh. by rewrite Eo in Ho.
Qed.

Lemma Register_cfg d p env d' r : Register d p env = (d', r) → d_cfg d' = d_cfg d.
Proof.
  unfold Register, commit. destruct (prepare d p env) as [pr|]; [|intros; by simplify_eq].
  destruct (retire_previous_fields d (p_Name p) pr) as (_ & _ & _ & _ & E5).
  destruct (assign_frontend _ p pr env) as [d1 rf] eqn:Ea.
  apply assign_frontend_fields in Ea as (_ & _ & _ & Ec). rewrite E5 in Ec.
  unfold grant_lease, install_route, AddWithTTL.
  repeat (case_match || case_decide); intros; by simplify_eq/=.
Qed.

(** C7: A successful registration publishes exactly its record and no other, as the ownership
    contract allows; the service's backend is what TCP connections and HTTP requests are given
    from then on; a TCP frontend is on the configured host and bound by the service's runtime,
    an HTTP frontend is the URL of the host name, whose requests are proxied to the backend. *)
Theorem Register_publishes d p env d' res :
  daemon_inv d → env_ok d env → Register d p env = (d', Ok res) →
  ∃ hostname,
    d_Registry d' = <[p_Name p := registered p env hostname (rr_Frontend res)]> (d_Registry d) ∧
    Ownership.claim (Ownership.abs (d_Registry d)) (p_Name p) (request_owner p env)
      (request_producer p env) = Some (Ownership.abs (d_Registry d')) ∧
    backendProvider d' (p_Name p) = Some (p_Backend p) ∧
    (request_kind p = KindTCP →
       ∃ port, rr_Frontend res = mkFrontend (c_TCPFrontendHost (d_cfg d)) port "" ∧
               0 < port ≤ 65535 ∧ port ∈ w_bound (d_World d') ∧
               rt_Frontend <$> Runtime.Get (d_Runtime d') (p_Name p) = Some (rr_Frontend res)) ∧
    (request_kind p = KindHTTP →
       rr_Frontend res = mkFrontend "" 0 (FrontendURL (d_HTTP d) hostname) ∧
       ServeHTTP (backendProvider d') (d_HTTP d') hostname =
         Proxied (mkSnapshot (p_Backend p) (normalizeHost hostname))).
Proof.
  intros Hd Henv HR. pose proof (Register_inv _ _ _ _ _ Hd Henv HR) as Hd'.
  pose proof HR as (h & _ & Er & Ho & Eh)%Register_registry. exists h.
  assert (backendProvider d' (p_Name p) = Some (p_Backend p)) as Hb.
  { unfold backendProvider, Resolve. by rewrite Er, lookup_insert_eq. }
  split_and!; [done| |done|..].
  - unfold Ownership.claim. rewrite Ownership.may_claim_abs, Ho, Er. simpl.
    by rewrite Ownership.abs_insert.
  - intros Hk. pose proof (inv_services d' Hd' (p_Name p) (registered p env h (rr_Frontend res)))
      as (_ & _ & _ & [(_ & _ & rt & Hrt & Hf)|(Hk' & _)]); [by rewrite Er, lookup_insert_eq| |];
      [|simpl in Hk'; by rewrite Hk in Hk'].
    destruct (proj1 (inv_runtimes d' Hd') _ _ Hrt) as (_ & Ef & Hp & Hin).
    simpl in Hf, Hrt. exists (rt_listener rt). unfold Runtime.Get. rewrite Hrt, Hf. simpl.
    split_and!; try done; [|lia..]. rewrite Ef, (inv_alloc d' Hd'). simpl.
    by rewrite (Register_cfg _ _ _ _ _ HR).
  - intros Hk. pose proof (inv_services d' Hd' (p_Name p) (registered p env h (rr_Frontend res)))
      as (_ & _ & _ & [(Hk' & _)|(_ & _ & Hf)]); [by rewrite Er, lookup_insert_eq| |];
      [simpl in Hk'; by rewrite Hk in Hk'|]. simpl in Hf. rewrite Eh, decide_True in Hf |- * by done.
    split; [done|]. unfold ServeHTTP. simpl. rewrite lookup_insert_eq. simpl. by rewrite Hb.
Qed.

(** The lease a registration adds. *)
Lemma Register_lease d p env d' res :
  request_source p ≠ SourceDocker → Register d p env = (d', Ok res) →
  ∃ ttl, MinLeaseTTL ≤ ttl ≤ MaxLeaseTTL ∧
    ttl = effective_ttl d (request_source p) (p_TTLSeconds p) ∧
    rr_RegistrationID res = request_regID p env ∧
    NewToken (e_rand env) = Some (rr_LeaseToken res) ∧
    Lease.Get (d_Lease d') (rr_RegistrationID res) =
      Some (mkEntry (rr_RegistrationID res) (p_Name p) (request_owner p env) (rr_LeaseToken res)
              ttl (e_lease_now env + ttl)) ∧
    rr_ExpiresAt res = Some (e_lease_now env + ttl) ∧ rr_TTLSeconds res = seconds ttl.
Proof.
  intros Hs (pr & d1 & f & Ep & Ea & _ & _ & Hg)%Register_Ok_inv.
  apply prepare_Ok in Ep as (_ & _ & _ & (Es & Et & Hb) & _ & _ & _ & (Eid & Eo & _) & _).
  rewrite Es in Hb. specialize (Hb Hs).
  assert (0 < pr_ttl pr) as Hpos by (unfold MinLeaseTTL, Second in Hb; lia).
  apply grant_lease_Ok in Hg as (_ & _ & _ & _ & _ & Eri & _ & _ & Hl).
  rewrite Es in Hl. specialize (Hl Hs Hpos) as (Htok & He & Hexp & Hsec).
  exists (pr_ttl pr). rewrite Eri, <-Eid, <-Eo. unfold Lease.Get. rewrite He, lookup_insert_eq.
  split_and!; try done; lia.
Qed.

(** A live lease is renewed for its holder, and for nobody else. *)
Lemma Heartbeat_live now d id e token :
  Lease.Get (d_Lease d) id = Some e → now < le_ExpiresAt e →
  Heartbeat now d id token =
  if decide (token = le_Token e)
  then (with_Lease (set_entries (<[id := set_ExpiresAt (now + le_TTL e) e]> (m_entries (d_Lease d)))
          (d_Lease d)) d, Ok (now + le_TTL e))
  else (d, Err CodeUnauthorized).
Proof.
  unfold Lease.Get. intros He Hnow. unfold Heartbeat, Renew. rewrite He, decide_False by (unfold expired; lia).
  case_decide as Ht.
  - subst token. by rewrite tokenEqual_refl.
  - rewrite (proj2 (tokenEqual_false _ _)) by congruence. simpl. by destruct d.
Qed.

(** A successful process or manual registration has a lease of between 3 seconds and 1 hour, of
    the length the response announces, which the token of the response renews until it expires
    and which every other token is refused. *)
Theorem Register_grants_lease d p env d' res :
  request_source p ≠ SourceDocker → Register d p env = (d', Ok res) →
  ∃ ttl, MinLeaseTTL ≤ ttl ≤ MaxLeaseTTL ∧
    ttl = effective_ttl d (request_source p) (p_TTLSeconds p) ∧
    rr_ExpiresAt res = Some (e_lease_now env + ttl) ∧ rr_TTLSeconds res = ttl / Second ∧
    Lease.Get (d_Lease d') (rr_RegistrationID res) =
      Some (mkEntry (rr_RegistrationID res) (p_Name p) (request_owner p env) (rr_LeaseToken res)
              ttl (e_lease_now env + ttl)) ∧
    (∀ now token, now < e_lease_now env + ttl →
       (Heartbeat now d' (rr_RegistrationID res) token).2 =
         if decide (token = rr_LeaseToken res) then Ok (now + ttl) else Err CodeUnauthorized).
Proof.
  intros Hs (ttl & Hb & Ht & _ & _ & Hget & Hexp & Hsec)%Register_lease; [|done].
  exists ttl. split_and!; try done; [lia..| |].
  - rewrite Hsec. unfold seconds. unfold MinLeaseTTL, Second in *. rewrite Z.quot_div_nonneg; lia.
  - intros now token Hnow. rewrite (Heartbeat_live _ _ _ _ _ Hget) by done. simpl. by case_decide.
Qed.

(** ** Failed registrations *)

Lemma retire_previous_new d name pr :
  d_Registry d !! name = None → retire_previous d name pr = d.
Proof. unfold retire_previous, Resolve. by intros ->. Qed.

(** A frontend can only be refused to a name that has none. *)
Lemma assign_frontend_Err d p pr env d' e :
  assign_frontend d p pr env = (d', Err e) →
  pr_kind pr ≠ KindHTTP ∧ rm_runtimes (d_Runtime d) !! p_Name p = None ∧
  d_Runtime d' = d_Runtime d ∧ w_bound (d_World d') = w_bound (d_World d) ∧
  (d' = d ∧ e = CodePortExhausted ∨ e = CodeInternal).
Proof.
  unfold assign_frontend. case_decide as Hk; [done|]. unfold EnsureTCPRuntime.
  destruct (rm_runtimes (d_Runtime d) !! p_Name p) as [rt|] eqn:En; [done|].
  destruct (Allocate_cases (rm_alloc (d_Runtime d)) (e_alloc env) (d_World d) (p_Name p)
    (p_PreferredPort p))
    as [[_ ->]|(l1 & q & ln & l2 & wx & _ & _ & _ & [(-> & _ & _)|(st & -> & _ & Hb)])];
    intros; simplify_eq/=; split_and!; try done; [left|by right].
  split; [by destruct d|done].
Qed.

Lemma no_record_without_runtime d p env pr :
  daemon_inv d → prepare d p env = Ok pr → pr_kind pr ≠ KindHTTP →
  rm_runtimes (d_Runtime d) !! p_Name p = None → d_Registry d !! p_Name p = None.
Proof.
  intros Hd (_ & (_ & Hk) & _ & _ & _ & Hi & _)%prepare_Ok Hnk Hn.
  destruct (d_Registry d !! p_Name p) as [ex|] eqn:E; [|done]. exfalso.
  destruct (immutable_conflict_false d _ _ _ ex Hi E) as [Hke _].
  destruct (inv_services d Hd _ _ E) as ([En _] & _ & _ & [(_ & _ & rt & Hrt & _)|(Hk' & _)]);
    congruence.
Qed.

Lemma grant_lease_token d p pr f env d' e :
  is_Some (e_rand env) → grant_lease d p pr f env ≠ (d', Err e).
Proof. intros [b Hb]. unfold grant_lease, NewToken. rewrite Hb. by case_decide. Qed.

(** The codes of the checks. *)
Definition check_codes : list Code :=
  [CodeInvalidName; CodeUnsupportedKind; CodeInvalidBackend; CodeInvalidRequest; CodeNameConflict].

Lemma prepare_Err d p env e : prepare d p env = Err e → e ∈ check_codes.
Proof.
  intros E. apply (bool_decide_eq_true (e ∈ check_codes)). revert E. unfold prepare.
  destruct (ValidateName _); [by intros [= <-]|].
  destruct (decide (_ ∧ _)); [by intros [= <-]|].
  destruct (ValidateBackend _ _); [by intros [= <-]|].
  destruct (decide (_ ∧ (_ ∨ _))); [by intros [= <-]|].
  destruct (request_hostname _ _); [|by intros [= <-]].
  destruct (immutable_conflict _ _ _ _); [by intros [= <-]|].
  destruct (hostname_conflict _ _ _ _); [by intros [= <-]|].
  destruct (decide (_ ∧ _)); [by intros [= <-]|].
  destruct (CheckOwnership _ _ _); [by intros [= <-]|done].
Qed.

(** A failed registration: refused by a check or for want of a port, with no
    effect at all, or unable to save the port of a new service. *)
Lemma Register_Err_cases d p env d' e :
  daemon_inv d → is_Some (e_rand env) → Register d p env = (d', Err e) →
  (d' = d ∧ (e ∈ check_codes ∨ e = CodePortExhausted)) ∨
  (e = CodeInternal ∧ d_Registry d !! p_Name p = None ∧
   d_Registry d' = d_Registry d ∧ d_Lease d' = d_Lease d ∧ d_HTTP d' = d_HTTP d ∧
   d_Runtime d' = d_Runtime d ∧ w_bound (d_World d') = w_bound (d_World d)).
Proof.
  intros Hd Hr. unfold Register.
  destruct (prepare d p env) as [pr|] eqn:Ep;
    [|apply prepare_Err in Ep; intros; simplify_eq; by auto].
  pose proof (commit_cases d p pr env Ep) as Hc.
  destruct (assign_frontend _ p pr env) as [d1 rf] eqn:Ea. rewrite Hc. clear Hc.
  destruct rf as [f|e1]; [by intros ?%grant_lease_token|]. intros; simplify_eq.
  pose proof Ea as (Er & El & Eh & _)%assign_frontend_fields.
  apply assign_frontend_Err in Ea as (Hk & Hn & Em & Eb & Hor).
  destruct (retire_previous_fields d (p_Name p) pr) as (_ & E2 & _). rewrite E2 in Hn.
  pose proof (no_record_without_runtime d p env pr Hd Ep Hk Hn) as Hnone.
  rewrite (retire_previous_new d) in * by done.
  destruct Hor as [[-> ->]| ->]; [by auto|right]. by split_and!.
Qed.

(** C9: A registration that fails, for whatever reason but a failing rand.Read (which
    crypto/rand rules out), changes nothing: the daemon is in the state it was in before, except
    that when the port of a service new to the registry could not be saved the store remembers
    the attempt; records, leases, routes, runtimes and bound ports are the same in every case.
    *)
Theorem Register_error_frame d p env d' e :
  daemon_inv d → is_Some (e_rand env) → Register d p env = (d', Err e) →
  d' = d ∨
  (e = CodeInternal ∧ Resolve (d_Registry d) (p_Name p) = None ∧
   d_Registry d' = d_Registry d ∧ d_Lease d' = d_Lease d ∧ d_HTTP d' = d_HTTP d ∧
   d_Runtime d' = d_Runtime d ∧ w_bound (d_World d') = w_bound (d_World d)).
Proof. intros Hd Hr [[-> _]|?]%Register_Err_cases; auto. Qed.

(** ** Frontends survive a restart *)

(** A daemon that has just started: no runtimes, nothing bound, and the
    ports of the state file. *)
Lemma NewDaemon_fresh io fs cfg fs' lns d path :
  c_StatePath cfg = path → path ≠ "" → NewDaemon io fs cfg = (fs', lns, Ok d) →
  rm_runtimes (d_Runtime d) = ∅ ∧ a_host (rm_alloc (d_Runtime d)) = c_TCPFrontendHost cfg ∧
  w_bound (d_World d) = ∅ ∧ d_Registry d = ∅ ∧
  ∃ s, w_state (d_World d) = Some s ∧ s_dirty s = false ∧ reload path fs = Some (Snapshot s).
Proof.
  intros Hp Hne. unfold NewDaemon. destruct (Validate cfg); [done|].
  rewrite decide_False by by rewrite Hp.
  destruct (Load _ _ _) as [fs1 [st|]] eqn:El; [|done].
  destruct (loadTLS _ _); [|done]. destruct (listenerPort _); [|done].
  destruct (bindProxyListeners _ _ _) as [lns' [u|]]; [|done]. intros [= <- <- <-].
  rewrite Hp in El. pose proof El as (_ & Hd & _)%Load_inv. apply Load_reload in El.
  split_and!; try done. by exists st.
Qed.

(** The first registration of a name whose port is in the state file. *)
Lemma restart_from_files name port ports io fs cfg fs' lns d2 p env pr :
  c_StatePath cfg ≠ "" → reload (c_StatePath cfg) fs = Some ports → ports !! name = Some port → 0 < port ≤ 65535 →
  NewDaemon io fs cfg = (fs', lns, Ok d2) →
  p_Name p = name → prepare d2 p env = Ok pr → pr_kind pr = KindTCP →
  io_free (e_alloc env) port = true → is_Some (e_rand env) →
  ∃ d3 res, Register d2 p env = (d3, Ok res) ∧ rr_Frontend res = mkFrontend (c_TCPFrontendHost cfg) port "".
Proof.
  intros Hne Hrel Hpt Hport HN Hname Hp Hkind Hfree Hrand.
  apply (NewDaemon_fresh _ _ _ _ _ _ (c_StatePath cfg)) in HN as (Hr2 & Ha2 & Hb2 & Hg2 & s2 & Es2 & Hd2 & Hrel2);
    [|done..]. rewrite Hrel in Hrel2. injection Hrel2 as ->.
  unfold Register. rewrite Hp. pose proof (commit_cases d2 p pr env Hp) as Hc.
  rewrite retire_previous_new in Hc by by rewrite Hg2.
  unfold assign_frontend in Hc. rewrite decide_False in Hc by by rewrite Hkind.
  rewrite (EnsureTCPRuntime_remembered _ _ _ s2 _ _ port) in Hc; simpl in Hc.
  - rewrite Hc. destruct (grant_lease _ p pr _ env) as [d3 [res|e]] eqn:Eg.
    2:{ by apply grant_lease_token in Eg. }
    apply grant_lease_Ok in Eg as (_ & _ & _ & _ & Efr & _). exists d3, res. split; [done|].
    by rewrite Efr, Ha2.
  - done.
  - done.
  - unfold Port, Snapshot in *. rewrite Hname. by rewrite Hpt.
  - lia.
  - by rewrite Hr2.
  - unfold Listen. rewrite (decide_False (P := port = 0)) by lia.
    rewrite decide_True; [done|]. rewrite Hb2. split; [lia|]. split; [done|set_solver].
Qed.

(** A TCP service's port, in the store and in the state file. *)
Lemma service_port_saved d name rec :
  daemon_inv d → d_Registry d !! name = Some rec → r_Kind rec = KindTCP →
  r_Frontend rec = mkFrontend (c_TCPFrontendHost (d_cfg d)) (f_Port (r_Frontend rec)) "" ∧
  0 < f_Port (r_Frontend rec) ≤ 65535 ∧
  ∃ s ports, w_state (d_World d) = Some s ∧ Snapshot s !! name = Some (f_Port (r_Frontend rec)) ∧
    reload (s_path s) (w_fs (d_World d)) = Some ports ∧ ports !! name = Some (f_Port (r_Frontend rec)).
Proof.
  intros Hd Hrec Hk.
  destruct (inv_services d Hd _ _ Hrec) as ([En _] & _ & _ & [(_ & _ & rt & Hrt & Hf)|(Hk' & _)]);
    [|by rewrite Hk in Hk'].
  destruct (proj1 (inv_runtimes d Hd) _ _ Hrt) as (_ & Ef & Hport & _).
  destruct (inv_ports d Hd _ _ Hrt) as (s & ports & Es & Hs & Hrel & Hpt).
  rewrite Hf, Ef, (inv_alloc d Hd). simpl. rewrite En in Hs, Hpt. split_and!; [done|lia..|]. by exists s, ports.
Qed.

(** The first registration after a restart. *)
Lemma restart_frontend d name rec io cfg fs' lns d2 p env pr :
  daemon_inv d → d_Registry d !! name = Some rec → r_Kind rec = KindTCP →
  s_path <$> w_state (d_World d) = Some (c_StatePath cfg) → c_StatePath cfg ≠ "" →
  c_TCPFrontendHost cfg = c_TCPFrontendHost (d_cfg d) →
  NewDaemon io (w_fs (d_World d)) cfg = (fs', lns, Ok d2) →
  p_Name p = name → prepare d2 p env = Ok pr → pr_kind pr = KindTCP →
  io_free (e_alloc env) (f_Port (r_Frontend rec)) = true → is_Some (e_rand env) →
  ∃ d3 res, Register d2 p env = (d3, Ok res) ∧ rr_Frontend res = r_Frontend rec.
Proof.
  intros Hd Hrec Hk Hpath Hne Hhost HN Hname Hp Hkind Hfree Hrand.
  destruct (service_port_saved d name rec Hd Hrec Hk) as (Ef & Hport & s & ports & Es & _ & Hrel & Hpt).
  rewrite Es in Hpath. injection Hpath as Hpath. rewrite Hpath in Hrel. rewrite Ef, <-Hhost.
  by eapply restart_from_files.
Qed.

(** If the daemon stops between two operations, however its earlier saves went, and is started
    again on the files it left, then the first registration of a TCP service it had been serving
    succeeds with the very frontend it had before, provided the port is free. *)
Theorem restart_keeps_frontend d name rec io cfg fs' lns d2 p env pr :
  daemon_inv d → d_Registry d !! name = Some rec → r_Kind rec = KindTCP →
  s_path <$> w_state (d_World d) = Some (c_StatePath cfg) → c_StatePath cfg ≠ "" →
  c_TCPFrontendHost cfg = c_TCPFrontendHost (d_cfg d) →
  NewDaemon io (w_fs (d_World d)) cfg = (fs', lns, Ok d2) →
  p_Name p = name → prepare d2 p env = Ok pr → pr_kind pr = KindTCP →
  io_free (e_alloc env) (f_Port (r_Frontend rec)) = true → is_Some (e_rand env) →
  ∃ d3 res, Register d2 p env = (d3, Ok res) ∧ rr_Frontend res = r_Frontend rec.
Proof. apply restart_frontend. Qed.

(** ** Requests reach their own service *)

(** As long as the registered host names are DNS-style names, a request for the host name of an
    HTTP service is answered from that service's backend and no other (503 while it is
    unavailable), and a host name nobody registered gets 404. *)
Theorem requests_reach_their_service d :
  daemon_inv d →
  (∀ n r, Resolve (d_Registry d) n = Some r → r_Kind r = KindHTTP → clean_host (r_Hostname r)) →
  (∀ name rec, Resolve (d_Registry d) name = Some rec → r_Kind rec = KindHTTP →
     ServeHTTP (backendProvider d) (d_HTTP d) (r_Hostname rec) =
     match backendProvider d name with
     | Some b => Proxied (mkSnapshot b (r_Hostname rec))
     | None => ServiceUnavailable
     end) ∧
  (∀ h, clean_host h → FindByHostname (d_Registry d) h = None →
     ServeHTTP (backendProvider d) (d_HTTP d) h = NotFound).
Proof.
  intros Hd Hclean. destruct (inv_routes d Hd) as (Hr & Hs & Hu). unfold Resolve, ServeHTTP in *.
  split.
  - intros name rec Hn Hk. destruct (Hs name rec Hn Hk) as [pn Hl]. unfold LookupRoute in Hl.
    rewrite normalizeHost_clean in * by eauto.
    destruct (ro_routes (d_HTTP d) !! r_Hostname rec) as [hp|] eqn:Ehp; [|done].
    destruct (Hr _ _ Ehp) as (r & Hrr & Hkr & Hn'). rewrite normalizeHost_clean in Hn' by eauto.
    by rewrite (Hu _ _ _ _ Hrr Hn Hkr Hk Hn').
  - intros h Hh Hf. rewrite normalizeHost_clean by done.
    destruct (ro_routes (d_HTTP d) !! h) as [hp|] eqn:Ehp; [exfalso|done].
    destruct (Hr _ _ Ehp) as (r & Hrr & Hkr & Hn'). rewrite normalizeHost_clean in Hn' by eauto.
    rewrite FindByHostname_None in Hf. by apply (Hf _ _ Hrr).
Qed.

(** ** The requested lease *)

(** The same request for another lease. *)
Definition with_ttl (t : Z) (p : RegisterParams) : RegisterParams :=
  mkParams (p_Name p) (p_Kind p) (p_AppProtocol p) (p_Backend p) (p_PreferredPort p) t (p_Source p)
    (p_OwnerKey p) (p_RegistrationID p) (p_DockerContainerID p) (p_HTTPHost p).

Definition with_lease (ttl : Z) (pr : Prepared) : Prepared :=
  mkPrepared (pr_kind pr) (pr_source pr) ttl (pr_hostname pr) (pr_regID pr) (pr_ownerKey pr) (pr_producerID pr).

(** Of a request that passes the checks only the lease decides whether it does
    so with another number of seconds. *)
Lemma prepare_with_ttl d p env pr t : prepare d p env = Ok pr → request_source p ≠ SourceDocker →
  prepare d (with_ttl t p) env =
  if decide (MinLeaseTTL ≤ effective_ttl d (request_source p) t ≤ MaxLeaseTTL)
  then Ok (with_lease (effective_ttl d (request_source p) t) pr) else Err CodeInvalidRequest.
Proof.
  intros Hp Hs. revert Hp. unfold prepare. cbn [with_ttl p_Name p_Kind p_Backend p_TTLSeconds p_Source p_OwnerKey p_RegistrationID p_DockerContainerID p_HTTPHost].
  fold (request_source p). destruct (ValidateName _); [done|]. destruct (decide (_ ∧ _)); [done|].
  destruct (ValidateBackend _ _); [done|]. destruct (decide (request_source p ≠ SourceDocker ∧ _)); [done|].
  destruct (request_hostname _ _) as [hn|]; [|done].
  destruct (immutable_conflict _ _ _ _); [done|]. destruct (hostname_conflict _ _ _ _); [done|].
  destruct (decide (request_source p = SourceDocker ∧ _)); [done|].
  destruct (CheckOwnership _ _ _); [done|]. intros [= <-].
  destruct (decide (MinLeaseTTL ≤ _ ≤ _)) as [Hb|Hb]; [rewrite decide_False by lia; done|].
  rewrite decide_True; [done|]. split; [done|lia].
Qed.

Lemma effective_ttl_small d source t : source ≠ SourceDocker → 0 < t ≤ (2 ^ 63 - 1) / Second →
  effective_ttl d source t = t * Second ∧ (MinLeaseTTL ≤ effective_ttl d source t ≤ MaxLeaseTTL ↔ 3 ≤ t ≤ 3600).
Proof.
  intros Hs Ht. unfold effective_ttl. rewrite !decide_True by (split; [done|lia]).
  change ((2 ^ 63 - 1) / Second) with 9223372036 in Ht.
  change MinLeaseTTL with 3000000000. change MaxLeaseTTL with 3600000000000.
  unfold int64. change Second with 1000000000. rewrite Z.mod_small by lia. lia.
Qed.

(** C38: Of a process or manual registration that passes the checks, the same request for a
    lease of any number of seconds from 1 to 9223372036 passes exactly when that number is
    between 3 and 3600, with that lease, and is otherwise refused with invalid_request and
    changes nothing; beyond that number the multiplication overflows, and the same request for
    18446744077 seconds passes as a lease of 3.29 seconds. *)
Theorem requested_lease_bounds d p env pr t :
  prepare d p env = Ok pr → request_source p ≠ SourceDocker → 0 < t ≤ (2 ^ 63 - 1) / Second →
  (3 ≤ t ≤ 3600 → prepare d (with_ttl t p) env = Ok (with_lease (t * Second) pr)) ∧
  (¬ 3 ≤ t ≤ 3600 → Register d (with_ttl t p) env = (d, Err CodeInvalidRequest)) ∧
  prepare d (with_ttl 18446744077 p) env = Ok (with_lease 3290448384 pr).
Proof.
  intros Hp Hs Ht. destruct (effective_ttl_small d (request_source p) t Hs Ht) as [Ett Hb].
  pose proof (prepare_with_ttl d p env pr t Hp Hs) as Hpt. split_and!.
  - intros Hin. rewrite Hpt, decide_True, Ett by tauto. done.
  - intros Hout. unfold Register. rewrite Hpt, decide_False by tauto. done.
  - assert (effective_ttl d (request_source p) 18446744077 = 3290448384) as E
      by (unfold effective_ttl; by rewrite decide_True by (split; [done|lia])).
    rewrite (prepare_with_ttl d p env pr _ Hp Hs), E. rewrite decide_True; [done|].
    change MinLeaseTTL with 3000000000. change MaxLeaseTTL with 3600000000000. lia.
Qed.

(** ** Start-up and health *)

Lemma loadTLS_Ok io c tls :
  loadTLS io c = Ok tls → tls = negb (bool_decide (hc_CertFile c = "")).
Proof.
  unfold loadTLS. case_decide as E1; [intros [= <-]; by rewrite bool_decide_true by tauto|].
  case_decide; [done|]. destruct (st_keypair_ok io); [|done]. intros [= <-].
  by rewrite bool_decide_false by tauto.
Qed.

(** A start that fails leaves no proxy listener open; one that succeeds has opened the HTTP
    listener exactly when HTTP is enabled and the HTTPS listener exactly when a certificate is
    configured, and the daemon is empty and satisfies the invariant. *)
Theorem NewDaemon_listeners io fs cfg fs' lns r :
  NewDaemon io fs cfg = (fs', lns, r) →
  match r with
  | Err _ => lns = []
  | Ok d =>
    lns = (if hc_Enabled (c_HTTP cfg) then [hc_HTTPAddr (c_HTTP cfg)] else []) ++
          (if decide (hc_CertFile (c_HTTP cfg) = "") then [] else [hc_HTTPSAddr (c_HTTP cfg)]) ∧
    daemon_inv d ∧ d_Registry d = ∅ ∧ m_entries (d_Lease d) = ∅ ∧ w_bound (d_World d) = ∅
  end.
Proof.
  intros HN. destruct r as [d|e].
  - pose proof (NewDaemon_inv _ _ _ _ _ _ HN) as Hd. revert HN. unfold NewDaemon.
    destruct (Validate cfg); [done|]. set (cfg' := if decide _ then _ else cfg).
    assert (c_HTTP cfg' = c_HTTP cfg) as -> by (unfold cfg'; by case_decide). clearbody cfg'.
    destruct (Load _ _ _) as [fs1 [st|]]; [|done].
    destruct (loadTLS _ _) as [tls|] eqn:Et; [|done]. destruct (listenerPort _); [|done].
    destruct (bindProxyListeners _ _ _) as [lns' [u|]] eqn:Eb; [|done]. intros; simplify_eq/=.
    split; [|done]. apply loadTLS_Ok in Et as ->. unfold bindProxyListeners in Eb.
    repeat case_bool_decide; destruct (hc_Enabled _); simpl in *;
      repeat case_match; simplify_eq/=; by rewrite ?decide_True, ?decide_False by done.
  - revert HN. unfold NewDaemon, bindProxyListeners. repeat (case_match; simplify_eq/=; try done); congruence.
Qed.

Lemma check_range_spec io bound port n :
  (check_range io bound port n = None ∧
     ∃ q, port ≤ q < port + Z.of_nat n ∧ Listen io bound q ≠ None) ∨
  (check_range io bound port n = Some CodePortExhausted ∧
     ∀ q, port ≤ q < port + Z.of_nat n → Listen io bound q = None).
Proof.
  revert port. induction n as [|n IH]; intros port; cbn [check_range].
  { right. split; [done|lia]. }
  destruct (Listen io bound port) eqn:E.
  { left. split; [done|]. exists port. split; [lia|congruence]. }
  destruct (IH (port + 1)) as [(-> & q & ? & ?)|[-> Hall]]; [left|right]; (split; [done|]).
  - exists q. split; [lia|done].
  - intros q Hq. destruct (decide (q = port)) as [->|]; [done|]. apply Hall. lia.
Qed.

(** The health check of the frontend range agrees with the allocator: it reports port_exhausted
    exactly when a new service without remembered or preferred port would be refused for that
    reason. *)
Theorem CheckFrontendRange_predicts d io name :
  daemon_inv d → Runtime.Get (d_Runtime d) name = None → remembered (d_World d) name = 0 →
  (CheckFrontendRange io d = None ∨ CheckFrontendRange io d = Some CodePortExhausted) ∧
  (CheckFrontendRange io d = Some CodePortExhausted ↔
   (EnsureTCPRuntime io (d_Runtime d) (d_World d) name 0).2 =
     Err (ErrPortExhausted (c_TCPFrontendMin (d_cfg d)) (c_TCPFrontendMax (d_cfg d)))).
Proof.
  unfold Runtime.Get. intros Hd Hn Hrem. pose proof (Validate_bounds _ (inv_cfg d Hd)) as (H1' & H2' & _).
  unfold CheckFrontendRange, EnsureTCPRuntime. rewrite Hn, (inv_alloc d Hd).
  set (lo := c_TCPFrontendMin (d_cfg d)) in *. set (hi := c_TCPFrontendMax (d_cfg d)) in *.
  destruct (Allocate_cases (NewAllocator (c_TCPFrontendHost (d_cfg d)) lo hi) io (d_World d) name 0)
    as [[Hall ->]|(l1 & p & ln & l2 & w' & El & _ & Hp & Ho)]; simpl;
    destruct (check_range_spec io (w_bound (d_World d)) lo (Z.to_nat (hi - lo + 1)))
      as [(-> & q & Hq & Hlq)|[-> Hnone]]; (split; [by auto|]); simpl.
  - rewrite Forall_forall in Hall. exfalso. apply Hlq, Hall, candidates_elem. right. right.
    rewrite Hrem. simpl. lia.
  - done.
  - destruct Ho as [(-> & _)|(st & -> & _)]; done.
  - exfalso. assert (p ∈ candidates (NewAllocator (c_TCPFrontendHost (d_cfg d)) lo hi) name
      (remembered (d_World d) name) 0) as Hin by (rewrite El; set_solver).
    apply candidates_elem in Hin. rewrite Hrem in Hin. simpl in Hin.
    rewrite Hnone in Hp; [done|]. naive_solver lia.
Qed.
End Spec.
