(* ===== verification/DaemonSystem.v ===== *)
(** * The running daemon: concurrent requests, the lease sweeper, Docker

    The operations of [Daemon.v] as a step relation at the granularity of
    the locks.  [d.mutate] makes the check-and-publish part of a
    registration and every [endPublication] atomic, and the lease manager has
    a lock of its own, so heartbeats, sweeps and the first half of a deletion
    run while a registration holds [d.mutate]: a registration is two steps,
    the publication and the grant of its lease, and an expired or deleted
    registration is first taken off the lease table and only later ends its
    publication.  Within the publication no lease is added or read, so
    treating it as one step loses no interleaving. *)

From S2P Require Import Prelude GoStrings GoNet Registry Lease State Runtime Router Config Daemon DaemonInv DaemonSpec.
From Stdlib Require Import Ascii.
Local Open Scope Z_scope.

(** A registration that has published its record and not yet its lease. *)
Record Publishing := mkPublishing {
  pb_params : RegisterParams;
  pb_prepared : Prepared;
  pb_frontend : Frontend;
  pb_env : Env
}.

(** [s_reg] is the holder of [d.mutate], if a registration is under way;
    [s_dels] the deletions between [Lease.Get] and [Lease.Delete]; [s_ends]
    the [endPublication] calls still to be made, by service and producer.
    The last two fields are history: the registration IDs issued, with the
    service they were issued for, and the IDs whose lease was dropped, or
    never granted, without an [endPublication] to follow. *)
Record System := mkSys {
  s_d : Daemon;
  s_reg : option Publishing;
  s_dels : list (string * string * Entry);
  s_ends : list (string * string);
  s_issued : gmap string string;
  s_lost : gset string
}.

(** The requests the daemon gets: from the API, which supplies no identity,
    or from the Docker watcher. *)
Definition request_ok (p : RegisterParams) : Prop :=
  (p_Source p = SourceProcess ∨ p_Source p = SourceManual) ∧ p_OwnerKey p = "" ∧
    p_RegistrationID p = "" ∨
  p_Source p = SourceDocker ∧ HasPrefix (p_OwnerKey p) "docker:" = true.

Section System.
Context `{JSON} `{Unicode} `{MapRange}.

(** [registerLocked] up to the lease. *)
Definition register_publish (d : Daemon) (p : RegisterParams) (env : Env) :
  Daemon * result (Prepared * Frontend) Code :=
  match prepare d p env with
  | Err e => (d, Err e)
  | Ok pr =>
    match assign_frontend (retire_previous d (p_Name p) pr) p pr env with
    | (d, Err e) => (d, Err e)
    | (d, Ok f) =>
      match CreateOrReplaceOwned (e_now env) (d_Registry d) (new_record p pr f (e_now env)) with
      | (r, Err _) => (with_Registry r d, Err CodeNameConflict)
      | (r, Ok _) => (install_route (with_Registry r d) p pr, Ok (pr, f))
      end
    end
  end.

(** The two steps make up the operation. *)
Lemma Register_phases d p env :
  Register d p env =
  match register_publish d p env with
  | (d', Err e) => (d', Err e)
  | (d', Ok (pr, f)) => grant_lease d' p pr f env
  end.
Proof.
  unfold Register, register_publish, commit. destruct (prepare d p env) as [pr|]; [|done].
  destruct (assign_frontend _ _ _ _) as [d1 [f|e]]; [|done].
  by destruct (CreateOrReplaceOwned _ _ _) as [r [rec|e]].
Qed.

(** A heartbeat that comes after its lease has expired and before the sweep
    that would take it. *)
Definition late (now : Z) (d : Daemon) (id : string) : bool :=
  match Lease.Get (d_Lease d) id with
  | Some e => bool_decide (expired now e)
  | None => false
  end.

(** The IDs a new registration puts on record; Docker's have none. *)
Definition issue (p : RegisterParams) (env : Env) (iss : gmap string string) : gmap string string :=
  if decide (request_source p = SourceDocker) then iss
  else <[request_regID p env := p_Name p]> iss.

Inductive step : System → System → Prop :=
| step_refused d dels ends iss lost p env d' e :
    request_ok p → env_ok d env → register_publish d p env = (d', Err e) →
    step (mkSys d None dels ends iss lost) (mkSys d' None dels ends iss lost)
| step_publish d dels ends iss lost p env d' pr f :
    request_ok p → env_ok d env → iss !! request_regID p env = None →
    register_publish d p env = (d', Ok (pr, f)) →
    step (mkSys d None dels ends iss lost)
      (mkSys d' (Some (mkPublishing p pr f env)) dels ends (issue p env iss) lost)
| step_grant d dels ends iss lost b d' r :
    grant_lease d (pb_params b) (pb_prepared b) (pb_frontend b) (pb_env b) = (d', r) →
    step (mkSys d (Some b) dels ends iss lost)
      (mkSys d' None dels ends iss
         (if is_Ok r then lost else {[pr_regID (pb_prepared b)]} ∪ lost))
| step_heartbeat d reg dels ends iss lost now id token :
    step (mkSys d reg dels ends iss lost)
      (mkSys (Heartbeat now d id token).1 reg dels ends iss
         (if late now d id then {[id]} ∪ lost else lost))
| step_take d reg dels ends iss lost now l out :
    TakeExpired now (d_Lease d) = (l, out) →
    step (mkSys d reg dels ends iss lost)
      (mkSys (with_Lease l d) reg dels
         (ends ++ ((λ e, (le_Name e, le_RegistrationID e)) <$> out)) iss lost)
| step_delete_get d reg dels ends iss lost id token e :
    Lease.Get (d_Lease d) id = Some e →
    step (mkSys d reg dels ends iss lost) (mkSys d reg ((id, token, e) :: dels) ends iss lost)
| step_delete d reg dels1 dels2 ends iss lost id token e l r :
    Delete (d_Lease d) id token = (l, r) →
    step (mkSys d reg (dels1 ++ (id, token, e) :: dels2) ends iss lost)
      (mkSys (with_Lease l d) reg (dels1 ++ dels2)
         (if decide (r = None) then (le_Name e, le_RegistrationID e) :: ends else ends) iss lost)
| step_end d dels ends1 ends2 iss lost now name producer :
    step (mkSys d None dels (ends1 ++ (name, producer) :: ends2) iss lost)
      (mkSys (endPublication now d name producer).1 None dels (ends1 ++ ends2) iss lost)
| step_forget d dels ends iss lost now name owner containerID :
    iss !! containerID = None →
    step (mkSys d None dels ends iss lost)
      (mkSys (ForgetDockerPublication now d name owner containerID) None dels ends iss lost).

(** The same steps, where a theorem restricts what the outside world does: the
    registrations that succeed, the heartbeats (when, for which ID, with which
    token), the sweeps, the deletions and the containers forgotten. *)
Record Guard := mkGuard {
  may_publish : RegisterParams → Prop;
  may_renew : Z → string → string → Prop;
  may_sweep : Z → Prop;
  may_delete : string → string → Prop;
  may_forget : string → Prop
}.

Inductive guarded (g : Guard) : System → System → Prop :=
| guarded_refused d dels ends iss lost p env d' e :
    request_ok p → env_ok d env → register_publish d p env = (d', Err e) →
    guarded g (mkSys d None dels ends iss lost) (mkSys d' None dels ends iss lost)
| guarded_publish d dels ends iss lost p env d' pr f :
    may_publish g p → request_ok p → env_ok d env → iss !! request_regID p env = None →
    register_publish d p env = (d', Ok (pr, f)) →
    guarded g (mkSys d None dels ends iss lost)
      (mkSys d' (Some (mkPublishing p pr f env)) dels ends (issue p env iss) lost)
| guarded_grant d dels ends iss lost b d' r :
    grant_lease d (pb_params b) (pb_prepared b) (pb_frontend b) (pb_env b) = (d', r) →
    guarded g (mkSys d (Some b) dels ends iss lost)
      (mkSys d' None dels ends iss (if is_Ok r then lost else {[pr_regID (pb_prepared b)]} ∪ lost))
| guarded_heartbeat d reg dels ends iss lost now id token :
    may_renew g now id token →
    guarded g (mkSys d reg dels ends iss lost)
      (mkSys (Heartbeat now d id token).1 reg dels ends iss (if late now d id then {[id]} ∪ lost else lost))
| guarded_take d reg dels ends iss lost now l out :
    may_sweep g now → TakeExpired now (d_Lease d) = (l, out) →
    guarded g (mkSys d reg dels ends iss lost)
      (mkSys (with_Lease l d) reg dels (ends ++ ((λ e, (le_Name e, le_RegistrationID e)) <$> out)) iss lost)
| guarded_delete_get d reg dels ends iss lost id token e :
    Lease.Get (d_Lease d) id = Some e →
    guarded g (mkSys d reg dels ends iss lost) (mkSys d reg ((id, token, e) :: dels) ends iss lost)
| guarded_delete d reg dels1 dels2 ends iss lost id token e l r :
    may_delete g id token → Delete (d_Lease d) id token = (l, r) →
    guarded g (mkSys d reg (dels1 ++ (id, token, e) :: dels2) ends iss lost)
      (mkSys (with_Lease l d) reg (dels1 ++ dels2)
         (if decide (r = None) then (le_Name e, le_RegistrationID e) :: ends else ends) iss lost)
| guarded_end d dels ends1 ends2 iss lost now name producer :
    guarded g (mkSys d None dels (ends1 ++ (name, producer) :: ends2) iss lost)
      (mkSys (endPublication now d name producer).1 None dels (ends1 ++ ends2) iss lost)
| guarded_forget d dels ends iss lost now name owner containerID :
    may_forget g containerID → iss !! containerID = None →
    guarded g (mkSys d None dels ends iss lost)
      (mkSys (ForgetDockerPublication now d name owner containerID) None dels ends iss lost).

Lemma guarded_step g s s' : guarded g s s' → step s s'.
Proof. destruct 1; by econstructor. Qed.

Lemma guarded_run g s s' : rtc (guarded g) s s' → rtc step s s'.
Proof. induction 1; [done|]. eapply rtc_l; [by eapply guarded_step|done]. Qed.

(** A system that has just started. *)
Definition init (s : System) : Prop :=
  ∃ io fs cfg fs' lns d, NewDaemon io fs cfg = (fs', lns, Ok d) ∧
    s = mkSys d None [] [] ∅ ∅.

Definition reachable (s : System) : Prop := ∃ s0, init s0 ∧ rtc step s0 s.


(** ** The system's invariant *)

(** What stands behind a ready service that is not Docker's: its lease, the
    registration about to add it, the call about to clear it, or nothing,
    when the lease was lost. *)
Definition owed (s : System) (rec : ServiceRecord) : Prop :=
  is_Some (m_entries (d_Lease (s_d s)) !! r_ProducerID rec) ∨
  (∃ b, s_reg s = Some b ∧ pr_source (pb_prepared b) ≠ SourceDocker ∧
        pr_regID (pb_prepared b) = r_ProducerID rec) ∨
  (r_Name rec, r_ProducerID rec) ∈ s_ends s ∨
  r_ProducerID rec ∈ s_lost s.

(** The registration under way: its ID is new to the lease table. *)
Definition publishing_ok (s : System) (b : Publishing) : Prop :=
  pr_source (pb_prepared b) ≠ SourceDocker →
  let id := pr_regID (pb_prepared b) in
  MinLeaseTTL ≤ pr_ttl (pb_prepared b) ≤ MaxLeaseTTL ∧
  s_issued s !! id = Some (p_Name (pb_params b)) ∧
  m_entries (d_Lease (s_d s)) !! id = None ∧ ∀ n, (n, id) ∉ s_ends s.

Record sys_inv (s : System) : Prop := mkSysInv {
  si_daemon : daemon_inv (s_d s);
  si_reg : ∀ b, s_reg s = Some b → publishing_ok s b;
  si_leases : ∀ id e, m_entries (d_Lease (s_d s)) !! id = Some e → s_issued s !! id = Some (le_Name e);
  si_dels : ∀ id token e, (id, token, e) ∈ s_dels s →
    le_RegistrationID e = id ∧ s_issued s !! id = Some (le_Name e);
  si_ends : ∀ n id, (n, id) ∈ s_ends s →
    s_issued s !! id = Some n ∧ m_entries (d_Lease (s_d s)) !! id = None;
  si_records : ∀ name rec, d_Registry (s_d s) !! name = Some rec →
    r_Source rec ≠ SourceDocker → s_issued s !! r_ProducerID rec = Some name;
  si_owner : ∀ name rec, d_Registry (s_d s) !! name = Some rec → r_Source rec ≠ SourceDocker →
    (r_Source rec = SourceProcess ∨ r_Source rec = SourceManual) ∧
    r_OwnerKey rec = r_Source rec +:+ ":" +:+ r_ProducerID rec;
  si_owed : ∀ name rec, d_Registry (s_d s) !! name = Some rec →
    r_Source rec ≠ SourceDocker → r_Status rec = StatusReady → owed s rec
}.

Lemma init_inv s : init s → sys_inv s.
Proof.
  intros (io & fs & cfg & fs' & lns & d & HN & ->).
  assert (d_Registry d = ∅ ∧ m_entries (d_Lease d) = ∅) as [Er El].
  { revert HN. unfold NewDaemon. repeat (case_match; try done); intros; by simplify_eq. }
  split; simpl; try done; rewrite ?Er, ?El; [by eapply NewDaemon_inv|set_solver..].
Qed.

(** The publication step, in terms of its parts. *)
Lemma register_publish_Ok d p env d' pr f :
  register_publish d p env = (d', Ok (pr, f)) →
  prepare d p env = Ok pr ∧
  ∃ d1, assign_frontend (retire_previous d (p_Name p) pr) p pr env = (d1, Ok f) ∧
    d' = publish d1 p pr f (e_now env) ∧ d_Registry d1 = d_Registry d ∧
    d_Lease d1 = d_Lease (retire_previous d (p_Name p) pr) ∧ d_cfg d1 = d_cfg d.
Proof.
  unfold register_publish. destruct (prepare d p env) as [pr'|] eqn:Ep; [|done].
  destruct (assign_frontend _ _ _ _) as [d1 [f'|e]] eqn:Ea; [|done].
  pose proof Ea as (Er & El & _ & Ec)%assign_frontend_fields.
  destruct (retire_previous_fields d (p_Name p) pr') as (E1 & _ & _ & _ & E5).
  rewrite CreateOrReplaceOwned_Ok; [|rewrite Er, E1; by apply prepare_Ok in Ep as (_ & _ & _ & _ & _ & _ & _ & _ & ?)|done].
  intros; simplify_eq. split; [done|]. exists d1. split_and!; try done; congruence.
Qed.

Lemma register_publish_inv d p env d' r :
  daemon_inv d → env_ok d env → register_publish d p env = (d', r) → daemon_inv d'.
Proof.
  intros Hd Henv. unfold register_publish.
  destruct (prepare d p env) as [pr|] eqn:Ep; [|intros; by simplify_eq].
  destruct (assign_frontend _ _ _ _) as [d1 rf] eqn:Ea.
  destruct (retire_previous_fields d (p_Name p) pr) as (E1 & E2 & E3 & _ & E5).
  pose proof Ea as (Er & El & _ & Ec)%assign_frontend_fields.
  pose proof Ep as (Hn & (_ & Hk) & _ & _ & _ & _ & _ & _ & Ho)%prepare_Ok.
  apply assign_frontend_inv in Ea as [Hd1 Hf];
    [|by apply retire_previous_inv|intros s; rewrite E3; apply Henv|done|done].
  destruct rf as [f|e]; [|intros; by simplify_eq].
  rewrite CreateOrReplaceOwned_Ok; [|by rewrite Er, E1|done]. intros [= <- _].
  eapply (publish_inv _ _ _ _ _ env); [done| |done].
  by rewrite (prepare_registry d) by congruence.
Qed.

(** A refused registration touches neither the records nor the leases. *)
Lemma register_publish_Err d p env d' e :
  daemon_inv d → register_publish d p env = (d', Err e) →
  d_Registry d' = d_Registry d ∧ d_Lease d' = d_Lease d.
Proof.
  intros Hd. unfold register_publish.
  destruct (prepare d p env) as [pr|] eqn:Ep; [|intros; by simplify_eq].
  destruct (assign_frontend _ _ _ _) as [d1 rf] eqn:Ea.
  pose proof Ea as (Er & El & _ & _)%assign_frontend_fields.
  destruct (retire_previous_fields d (p_Name p) pr) as (E1 & E2 & _).
  pose proof Ep as (_ & _ & _ & _ & _ & _ & _ & _ & Ho)%prepare_Ok.
  destruct rf as [f|e1].
  - by rewrite CreateOrReplaceOwned_Ok; [|by rewrite Er, E1|].
  - intros; simplify_eq. apply assign_frontend_Err in Ea as (Hk & Hn & _).
    rewrite E2 in Hn. pose proof (no_record_without_runtime d p env pr Hd Ep Hk Hn) as Hnone.
    by rewrite (retire_previous_new d) in * by done.
Qed.

Lemma step_refused_inv d dels ends iss lost p env d' e :
  env_ok d env → register_publish d p env = (d', Err e) →
  sys_inv (mkSys d None dels ends iss lost) → sys_inv (mkSys d' None dels ends iss lost).
Proof.
  intros Henv E Hs. pose proof (si_daemon _ Hs) as Hd. simpl in Hd.
  pose proof (register_publish_inv _ _ _ _ _ Hd Henv E) as Hd'.
  apply register_publish_Err in E as [Er El]; [|done].
  destruct Hs; split; simpl in *; rewrite ?Er, ?El; try done.
  intros name rec Hr Hsrc Hst. specialize (si_owed0 name rec Hr Hsrc Hst).
  unfold owed in *; simpl in *. by rewrite El.
Qed.

Lemma issue_mono p env iss id n :
  iss !! request_regID p env = None → iss !! id = Some n → issue p env iss !! id = Some n.
Proof.
  intros Hf Hid. unfold issue. case_decide; [done|]. rewrite lookup_insert_ne; [done|]. congruence.
Qed.

Lemma step_publish_inv d dels ends iss lost p env d' pr f :
  request_ok p → env_ok d env → iss !! request_regID p env = None →
  register_publish d p env = (d', Ok (pr, f)) →
  sys_inv (mkSys d None dels ends iss lost) →
  sys_inv (mkSys d' (Some (mkPublishing p pr f env)) dels ends (issue p env iss) lost).
Proof.
  intros Hreq Henv Hfresh E Hs. pose proof (si_daemon _ Hs) as Hd. simpl in Hd.
  pose proof (register_publish_inv _ _ _ _ _ Hd Henv E) as Hd'.
  apply register_publish_Ok in E as (Ep & d1 & _ & -> & Er & El & _).
  destruct (publish_fields d1 p pr f (e_now env)) as (P1 & P2 & _).
  apply prepare_Ok in Ep as (_ & _ & _ & (Es & _ & Ht) & _ & _ & _ & (Eid & Eo & Epr) & _).
  pose proof (λ id n, issue_mono p env iss id n Hfresh) as Hmono.
  assert (∀ id e, m_entries (d_Lease d1) !! id = Some e → m_entries (d_Lease d) !! id = Some e) as Hsub
    by (intros id e; rewrite El; apply retire_previous_lease).
  assert (∀ id, m_entries (d_Lease d) !! id = None → m_entries (d_Lease d1) !! id = None) as Hnone.
  { intros id Hid. destruct (m_entries (d_Lease d1) !! id) eqn:E; [|done]. apply Hsub in E. congruence. }
  assert (pr_source pr ≠ SourceDocker →
    issue p env iss !! pr_regID pr = Some (p_Name p) ∧ pr_producerID pr = pr_regID pr) as Hnew.
  { intros Hsrc. rewrite Es in Hsrc. rewrite Eid, Epr. unfold issue, request_producer.
    rewrite !(decide_False (P := request_source p = SourceDocker)) by done. by rewrite lookup_insert_eq. }
  destruct Hs; split; simpl in *; rewrite ?P1, ?P2, ?Er; try done; eauto.
  - intros b [= <-] Hsrc. simpl in *. split_and!; [by apply Ht..|by apply Hnew| |]; rewrite ?P2, ?Eid.
    + apply Hnone. destruct (m_entries (d_Lease d) !! request_regID p env) eqn:El'; [|done].
      apply si_leases0 in El'. congruence.
    + intros n [? _]%si_ends0. congruence.
  - intros id token e (? & ?)%si_dels0. eauto.
  - intros n id [? ?]%si_ends0. eauto.
  - intros name rec [[<- <-]|[_ Hr]]%lookup_insert_Some Hsrc; [|by eauto].
    simpl in *. destruct (Hnew Hsrc) as [? ->]. done.
  - intros name rec [[<- <-]|[_ Hr]]%lookup_insert_Some Hsrc; [|by eauto].
    simpl in *. destruct (Hnew Hsrc) as [_ ->]. rewrite Es in Hsrc |- *. rewrite Eo, Eid.
    unfold request_owner. destruct Hreq as [(Hp & Ho & _)|[Hp _]].
    + rewrite decide_True by done. split; [|done]. unfold request_source.
      destruct Hp as [-> | ->]; auto.
    + exfalso. apply Hsrc. unfold request_source. by rewrite Hp.
  - intros name rec [[<- <-]|[Hne Hr]]%lookup_insert_Some Hsrc Hst.
    { right. left. eexists. split; [done|]. simpl in *. destruct (Hnew Hsrc) as [_ ->]. done. }
    destruct (si_owed0 name rec Hr Hsrc Hst) as [[e He]|[(b & ? & _)|[?|?]]]; [|done|by unfold owed; auto..].
    simpl in He. destruct (retire_previous_keeps d (p_Name p) pr _ e He)
      as [Hk|(rec0 & Hr0 & Hid & _ & Hsrc0)].
    + left. simpl. rewrite P2, El. eauto.
    + exfalso. pose proof (si_records0 _ _ Hr0 Hsrc0) as E0. rewrite Hid in E0.
      rewrite (si_records0 _ _ Hr Hsrc) in E0. congruence.
Qed.

(** The grant of the lease: nothing for Docker, a new entry otherwise. *)
Lemma grant_lease_cases d p pr f env d' r :
  grant_lease d p pr f env = (d', r) →
  (pr_source pr = SourceDocker ∧ d' = d ∧ is_Ok r = true) ∨
  (pr_source pr ≠ SourceDocker ∧ d' = d ∧ is_Ok r = false) ∨
  (pr_source pr ≠ SourceDocker ∧ is_Ok r = true ∧
   d_Registry d' = d_Registry d ∧ ∃ e, le_Name e = p_Name p ∧
   m_entries (d_Lease d') = <[pr_regID pr := e]> (m_entries (d_Lease d))).
Proof.
  unfold grant_lease. case_decide; [intros; simplify_eq; auto|].
  destruct (NewToken _); simpl; intros; simplify_eq; [|auto].
  right. right. split_and!; [done..|]. eexists. split; [|reflexivity]. done.
Qed.

Lemma step_grant_inv d dels ends iss lost b d' r :
  grant_lease d (pb_params b) (pb_prepared b) (pb_frontend b) (pb_env b) = (d', r) →
  sys_inv (mkSys d (Some b) dels ends iss lost) →
  sys_inv (mkSys d' None dels ends iss
             (if is_Ok r then lost else {[pr_regID (pb_prepared b)]} ∪ lost)).
Proof.
  intros E Hs. pose proof (si_reg _ Hs b eq_refl) as Hb. unfold publishing_ok in Hb; simpl in Hb.
  assert (daemon_inv d') as Hd'.
  { eapply grant_lease_inv; [apply (si_daemon _ Hs)| |exact E]. intros Hsrc. by apply Hb. }
  apply grant_lease_cases in E as [(Hsrc & -> & ->)|[(Hsrc & -> & ->)|(Hsrc & -> & Er & e & En & El)]];
    destruct Hs; split; simpl in *; try done; rewrite ?Er.
  - intros name rec Hr Hs1 Hst.
    destruct (si_owed0 name rec Hr Hs1 Hst) as [?|[(b' & [= <-] & ? & ?)|?]]; unfold owed; naive_solver.
  - intros name rec Hr Hs1 Hst. unfold owed; simpl.
    destruct (si_owed0 name rec Hr Hs1 Hst) as [?|[(b' & [= <-] & ? & <-)|[?|?]]]; set_solver.
  - destruct (Hb Hsrc) as (_ & Hi & _). rewrite El.
    intros id e' [[<- <-]|[_ ?]]%lookup_insert_Some; [by rewrite Hi, En|eauto].
  - intros n id Hin. destruct (si_ends0 _ _ Hin) as [Hi Hn]. split; [done|].
    rewrite El, lookup_insert_ne; [done|]. intros <-. by apply (Hb Hsrc) in Hin.
  - eauto.
  - eauto.
  - intros name rec Hr Hs1 Hst. unfold owed; simpl. rewrite El, lookup_insert.
    case_decide as Hid; [left; eauto|].
    destruct (si_owed0 name rec Hr Hs1 Hst) as [?|[(b' & [= <-] & ? & ?)|?]]; naive_solver.
Qed.

(** A change of the lease table alone.  Entries keep their service and are
    not added; what goes must be lost or have its end queued. *)
Lemma lease_change_inv d reg dels dels' ends ends' iss lost lost' l :
  sys_inv (mkSys d reg dels ends iss lost) →
  (∀ id e, m_entries l !! id = Some e →
     ∃ e0, m_entries (d_Lease d) !! id = Some e0 ∧ le_Name e = le_Name e0) →
  daemon_inv (with_Lease l d) →
  (∀ x, x ∈ dels' → x ∈ dels ∨
     le_RegistrationID x.2 = x.1.1 ∧ iss !! x.1.1 = Some (le_Name x.2)) →
  (∀ x, x ∈ ends → x ∈ ends') → lost ⊆ lost' →
  (∀ n id, (n, id) ∈ ends' → (n, id) ∈ ends ∨
     iss !! id = Some n ∧ is_Some (m_entries (d_Lease d) !! id) ∧ m_entries l !! id = None) →
  (∀ n id, is_Some (m_entries (d_Lease d) !! id) → iss !! id = Some n →
     is_Some (m_entries l !! id) ∨ (n, id) ∈ ends' ∨ id ∈ lost') →
  sys_inv (mkSys (with_Lease l d) reg dels' ends' iss lost').
Proof.
  intros Hs Hsub Hd Hdels Hends Hlost Hnew Hkeep.
  assert (∀ id, m_entries (d_Lease d) !! id = None → m_entries l !! id = None) as Hnone.
  { intros id Hid. destruct (m_entries l !! id) eqn:E; [|done].
    apply Hsub in E as (? & ? & _). congruence. }
  pose proof (si_daemon _ Hs) as Hd0. destruct Hs; split; simpl in *; try done.
  - intros b Hb Hsrc. destruct (si_reg0 b Hb Hsrc) as (? & ? & Hl & Hn). simpl in *.
    split_and!; [lia..|done|by apply Hnone|]. intros n [?|(_ & [? ?] & _)]%Hnew; [by eapply Hn|congruence].
  - intros id e (e0 & He0 & ->)%Hsub. eauto.
  - intros id token e [?|?]%Hdels; eauto.
  - intros n id [[? ?]%si_ends0|(? & _ & ?)]%Hnew; eauto.
  - intros name rec Hr Hsrc Hst. pose proof (si_records0 _ _ Hr Hsrc) as Hi.
    destruct (inv_registry_wf d Hd0 _ _ Hr) as [En _].
    destruct (si_owed0 name rec Hr Hsrc Hst) as [Hl|[Hb|[He|Hl]]]; unfold owed; simpl in *; auto.
    destruct (Hkeep name _ Hl Hi) as [?|[?|?]]; auto. rewrite En. auto.
Qed.

Lemma Heartbeat_state now d id token :
  (Heartbeat now d id token).1 = with_Lease (Renew now (d_Lease d) id token).1 d.
Proof. unfold Heartbeat. by destruct (Renew _ _ _ _) as [l [exp|[]]]. Qed.

Lemma Renew_keeps now d id token i :
  is_Some (m_entries (d_Lease d) !! i) →
  is_Some (m_entries (Renew now (d_Lease d) id token).1 !! i) ∨ i = id ∧ late now d id = true.
Proof.
  intros Hi. unfold Renew, late, Lease.Get.
  destruct (m_entries (d_Lease d) !! id) as [e|] eqn:Ee; [|by left].
  destruct (decide (expired now e)); simpl.
  - destruct (decide (i = id)); [right; by rewrite bool_decide_true|left].
    by rewrite lookup_delete_ne.
  - left. destruct (negb _); simpl; [done|]. rewrite lookup_insert. by case_decide.
Qed.

Lemma step_heartbeat_inv d reg dels ends iss lost now id token :
  sys_inv (mkSys d reg dels ends iss lost) →
  sys_inv (mkSys (Heartbeat now d id token).1 reg dels ends iss
             (if late now d id then {[id]} ∪ lost else lost)).
Proof.
  intros Hs. pose proof (Heartbeat_inv now d id token (si_daemon _ Hs)) as Hd.
  rewrite Heartbeat_state in *. eapply lease_change_inv; [exact Hs|..]; auto.
  - intros i e (e0 & ? & _ & _ & ?)%Renew_entries. eauto.
  - destruct (late now d id); set_solver.
  - intros n i Hi _. destruct (Renew_keeps now d id token i Hi) as [?|[-> ->]]; [auto|set_solver].
Qed.

Lemma step_take_inv d reg dels ends iss lost now l out :
  TakeExpired now (d_Lease d) = (l, out) →
  sys_inv (mkSys d reg dels ends iss lost) →
  sys_inv (mkSys (with_Lease l d) reg dels
             (ends ++ ((λ e, (le_Name e, le_RegistrationID e)) <$> out)) iss lost).
Proof.
  intros E Hs. pose proof (TakeExpired_entries now (d_Lease d)) as He.
  pose proof (TakeExpired_out now (d_Lease d)) as Ho. rewrite E in He, Ho. simpl in *. subst out.
  pose proof (si_daemon _ Hs) as Hd. simpl in Hd. pose proof (inv_leases d Hd) as Hl.
  eapply lease_change_inv; [exact Hs|..]; auto.
  - intros id e. rewrite He. intros [? _]%map_lookup_filter_Some. eauto.
  - apply with_Lease_inv; [|done]. rewrite He. intros id e [? _]%map_lookup_filter_Some. by apply Hl.
  - set_solver.
  - intros n id [?|Hin]%elem_of_app; [by left|].
    apply list_elem_of_fmap in Hin as (e & [= -> ->] & [Hx (id' & Hid)]%Expired_elem).
    destruct (Hl _ _ Hid) as [-> _]. right. split; [by apply (si_leases _ Hs)|]. split; [eauto|].
    rewrite He. apply map_lookup_filter_None. right. naive_solver.
  - intros n id [e Hid] Hi. rewrite He.
    destruct (decide (expired now e)) as [Hx|Hx]; [right; left|left].
    + apply elem_of_app. right. apply list_elem_of_fmap. exists e.
      destruct (Hl _ _ Hid) as [-> _]. pose proof (si_leases _ Hs _ _ Hid) as Hi'. simpl in Hi'.
      split; [congruence|]. apply Expired_elem. eauto.
    + exists e. by apply map_lookup_filter_Some.
Qed.

Lemma step_delete_get_inv d reg dels ends iss lost id token e :
  Lease.Get (d_Lease d) id = Some e →
  sys_inv (mkSys d reg dels ends iss lost) →
  sys_inv (mkSys d reg ((id, token, e) :: dels) ends iss lost).
Proof.
  unfold Lease.Get. intros He Hs. pose proof (inv_leases d (si_daemon _ Hs) _ _ He) as [Hid _].
  destruct Hs; split; simpl in *; try done.
  intros id' token' e' [[= -> -> ->]|?]%elem_of_cons; eauto.
Qed.

Lemma step_delete_inv d reg dels1 dels2 ends iss lost id token e l r :
  Delete (d_Lease d) id token = (l, r) →
  sys_inv (mkSys d reg (dels1 ++ (id, token, e) :: dels2) ends iss lost) →
  sys_inv (mkSys (with_Lease l d) reg (dels1 ++ dels2)
    (if decide (r = None) then (le_Name e, le_RegistrationID e) :: ends else ends) iss lost).
Proof.
  intros E Hs. destruct (si_dels _ Hs id token e) as [Eid Hi]; [simpl; set_solver|]. simpl in Hi.
  pose proof (si_daemon _ Hs) as Hd. simpl in Hd.
  assert (daemon_inv (with_Lease l d)) as Hd'.
  { apply with_Lease_inv; [|done]. replace l with (Delete (d_Lease d) id token).1 by by rewrite E.
    intros i e' He'%Delete_entries. by apply (inv_leases d Hd). }
  revert E. unfold Delete. destruct (m_entries (d_Lease d) !! id) as [e0|] eqn:E0.
  2:{ intros [= <- <-]. eapply lease_change_inv; [exact Hs|..]; eauto; set_solver. }
  destruct (negb _); intros [= <- <-].
  { eapply lease_change_inv; [exact Hs|..]; eauto; set_solver. }
  rewrite decide_True by done.
  eapply lease_change_inv; [exact Hs|..]; simpl; auto.
  - intros i e' [_ ?]%lookup_delete_Some. eauto.
  - set_solver.
  - set_solver.
  - intros n i [[= -> ->]|?]%elem_of_cons; [right|by left].
    rewrite Eid, E0, lookup_delete_eq. eauto.
  - intros n i Hin Hn. destruct (decide (i = id)) as [->|Hne].
    + right. left. rewrite Eid. assert (n = le_Name e) as -> by congruence. set_solver.
    + left. by rewrite lookup_delete_ne.
Qed.

(** Ending a publication takes the service off the books it is owed on. *)
Lemma end_inv d dels ends ends' iss lost now name producer :
  (∀ x, x ∈ ends' → x ∈ ends) → (∀ x, x ∈ ends → x ∈ ends' ∨ x = (name, producer)) →
  sys_inv (mkSys d None dels ends iss lost) →
  sys_inv (mkSys (endPublication now d name producer).1 None dels ends' iss lost).
Proof.
  intros Hsub Hends Hs. pose proof (si_daemon _ Hs) as Hd. simpl in Hd.
  destruct (endPublication_fields now d name producer) as (_ & _ & El & _).
  pose proof (endPublication_inv now d name producer Hd) as Hd'.
  destruct Hs; split; simpl in *; rewrite ?El; try done; eauto.
  - intros n rec' (rec & Hn & [->| ->])%endPublication_record; eauto.
    intros ?. by apply (si_records0 n rec).
  - intros n rec' (rec & Hn & [->| ->])%endPublication_record; eauto.
    intros ?. by apply (si_owner0 n rec).
  - intros n rec' Hn' Hsrc Hst. unfold endPublication in Hn'.
    pose proof (ClearBackendIf_lookup now (d_Registry d) name producer n) as Hl.
    destruct (ClearBackendIf _ _ _ _) as [r b]. simpl in *. rewrite Hl in Hn'.
    destruct (d_Registry d !! n) as [rec|] eqn:Hn; [|done].
    destruct (decide (n = name ∧ _)) as [?|Hne]; [by simplify_eq|]. injection Hn' as <-.
    destruct (inv_registry_wf d Hd _ _ Hn) as [En _].
    destruct (si_owed0 n rec Hn Hsrc Hst) as [?|[(b' & ? & _)|[Hin|?]]];
      unfold owed; simpl in *; rewrite ?El; [auto|done| |auto].
    destruct (Hends _ Hin) as [?|[= ? ?]]; [auto|]. exfalso. apply Hne. split; congruence.
Qed.

Lemma step_inv s s' : step s s' → sys_inv s → sys_inv s'.
Proof.
  destruct 1.
  - eauto using step_refused_inv.
  - eauto using step_publish_inv.
  - eauto using step_grant_inv.
  - apply step_heartbeat_inv.
  - eauto using step_take_inv.
  - eauto using step_delete_get_inv.
  - eauto using step_delete_inv.
  - apply end_inv; set_solver.
  - apply end_inv; set_solver.
Qed.

Lemma reachable_inv s : reachable s → sys_inv s.
Proof.
  intros (s0 & Hi%init_inv & Hr). induction Hr; [done|]. eauto using step_inv.
Qed.

(** ** What a step can do to a live service *)

(** Nobody else can publish under the name of a ready process service. *)
Lemma ready_publish_refused s p env rec :
  sys_inv s → d_Registry (s_d s) !! p_Name p = Some rec → r_Source rec ≠ SourceDocker →
  r_Status rec = StatusReady → request_ok p → s_issued s !! request_regID p env = None →
  ∃ e, prepare (s_d s) p env = Err e.
Proof.
  intros Hs Hr Hsrc Hst Hreq Hfresh.
  destruct (prepare (s_d s) p env) as [pr|e] eqn:Ep; [exfalso|eauto].
  apply prepare_Ok in Ep as (_ & _ & _ & _ & _ & _ & _ & (_ & Eo & _) & Ho).
  unfold owned_by_other in Ho. rewrite Hr, Hst, Eo in Ho. apply bool_decide_eq_false in Ho.
  apply Ho. split; [|done]. clear Ho.
  destruct (si_owner _ Hs _ _ Hr Hsrc) as [Hps ->].
  pose proof (si_records _ Hs _ _ Hr Hsrc) as Hiss. intros E. unfold request_owner, request_source in E.
  destruct Hreq as [(Hp & Ho & Hid)|[Hp Hpre]].
  - rewrite (decide_True (P := p_OwnerKey p = "")) in E by done.
    destruct Hp as [Hp|Hp], Hps as [Hps|Hps]; rewrite Hp, Hps in E; simpl in E; try done;
      simplify_eq; congruence.
  - destruct (decide (p_OwnerKey p = "")) as [Ho|Ho]; [by rewrite Ho in Hpre|].
    rewrite <-E in Hpre. by destruct Hps as [Hps|Hps]; rewrite Hps in Hpre.
Qed.

(** The record of a ready process service stands until the call that ends
    its publication. *)
Lemma step_ready_record s s' name rec :
  sys_inv s → step s s' → d_Registry (s_d s) !! name = Some rec →
  r_Source rec ≠ SourceDocker → r_Status rec = StatusReady →
  d_Registry (s_d s') !! name = Some rec ∨ (name, r_ProducerID rec) ∈ s_ends s.
Proof.
  intros Hs Hstep Hr Hsrc Hst.
  assert (∀ now n pid, r_ProducerID rec ≠ pid ∨ n ≠ name →
    d_Registry (endPublication now (s_d s) n pid).1 !! name = Some rec) as Hend.
  { intros now n pid Hne. unfold endPublication.
    pose proof (ClearBackendIf_lookup now (d_Registry (s_d s)) n pid name) as Hl.
    destruct (ClearBackendIf _ _ _ _). simpl in *. rewrite Hl, Hr, decide_False; [done|].
    destruct Hne; naive_solver. }
  pose proof (si_records _ Hs _ _ Hr Hsrc) as Hiss.
  destruct Hstep as [d dels ends iss lost p env d' e _ _ E|d dels ends iss lost p env d' pr f Hreq _ Hf E
    |d dels ends iss lost b d' r E|d reg dels ends iss lost now id token| | |
    |d dels ends1 ends2 iss lost now n pid|d dels ends iss lost now n owner cid Hc]; simpl in *;
    try (left; exact Hr).
  - left. by apply register_publish_Err in E as [-> _]; [|apply (si_daemon _ Hs)].
  - left. pose proof E as (Ep & d1 & _ & -> & Er & _)%register_publish_Ok.
    destruct (publish_fields d1 p pr f (e_now env)) as (-> & _). rewrite Er.
    rewrite lookup_insert_ne; [done|]. intros <-.
    edestruct (ready_publish_refused _ p env rec Hs) as [e Ee]; try done. simpl in Ee. congruence.
  - left. apply grant_lease_cases in E as [(_ & -> & _)|[(_ & -> & _)|(_ & _ & -> & _)]]; done.
  - left. by rewrite Heartbeat_state.
  - destruct (decide (r_ProducerID rec = pid)) as [<-|]; [|left; auto].
    destruct (decide (n = name)) as [->|]; [right; set_solver|left; auto].
  - left. apply Hend. left. congruence.
Qed.

(** ** Frontends are stable *)

(** What a service keeps for as long as the daemon runs. *)
Definition same_frontend (rec rec' : ServiceRecord) : Prop :=
  r_Name rec' = r_Name rec ∧ r_Kind rec' = r_Kind rec ∧ r_Hostname rec' = r_Hostname rec ∧
  r_Frontend rec' = r_Frontend rec.

Lemma assign_frontend_keeps d p pr env d' f :
  assign_frontend d p pr env = (d', Ok f) →
  ∀ name rt, rm_runtimes (d_Runtime d) !! name = Some rt → rm_runtimes (d_Runtime d') !! name = Some rt.
Proof.
  unfold assign_frontend. case_decide; [intros; by simplify_eq|].
  destruct (EnsureTCPRuntime _ _ _ _ _) as [[m w] o] eqn:E.
  assert (∀ name rt, rm_runtimes (d_Runtime d) !! name = Some rt → rm_runtimes m !! name = Some rt) as Hm.
  { revert E. unfold EnsureTCPRuntime. destruct (rm_runtimes _ !! p_Name p) eqn:En; [intros; by simplify_eq|].
    destruct (Allocate _ _ _ _ _) as [w' [al|]]; intros; simplify_eq/=; [|done].
    rewrite lookup_insert_ne; congruence. }
  destruct o as [rt|[]]; intros; by simplify_eq/=; auto.
Qed.

Lemma publish_same_frontend d p env d' pr f rec :
  daemon_inv d → env_ok d env → register_publish d p env = (d', Ok (pr, f)) →
  d_Registry d !! p_Name p = Some rec → same_frontend rec (new_record p pr f (e_now env)).
Proof.
  intros Hd Henv E Hr. pose proof (register_publish_inv _ _ _ _ _ Hd Henv E) as Hd'.
  apply register_publish_Ok in E as (Ep & d1 & Ea & -> & Er & _ & _).
  destruct (publish_fields d1 p pr f (e_now env)) as (P1 & _ & P3 & _ & P5).
  apply prepare_Ok in Ep as (_ & (_ & Hkd) & _ & _ & _ & Hi & _).
  destruct (immutable_conflict_false d _ _ _ rec Hi Hr) as [Hk Hh].
  destruct (inv_services d Hd _ _ Hr) as ([En _] & _ & _ & Hf).
  destruct (inv_services _ Hd' (p_Name p) (new_record p pr f (e_now env))) as (_ & _ & _ & Hf');
    [by rewrite P1, lookup_insert_eq|].
  destruct (retire_previous_fields d (p_Name p) pr) as (_ & E2 & _ & E4 & _).
  pose proof Ea as (_ & _ & Eh & _)%assign_frontend_fields.
  pose proof (assign_frontend_keeps _ _ _ _ _ _ Ea) as Hkeep. rewrite E2 in Hkeep.
  unfold frontend_ok in *. rewrite P3, P5 in Hf'. cbn [new_record r_Kind r_Name r_Frontend] in Hf'.
  destruct Hf as [(Hk1 & Hh1 & rt & Hrt & Hfr)|(Hk1 & Hh1 & Hfr)];
    destruct Hf' as [(Hk2 & Hh2 & rt' & Hrt' & Hfr')|(Hk2 & Hh2 & Hfr')];
    try (rewrite <-Hk, Hk1 in Hk2; discriminate Hk2); split_and!; simpl; try done; try congruence.
  - by rewrite Hh1.
  - rewrite En in Hrt. apply Hkeep in Hrt. congruence.
  - rewrite decide_True by congruence. symmetry. apply Hh. congruence.
  - rewrite Hfr, Hfr'. simpl. rewrite !decide_True by congruence. rewrite Hh by congruence.
    unfold FrontendURL. simpl. by rewrite Eh, E4.
Qed.

Lemma step_same_frontend s s' name rec :
  sys_inv s → step s s' → d_Registry (s_d s) !! name = Some rec →
  ∃ rec', d_Registry (s_d s') !! name = Some rec' ∧ same_frontend rec rec'.
Proof.
  intros Hs Hstep Hr.
  assert (∀ now n pid, ∃ rec', d_Registry (endPublication now (s_d s) n pid).1 !! name = Some rec' ∧
    same_frontend rec rec') as Hend.
  { intros now n pid. destruct (endPublication_keeps now (s_d s) n pid _ _ Hr) as (r & Hr' & [->| ->]);
      by eexists. }
  destruct Hstep as [d dels ends iss lost p env d' e _ _ E|d dels ends iss lost p env d' pr f Hreq He Hf E
    |d dels ends iss lost b d' r E|d reg dels ends iss lost now id token| | |
    |d dels ends1 ends2 iss lost now n pid|d dels ends iss lost now n owner cid Hc]; simpl in *;
    try (by exists rec); try apply Hend.
  - exists rec. by apply register_publish_Err in E as [-> _]; [|apply (si_daemon _ Hs)].
  - pose proof E as (_ & d1 & _ & E' & Er & _)%register_publish_Ok.
    destruct (publish_fields d1 p pr f (e_now env)) as (P1 & _). rewrite <-E', Er in P1. rewrite P1.
    rewrite lookup_insert. case_decide as Hn; [subst name|by exists rec].
    eexists. split; [done|]. eapply (publish_same_frontend d); try done. apply (si_daemon _ Hs).
  - exists rec. by apply grant_lease_cases in E as [(_ & -> & _)|[(_ & -> & _)|(_ & _ & -> & _)]].
  - exists rec. by rewrite Heartbeat_state.
Qed.

(** ** Theorems *)

Lemma rtc_inv s s' : rtc step s s' → sys_inv s → sys_inv s'.
Proof. induction 1; eauto using step_inv. Qed.

(** C4: Every reachable state satisfies the daemon's invariant (records well formed under valid
    names, loopback backends, frontends of TCP services bound by their runtimes and saved to the
    state file, routes and HTTP services in correspondence, leases within the configured
    bounds), and no two TCP services ever share a frontend port. *)
Theorem reachable_services s :
  reachable s →
  daemon_inv (s_d s) ∧
  (∀ n1 n2 r1 r2,
     Resolve (d_Registry (s_d s)) n1 = Some r1 → Resolve (d_Registry (s_d s)) n2 = Some r2 →
     r_Kind r1 = KindTCP → r_Kind r2 = KindTCP →
     f_Port (r_Frontend r1) = f_Port (r_Frontend r2) → n1 = n2).
Proof.
  intros Hs%reachable_inv. pose proof (si_daemon _ Hs) as Hd. split; [done|].
  intros n1 n2 r1 r2 H1' H2' Hk1 Hk2.
  assert (∀ n r, Resolve (d_Registry (s_d s)) n = Some r → r_Kind r = KindTCP →
    ∃ rt, rm_runtimes (d_Runtime (s_d s)) !! n = Some rt ∧ f_Port (r_Frontend r) = rt_listener rt) as Hrt.
  { intros n r Hr Hk.
    destruct (inv_services _ Hd _ _ Hr) as ([En _] & _ & _ & [(_ & _ & rt & Hrt & ->)|(Hk' & _)]);
      [|by rewrite Hk in Hk'].
    exists rt. destruct (proj1 (inv_runtimes _ Hd) _ _ Hrt) as (_ & -> & _). by rewrite <-En. }
  destruct (Hrt _ _ H1' Hk1) as (rt1 & Hr1 & ->), (Hrt _ _ H2' Hk2) as (rt2 & Hr2 & ->).
  by apply (proj2 (inv_runtimes _ Hd)).
Qed.

(** C5: Once a service exists it keeps its name, kind, host name and frontend for as long as the
    daemon runs, through replacements, expiries, deletions and Docker events. *)
Theorem frontend_stable s s' name rec :
  reachable s → rtc step s s' → Resolve (d_Registry (s_d s)) name = Some rec →
  ∃ rec', Resolve (d_Registry (s_d s')) name = Some rec' ∧ same_frontend rec rec'.
Proof.
  unfold Resolve. intros Hs%reachable_inv Hr. revert rec.
  induction Hr as [s|s s1 s2 Hstep _ IH]; intros rec Hrec; [by exists rec|].
  destruct (step_same_frontend _ _ _ _ Hs Hstep Hrec) as (r1 & Hr1 & Hf1).
  destruct (IH (step_inv _ _ Hstep Hs) _ Hr1) as (r2 & Hr2 & Hf2).
  exists r2. split; [done|]. unfold same_frontend in *. intuition congruence.
Qed.

(** C1: In every reachable state of the running daemon, whatever step comes next (a registration
    of anybody, a heartbeat, a sweep, a deletion, a queued end, a Docker event), the record of a
    ready process or manual service whose lease is in the table is left exactly as it is: late
    removals of older publications and foreign registrations never disturb a leased service. *)
Theorem leased_service_undisturbed s s' name rec e :
  reachable s → step s s' → Resolve (d_Registry (s_d s)) name = Some rec →
  r_Source rec ≠ SourceDocker → r_Status rec = StatusReady →
  Lease.Get (d_Lease (s_d s)) (r_ProducerID rec) = Some e →
  Resolve (d_Registry (s_d s')) name = Some rec.
Proof.
  unfold Resolve, Lease.Get. intros Hs%reachable_inv Hstep Hr Hsrc Hst He.
  destruct (step_ready_record _ _ _ _ Hs Hstep Hr Hsrc Hst) as [?|Hin]; [done|].
  destruct (si_ends _ Hs _ _ Hin). congruence.
Qed.

(** A sweep is a take followed by the ends it queued. *)
Lemma end_all_steps d dels iss lost (es : list (Z * Entry)) :
  rtc step (mkSys d None dels ((λ te, (le_Name te.2, le_RegistrationID te.2)) <$> es) iss lost)
    (mkSys (foldl (λ d te, (endPublication te.1 d (le_Name te.2) (le_RegistrationID te.2)).1) d es)
       None dels [] iss lost).
Proof.
  revert d. induction es as [|te es IH]; intros d; simpl; [done|].
  eapply rtc_l; [|apply IH].
  apply (step_end _ _ [] _ _ _ te.1 (le_Name te.2) (le_RegistrationID te.2)).
Qed.

Lemma sweep_steps d dels iss lost now clock :
  rtc step (mkSys d None dels [] iss lost) (mkSys (sweepLeases now clock d) None dels [] iss lost).
Proof.
  unfold sweepLeases. destruct (TakeExpired now (d_Lease d)) as [l out] eqn:E.
  eapply rtc_l; [by eapply step_take|]. simpl.
  replace ((λ e, (le_Name e, le_RegistrationID e)) <$> out)
    with ((λ te : Z * Entry, (le_Name te.2, le_RegistrationID te.2)) <$> imap (λ i e, (clock i, e)) out).
  { apply end_all_steps. }
  clear. revert clock. induction out as [|e out IH]; intros clock; [done|].
  rewrite imap_cons, !fmap_cons. f_equal. apply (IH (clock ∘ S)).
Qed.

Lemma end_all_lease es d :
  d_Lease (foldl (λ d te, (endPublication te.1 d (le_Name te.2) (le_RegistrationID te.2)).1) d es) = d_Lease d.
Proof.
  revert d. induction es as [|te es IH]; intros d; simpl; [done|]. rewrite IH.
  by destruct (endPublication_fields te.1 d (le_Name te.2) (le_RegistrationID te.2)) as (_ & _ & -> & _).
Qed.

(** C2: When no registration is under way and no end is queued, one sweep at time [now] leaves
    no expired process service published: every service that is still ready afterwards has an
    unexpired lease under its own name, unless its ID is one whose lease was lost to a late
    heartbeat or a failed token. *)
Theorem sweep_leaves_only_live s now clock name rec :
  reachable s → s_reg s = None → s_ends s = [] →
  let d' := sweepLeases now clock (s_d s) in
  Resolve (d_Registry d') name = Some rec → r_Source rec ≠ SourceDocker →
  r_Status rec = StatusReady → r_ProducerID rec ∉ s_lost s →
  ∃ e, Lease.Get (d_Lease d') (r_ProducerID rec) = Some e ∧ le_Name e = name ∧ now < le_ExpiresAt e.
Proof.
  unfold Resolve, Lease.Get. destruct s as [d reg dels ends iss lost]. simpl.
  intros Hs%reachable_inv -> -> Hr Hsrc Hst Hl.
  pose proof (rtc_inv _ _ (sweep_steps d dels iss lost now clock) Hs) as Hs'.
  destruct (si_owed _ Hs' name rec Hr Hsrc Hst) as [[e He]|[(b & ? & _)|[Hin|?]]]; simpl in *;
    [|done|by apply not_elem_of_nil in Hin|done].
  exists e. split; [done|].
  pose proof (si_leases _ Hs' _ _ He) as Hi. rewrite (si_records _ Hs' _ _ Hr Hsrc) in Hi.
  split; [congruence|]. revert He. unfold sweepLeases.
  pose proof (TakeExpired_entries now (d_Lease d)) as Ht.
  destruct (TakeExpired now (d_Lease d)) as [l out]. rewrite end_all_lease. simpl in *. rewrite Ht.
  intros [_ Hx]%map_lookup_filter_Some. unfold expired in Hx. simpl in Hx. lia.
Qed.

(** A registration, run alone, is one refused step or two. *)
Lemma Register_steps d dels ends iss lost p env d' r :
  request_ok p → env_ok d env → iss !! request_regID p env = None → Register d p env = (d', r) →
  ∃ iss' lost', rtc step (mkSys d None dels ends iss lost) (mkSys d' None dels ends iss' lost').
Proof.
  intros Hreq Henv Hfresh. rewrite Register_phases.
  destruct (register_publish d p env) as [d1 [[pr f]|e]] eqn:Ep.
  - intros Hg. do 2 eexists. eapply rtc_l; [by eapply step_publish|].
    apply rtc_once. by apply (step_grant _ _ _ _ _ (mkPublishing p pr f env)).
  - intros; simplify_eq. exists iss, lost. apply rtc_once. by eapply step_refused.
Qed.

(** C3: In every reachable state each ready process or manual service has a lease in the table,
    or is being registered, or has its end queued, or is on the list of lost leases: the
    interleavings of registration, heartbeat, sweep and deletion create no other orphan. *)
Theorem ready_service_is_backed s name rec :
  reachable s → Resolve (d_Registry (s_d s)) name = Some rec →
  r_Source rec ≠ SourceDocker → r_Status rec = StatusReady → owed s rec.
Proof. intros Hs%reachable_inv. apply (si_owed _ Hs). Qed.

(** ** A heartbeat in the gap *)

(** A ready service that nothing will ever end: its lease is gone, and no
    registration under way and no queued end is about it. *)
Definition wedged (s : System) (name : string) (rec : ServiceRecord) : Prop :=
  d_Registry (s_d s) !! name = Some rec ∧ r_Source rec ≠ SourceDocker ∧
  r_Status rec = StatusReady ∧ m_entries (d_Lease (s_d s)) !! r_ProducerID rec = None ∧
  (∀ b, s_reg s = Some b → pr_source (pb_prepared b) ≠ SourceDocker →
        pr_regID (pb_prepared b) ≠ r_ProducerID rec) ∧
  (∀ n, (n, r_ProducerID rec) ∉ s_ends s).

(** No step puts the lease of a wedged service back or queues its end. *)
Lemma step_wedged_lease s s' name rec :
  sys_inv s → step s s' → wedged s name rec →
  m_entries (d_Lease (s_d s')) !! r_ProducerID rec = None ∧
  (∀ b, s_reg s' = Some b → pr_source (pb_prepared b) ≠ SourceDocker →
        pr_regID (pb_prepared b) ≠ r_ProducerID rec) ∧
  (∀ n, (n, r_ProducerID rec) ∉ s_ends s').
Proof.
  intros Hs Hstep (Hr & Hsrc & Hst & Hl & Hb & He). pose proof (si_records _ Hs _ _ Hr Hsrc) as Hiss.
  destruct Hstep as [d dels ends iss lost p env d' e _ _ E|d dels ends iss lost p env d' pr f Hreq Hv Hf E
    |d dels ends iss lost b d' r E|d reg dels ends iss lost now id token
    |d reg dels ends iss lost now l out E| |d reg dels1 dels2 ends iss lost id token e l r E
    |d dels ends1 ends2 iss lost now n pid|d dels ends iss lost now n owner cid Hc]; simpl in *; try done.
  - apply register_publish_Err in E as [_ ->]; [done|apply (si_daemon _ Hs)].
  - apply register_publish_Ok in E as (Ep & d1 & _ & -> & _ & El & _).
    destruct (publish_fields d1 p pr f (e_now env)) as (_ & -> & _). rewrite El.
    apply prepare_Ok in Ep as (_ & _ & _ & _ & _ & _ & _ & (Eid & _) & _). split_and!; try done.
    + apply eq_None_not_Some. intros [x Hx%retire_previous_lease]. congruence.
    + intros b [= <-] _ Heq. simpl in Heq. congruence.
  - split_and!; try done.
    apply grant_lease_cases in E as [(_ & -> & _)|[(_ & -> & _)|(Hds & _ & _ & e & _ & ->)]]; [done..|].
    rewrite lookup_insert_ne; [done|]. by apply Hb.
  - rewrite Heartbeat_state. simpl. split_and!; try done.
    apply eq_None_not_Some. intros [x (? & ? & _)%Renew_entries]. congruence.
  - pose proof (TakeExpired_entries now (d_Lease d)) as Ht. pose proof (TakeExpired_out now (d_Lease d)) as Ho.
    rewrite E in Ht, Ho. simpl in *. subst out. rewrite Ht. split_and!; try done.
    + apply map_lookup_filter_None. by left.
    + intros n [?|Hin]%elem_of_app; [by eapply He|].
      apply list_elem_of_fmap in Hin as (e & [= _ Heq] & [_ (id' & Hid)]%Expired_elem).
      destruct (inv_leases _ (si_daemon _ Hs) _ _ Hid) as [Eid _]. congruence.
  - destruct (si_dels _ Hs id token e) as [Eid _]; [simpl; set_solver|].
    revert E. unfold Delete. destruct (m_entries (d_Lease d) !! id) as [e0|] eqn:E0;
      [|intros [= <- <-]; by rewrite decide_False].
    destruct (negb _); intros [= <- <-]; [by rewrite decide_False|].
    rewrite decide_True by done. simpl. split_and!; try done.
    + apply lookup_delete_None. by right.
    + intros n [[= _ Heq]|?]%elem_of_cons; [congruence|by eapply He].
  - destruct (endPublication_fields now d n pid) as (_ & _ & -> & _). split_and!; try done.
    intros n' Hin. apply (He n'). set_solver.
  - unfold ForgetDockerPublication. by destruct (endPublication_fields now d n cid) as (_ & _ & -> & _).
Qed.

Lemma step_wedged s s' name rec : sys_inv s → step s s' → wedged s name rec → wedged s' name rec.
Proof.
  intros Hs Hstep Hw. pose proof (step_wedged_lease _ _ _ _ Hs Hstep Hw) as (? & ? & ?).
  destruct Hw as (Hr & Hsrc & Hst & _ & _ & He).
  destruct (step_ready_record _ _ _ _ Hs Hstep Hr Hsrc Hst) as [?|Hin]; [|by apply He in Hin].
  by unfold wedged.
Qed.

Lemma rtc_wedged s s' name rec :
  sys_inv s → rtc step s s' → wedged s name rec → sys_inv s' ∧ wedged s' name rec.
Proof. induction 2; eauto using step_inv, step_wedged. Qed.

(** A heartbeat between expiry and sweep leaves the service wedged. *)
Lemma late_heartbeat_wedged d reg dels ends iss lost name rec now token :
  let s := mkSys d reg dels ends iss lost in
  sys_inv s → d_Registry d !! name = Some rec → r_Source rec ≠ SourceDocker →
  r_Status rec = StatusReady → late now d (r_ProducerID rec) = true →
  wedged (mkSys (Heartbeat now d (r_ProducerID rec) token).1 reg dels ends iss
            ({[r_ProducerID rec]} ∪ lost)) name rec.
Proof.
  intros s Hs Hr Hsrc Hst Hl. unfold late, Lease.Get in Hl.
  destruct (m_entries (d_Lease d) !! r_ProducerID rec) as [e|] eqn:Ee; [|done].
  apply bool_decide_eq_true in Hl. rewrite Heartbeat_state. unfold wedged; simpl.
  split_and!; try done.
  - unfold Renew. rewrite Ee, decide_True by done. simpl. apply lookup_delete_eq.
  - intros b Hb Hd Heq. destruct (si_reg _ Hs b Hb Hd) as (_ & _ & Hn & _). simpl in Hn. congruence.
  - intros n Hin. destruct (si_ends _ Hs _ _ Hin) as [_ Hn]. simpl in Hn. congruence.
Qed.

(** A heartbeat that reaches the daemon after its lease has expired and before the sweeper has
    taken it is answered with registration_not_found and drops the lease without ending the
    publication: from then on, whatever happens, the service stays listed as ready with its old
    backend, no lease backs it, and every further registration of the name is refused, until the
    daemon is restarted. *)
Theorem late_heartbeat_wedges_service s name rec now token :
  reachable s → Resolve (d_Registry (s_d s)) name = Some rec → r_Source rec ≠ SourceDocker →
  r_Status rec = StatusReady → late now (s_d s) (r_ProducerID rec) = true →
  (Heartbeat now (s_d s) (r_ProducerID rec) token).2 = Err CodeRegistrationNotFound ∧
  ∃ s1, step s s1 ∧ s_d s1 = (Heartbeat now (s_d s) (r_ProducerID rec) token).1 ∧
  ∀ s2, rtc step s1 s2 →
    Resolve (d_Registry (s_d s2)) name = Some rec ∧
    Lease.Get (d_Lease (s_d s2)) (r_ProducerID rec) = None ∧
    (∀ p env, p_Name p = name → request_ok p → s_issued s2 !! request_regID p env = None →
       is_Ok (Register (s_d s2) p env).2 = false).
Proof.
  unfold Resolve, Lease.Get. intros Hs%reachable_inv Hr Hsrc Hst Hl. split.
  { unfold late, Lease.Get in Hl. unfold Heartbeat, Renew.
    destruct (m_entries _ !! _) as [e|]; [|done]. apply bool_decide_eq_true in Hl.
    by rewrite decide_True. }
  destruct s as [d reg dels ends iss lost]. simpl in *.
  pose proof (late_heartbeat_wedged d reg dels ends iss lost name rec now token Hs Hr Hsrc Hst Hl) as Hw.
  pose proof (step_heartbeat d reg dels ends iss lost now (r_ProducerID rec) token) as Hstep.
  rewrite Hl in Hstep. eexists. split; [exact Hstep|]. split; [done|]. intros s2 Hr2.
  destruct (rtc_wedged _ _ _ _ (step_inv _ _ Hstep Hs) Hr2 Hw) as [Hs2 (Hr' & _ & _ & Hl' & _)].
  split_and!; [done..|]. intros p env <- Hreq Hfresh.
  destruct (ready_publish_refused s2 p env rec) as [e Ee]; try done.
  unfold Register. by rewrite Ee.
Qed.
End System.
