(* ===== verification/Restart.v ===== *)
(** * A service comes back after a restart

    The run of a daemon that has started on the files of an earlier one, as
    one service sees it that has not registered yet: other services register
    and end, leases run out, saves fail.  The daemon keeps in mind the port
    that was saved for the service, and gives it back to the service as long
    as the port is free when the service asks for it. *)

From S2P Require Import Prelude GoStrings GoNet Registry Lease State Runtime Router Config Daemon DaemonInv DaemonSpec DaemonSystem.
From Stdlib Require Import Ascii.
Local Open Scope Z_scope.

(** ** The store *)

Section Store.
Context `{JSON}.

(** A save without a fault succeeds. *)
Lemma saveLocked_no_fault io s fs : io_fault io = None → (saveLocked io s fs).2 = None.
Proof. intros E. unfold saveLocked. by rewrite E. Qed.

(** What [SetPort] does to the ports the daemon has in mind, whether the save
    succeeds or not; it fails only in a save. *)
Lemma SetPort_mind io s fs name port s' fs' err : SetPort io s fs name port = (s', fs', err) →
  Port s' name = port ∧ (∀ n, n ≠ name → Port s' n = Port s n) ∧
  (is_Some err → (s_dirty s = true ∨ Port s name ≠ port) ∧ io_fault io ≠ None).
Proof.
  unfold SetPort. case_decide as E; [intros [= <- <- <-]; split_and!; [apply E|done|by intros []]|].
  unfold save_and_clear. pose proof (saveLocked_no_fault io (set_ports (<[name := port]> (sm_TCPPorts (s_m s))) true s) fs) as Hf.
  assert (s_dirty s = true ∨ Port s name ≠ port) as Hor by (destruct (s_dirty s); naive_solver).
  destruct (saveLocked _ _ _) as [[fs1 h] [e|]]; intros [= <- <- <-]; simpl in *; unfold Port; simpl.
  - rewrite lookup_insert_eq. split_and!; [done|by intros n Hn; rewrite lookup_insert_ne|]. intros _. split; [done|].
    intros Hn. by specialize (Hf Hn).
  - rewrite lookup_insert_eq. split_and!; [done|by intros n Hn; rewrite lookup_insert_ne|by intros []].
Qed.

(** The daemon has [port] in mind for [name]: in its store, and in the runtime
    once there is one. *)
Definition keeps (name : string) (port : Z) (host : string) (m : Runtimes) (w : World) : Prop :=
  a_host (rm_alloc m) = host ∧ (∃ st, w_state w = Some st ∧ Port st name = port) ∧
  ∀ rt, rm_runtimes m !! name = Some rt → rt_Frontend rt = mkFrontend host port "".

Lemma try_port_keeps io m w name port host n p w' r : keeps name port host m w →
  (n = name → p = port) → try_port io w n p = (w', r) → keeps name port host m w'.
Proof.
  intros (Ha & (st & Es & Ep) & Hr) Hn. unfold try_port. destruct (Listen io (w_bound w) p); [|by intros [= <- <-]; split_and!; eauto].
  rewrite Es. destruct (SetPort _ _ _ _ _) as [[s' fs'] err] eqn:E. apply SetPort_mind in E as (E1 & E2 & _).
  assert (Port s' name = port) as Ep' by (destruct (decide (n = name)) as [->|]; [rewrite E1; auto|by rewrite E2]).
  destruct err; intros [= <- <-]; (split_and!; [done|by exists s'|done]).
Qed.

(** A runtime for another service leaves the port in mind. *)
Lemma EnsureTCPRuntime_keeps_other io m w name port host n preferred m' w' r : keeps name port host m w → n ≠ name →
  EnsureTCPRuntime io m w n preferred = (m', w', r) → keeps name port host m' w'.
Proof.
  intros Hk Hn. unfold EnsureTCPRuntime. destruct (rm_runtimes m !! n); [by intros [= <- <- <-]|].
  destruct (Allocate_cases (rm_alloc m) io w n preferred)
    as [[_ ->]|(l1 & p & ln & l2 & wx & _ & _ & _ & [(-> & Et & _)|(st & -> & Et & _)])]; intros [= <- <- <-]; [done|..];
    apply (try_port_keeps _ m _ name port host) in Et as (Ha & Hs & Hr); try done.
  split_and!; [done..|]. intros rt. simpl. rewrite lookup_insert_ne by done. apply Hr.
Qed.

(** The runtime of the service itself gets the port, when that is free, unless
    the save of an earlier change is still due and fails once more. *)
Lemma EnsureTCPRuntime_gives_back io m w name port host preferred : keeps name port host m w → 0 < port ≤ 65535 →
  (rm_runtimes m !! name = None → io_free io port = true ∧ port ∉ w_bound w) →
  let '(m', w', r) := EnsureTCPRuntime io m w name preferred in
  keeps name port host m' w' ∧
  match r with
  | Ok rt => rt_Frontend rt = mkFrontend host port ""
  | Err e => (∃ st, e = ErrPersist st) ∧ (∃ st, w_state w = Some st ∧ s_dirty st = true) ∧ io_fault (io_save io) ≠ None
  end.
Proof.
  intros Hk Hport Hfree. pose proof Hk as (Ha & (st & Es & Ep) & Hr). unfold EnsureTCPRuntime.
  destruct (rm_runtimes m !! name) as [rt|] eqn:En; [by split; [|apply Hr]|]. destruct (Hfree eq_refl) as [Hf Hb].
  unfold Allocate. rewrite Es, Ep, decide_False by lia.
  destruct (try_port io w name port) as [w1 r1] eqn:Et. pose proof Et as Hk1. apply (try_port_keeps _ m _ name port host) in Hk1; [|done..].
  revert Et. unfold try_port. unfold Listen. rewrite (decide_False (P := port = 0)), decide_True by (try split_and!; done || lia).
  rewrite Es. destruct (SetPort _ _ _ _ _) as [[s' fs'] err] eqn:E. apply SetPort_mind in E as (_ & _ & Herr).
  destruct err as [e|]; intros [= <- <-].
  - split; [done|]. destruct (Herr ltac:(by eexists)) as [[Hd|Hd] Hfault]; [|done]. split_and!; [by eexists|by exists st|done].
  - destruct Hk1 as (_ & Hs1 & _). simpl. rewrite Ha. split; [|done]. split_and!; [done|done|].
    intros rt. simpl. rewrite lookup_insert_eq. by intros [= <-].
Qed.
End Store.

Section Restart.
Context `{JSON} `{Unicode} `{MapRange}.
Variables (name : string) (port : Z) (host : string).

Definition d_keeps (d : Daemon) : Prop := keeps name port host (d_Runtime d) (d_World d).

(** The service has its port, or finds it free. *)
Definition found_free (d : Daemon) (env : Env) : Prop :=
  rm_runtimes (d_Runtime d) !! name = None → io_free (e_alloc env) port = true ∧ port ∉ w_bound (d_World d).

(** A run in which the registrations of the service, as far as they get to a
    port, find its own free; everything else is as it likes. *)
Inductive kept_step : System → System → Prop :=
| kept_refused d dels ends iss lost p env d' e :
    request_ok p → env_ok d env → (p_Name p = name → found_free d env) → register_publish d p env = (d', Err e) →
    kept_step (mkSys d None dels ends iss lost) (mkSys d' None dels ends iss lost)
| kept_publish d dels ends iss lost p env d' pr f :
    request_ok p → env_ok d env → iss !! request_regID p env = None →
    (p_Name p = name → found_free d env) → register_publish d p env = (d', Ok (pr, f)) →
    kept_step (mkSys d None dels ends iss lost)
      (mkSys d' (Some (mkPublishing p pr f env)) dels ends (issue p env iss) lost)
| kept_other s s' :
    step s s' → d_Runtime (s_d s') = d_Runtime (s_d s) → d_World (s_d s') = d_World (s_d s) → kept_step s s'.

Lemma kept_is_step s s' : kept_step s s' → step s s'.
Proof. destruct 1; [by eapply step_refused|by eapply step_publish|done]. Qed.

Lemma kept_run s s' : rtc kept_step s s' → rtc step s s'.
Proof. induction 1; [apply rtc_refl|]. eapply rtc_l; [by apply kept_is_step|done]. Qed.

Hypothesis port_range : 0 < port ≤ 65535.

(** The frontend of a registration of any service. *)
Lemma assign_frontend_keeps_port d p pr env d' r : d_keeps d → (p_Name p = name → found_free d env) →
  assign_frontend d p pr env = (d', r) → d_keeps d'.
Proof.
  intros Hk Hfree. unfold assign_frontend. case_decide; [by intros [= <- <-]|].
  destruct (EnsureTCPRuntime _ _ _ _ _) as [[m w] r'] eqn:E. intros E'.
  assert (d_Runtime d' = m ∧ d_World d' = w) as [Em Ew] by (destruct r' as [|[]]; by injection E' as <- <-).
  unfold d_keeps. rewrite Em, Ew. destruct (decide (p_Name p = name)) as [En|En].
  - rewrite En in E. pose proof (EnsureTCPRuntime_gives_back (e_alloc env) _ _ _ _ _ (p_PreferredPort p) Hk port_range) as Hg.
    rewrite E in Hg. apply Hg. by apply Hfree.
  - by eapply EnsureTCPRuntime_keeps_other.
Qed.

Lemma register_publish_keeps d p env d' r : d_keeps d → (p_Name p = name → found_free d env) →
  register_publish d p env = (d', r) → d_keeps d'.
Proof.
  intros Hk Hfree. unfold register_publish. destruct (prepare d p env) as [pr|]; [|by intros [= <- <-]].
  destruct (retire_previous_fields d (p_Name p) pr) as (_ & E2 & E3 & _).
  destruct (assign_frontend _ _ _ _) as [d1 rf] eqn:Ea.
  apply assign_frontend_keeps_port in Ea; [|unfold d_keeps; by rewrite E2, E3|unfold found_free; by rewrite E2, E3].
  destruct rf as [f|]; [|by intros [= <- <-]].
  destruct (CreateOrReplaceOwned _ _ _) as [rg [?|]]; intros [= <- <-]; [|done]. unfold install_route. by case_decide.
Qed.

Lemma kept_step_keeps s s' : kept_step s s' → d_keeps (s_d s) → d_keeps (s_d s').
Proof.
  destruct 1 as [d dels ends iss lost p env d' e _ _ Hf E|d dels ends iss lost p env d' pr f _ _ _ Hf E|s s' _ E1 E2]; simpl; intros Hk.
  - by eapply register_publish_keeps.
  - by eapply register_publish_keeps.
  - unfold d_keeps. by rewrite E1, E2.
Qed.

Lemma kept_run_keeps s s' : rtc kept_step s s' → d_keeps (s_d s) → d_keeps (s_d s').
Proof. induction 1; eauto using kept_step_keeps. Qed.

(** The outcome of a registration of the service that passes the checks: its
    own port, or the error of a save that is due for the second time. *)
Definition comes_back (d : Daemon) (p : RegisterParams) (env : Env) : Prop :=
  match (Register d p env).2 with
  | Ok res => rr_Frontend res = mkFrontend host port ""
  | Err e => e = CodeInternal ∧ (∃ st, w_state (d_World d) = Some st ∧ s_dirty st = true) ∧
             io_fault (io_save (e_alloc env)) ≠ None
  end.

Lemma kept_registration d p env pr : d_keeps d → p_Name p = name → prepare d p env = Ok pr → pr_kind pr = KindTCP →
  found_free d env → is_Some (e_rand env) → comes_back d p env.
Proof.
  intros Hk Hn Hp Hkind Hfree Hrnd. unfold comes_back, Register. rewrite Hp. pose proof (commit_cases d p pr env Hp) as Hc.
  destruct (retire_previous_fields d (p_Name p) pr) as (_ & E2 & E3 & _).
  unfold assign_frontend in Hc. rewrite decide_False, E2, E3, Hn in Hc by by rewrite Hkind.
  pose proof (EnsureTCPRuntime_gives_back (e_alloc env) _ _ _ _ _ (p_PreferredPort p) Hk port_range Hfree) as Hg.
  destruct (EnsureTCPRuntime _ _ _ _ _) as [[m w] [rt|e]]; destruct Hg as [_ Hg].
  - rewrite Hc. destruct (grant_lease _ p pr _ env) as [d3 [res|e]] eqn:Eg; [|by apply grant_lease_token in Eg].
    apply grant_lease_Ok in Eg as (_ & _ & _ & _ & Ef & _). simpl. by rewrite Ef.
  - destruct Hg as ((st & ->) & Hd & Hf). rewrite Hc. by split_and!.
Qed.

(** A registration that has no failed save behind it, or whose own save works,
    succeeds. *)
Lemma comes_back_Ok d p env : comes_back d p env →
  (∀ st, w_state (d_World d) = Some st → s_dirty st = false) ∨ io_fault (io_save (e_alloc env)) = None →
  ∃ d3 res, Register d p env = (d3, Ok res) ∧ rr_Frontend res = mkFrontend host port "".
Proof.
  unfold comes_back. destruct (Register d p env) as [d3 [res|e]]; simpl; [by eauto|].
  intros (_ & (st & Es & Hd) & Hf) [Hc|?]; [|done]. specialize (Hc _ Es). congruence.
Qed.
End Restart.

Section Fresh.
Context `{JSON} `{Unicode} `{MapRange}.

(** A daemon that has just started keeps every port of its state file. *)
Lemma NewDaemon_keeps name port ports io fs cfg fs' lns d : c_StatePath cfg ≠ "" →
  reload (c_StatePath cfg) fs = Some ports → ports !! name = Some port →
  NewDaemon io fs cfg = (fs', lns, Ok d) → d_keeps name port (c_TCPFrontendHost cfg) d.
Proof.
  intros Hne Hrel Hpt HN.
  apply (NewDaemon_fresh _ _ _ _ _ _ (c_StatePath cfg)) in HN as (Hr & Ha & _ & _ & st & Es & _ & Hrel'); [|done..].
  rewrite Hrel in Hrel'. injection Hrel' as ->. split_and!; [done| |by rewrite Hr].
  exists st. split; [done|]. unfold Port, Snapshot in *. by rewrite Hpt.
Qed.

(** The ports a daemon has served, in the run of the next one. *)
Lemma restarted_keeps d nm rec io cfg fs' lns d2 s : daemon_inv d → d_Registry d !! nm = Some rec → r_Kind rec = KindTCP →
  s_path <$> w_state (d_World d) = Some (c_StatePath cfg) → c_StatePath cfg ≠ "" →
  c_TCPFrontendHost cfg = c_TCPFrontendHost (d_cfg d) →
  NewDaemon io (w_fs (d_World d)) cfg = (fs', lns, Ok d2) →
  rtc (kept_step nm (f_Port (r_Frontend rec))) (mkSys d2 None [] [] ∅ ∅) s →
  d_keeps nm (f_Port (r_Frontend rec)) (c_TCPFrontendHost cfg) (s_d s) ∧ 0 < f_Port (r_Frontend rec) ≤ 65535 ∧
  r_Frontend rec = mkFrontend (c_TCPFrontendHost cfg) (f_Port (r_Frontend rec)) "".
Proof.
  intros Hd Hrec Hk Hpath Hne Hhost HN Hrun.
  destruct (service_port_saved d nm rec Hd Hrec Hk) as (Ef & Hport & st & ports & Es & _ & Hrel & Hpt).
  rewrite Es in Hpath. injection Hpath as Hpath. rewrite Hpath in Hrel. split_and!; [|lia..|by rewrite Hhost].
  eapply kept_run_keeps; [done..|]. by eapply NewDaemon_keeps.
Qed.
End Fresh.
