(* ===== verification/DataPlane.v ===== *)
(** * The data plane: from a frontend's port to the backend of the moment

    The running system, the accept loops of its runtimes ([AcceptLoop.v]) and
    the forwarded connections ([TcpProxy.v]) on top of each other: the loop of
    a runtime asks the registry for the backend of its service, the worker it
    starts forwards the connection to that backend. *)

From S2P Require Import Prelude GoStrings GoNet Registry Lease State Runtime AcceptLoop TcpProxy Router Config Daemon DaemonInv DaemonSpec DaemonSystem.
From Stdlib Require Import Ascii.
Local Open Scope Z_scope.

(** A connection: the service whose frontend it came in on, and its number
    there. *)
Abbreviation conn := (string * nat)%type.

(** [dp_rts] has the runtimes that have done something, [dp_pipes] the
    connections whose backend has been dialed, with that backend. *)
Record Plane := mkPlane {
  dp_sys : System;
  dp_rts : gmap string AcceptLoop.State;
  dp_pipes : gmap conn (Backend * Pipe)
}.

Definition rt_of (x : Plane) (name : string) : AcceptLoop.State :=
  default NewServiceRuntime (dp_rts x !! name).

Definition set_rt (name : string) (s : AcceptLoop.State) (x : Plane) : Plane :=
  mkPlane (dp_sys x) (<[name := s]> (dp_rts x)) (dp_pipes x).

Definition set_pipe (k : conn) (p : Backend * Pipe) (x : Plane) : Plane :=
  mkPlane (dp_sys x) (dp_rts x) (<[k := p]> (dp_pipes x)).

(** The backend a runtime has looked up for a connection. *)
Definition routed (s : AcceptLoop.State) (c : nat) (b : Backend) : Prop :=
  st_loop s = HasBackend c b ∨ st_loop s = HasSlot c b ∨ ∃ pc, st_workers s !! c = Some (pc, b).

Section DataPlane.
Context `{JSON} `{Unicode} `{MapRange}.

Inductive plane_step : Plane → Plane → Prop :=
(* requests, the sweeper, the watcher *)
| plane_system x s' :
    step (dp_sys x) s' → plane_step x (mkPlane s' (dp_rts x) (dp_pipes x))
(* the accept loop of a runtime; its provider is the daemon's *)
| plane_loop x name rt accept :
    rm_runtimes (d_Runtime (s_d (dp_sys x))) !! name = Some rt →
    plane_step x (set_rt name (loop_step accept (backendProvider (s_d (dp_sys x)) name) (rt_of x name)) x)
(* [proxy.TCP] of a worker: the dial, which may fail *)
| plane_dial x name c b p :
    st_workers (rt_of x name) !! c = Some (Proxying, b) → dp_pipes x !! (name, c) = None →
    TCP true = Some p → plane_step x (set_pipe (name, c) (b, p) x)
| plane_dial_fails x name c b :
    st_workers (rt_of x name) !! c = Some (Proxying, b) → dp_pipes x !! (name, c) = None → TCP false = None →
    plane_step x (set_rt name (worker_step c (rt_of x name)) x)
(* bytes *)
| plane_forward x k b p p' :
    dp_pipes x !! k = Some (b, p) → pipe_step p p' → plane_step x (set_pipe k (b, p') x)
(* the end of a worker: after [TCP] has returned, then [endProxy] *)
| plane_returns x name c b p :
    dp_pipes x !! (name, c) = Some (b, p) → pi_client_closed p = true →
    plane_step x (set_rt name (worker_step c (rt_of x name)) x)
| plane_ends x name c pc b :
    st_workers (rt_of x name) !! c = Some (pc, b) → pc ≠ Proxying →
    plane_step x (set_rt name (worker_step c (rt_of x name)) x)
(* the shutdown of a runtime *)
| plane_close x name : plane_step x (set_rt name (close_step (rt_of x name)) x).

Definition plane_start (x : Plane) : Prop := init (dp_sys x) ∧ dp_rts x = ∅ ∧ dp_pipes x = ∅.

Lemma rt_of_set name s x n : rt_of (set_rt name s x) n = if decide (name = n) then s else rt_of x n.
Proof. unfold rt_of, set_rt. simpl. rewrite lookup_insert. by case_decide. Qed.

(** ** Where a backend comes from *)

Lemma routed_worker s c' c b : routed (worker_step c' s) c b → routed s c b.
Proof.
  unfold routed, worker_step. destruct (st_workers s !! c') as [[[] b']|] eqn:E; simpl; try done;
    intros [?|[?|[pc Hw]]]; try (by auto); right; right.
  all: first [apply lookup_insert_Some in Hw as [[<- [= _ <-]]|[_ ?]]|apply lookup_delete_Some in Hw as [_ ?]]; by eauto.
Qed.

Lemma routed_close s c b : routed (close_step s) c b → routed s c b.
Proof. unfold routed, close_step. by destruct (st_close s). Qed.

(** The loop adds only the backend it has just been given. *)
Lemma routed_loop a ob s c b : routed (loop_step a ob s) c b → routed s c b ∨ ob = Some b.
Proof.
  unfold routed, loop_step. destruct (st_loop s) as [|c'|c' b'|c' b'|] eqn:El; [| | | |rewrite El; auto].
  - destruct (a && listening s); [|destruct (AcceptLoop.closed s)]; simpl; rewrite ?El;
      intros [?|[?|?]]; try done; auto.
  - destruct ob as [b'|]; simpl; intros [Hr|[Hr|?]]; try done; auto. injection Hr as <- <-. auto.
  - case_decide; simpl; intros [Hr|[Hr|?]]; try done; auto. injection Hr as <- <-. auto.
  - destruct (AcceptLoop.closed s); simpl; intros [?|[?|Hw]]; try done; auto.
    destruct Hw as [pc [[<- [= _ <-]]|[_ ?]]%lookup_insert_Some]; [auto|]. left. right. right. by exists pc.
Qed.

(** The service of [name] was ready with backend [b], at the frontend of the
    runtime that is [name]'s alone. *)
Definition served_by (x : Plane) (name : string) (b : Backend) : Prop :=
  ∃ rec rt, Resolve (d_Registry (s_d (dp_sys x))) name = Some rec ∧ r_Status rec = StatusReady ∧ r_Backend rec = Some b ∧
    backend_ok b ∧
    rm_runtimes (d_Runtime (s_d (dp_sys x))) !! name = Some rt ∧ rt_listener rt ∈ w_bound (d_World (s_d (dp_sys x))) ∧
    ∀ name' rt', rm_runtimes (d_Runtime (s_d (dp_sys x))) !! name' = Some rt' → rt_listener rt' = rt_listener rt → name' = name.

(** At some moment of the run it was. *)
Definition was_served (x0 x : Plane) (name : string) (b : Backend) : Prop :=
  ∃ y, rtc plane_step x0 y ∧ rtc plane_step y x ∧ served_by y name b.

Lemma was_served_later x0 x x' name b : was_served x0 x name b → plane_step x x' → was_served x0 x' name b.
Proof. intros (y & H1' & H2' & Hs) Hst. exists y. split_and!; [done|by eapply rtc_r|done]. Qed.

(** What the provider of a runtime returns. *)
Lemma provider_serves x name rt b : sys_inv (dp_sys x) →
  rm_runtimes (d_Runtime (s_d (dp_sys x))) !! name = Some rt →
  backendProvider (s_d (dp_sys x)) name = Some b → served_by x name b.
Proof.
  intros Hs Hrt Hb. pose proof (si_daemon _ Hs) as Hd. unfold backendProvider in Hb.
  destruct (Resolve _ name) as [rec|] eqn:Er; [|done]. case_decide as Hst; [done|].
  destruct (inv_services _ Hd _ _ Er) as (_ & _ & Hok & _). destruct (inv_runtimes _ Hd) as [Hrts Huniq].
  destruct (Hrts _ _ Hrt) as (_ & _ & _ & Hbound).
  exists rec, rt. split_and!; try done; [by apply Hok|].
  intros name' rt' Hrt' E. by eapply Huniq.
Qed.

Record plane_inv (x0 x : Plane) : Prop := mkPlaneInv {
  pl_sys : sys_inv (dp_sys x);
  pl_routed : ∀ name c b, routed (rt_of x name) c b → was_served x0 x name b;
  pl_pipes : ∀ name c b p, dp_pipes x !! (name, c) = Some (b, p) → was_served x0 x name b ∧ pipe_reachable p
}.

Lemma plane_inv_start x0 : plane_start x0 → plane_inv x0 x0.
Proof.
  intros (Hi & Er & Ep). split; [by apply init_inv| |].
  - intros name c b. unfold rt_of. rewrite Er, lookup_empty. simpl. unfold routed. simpl.
    intros [?|[?|[pc Hw]]]; [done..|]. by rewrite lookup_empty in Hw.
  - intros name c b p Hp. by rewrite Ep, lookup_empty in Hp.
Qed.

(** A step of one runtime. *)
Lemma plane_inv_rt x0 x x' name s : plane_inv x0 x → plane_step x x' → x' = set_rt name s x →
  (∀ c b, routed s c b → routed (rt_of x name) c b ∨ served_by x name b) → rtc plane_step x0 x →
  plane_inv x0 x'.
Proof.
  intros [Hs Hr Hp] Hst -> Hrt Hrun. split; [done| |].
  - intros n c b. rewrite rt_of_set. case_decide as En; [subst n|intros ?; eapply was_served_later; eauto].
    intros [?|?]%Hrt; [eapply was_served_later; eauto|]. exists x. split_and!; [done|by apply rtc_once|done].
  - intros n c b p Hn. destruct (Hp n c b p Hn) as [? ?]. split; [by eapply was_served_later|done].
Qed.

Lemma plane_inv_pipe x0 x x' name c b p : plane_inv x0 x → plane_step x x' → x' = set_pipe (name, c) (b, p) x →
  was_served x0 x name b → pipe_reachable p → plane_inv x0 x'.
Proof.
  intros [Hs Hr Hp] Hst -> Hw Hreach. split; [done| |].
  - intros n c' b' ?. eapply was_served_later; [|done]. by apply (Hr n c').
  - intros n c' b' p' Hl. unfold set_pipe in Hl. simpl in Hl.
    apply lookup_insert_Some in Hl as [[[= <- <-] [= <- <-]]|[_ Hn]].
    + split; [by eapply was_served_later|done].
    + destruct (Hp _ _ _ _ Hn). split; [by eapply was_served_later|done].
Qed.

Lemma plane_inv_step x0 x x' : rtc plane_step x0 x → plane_step x x' → plane_inv x0 x → plane_inv x0 x'.
Proof.
  intros Hrun Hst Hx. pose proof Hst as Hst'.
  destruct Hst' as [x s' Hs|x name rt accept Hrt|x name c b p Hw Hn Hd|x name c b Hw Hn Hd|x [name c] b p p' Hk Hp
    |x name c b p Hk Hc|x name c pc b Hw Hpc|x name].
  - destruct Hx as [Hi Hr Hp]. split; [by eapply step_inv| |].
    + intros name c b ?. eapply was_served_later; [|done]. by apply (Hr name c).
    + intros name c b p ?. destruct (Hp name c b p) as [? ?]; [done|]. split; [by eapply was_served_later|done].
  - eapply plane_inv_rt; [exact Hx|exact Hst|done| |exact Hrun].
    intros c b [?|Hb]%routed_loop; [by left|right]. eapply provider_serves; [apply Hx|done..].
  - eapply plane_inv_pipe; [exact Hx|exact Hst|done| |].
    + apply (pl_routed _ _ Hx name c). right. right. by eexists.
    + exists p. split; [done|apply rtc_refl].
  - eapply plane_inv_rt; [exact Hx|exact Hst|done| |exact Hrun]. intros c' b' ?%routed_worker. by left.
  - destruct (pl_pipes _ _ Hx _ _ _ _ Hk) as [? (p0 & ? & ?)].
    eapply plane_inv_pipe; [exact Hx|exact Hst|done|done|]. exists p0. split; [done|by eapply rtc_r].
  - eapply plane_inv_rt; [exact Hx|exact Hst|done| |exact Hrun]. intros c' b' ?%routed_worker. by left.
  - eapply plane_inv_rt; [exact Hx|exact Hst|done| |exact Hrun]. intros c' b' ?%routed_worker. by left.
  - eapply plane_inv_rt; [exact Hx|exact Hst|done| |exact Hrun]. intros c' b' ?%routed_close. by left.
Qed.

Lemma plane_run_inv x0 x : plane_start x0 → rtc plane_step x0 x → plane_inv x0 x.
Proof.
  intros H0'. revert x. apply (rtc_ind_r (plane_inv x0)); [by apply plane_inv_start|].
  intros y z Hy Hyz ?. by eapply plane_inv_step.
Qed.

(** C17: In every interleaving of the running daemon with the accept loops and the proxy
    workers, a connection that comes in on the frontend of a service is forwarded to a loopback
    backend that this very service had while it was ready, through the port that only its
    runtime listens on, and to no other; each side is given a prefix of the bytes the other side
    sent, all of them before the end of the stream unless a connection failed, and the two
    connections are closed together, after both directions have ended. *)
Theorem connections_reach_the_service x0 x name c b p :
  plane_start x0 → rtc plane_step x0 x → dp_pipes x !! (name, c) = Some (b, p) →
  (∃ y, rtc plane_step x0 y ∧ rtc plane_step y x ∧ served_by y name b) ∧
  (∀ f, f = pi_up p ∨ f = pi_down p →
     fl_delivered f `prefix_of` fl_sent f ∧
     (fl_fin f = true → fl_broken f = true ∨ (fl_eof f = true ∧ fl_delivered f = fl_sent f))) ∧
  (pi_client_closed p = true ∨ pi_upstream_closed p = true →
     pi_client_closed p = true ∧ pi_upstream_closed p = true ∧
     fl_fin (pi_up p) = true ∧ fl_fin (pi_down p) = true).
Proof.
  intros H0' Hrun Hp. destruct (pl_pipes _ _ (plane_run_inv _ _ H0' Hrun) _ _ _ _ Hp) as [Hs Hr].
  split; [done|]. by apply forwarder_is_transparent.
Qed.
End DataPlane.
