(* ===== verification/Forwarding.v ===== *)
(** * What becomes of an accepted connection

    The connections that the accept loop of a frontend takes in while the
    provider of its service returns one backend: where they go, that each of
    them is on its way there, forwarded, or was turned away for one of three
    reasons, and that one on its way can always be brought there. *)

From S2P Require Import Prelude GoStrings GoNet Registry Lease State Runtime AcceptLoop TcpProxy Router Config Daemon DaemonInv DaemonSpec DaemonSystem DataPlane.
From Stdlib Require Import Ascii.
Local Open Scope Z_scope.

Section Forwarding.
Context `{JSON} `{Unicode} `{MapRange}.

(** ** Connections are numbered upwards *)

(** Every runtime is in a state its own steps reach, and what is known of a
    connection is known of one that has been accepted. *)
Definition numbered (rt : string → AcceptLoop.State) (pipes : gmap conn (Backend * Pipe)) : Prop :=
  ∀ name, AcceptLoop.reachable (rt name) ∧
    ∀ c bp, pipes !! (name, c) = Some bp → (c < st_accepted (rt name))%nat.

Lemma loop_accepted a ob s : (st_accepted s ≤ st_accepted (loop_step a ob s))%nat.
Proof. unfold loop_step. repeat case_match; simpl; lia. Qed.

Lemma worker_accepted c s : st_accepted (worker_step c s) = st_accepted s.
Proof. unfold worker_step. by repeat case_match. Qed.

Lemma close_accepted s : st_accepted (close_step s) = st_accepted s.
Proof. unfold close_step. by destruct (st_close s). Qed.

Lemma routed_accepted s c b : AcceptLoop.reachable s → routed s c b → (c < st_accepted s)%nat.
Proof.
  intros Hs%runtime_reachable_inv [E|[E|[pc Hw]]].
  - apply (AcceptLoop.inv_fresh s Hs). by rewrite E.
  - apply (AcceptLoop.inv_fresh s Hs). by rewrite E.
  - exact (AcceptLoop.inv_old s Hs _ _ Hw).
Qed.

Lemma runtime_step_accepted s s' : AcceptLoop.step s s' → (st_accepted s ≤ st_accepted s')%nat.
Proof. destruct 1; [apply loop_accepted|by rewrite worker_accepted|by rewrite close_accepted]. Qed.

Lemma numbered_rt x name s : numbered (rt_of x) (dp_pipes x) → AcceptLoop.step (rt_of x name) s →
  numbered (rt_of (set_rt name s x)) (dp_pipes (set_rt name s x)).
Proof.
  intros Hn Hst n. rewrite rt_of_set. destruct (Hn n) as [Hr Hp]. case_decide; [subst n|done].
  split; [by eapply rtc_r|]. intros c bp ?%Hp. apply runtime_step_accepted in Hst. lia.
Qed.

Lemma numbered_pipe x name c bp : numbered (rt_of x) (dp_pipes x) → (c < st_accepted (rt_of x name))%nat →
  numbered (rt_of (set_pipe (name, c) bp x)) (dp_pipes (set_pipe (name, c) bp x)).
Proof.
  intros Hn Hc n. destruct (Hn n) as [Hr Hp]. split; [done|]. intros c' bp' Hl. simpl in Hl.
  apply lookup_insert_Some in Hl as [[[= <- <-] _]|[_ ?]]; [done|by eapply Hp].
Qed.

Lemma plane_numbered x x' : plane_step x x' → numbered (rt_of x) (dp_pipes x) → numbered (rt_of x') (dp_pipes x').
Proof.
  intros Hst Hn. destruct Hst as [x s' Hs|x name rt accept Hrt|x name c b p Hw Hno Hd|x name c b Hw Hno Hd|x [name c] b p p' Hk Hp
    |x name c b p Hk Hc|x name c pc b Hw Hpc|x name]; try (by apply numbered_rt; [|constructor]).
  - done.
  - apply numbered_pipe; [done|]. apply (routed_accepted _ _ b); [apply (Hn name)|]. right. right. by eexists.
  - apply numbered_pipe; [done|]. by eapply Hn.
Qed.

Lemma plane_run_numbered x0 x : plane_start x0 → rtc plane_step x0 x → numbered (rt_of x) (dp_pipes x).
Proof.
  intros (_ & Er & Ep) Hr. assert (numbered (rt_of x0) (dp_pipes x0)) as H0'.
  { intros n. unfold rt_of. rewrite Er, Ep. split; [apply rtc_refl|done]. }
  clear Er Ep. induction Hr; eauto using plane_numbered.
Qed.

(** ** Runs *)

Lemma system_run_plane x s' : rtc step (dp_sys x) s' → rtc plane_step x (mkPlane s' (dp_rts x) (dp_pipes x)).
Proof.
  intros Hr. remember (dp_sys x) as s eqn:E. revert x E. induction Hr as [s|s s1 s' Hst Hr IH]; intros x ->.
  - destruct x. apply rtc_refl.
  - eapply rtc_l; [by apply plane_system|]. by apply (IH (mkPlane s1 (dp_rts x) (dp_pipes x))).
Qed.

Lemma plane_run_system x x' : rtc plane_step x x' → rtc step (dp_sys x) (dp_sys x').
Proof.
  induction 1 as [|x y z Hst _ IH]; [apply rtc_refl|]. etrans; [|exact IH].
  destruct Hst; try apply rtc_refl. by apply rtc_once.
Qed.

(** ** The connections accepted from a moment on *)

(** Every connection from number [base] on that has a backend has [b]. *)
Definition all_to (name : string) (base : nat) (b : Backend) (x : Plane) : Prop :=
  ∀ c, (base ≤ c)%nat →
    (∀ b', routed (rt_of x name) c b' → b' = b) ∧
    (∀ b' p, dp_pipes x !! (name, c) = Some (b', p) → b' = b ∧ pipe_reachable p).

Lemma all_to_start x name b : numbered (rt_of x) (dp_pipes x) → all_to name (st_accepted (rt_of x name)) b x.
Proof.
  intros Hn c Hc. destruct (Hn name) as [Hr Hp]. split.
  - intros b' Hb%routed_accepted; [lia|done].
  - intros b' p ?%Hp. lia.
Qed.

Lemma all_to_rt name base b x n s : all_to name base b x →
  (n = name → ∀ c b', routed s c b' → routed (rt_of x name) c b' ∨ b' = b) → all_to name base b (set_rt n s x).
Proof.
  intros Ha Hs c Hc. destruct (Ha c Hc) as [Hr Hp]. split; [|done].
  intros b'. rewrite rt_of_set. case_decide; [|auto]. intros [?|?]%(Hs ltac:(done)); auto.
Qed.

Lemma all_to_pipe name base b x n c b' p : all_to name base b x →
  (n = name → (base ≤ c)%nat → b' = b ∧ pipe_reachable p) → all_to name base b (set_pipe (n, c) (b', p) x).
Proof.
  intros Ha Hp c' Hc. destruct (Ha c' Hc) as [Hr Hps]. split; [done|]. intros b1 p1 Hl. simpl in Hl.
  apply lookup_insert_Some in Hl as [[[= -> ->] [= <- <-]]|[_ ?]]; [by apply Hp|by apply Hps].
Qed.

(** While the provider of a runtime returns one backend, that is where its
    connections go. *)
Lemma all_to_step name base b x x' : backendProvider (s_d (dp_sys x)) name = Some b →
  plane_step x x' → all_to name base b x → all_to name base b x'.
Proof.
  intros Hb Hst Ha. destruct Hst as [x s' Hs|x n rt accept Hrt|x n c b0 p Hw Hno Hd|x n c b0 Hw Hno Hd|x [n c] b0 p p' Hk Hp
    |x n c b0 p Hk Hc|x n c pc b0 Hw Hpc|x n].
  - done.
  - apply all_to_rt; [done|]. intros -> c b' [?|Hr]%routed_loop; [by left|right; congruence].
  - apply all_to_pipe; [done|]. intros -> Hc. split.
    + apply (proj1 (Ha c Hc)). right. right. by eexists.
    + exists p. split; [done|apply rtc_refl].
  - apply all_to_rt; [done|]. intros -> c' b' ?%routed_worker. by left.
  - apply all_to_pipe; [done|]. intros -> Hc. destruct (proj2 (Ha c Hc) _ _ Hk) as [-> (p0 & ? & ?)].
    split; [done|]. exists p0. split; [done|by eapply rtc_r].
  - apply all_to_rt; [done|]. intros -> c' b' ?%routed_worker. by left.
  - apply all_to_rt; [done|]. intros -> c' b' ?%routed_worker. by left.
  - apply all_to_rt; [done|]. intros -> c' b' ?%routed_close. by left.
Qed.

(** ** No connection is lost on the way

    Where a connection is before its backend has been dialed. *)
Definition on_its_way (s : AcceptLoop.State) (c : nat) (b : Backend) : Prop :=
  st_loop s = GotClient c ∨ st_loop s = HasBackend c b ∨ st_loop s = HasSlot c b ∨
  st_workers s !! c = Some (Proxying, b).

(** The three steps by which the program closes an accepted connection without
    forwarding it, though its service has a backend. *)
Inductive turned_away (name : string) (c : nat) (b : Backend) : Plane → Plane → Prop :=
(* all slots of the frontend are taken *)
| away_full y accept ob :
    st_loop (rt_of y name) = HasBackend c b → (sem_capacity ≤ st_sem (rt_of y name))%nat →
    turned_away name c b y (set_rt name (loop_step accept ob (rt_of y name)) y)
(* the frontend is being closed *)
| away_closing y accept ob :
    st_loop (rt_of y name) = HasSlot c b → AcceptLoop.closed (rt_of y name) = true →
    turned_away name c b y (set_rt name (loop_step accept ob (rt_of y name)) y)
(* the dial to the backend fails *)
| away_dial y :
    st_workers (rt_of y name) !! c = Some (Proxying, b) → dp_pipes y !! (name, c) = None → TCP false = None →
    turned_away name c b y (set_rt name (worker_step c (rt_of y name)) y).

(** Such a step happened between [x0] and [x]. *)
Definition was_turned_away (x0 x : Plane) (name : string) (c : nat) (b : Backend) : Prop :=
  ∃ y y', rtc plane_step x0 y ∧ turned_away name c b y y' ∧ plane_step y y' ∧ rtc plane_step y' x.

Definition forwarded (x : Plane) (name : string) (c : nat) (b : Backend) : Prop :=
  ∃ p, dp_pipes x !! (name, c) = Some (b, p).

Definition connection_ok (x0 x : Plane) (name : string) (b : Backend) (c : nat) : Prop :=
  forwarded x name c b ∨ on_its_way (rt_of x name) c b ∨ was_turned_away x0 x name c b.

(** The connections accepted from number [base] on. *)
Definition accounted (x0 x : Plane) (name : string) (base : nat) (b : Backend) : Prop :=
  ∀ c, (base ≤ c < st_accepted (rt_of x name))%nat → connection_ok x0 x name b c.

Lemma was_turned_away_later x0 x x' name c b :
  was_turned_away x0 x name c b → rtc plane_step x x' → was_turned_away x0 x' name c b.
Proof. intros (y & y' & Hy & Ht & Hst & Hyx) Hr. exists y, y'. split_and!; [done..|by etrans]. Qed.

(** A step that keeps a connection where it is. *)
Lemma connection_later x0 x x' name b c : rtc plane_step x x' →
  (forwarded x name c b → forwarded x' name c b) →
  (on_its_way (rt_of x name) c b → connection_ok x0 x' name b c) →
  connection_ok x0 x name b c → connection_ok x0 x' name b c.
Proof.
  intros Hr Hf Hw [?|[?|?]]; [by left; apply Hf|by apply Hw|right; right; by eapply was_turned_away_later].
Qed.

(** A worker that does not leave [Proxying] keeps every connection on its way,
    and one that does keeps the others. *)
Lemma on_its_way_worker s c' c b : on_its_way s c b →
  on_its_way (worker_step c' s) c b ∨ (c' = c ∧ st_workers s !! c = Some (Proxying, b)).
Proof.
  unfold on_its_way. intros Hw. assert (st_loop (worker_step c' s) = st_loop s) as ->
    by (unfold worker_step; by repeat case_match).
  destruct Hw as [?|[?|[?|Hw]]]; [by auto..|]. destruct (decide (c' = c)) as [->|Hne]; [by right|left].
  right. right. right. unfold worker_step. destruct (st_workers s !! c') as [[[] b']|]; simpl;
    by rewrite ?lookup_insert_ne, ?lookup_delete_ne.
Qed.

Lemma on_its_way_close s c b : on_its_way s c b → on_its_way (close_step s) c b.
Proof. unfold on_its_way, close_step. by destruct (st_close s). Qed.

(** The accept loop brings a connection one step further, or turns it away. *)
Lemma connection_loop x0 x name b c accept : rtc plane_step x0 x →
  (∀ b', routed (rt_of x name) c b' → b' = b) →
  plane_step x (set_rt name (loop_step accept (Some b) (rt_of x name)) x) →
  on_its_way (rt_of x name) c b →
  connection_ok x0 (set_rt name (loop_step accept (Some b) (rt_of x name)) x) name b c.
Proof.
  intros Hrun Hto Hst Hw.
  assert (∀ y', turned_away name c b x y' → plane_step x y' → was_turned_away x0 y' name c b) as Haway
    by (intros y' ? ?; exists x, y'; split_and!; [done..|apply rtc_refl]).
  unfold connection_ok. rewrite rt_of_set, decide_True by done.
  destruct Hw as [E|[E|[E|E]]].
  - right. left. right. left. unfold loop_step. by rewrite E.
  - destruct (decide (st_sem (rt_of x name) < sem_capacity)%nat) as [Hs|Hs].
    + right. left. right. right. left. unfold loop_step. rewrite E. by case_decide.
    + right. right. apply Haway; [|done]. apply away_full; [done|lia].
  - destruct (AcceptLoop.closed (rt_of x name)) eqn:Ecl.
    + right. right. apply Haway; [|done]. by apply away_closing.
    + right. left. right. right. right. unfold loop_step. rewrite E, Ecl. simpl. apply lookup_insert_eq.
  - right. left. right. right. right. unfold loop_step. destruct (st_loop _) as [|c'|c' b'|c' b'|] eqn:El; repeat case_match; simpl; try done.
    rewrite lookup_insert. case_decide; [|done]. subst c'. assert (b' = b) as ->; [|done].
    apply Hto. right. by left.
Qed.

(** A connection the loop has just accepted. *)
Lemma connection_accepted s accept c ob :
  (c < st_accepted (loop_step accept ob s))%nat → (c < st_accepted s)%nat ∨ st_loop (loop_step accept ob s) = GotClient c.
Proof.
  unfold loop_step. destruct (st_loop s); repeat case_match; simpl; intros Hc; auto.
  destruct (decide (c = st_accepted s)) as [->|]; [by right|left; lia].
Qed.

Lemma accounted_step x0 x x' name base b : rtc plane_step x0 x → backendProvider (s_d (dp_sys x)) name = Some b →
  all_to name base b x → plane_step x x' → accounted x0 x name base b → accounted x0 x' name base b.
Proof.
  intros Hrun Hb Hto Hst Ha c Hc. pose proof Hst as Hst'.
  assert (∀ n s, x' = set_rt n s x → n ≠ name → connection_ok x0 x' name b c) as Hother.
  { intros n s -> Hn. assert (rt_of (set_rt n s x) name = rt_of x name) as E by (rewrite rt_of_set; by case_decide).
    rewrite E in Hc. apply (connection_later x0 x); [by apply rtc_once|done| |by apply Ha].
    intros ?. right. left. by rewrite E. }
  assert (∀ n c', x' = set_rt n (worker_step c' (rt_of x n)) x →
    (n = name → c' = c → st_workers (rt_of x name) !! c = Some (Proxying, b) → connection_ok x0 x' name b c) →
    connection_ok x0 x' name b c) as Hworker.
  { intros n c' E Hmine. destruct (decide (n = name)) as [->|]; [|by eapply Hother].
    assert (rt_of x' name = worker_step c' (rt_of x name)) as E' by (rewrite E, rt_of_set; by case_decide).
    rewrite E', worker_accepted in Hc. apply (connection_later x0 x); [by apply rtc_once|by rewrite E| |by apply Ha].
    intros [Hw|[-> Hw]]%(on_its_way_worker _ c'); [right; left; by rewrite E'|by apply Hmine]. }
  assert (∀ k b0 p, x' = set_pipe k (b0, p) x → (k = (name, c) → (base ≤ c)%nat → b0 = b) → connection_ok x0 x' name b c) as Hpipe.
  { intros k b0 p -> Hk. apply (connection_later x0 x); [by apply rtc_once| |intros ?; right; by left|by apply Ha].
    intros [p' Hp']. unfold forwarded. simpl. rewrite lookup_insert. case_decide as E; [|by exists p'].
    rewrite (Hk E) by lia. by exists p. }
  destruct Hst' as [x s' Hs|x n rt accept Hrt|x n c0 b0 p Hw Hno Hd|x n c0 b0 Hw Hno Hd|x [n c0] b0 p p' Hk Hp
    |x n c0 b0 p Hk Hcl|x n c0 pc b0 Hw Hpc|x n].
  - apply (connection_later x0 x); [by apply rtc_once|done|intros ?; right; by left|by apply Ha].
  - destruct (decide (n = name)) as [->|]; [|by eapply Hother]. rewrite Hb in *.
    rewrite rt_of_set, decide_True in Hc by done.
    destruct (connection_accepted (rt_of x name) accept c (Some b)) as [Hlt|E]; [lia| |].
    + apply (connection_later x0 x); [by apply rtc_once|done| |apply Ha; lia].
      intros Hw. apply connection_loop; [done| |done..]. apply Hto. lia.
    + right. left. left. by rewrite rt_of_set, decide_True.
  - eapply Hpipe; [done|]. intros [= -> ->] Hbase. apply (proj1 (Hto c Hbase)). right. right. by eexists.
  - eapply Hworker; [done|]. intros -> -> Hw'. right. right.
    exists x, (set_rt name (worker_step c (rt_of x name)) x). split_and!; [done| |done|apply rtc_refl]. by apply away_dial.
  - eapply Hpipe; [done|]. intros [= -> ->] Hbase. by apply (proj2 (Hto c Hbase) b0 p).
  - eapply Hworker; [done|]. intros -> -> Hw'. left. exists p. simpl. rewrite Hk.
    assert ((base ≤ c)%nat) as Hbase by lia. by rewrite (proj1 (proj2 (Hto c Hbase) _ _ Hk)).
  - eapply Hworker; [done|]. intros -> -> Hw'. rewrite Hw' in Hw. naive_solver.
  - destruct (decide (n = name)) as [->|]; [|by eapply Hother].
    rewrite rt_of_set, decide_True, close_accepted in Hc by done.
    apply (connection_later x0 x); [by apply rtc_once|done| |by apply Ha].
    intros ?. right. left. rewrite rt_of_set, decide_True by done. by apply on_its_way_close.
Qed.

(** The system's own steps move no connection. *)
Lemma accounted_system x0 x s' name base b : rtc plane_step x (mkPlane s' (dp_rts x) (dp_pipes x)) →
  accounted x0 x name base b → accounted x0 (mkPlane s' (dp_rts x) (dp_pipes x)) name base b.
Proof.
  intros Hr Ha c Hc. apply (connection_later x0 x); [done|done|intros ?; right; by left|]. by apply Ha.
Qed.

Lemma accounted_start x name b : accounted x x name (st_accepted (rt_of x name)) b.
Proof. intros c Hc. lia. Qed.

(** ** A connection can always be brought to its backend *)

(** A step of the data plane. *)
Definition plane_own (x x' : Plane) : Prop := plane_step x x' ∧ dp_sys x' = dp_sys x.

Lemma own_rt x name s : plane_step x (set_rt name s x) → plane_own x (set_rt name s x).
Proof. by split. Qed.

(** From wherever it is, in at most four steps of its own: while the frontend
    is open and has a free slot, and its backend answers the dial. *)
Lemma connection_gets_through x name rt b c :
  rm_runtimes (d_Runtime (s_d (dp_sys x))) !! name = Some rt → backendProvider (s_d (dp_sys x)) name = Some b →
  AcceptLoop.closed (rt_of x name) = false → (st_sem (rt_of x name) < sem_capacity)%nat →
  (∀ b' p, dp_pipes x !! (name, c) = Some (b', p) → b' = b) →
  on_its_way (rt_of x name) c b → ∃ x', rtc plane_own x x' ∧ forwarded x' name c b.
Proof.
  intros Hrt Hb.
  assert (∀ y, dp_sys y = dp_sys x → (∀ b' p, dp_pipes y !! (name, c) = Some (b', p) → b' = b) →
    st_workers (rt_of y name) !! c = Some (Proxying, b) →
    ∃ x', rtc plane_own y x' ∧ forwarded x' name c b) as H4.
  { intros y _ Hp Hw. destruct (dp_pipes y !! (name, c)) as [[b' p]|] eqn:Ep.
    - exists y. split; [apply rtc_refl|]. exists p. by rewrite Ep, (Hp b' p).
    - exists (set_pipe (name, c) (b, mkPipe new_flow new_flow false false) y). split.
      + apply rtc_once. split; [|done]. by apply plane_dial.
      + eexists. apply lookup_insert_eq. }
  assert (∀ y s, dp_sys y = dp_sys x → s = loop_step true (Some b) (rt_of y name) →
    plane_own y (set_rt name s y)) as Hloop.
  { intros y s E ->. apply own_rt. rewrite <-Hb, <-E. apply (plane_loop y name rt). by rewrite E. }
  assert (∀ y, dp_sys y = dp_sys x → (∀ b' p, dp_pipes y !! (name, c) = Some (b', p) → b' = b) →
    AcceptLoop.closed (rt_of y name) = false → st_loop (rt_of y name) = HasSlot c b →
    ∃ x', rtc plane_own y x' ∧ forwarded x' name c b) as H3.
  { intros y E Hp Hcl El. destruct (H4 (set_rt name (loop_step true (Some b) (rt_of y name)) y)) as (x' & Hx & ?); [done..| |].
    - rewrite rt_of_set, decide_True by done. unfold loop_step. rewrite El, Hcl. simpl. apply lookup_insert_eq.
    - exists x'. split; [|done]. eapply rtc_l; [by apply Hloop|done]. }
  assert (∀ y, dp_sys y = dp_sys x → (∀ b' p, dp_pipes y !! (name, c) = Some (b', p) → b' = b) →
    AcceptLoop.closed (rt_of y name) = false → (st_sem (rt_of y name) < sem_capacity)%nat →
    st_loop (rt_of y name) = HasBackend c b →
    ∃ x', rtc plane_own y x' ∧ forwarded x' name c b) as H2.
  { intros y E Hp Hcl Hsem El. destruct (H3 (set_rt name (loop_step true (Some b) (rt_of y name)) y)) as (x' & Hx & ?); [done..| | |].
    1-2: rewrite rt_of_set, decide_True by done; unfold loop_step; rewrite El; by rewrite decide_True.
    exists x'. split; [|done]. eapply rtc_l; [by apply Hloop|done]. }
  intros Hcl Hsem Hp [El|[El|[El|Hw]]]; [|by apply H2|by apply H3|by apply H4].
  destruct (H2 (set_rt name (loop_step true (Some b) (rt_of x name)) x)) as (x' & Hx & ?); [done..| | | |].
  1-3: rewrite rt_of_set, decide_True by done; unfold loop_step; by rewrite El.
  exists x'. split; [|done]. eapply rtc_l; [by apply Hloop|done].
Qed.
End Forwarding.
