(* ===== verification/HttpPlane.v ===== *)
(** * HTTP requests in the running system

    A request that comes in on the shared HTTP or HTTPS listener goes through
    [ServeHTTP] of proxy/http.go in steps of its own: the table of routes is
    read under the router's lock, then the provider of the route reads the
    registry, then the reverse proxy rewrites the request and sends it.
    Between any two of them the system ([DaemonSystem.v]) and other requests
    take steps.  [registerLocked] creates the record before it installs the
    route; a request that reads the table in between counts as routed before
    the publication. *)

From S2P Require Import Prelude GoStrings GoNet GoUrl Registry Lease State Runtime Router Config Daemon DaemonInv DaemonSpec DaemonSystem.
From Stdlib Require Import Ascii.
Local Open Scope Z_scope.

(** What the client gets. *)
Inductive Answer :=
| NoRoute                                   (* 404 *)
| NoBackend                                 (* 503 *)
| BadGateway (out : outRequest)             (* 502, [ErrorHandler] *)
| Relayed (out : outRequest) (status : Z).  (* what the backend said *)

(** Where [ServeHTTP] is with a request: before the table, past it with the
    provider (the name it was made for), past the provider with the snapshot,
    in [ReverseProxy.ServeHTTP] with the request sent, done. *)
Inductive http_phase :=
| Arrived
| HasRoute (provider : string)
| HasSnapshot (provider : string) (snap : routeSnapshot)
| Sent (provider : string) (out : outRequest)
| Answered (answer : Answer).

Record HttpPlane := mkHttpPlane {
  ht_sys : System;
  ht_reqs : gmap nat (inRequest * http_phase)
}.

Definition set_req (i : nat) (req : inRequest) (ph : http_phase) (x : HttpPlane) : HttpPlane :=
  mkHttpPlane (ht_sys x) (<[i := (req, ph)]> (ht_reqs x)).

Section HttpPlane.
Context `{JSON} `{Unicode} `{MapRange}.

(** The two reads of [ServeHTTP]. *)
Definition read_route (r : Router string) (req : inRequest) : http_phase :=
  match ro_routes r !! normalizeHost (in_Host req) with
  | None => Answered NoRoute
  | Some hp => HasRoute (hp_provider hp)
  end.

Definition read_backend (d : Daemon) (req : inRequest) (provider : string) : http_phase :=
  match backendProvider d provider with
  | None => Answered NoBackend
  | Some backend => HasSnapshot provider (mkSnapshot backend (normalizeHost (in_Host req)))
  end.

Inductive http_step : HttpPlane → HttpPlane → Prop :=
| http_system x s' : step (ht_sys x) s' → http_step x (mkHttpPlane s' (ht_reqs x))
| http_arrives x i req : ht_reqs x !! i = None → http_step x (set_req i req Arrived x)
| http_routed x i req :
    ht_reqs x !! i = Some (req, Arrived) →
    http_step x (set_req i req (read_route (d_HTTP (s_d (ht_sys x))) req) x)
| http_provided x i req provider :
    ht_reqs x !! i = Some (req, HasRoute provider) →
    http_step x (set_req i req (read_backend (s_d (ht_sys x)) req provider) x)
(* [copy]: the outbound request that the reverse proxy gives to [Rewrite] *)
| http_sent x i req provider snap copy :
    ht_reqs x !! i = Some (req, HasSnapshot provider snap) → outbound req copy →
    http_step x (set_req i req (Sent provider (Rewrite (Some snap) req copy)) x)
(* the transport *)
| http_replied x i req provider out status :
    ht_reqs x !! i = Some (req, Sent provider out) →
    http_step x (set_req i req (Answered (Relayed out status)) x)
| http_failed x i req provider out :
    ht_reqs x !! i = Some (req, Sent provider out) →
    http_step x (set_req i req (Answered (BadGateway out)) x).

(** With nothing in between it is [ServeHTTP]. *)
Lemma reads_ServeHTTP d req :
  ServeHTTP (backendProvider d) (d_HTTP d) (in_Host req) =
  match read_route (d_HTTP d) req with
  | HasRoute provider =>
    match read_backend d req provider with HasSnapshot _ snap => Proxied snap | _ => ServiceUnavailable end
  | _ => NotFound
  end.
Proof.
  unfold ServeHTTP, read_route, read_backend. destruct (ro_routes _ !! _) as [hp|]; [|done].
  by destruct (backendProvider d _).
Qed.

(** ** What a request can see *)

(** [name] is an HTTP service under this (normalized) host name. *)
Definition has_host (d : Daemon) (host name : string) : Prop :=
  ∃ rec, Resolve (d_Registry d) name = Some rec ∧ r_Kind rec = KindHTTP ∧ normalizeHost (r_Hostname rec) = host.

(** It is ready with backend [b]; no other service has the host name, provided
    the registered ones are DNS-style names. *)
Definition http_serves (d : Daemon) (host name : string) (b : Backend) : Prop :=
  has_host d host name ∧ backendProvider d name = Some b ∧ backend_ok b ∧
  ((∀ n r, Resolve (d_Registry d) n = Some r → r_Kind r = KindHTTP → clean_host (r_Hostname r)) →
   ∀ n, has_host d host n → n = name).

(** At a moment of the run when request [i] was being handled. *)
Definition during (x0 x : HttpPlane) (i : nat) (req : inRequest) (P : Daemon → Prop) : Prop :=
  ∃ y ph, rtc http_step x0 y ∧ rtc http_step y x ∧ ht_reqs y !! i = Some (req, ph) ∧
    (∀ a, ph ≠ Answered a) ∧ P (s_d (ht_sys y)).

(** What is sent, for a request to [host] and a backend. *)
Definition sent_to (req : inRequest) (host : string) (b : Backend) (out : outRequest) : Prop :=
  ∃ copy, outbound req copy ∧ out = Rewrite (Some (mkSnapshot b host)) req copy.

Definition phase_ok (x0 x : HttpPlane) (i : nat) (req : inRequest) (ph : http_phase) : Prop :=
  let host := normalizeHost (in_Host req) in
  match ph with
  | Arrived => True
  | HasRoute name => has_host (s_d (ht_sys x)) host name
  | HasSnapshot name snap =>
    ∃ b, snap = mkSnapshot b host ∧ during x0 x i req (λ d, http_serves d host name b)
  | Sent name out => during x0 x i req (λ d, ∃ b, http_serves d host name b ∧ sent_to req host b out)
  | Answered (BadGateway out) | Answered (Relayed out _) =>
    during x0 x i req (λ d, ∃ name b, http_serves d host name b ∧ sent_to req host b out)
  | Answered NoRoute => during x0 x i req (λ d, ∀ name, ¬ has_host d host name)
  | Answered NoBackend =>
    during x0 x i req (λ d, ∃ name, has_host d host name ∧ backendProvider d name = None)
  end.

Record http_inv (x0 x : HttpPlane) : Prop := mkHttpInv {
  hi_sys : sys_inv (ht_sys x);
  hi_reqs : ∀ i req ph, ht_reqs x !! i = Some (req, ph) → phase_ok x0 x i req ph
}.

Lemma during_later x0 x x' i req P : during x0 x i req P → http_step x x' → during x0 x' i req P.
Proof.
  intros (y & ph & Hy & Hyx & Hrest) Hst. exists y, ph. split; [done|]. split; [by eapply rtc_r|done].
Qed.

Lemma during_now x0 x x' i req ph (P : Daemon → Prop) : rtc http_step x0 x → http_step x x' →
  ht_reqs x !! i = Some (req, ph) → (∀ a, ph ≠ Answered a) → P (s_d (ht_sys x)) → during x0 x' i req P.
Proof. intros Hx Hst Hi Hph HP. exists x, ph. split_and!; try done. by apply rtc_once. Qed.

Lemma during_impl x0 x i req (P Q : Daemon → Prop) : during x0 x i req P → (∀ d, P d → Q d) → during x0 x i req Q.
Proof. intros (y & ph & ? & ? & ? & ? & ?) HPQ. exists y, ph. split_and!; auto. Qed.

(** A service keeps its host name. *)
Lemma has_host_step s s' host name : sys_inv s → step s s' → has_host (s_d s) host name → has_host (s_d s') host name.
Proof.
  intros Hs Hst (rec & Hr & Hk & Hh). destruct (step_same_frontend _ _ _ _ Hs Hst Hr) as (rec' & Hr' & _ & Ek & Eh & _).
  exists rec'. split; [done|]. by rewrite Ek, Eh.
Qed.

Lemma phase_ok_later x0 x x' i req ph : sys_inv (ht_sys x) → http_step x x' → phase_ok x0 x i req ph →
  phase_ok x0 x' i req ph.
Proof.
  intros Hs Hst. pose proof (λ P Hd, during_later x0 x x' i req P Hd Hst) as Hlater. destruct ph as [|name|name snap|name out|[| |out|out st]]; simpl; try done; auto.
  - destruct Hst; [by apply has_host_step|done..].
  - intros (b & -> & ?). exists b. auto.
Qed.

(** ** The reads find what is there *)

Lemma read_route_ok x0 x x' i req : sys_inv (ht_sys x) → rtc http_step x0 x → http_step x x' →
  ht_sys x' = ht_sys x → ht_reqs x !! i = Some (req, Arrived) →
  phase_ok x0 x' i req (read_route (d_HTTP (s_d (ht_sys x))) req).
Proof.
  intros Hs Hx Hst E Hi. destruct (inv_routes _ (si_daemon _ Hs)) as (Hr & Hreg & _). unfold read_route.
  destruct (ro_routes _ !! _) as [hp|] eqn:Ehp; simpl.
  - rewrite E. destruct (Hr _ _ Ehp) as (rec & ? & ? & ?). by exists rec.
  - eapply during_now; [done..|]. simpl. intros name (rec & Hn & Hk & Hh).
    destruct (Hreg _ _ Hn Hk) as [pn Hl]. unfold LookupRoute in Hl. by rewrite Hh, Ehp in Hl.
Qed.

Lemma provider_serves_host d host name b : daemon_inv d → has_host d host name →
  backendProvider d name = Some b → http_serves d host name b.
Proof.
  intros Hd Hh Hb. split; [done|]. split; [done|]. split.
  - unfold backendProvider in Hb. destruct (Resolve _ _) as [rec|] eqn:Er; [|done]. case_decide; [done|].
    destruct (inv_services _ Hd _ _ Er) as (_ & _ & Hok & _). by apply Hok.
  - intros Hclean n (r & Hr & Hk & En). destruct Hh as (rec & Hrec & Hk' & Eh).
    destruct (inv_routes _ Hd) as (_ & _ & Hu). eapply Hu; try done.
    rewrite !normalizeHost_clean in * by eauto. congruence.
Qed.

Lemma read_backend_ok x0 x x' i req name : sys_inv (ht_sys x) → rtc http_step x0 x → http_step x x' →
  ht_reqs x !! i = Some (req, HasRoute name) → has_host (s_d (ht_sys x)) (normalizeHost (in_Host req)) name →
  phase_ok x0 x' i req (read_backend (s_d (ht_sys x)) req name).
Proof.
  intros Hs Hx Hst Hi Hh. unfold read_backend. destruct (backendProvider _ name) as [b|] eqn:Eb; simpl.
  - exists b. split; [done|]. eapply during_now; [done..|]. simpl.
    apply provider_serves_host; [apply (si_daemon _ Hs)|done..].
  - eapply during_now; [done..|]. simpl. by exists name.
Qed.

Lemma http_inv_req x0 x i req ph : http_inv x0 x → http_step x (set_req i req ph x) →
  phase_ok x0 (set_req i req ph x) i req ph → http_inv x0 (set_req i req ph x).
Proof.
  intros [Hs Hr] Hst Hph. split; [done|]. intros j req' ph' Hj. simpl in Hj.
  apply lookup_insert_Some in Hj as [[<- [= <- <-]]|[_ Hj]]; [done|].
  eapply phase_ok_later; [exact Hs|exact Hst|]. by apply Hr.
Qed.

Lemma http_inv_step x0 x x' : rtc http_step x0 x → http_step x x' → http_inv x0 x → http_inv x0 x'.
Proof.
  intros Hx Hst Hi. pose proof Hi as [Hs Hr]. pose proof Hst as Hst'.
  destruct Hst' as [x s' Hsys|x i req Hn|x i req Hq|x i req name Hq|x i req name snap copy Hq Hcp|x i req name out st Hq|x i req name out Hq].
  - split; [by eapply step_inv|]. intros i req ph Hq. eapply phase_ok_later; [exact Hs|exact Hst|]. by apply Hr.
  - by apply http_inv_req.
  - apply http_inv_req; [done..|]. by apply (read_route_ok x0 x).
  - apply http_inv_req; [done..|]. apply (read_backend_ok x0 x); [done..|]. exact (Hr _ _ _ Hq).
  - apply http_inv_req; [done..|]. destruct (Hr _ _ _ Hq) as (b & -> & Hd). simpl.
    eapply during_impl; [by eapply during_later|]. intros d Hd'. exists b. split; [done|]. by exists copy.
  - apply http_inv_req; [done..|]. pose proof (Hr _ _ _ Hq) as Hd. simpl in *.
    eapply during_impl; [by eapply during_later|]. intros d (b & Hd'). by exists name, b.
  - apply http_inv_req; [done..|]. pose proof (Hr _ _ _ Hq) as Hd. simpl in *.
    eapply during_impl; [by eapply during_later|]. intros d (b & Hd'). by exists name, b.
Qed.

Definition http_start (x : HttpPlane) : Prop := init (ht_sys x) ∧ ht_reqs x = ∅.

Lemma http_run_inv x0 x : http_start x0 → rtc http_step x0 x → http_inv x0 x.
Proof.
  intros [Hi Er]. revert x. apply (rtc_ind_r (http_inv x0)).
  - split; [by apply init_inv|]. intros i req ph. by rewrite Er, lookup_empty.
  - intros y z Hy Hyz ?. by eapply http_inv_step.
Qed.

(** What the backend is asked. *)
Definition forwards (req : inRequest) (host : string) (b : Backend) (out : outRequest) : Prop :=
  out_URLScheme out = "http" ∧ out_URLHost out = Backend_Addr b ∧ out_Host out = host ∧
  out_Path out = join_root (in_Path req) ∧ query_kept (in_RawQuery req) (out_RawQuery out).

Lemma sent_to_spec req host b out : sent_to req host b out →
  forwards req host b out ∧
  out_Header out !! "X-Forwarded-For" =
    match SplitHostPort (in_RemoteAddr req) with Ok (ip, _) => Some [ip] | Err _ => None end ∧
  out_Header out !! "X-Forwarded-Host" = Some [in_Host req] ∧
  out_Header out !! "X-Forwarded-Proto" = Some [if in_TLS req then "https" else "http"].
Proof.
  intros (copy & [Ep Eq] & ->). split; [|simpl; unfold SetXForwarded; split; [|split]].
  - split_and!; try done; simpl; [by rewrite Ep|by apply outbound_query_kept].
  - rewrite !lookup_insert_ne by done. destruct (SplitHostPort _) as [[ip port]|]; by simplify_map_eq.
  - by rewrite lookup_insert_ne, lookup_insert_eq by done.
  - by rewrite lookup_insert_eq.
Qed.

(** ** One service *)

(** The registered host names are DNS-style names. *)
Definition hosts_clean (d : Daemon) : Prop :=
  ∀ n r, Resolve (d_Registry d) n = Some r → r_Kind r = KindHTTP → clean_host (r_Hostname r).

(** Services never go, so what is clean now was clean before. *)
Lemma hosts_clean_before s s' : sys_inv s → step s s' → hosts_clean (s_d s') → hosts_clean (s_d s).
Proof.
  intros Hs Hst Hc n r Hr Hk. destruct (step_same_frontend _ _ _ _ Hs Hst Hr) as (r' & Hr' & _ & Ek & <- & _).
  apply (Hc n r' Hr'). by rewrite Ek.
Qed.

(** The route of a host name is that of its service. *)
Lemma read_route_service d name rec req : daemon_inv d → hosts_clean d →
  Resolve (d_Registry d) name = Some rec → r_Kind rec = KindHTTP → normalizeHost (in_Host req) = r_Hostname rec →
  read_route (d_HTTP d) req = HasRoute name.
Proof.
  intros Hd Hclean Hr Hk Hh. destruct (inv_routes _ Hd) as (Hroutes & Hreg & Hu). unfold read_route.
  destruct (Hreg _ _ Hr Hk) as [pn Hl]. unfold LookupRoute in Hl. rewrite normalizeHost_clean in Hl by eauto.
  rewrite Hh. destruct (ro_routes _ !! _) as [hp|] eqn:Ehp; [|done]. f_equal.
  destruct (Hroutes _ _ Ehp) as (r & Hrr & Hkr & En). rewrite normalizeHost_clean in En by eauto.
  by eapply Hu.
Qed.

(** What the requests to host name [host] that are not in [q0] can be doing
    while [name] serves it from [b]. *)
Definition served_phase (name host : string) (b : Backend) (req : inRequest) (ph : http_phase) : Prop :=
  match ph with
  | Arrived => True
  | HasRoute n => n = name
  | HasSnapshot n snap => n = name ∧ snap = mkSnapshot b host
  | Sent n out => n = name ∧ sent_to req host b out
  | Answered (BadGateway out) | Answered (Relayed out _) => sent_to req host b out
  | Answered _ => False
  end.

Definition all_served (q0 : gmap nat (inRequest * http_phase)) (name host : string) (b : Backend) (x : HttpPlane) : Prop :=
  dom q0 ⊆ dom (ht_reqs x) ∧
  ∀ i req ph, q0 !! i = None → ht_reqs x !! i = Some (req, ph) → normalizeHost (in_Host req) = host →
    served_phase name host b req ph.

(** A request to the authority of the service that has its answer. *)
Lemma served_answer q name host b x scheme port i req ans : all_served q name host b x → clean_host host →
  q !! i = None → ht_reqs x !! i = Some (req, Answered ans) → in_Host req = authority scheme port host →
  ∃ out, (ans = BadGateway out ∨ ∃ status, ans = Relayed out status) ∧
    forwards req host b out.
Proof.
  intros [_ Hall] Hc Hq Hi Eh. specialize (Hall i req _ Hq Hi). rewrite Eh, normalizeHost_authority in Hall by done.
  specialize (Hall eq_refl). destruct ans as [| |out|out st]; simpl in Hall; try done.
  all: exists out; split; [eauto|]; apply sent_to_spec in Hall; by destruct Hall.
Qed.

(** The URL of an HTTP service. *)
Lemma http_frontend_url d name rec : daemon_inv d → Resolve (d_Registry d) name = Some rec → r_Kind rec = KindHTTP →
  clean_host (r_Hostname rec) →
  f_URL (r_Frontend rec) =
    url_string (ro_scheme (d_HTTP d)) (authority (ro_scheme (d_HTTP d)) (ro_port (d_HTTP d)) (r_Hostname rec)).
Proof.
  intros Hd Hr Hk Hc. destruct (inv_services _ Hd _ _ Hr) as (_ & _ & _ & [(Hk' & _)|(_ & _ & ->)]); [by rewrite Hk in Hk'|].
  simpl. unfold FrontendURL. by rewrite normalizeHost_clean.
Qed.

Lemma all_served_req q0 name host b x i req ph : all_served q0 name host b x →
  (q0 !! i = None → normalizeHost (in_Host req) = host → served_phase name host b req ph) →
  all_served q0 name host b (set_req i req ph x).
Proof.
  intros [Hd Ha] Hi. split; [simpl; set_solver|]. intros j req' ph' Hq Hj Hh. simpl in Hj.
  apply lookup_insert_Some in Hj as [[<- [= <- <-]]|[_ Hj]]; [by apply Hi|by eapply Ha].
Qed.

Lemma all_served_step q0 name rec b x x' : sys_inv (ht_sys x) → hosts_clean (s_d (ht_sys x)) →
  Resolve (d_Registry (s_d (ht_sys x))) name = Some rec → r_Kind rec = KindHTTP →
  backendProvider (s_d (ht_sys x)) name = Some b →
  http_step x x' → all_served q0 name (r_Hostname rec) b x → all_served q0 name (r_Hostname rec) b x'.
Proof.
  intros Hs Hclean Hr Hk Hb Hst Ha. pose proof Ha as [_ Hold].
  destruct Hst as [x s' Hsys|x i req Hn|x i req Hq|x i req n Hq|x i req n snap copy Hq Hcp|x i req n out st Hq|x i req n out Hq].
  - exact Ha.
  - by apply all_served_req.
  - apply all_served_req; [done|]. intros _ Hh. rewrite (read_route_service _ name rec); try done. apply (si_daemon _ Hs).
  - apply all_served_req; [done|]. intros Hq0 Hh. pose proof (Hold _ _ _ Hq0 Hq Hh) as Hp. simpl in Hp. subst n.
    unfold read_backend. by rewrite Hb, Hh.
  - apply all_served_req; [done|]. intros Hq0 Hh. destruct (Hold _ _ _ Hq0 Hq Hh) as [-> ->]. split; [done|by exists copy].
  - apply all_served_req; [done|]. intros Hq0 Hh. by destruct (Hold _ _ _ Hq0 Hq Hh).
  - apply all_served_req; [done|]. intros Hq0 Hh. by destruct (Hold _ _ _ Hq0 Hq Hh).
Qed.

(** ** A request can always be brought to its backend *)

(** A step of a request. *)
Definition own_step (x x' : HttpPlane) : Prop := http_step x x' ∧ ht_sys x' = ht_sys x.

Lemma own_set_req x i req ph : http_step x (set_req i req ph x) → own_step x (set_req i req ph x).
Proof. by split. Qed.

Definition pending (ph : http_phase) : Prop := ∀ ans, ph ≠ Answered ans.

(** [name] is an HTTP service that is ready with backend [b]; the registered
    host names are DNS-style names. *)
Definition serving (s : System) (name : string) (rec : ServiceRecord) (b : Backend) : Prop :=
  sys_inv s ∧ hosts_clean (s_d s) ∧ Resolve (d_Registry (s_d s)) name = Some rec ∧ r_Kind rec = KindHTTP ∧
  backendProvider (s_d s) name = Some b.

Lemma sent_somehow req host b : ∃ copy, outbound req copy ∧ forwards req host b (Rewrite (Some (mkSnapshot b host)) req copy).
Proof.
  exists (outbound_copy req ∅). split; [apply outbound_copy_ok|]. apply sent_to_spec.
  eexists. split; [apply outbound_copy_ok|done].
Qed.

(** From wherever it is, in at most three steps of its own. *)
Lemma request_gets_through q name rec b x i req ph :
  serving (ht_sys x) name rec b → all_served q name (r_Hostname rec) b x → q !! i = None →
  ht_reqs x !! i = Some (req, ph) → normalizeHost (in_Host req) = r_Hostname rec → pending ph →
  ∃ x' out, rtc own_step x x' ∧ ht_reqs x' !! i = Some (req, Sent name out) ∧ forwards req (r_Hostname rec) b out.
Proof.
  intros (Hs & Hclean & Hr & Hk & Hb) Hall Hq Hi Hh Hp. set (host := r_Hostname rec) in *.
  assert (∀ x, ht_reqs x !! i = Some (req, HasSnapshot name (mkSnapshot b host)) →
    ∃ x' out, rtc own_step x x' ∧ ht_reqs x' !! i = Some (req, Sent name out) ∧ forwards req host b out) as H3.
  { intros y Hy. destruct (sent_somehow req host b) as (copy & Hc & Hf).
    exists (set_req i req (Sent name (Rewrite (Some (mkSnapshot b host)) req copy)) y). eexists. split_and!; [|apply lookup_insert_eq|exact Hf].
    by apply rtc_once, own_set_req, http_sent. }
  assert (∀ x, backendProvider (s_d (ht_sys x)) name = Some b →
    ht_reqs x !! i = Some (req, HasRoute name) →
    ∃ x' out, rtc own_step x x' ∧ ht_reqs x' !! i = Some (req, Sent name out) ∧ forwards req host b out) as H2.
  { intros y Hby Hy. destruct (H3 (set_req i req (HasSnapshot name (mkSnapshot b host)) y)) as (x' & out & Hx & ? & ?);
      [apply lookup_insert_eq|]. exists x', out. split_and!; [|done..]. eapply rtc_l; [|exact Hx].
    apply own_set_req. replace (HasSnapshot name _) with (read_backend (s_d (ht_sys y)) req name); [by apply http_provided|].
    unfold read_backend. by rewrite Hby, Hh. }
  pose proof (proj2 Hall i req ph Hq Hi Hh) as Hph. destruct ph as [|n|n snap|n out|ans]; simpl in Hph.
  - destruct (H2 (set_req i req (HasRoute name) x)) as (x' & out & Hx & ? & ?); [done..|apply lookup_insert_eq|].
    exists x', out. split_and!; [|done..]. eapply rtc_l; [|exact Hx].
    apply own_set_req. replace (HasRoute name) with (read_route (d_HTTP (s_d (ht_sys x))) req); [by apply http_routed|].
    apply (read_route_service _ name rec); [apply (si_daemon _ Hs)|done..].
  - subst n. by apply H2.
  - destruct Hph as [-> ->]. by apply H3.
  - destruct Hph as [-> Hsent%sent_to_spec]. exists x, out. split_and!; [apply rtc_refl|done|apply Hsent].
  - by destruct (Hp ans).
Qed.

(** C30: In every interleaving of HTTP requests with the running daemon: a request that is
    forwarded goes to a loopback backend that the HTTP service of its host name had, ready, at a
    moment while the request was being handled (the only such service, if the registered host
    names are DNS-style names), with the path and public host name of the request, its query as
    the reverse proxy cleans it (the very query when all of it can be parsed, otherwise the
    parameters that can; queries of more than 10000 parameters, where the releases of the
    library differ, are left open) and forwarding headers that name its sender alone, and is
    answered 502 only after that; 503 means that the service was unavailable at such a moment,
    404 that no service had the host name. *)
Theorem http_requests_reach_their_service x0 x i req ans :
  http_start x0 → rtc http_step x0 x → ht_reqs x !! i = Some (req, Answered ans) →
  let host := normalizeHost (in_Host req) in
  match ans with
  | NoRoute => during x0 x i req (λ d, ∀ name, ¬ has_host d host name)
  | NoBackend => during x0 x i req (λ d, ∃ name, has_host d host name ∧ backendProvider d name = None)
  | BadGateway out | Relayed out _ =>
    ∃ name b, during x0 x i req (λ d, http_serves d host name b) ∧
      out_URLScheme out = "http" ∧ out_URLHost out = Backend_Addr b ∧ out_Host out = host ∧
      out_Path out = join_root (in_Path req) ∧ query_kept (in_RawQuery req) (out_RawQuery out) ∧
      out_Header out !! "X-Forwarded-For" =
        match SplitHostPort (in_RemoteAddr req) with Ok (ip, _) => Some [ip] | Err _ => None end ∧
      out_Header out !! "X-Forwarded-Host" = Some [in_Host req] ∧
      out_Header out !! "X-Forwarded-Proto" = Some [if in_TLS req then "https" else "http"]
  end.
Proof.
  intros H0' Hrun Hi host. pose proof (hi_reqs _ _ (http_run_inv _ _ H0' Hrun) _ _ _ Hi) as Hph.
  destruct ans as [| |out|out st]; simpl in Hph; [done..| |].
  all: destruct Hph as (y & ph & Hy & Hyx & Hq & Hna & name & b & Hs & Hsent%sent_to_spec).
  all: destruct Hsent as [(? & ? & ? & ? & ?) ?]; exists name, b; split; [|done]; by exists y, ph.
Qed.
End HttpPlane.
