(* ===== verification/Api.v ===== *)
(** * internal/api: the administrative HTTP API

    [handlers.go], [dto.go] and [errors.go].  A request is what the mux hands
    to a handler: the path values, the [Authorization] header and the decoded
    body ([None] when [decodeJSON] fails).  A response is its status and its
    body; times stay readings of the clock. *)

From S2P Require Import Prelude GoStrings GoNet Registry Lease State Runtime Router Config Daemon DaemonInv DaemonSpec DaemonSystem.
From Stdlib Require Import Ascii.
Local Open Scope Z_scope.

(** ** Wire types (dto.go) *)

Record BackendDTO := mkBackendDTO { bd_Host : string; bd_Port : Z }.
Record FrontendDTO := mkFrontendDTO { fd_Host : string; fd_Port : Z; fd_URL : string }.

Record ServiceDTO := mkServiceDTO {
  sd_Name : string;
  sd_Kind : string;
  sd_AppProtocol : string;
  sd_Status : string;
  sd_Frontend : FrontendDTO
}.

Record InspectDTO := mkInspectDTO {
  id_Name : string;
  id_Kind : string;
  id_AppProtocol : string;
  id_Status : string;
  id_Frontend : FrontendDTO;
  id_Backend : option BackendDTO;
  id_Source : string;
  id_OwnerKey : string;
  id_ProducerID : string;
  id_DockerContainerID : string;
  id_Hostname : string
}.

Record RegisterRequest := mkRegisterRequest {
  q_Name : string;
  q_Kind : string;
  q_AppProtocol : string;
  q_Source : string;
  q_Backend : BackendDTO;
  q_PreferredPort : Z;
  q_TTLSeconds : Z;
  q_HTTPHost : string
}.

Record RegisterResponse := mkRegisterResponse {
  rp_RegistrationID : string;
  rp_LeaseToken : string;
  rp_Name : string;
  rp_Frontend : FrontendDTO;
  rp_ExpiresAt : option Z;
  rp_TTLSeconds : Z
}.

Definition frontendDTO (f : Frontend) : FrontendDTO := mkFrontendDTO (f_Host f) (f_Port f) (f_URL f).

Definition serviceDTO (info : ServiceInfo) : ServiceDTO :=
  mkServiceDTO (i_Name info) (i_Kind info) (i_AppProtocol info) (i_Status info)
    (frontendDTO (i_Frontend info)).

Definition inspectDTO (info : ServiceInfo) : InspectDTO :=
  mkInspectDTO (i_Name info) (i_Kind info) (i_AppProtocol info) (i_Status info)
    (frontendDTO (i_Frontend info))
    (match i_Backend info with
     | Some b => Some (mkBackendDTO (b_Host b) (b_Port b))
     | None => None
     end)
    (i_Source info) (i_OwnerKey info) (i_ProducerID info) (i_DockerContainerID info)
    (i_Hostname info).

(** ** Errors (errors.go) *)

Definition statusForCode (code : Code) : Z :=
  if decide (code = CodeInvalidRequest) then 400
  else if decide (code = CodeInvalidName) then 400
  else if decide (code = CodeInvalidBackend) then 400
  else if decide (code = CodeUnsupportedKind) then 400
  else if decide (code = CodeUnauthorized) then 401
  else if decide (code = CodeRegistrationNotFound) then 404
  else if decide (code = CodeServiceNotFound) then 404
  else if decide (code = CodeNameConflict) then 409
  else if decide (code = CodePortExhausted) then 503
  else if decide (code = CodeDockerUnavailable) then 503
  else if decide (code = CodeInternal) then 500
  else 0.

Inductive body :=
| BodyHealth (status docker : string)
| BodyList (services : list ServiceDTO)
| BodyService (s : ServiceDTO)
| BodyInspect (s : InspectDTO)
| BodyRegister (r : RegisterResponse)
| BodyHeartbeat (expiresAt : Z)
| BodyEmpty
| BodyError (code : Code).

Abbreviation Response := (Z * body)%type.

(** [writeError] of a daemon error. *)
Definition writeError (code : Code) : Response :=
  let status := statusForCode code in
  (if decide (status = 0) then 500 else status, BodyError code).

(** ** Handlers (handlers.go) *)

Definition bearerToken (authorization : string) : string :=
  let prefix := "Bearer " in
  if HasPrefix authorization prefix
  then TrimSpace (str (drop (String.length prefix) (bytes authorization)))
  else "".

Section Handlers.
Context `{JSON} `{Unicode} `{MapRange}.

Definition handleHealth (d : Daemon) : Response := (200, BodyHealth "ok" (DockerStatus d)).

Definition handleList (d : Daemon) : Response := (200, BodyList (serviceDTO <$> ListServices d)).

Definition handleResolve (d : Daemon) (name : string) : Response :=
  match ResolveService d name with
  | Err e => writeError e
  | Ok info => (200, BodyService (serviceDTO info))
  end.

Definition handleInspect (d : Daemon) (name : string) : Response :=
  match Inspect d name with
  | Err e => writeError e
  | Ok info => (200, BodyInspect (inspectDTO info))
  end.

Definition request_params (req : RegisterRequest) (source : Source) : RegisterParams :=
  mkParams (q_Name req) (q_Kind req) (q_AppProtocol req)
    (mkBackend (bd_Host (q_Backend req)) (bd_Port (q_Backend req)))
    (q_PreferredPort req) (q_TTLSeconds req) source "" "" "" (q_HTTPHost req).

Definition handleRegister (d : Daemon) (req : option RegisterRequest) (env : Env) :
  Daemon * Response :=
  match req with
  | None => (d, writeError CodeInvalidRequest)
  | Some req =>
    let source := if decide (q_Source req = "") then SourceProcess else q_Source req in
    if decide (source ≠ SourceProcess ∧ source ≠ SourceManual)
    then (d, writeError CodeInvalidRequest)
    else
      match Register d (request_params req source) env with
      | (d', Err e) => (d', writeError e)
      | (d', Ok res) =>
        (d', (201, BodyRegister (mkRegisterResponse (rr_RegistrationID res) (rr_LeaseToken res)
                (rr_Name res) (frontendDTO (rr_Frontend res)) (rr_ExpiresAt res)
                (rr_TTLSeconds res))))
      end
  end.

Definition handleHeartbeat (now : Z) (d : Daemon) (id authorization : string) : Daemon * Response :=
  match Heartbeat now d id (bearerToken authorization) with
  | (d', Err e) => (d', writeError e)
  | (d', Ok exp) => (d', (200, BodyHeartbeat exp))
  end.

Definition handleDelete (now : Z) (d : Daemon) (id authorization : string) : Daemon * Response :=
  match DeleteRegistration now d id (bearerToken authorization) with
  | (d', Some e) => (d', writeError e)
  | (d', None) => (d', (204, BodyEmpty))
  end.

(** ** Bearer tokens *)

Lemma hex_char_no_space n : (n < 16)%nat → no_space (hex_char n) = true.
Proof. intros Hn. do 16 (destruct n as [|n]; [by vm_compute|]). lia. Qed.

Lemma EncodeToString_no_space buf : Forall (λ c, no_space c = true) (bytes (EncodeToString buf)).
Proof.
  unfold EncodeToString. rewrite bytes_str. induction buf as [|b buf IH]; [constructor|].
  rewrite bind_cons. apply Forall_app. split; [|done].
  assert (nat_of_ascii b < 256)%nat as Hb by apply nat_ascii_bounded.
  repeat constructor; apply hex_char_no_space.
  - apply Nat.Div0.div_lt_upper_bound; lia.
  - by apply Nat.mod_upper_bound.
Qed.

(** What the client sends for a token is what the handler compares. *)
Lemma bearerToken_roundtrip token :
  Forall (λ c, no_space c = true) (bytes token) → bearerToken ("Bearer " +:+ token) = token.
Proof.
  intros Ht. unfold bearerToken. replace (HasPrefix ("Bearer " +:+ token) "Bearer ") with true.
  - rewrite bytes_app. replace (drop _ _) with (bytes token) by done. rewrite str_bytes.
    rewrite Forall_forall in Ht. apply TrimSpace_id; intros c Hc; apply Ht.
    + destruct (bytes token); simplify_eq/=. by left.
    + apply last_Some in Hc as [l ->]. set_solver.
  - unfold HasPrefix. by rewrite bytes_app, strip_prefix_app.
Qed.

(** ** A lease over the wire *)

Lemma handleRegister_201 d req env d' r :
  handleRegister d req env = (d', (201, BodyRegister r)) →
  ∃ q source res, req = Some q ∧ (source = SourceProcess ∨ source = SourceManual) ∧
    Register d (request_params q source) env = (d', Ok res) ∧
    rp_RegistrationID r = rr_RegistrationID res ∧ rp_LeaseToken r = rr_LeaseToken res ∧
    rp_ExpiresAt r = rr_ExpiresAt res ∧ rp_Name r = rr_Name res ∧
    rp_Frontend r = frontendDTO (rr_Frontend res) ∧ rp_TTLSeconds r = rr_TTLSeconds res.
Proof.
  unfold handleRegister. destruct req as [q|]; [|done].
  set (source := if decide (q_Source q = "") then _ else _). case_decide as Hs; [done|].
  destruct (Register _ _ _) as [d1 [res|e]] eqn:E; [|done]. intros [= <- <-].
  exists q, source, res. split_and!; try done.
  destruct (decide (source = SourceProcess)), (decide (source = SourceManual)); tauto.
Qed.

Lemma request_source_params q source :
  source = SourceProcess ∨ source = SourceManual → request_source (request_params q source) = source.
Proof. unfold request_source. by intros [-> | ->]. Qed.

Lemma DeleteRegistration_live now d id e token :
  Lease.Get (d_Lease d) id = Some e →
  DeleteRegistration now d id token =
  if decide (token = le_Token e)
  then ((endPublication now (with_Lease (Lease.Remove (d_Lease d) id) d) (le_Name e)
           (le_RegistrationID e)).1, None)
  else (d, Some CodeUnauthorized).
Proof.
  intros He. unfold DeleteRegistration. rewrite He. unfold Lease.Get in He. unfold Delete. rewrite He.
  case_decide as Ht.
  - subst token. by rewrite tokenEqual_refl.
  - rewrite (proj2 (tokenEqual_false _ _)) by congruence. simpl. by destruct d.
Qed.

(** C33: After a 201 response, and until the announced expiry, a heartbeat or deletion with any
    Authorization header that does not carry the lease token gets 401 and changes nothing, while
    'Bearer ' followed by the token of the response renews the lease with 200, or deletes the
    registration with 204 and takes the service's backend away. *)
Theorem api_lease_is_the_holders d req env d' r :
  handleRegister d req env = (d', (201, BodyRegister r)) →
  ∃ exp ttl, rp_ExpiresAt r = Some exp ∧ MinLeaseTTL ≤ ttl ≤ MaxLeaseTTL ∧
    ∀ now auth, now < exp →
      (bearerToken auth ≠ rp_LeaseToken r →
         handleHeartbeat now d' (rp_RegistrationID r) auth = (d', writeError CodeUnauthorized) ∧
         handleDelete now d' (rp_RegistrationID r) auth = (d', writeError CodeUnauthorized)) ∧
      (auth = "Bearer " +:+ rp_LeaseToken r →
         (handleHeartbeat now d' (rp_RegistrationID r) auth).2 = (200, BodyHeartbeat (now + ttl)) ∧
         (handleDelete now d' (rp_RegistrationID r) auth).2 = (204, BodyEmpty) ∧
         backendProvider (handleDelete now d' (rp_RegistrationID r) auth).1 (rp_Name r) = None).
Proof.
  intros (q & source & res & -> & Hsrc & HR & -> & -> & -> & -> & _)%handleRegister_201.
  assert (request_source (request_params q source) ≠ SourceDocker) as Hnd
    by (rewrite request_source_params by done; by destruct Hsrc as [-> | ->]).
  pose proof HR as (ttl & Hb & _ & Eid & Htok & Hget & Hexp & _)%Register_lease; [|done].
  pose proof HR as (h & _ & Er & _)%Register_registry.
  pose proof HR as (pr & d1 & f & _ & _ & _ & _ & (_ & _ & _ & _ & _ & _ & En & _)%grant_lease_Ok)%Register_Ok_inv.
  exists (e_lease_now env + ttl), ttl. split_and!; [done|lia..|]. intros now auth Hnow.
  unfold handleHeartbeat, handleDelete.
  rewrite (Heartbeat_live _ _ _ _ _ Hget), (DeleteRegistration_live _ _ _ _ _ Hget) by done. simpl.
  split; [intros Hne; by rewrite !decide_False|]. intros ->. rewrite bearerToken_roundtrip.
  - rewrite !decide_True by done. simpl. split_and!; try done.
    unfold backendProvider, Resolve, endPublication. simpl. rewrite Er, En.
    unfold ClearBackendIf. rewrite lookup_insert_eq. simpl.
    rewrite decide_False; [|rewrite Eid; unfold request_producer; rewrite decide_False by done; tauto].
    simpl. by rewrite lookup_insert_eq.
  - unfold NewToken in Htok. destruct (e_rand env); simplify_eq/=. rewrite <-Htok.
    apply EncodeToString_no_space.
Qed.

(** ** Status codes *)

(** A registration request is answered with 201 and the registration, or with an error code
    under the status the table assigns it: 400, 409 and 503 with the daemon unchanged, 500 with
    records, leases, routes and runtimes unchanged. *)
Theorem register_status d req env d' status b :
  daemon_inv d → is_Some (e_rand env) → handleRegister d req env = (d', (status, b)) →
  (status = 201 ∧ ∃ r, b = BodyRegister r) ∨
  (∃ code, b = BodyError code ∧ status = statusForCode code ∧
     (d' = d ∧ (status = 400 ∨ status = 409 ∨ status = 503) ∨
      status = 500 ∧ d_Registry d' = d_Registry d ∧ d_Lease d' = d_Lease d ∧
      d_HTTP d' = d_HTTP d ∧ d_Runtime d' = d_Runtime d)).
Proof.
  intros Hd Hr. unfold handleRegister.
  assert (∀ code, code ∈ check_codes ∨ code = CodePortExhausted →
    writeError code = (statusForCode code, BodyError code) ∧
    (statusForCode code = 400 ∨ statusForCode code = 409 ∨ statusForCode code = 503)) as Hcodes.
  { intros code [Hin| ->]; [|vm_compute; by auto]. unfold check_codes in Hin.
    repeat (apply elem_of_cons in Hin as [->|Hin]; [vm_compute; by auto|]). by apply elem_of_nil in Hin. }
  destruct req as [q|].
  2:{ intros [= <- <- <-]. right. exists CodeInvalidRequest. split_and!; try done. left. auto. }
  set (source := if decide (q_Source q = "") then _ else _). case_decide as Hs.
  { intros [= <- <- <-]. right. exists CodeInvalidRequest. split_and!; try done. left. auto. }
  destruct (Register _ _ _) as [d1 [res|e]] eqn:E; [intros [= <- <- <-]; left; eauto|].
  apply Register_Err_cases in E as [[-> Hc]|(-> & _ & ? & ? & ? & ? & _)]; [| |done..].
  - destruct (Hcodes e Hc) as [-> ?]. intros [= <- <- <-]. right. eauto 10.
  - intros [= <- <- <-]. right. exists CodeInternal. split_and!; try done. right. by split_and!.
Qed.

(** ** What the public views reveal *)

(** Two records a consumer may not tell apart: they differ in backend,
    producer, owner and bookkeeping only. *)
Definition same_public (r1 r2 : ServiceRecord) : Prop :=
  r_Name r1 = r_Name r2 ∧ r_Kind r1 = r_Kind r2 ∧ r_AppProtocol r1 = r_AppProtocol r2 ∧
  r_Status r1 = r_Status r2 ∧ r_Frontend r1 = r_Frontend r2.

#[local] Instance same_public_equiv : Equivalence same_public.
Proof. unfold same_public. split; red; naive_solver congruence. Qed.

(** Daemons whose registries agree on the public part; everything else, the
    lease tokens included, may differ. *)
Definition public_equiv (d1 d2 : Daemon) : Prop :=
  map_relation (λ _ r1 r2, same_public r1 r2) (λ _ _, False) (λ _ _, False)
    (d_Registry d1) (d_Registry d2).

Definition public_dto (rec : ServiceRecord) : ServiceDTO := serviceDTO (infoFromRecord rec false).

Lemma public_dto_same r1 r2 : same_public r1 r2 → public_dto r1 = public_dto r2.
Proof. intros (E1 & E2 & E3 & E4 & E5). unfold public_dto, serviceDTO, infoFromRecord. simpl. congruence. Qed.

(** The list is the sorted list of the public parts. *)
Lemma handleList_dto d :
  handleList d = (200, BodyList (public_dto <$> List (d_Registry d))).
Proof. unfold handleList, ListServices. by rewrite <-list_fmap_compose. Qed.

Lemma public_map d1 d2 :
  public_equiv d1 d2 → public_dto <$> d_Registry d1 = public_dto <$> d_Registry d2.
Proof.
  intros Heq. apply map_eq. intros n. rewrite !lookup_fmap. specialize (Heq n).
  destruct (d_Registry d1 !! n), (d_Registry d2 !! n); simpl in *; try done.
  by rewrite (public_dto_same _ _ Heq).
Qed.

Lemma List_dto_perm d :
  public_dto <$> List (d_Registry d) ≡ₚ (map_to_list (public_dto <$> d_Registry d)).*2.
Proof.
  rewrite List_perm, map_to_list_fmap, <-!list_fmap_compose. by apply reflexive_eq, list_fmap_ext.
Qed.

Lemma List_dto_sorted d :
  StronglySorted (λ a b, String.le (sd_Name a) (sd_Name b)) (public_dto <$> List (d_Registry d)).
Proof.
  assert (StronglySorted by_name (List (d_Registry d))) as Hs
    by (apply StronglySorted_merge_sort; apply _).
  induction Hs as [|rec l Hs IH Hall]; simpl; constructor; [done|]. by apply Forall_fmap.
Qed.

(** The list and resolve endpoints reveal nothing but names, kinds, protocols, statuses and
    frontends: two daemons whose records agree on these answer alike, whatever their backends,
    owners, producers and lease tokens. *)
Theorem public_views_hide_backends d1 d2 :
  registry_wf (d_Registry d1) → public_equiv d1 d2 →
  handleList d1 = handleList d2 ∧ ∀ name, handleResolve d1 name = handleResolve d2 name.
Proof.
  intros Hwf Heq. split.
  - rewrite !handleList_dto. do 2 f_equal. eapply StronglySorted_unique_strong;
      [| apply List_dto_sorted | apply List_dto_sorted | by rewrite !List_dto_perm, (public_map _ _ Heq)].
    intros a b (ra & -> & [n Ha]%List_elem)%list_elem_of_fmap (rb & -> & [m Hb]%List_elem)%list_elem_of_fmap.
    simpl. intros Hab Hba. pose proof (anti_symm String.le _ _ Hab Hba) as En.
    specialize (Heq m). rewrite Hb in Heq. destruct (d_Registry d1 !! m) as [r|] eqn:Em; simpl in *; [|done].
    destruct (Hwf _ _ Ha) as [Ea _], (Hwf _ _ Em) as [Er _]. rewrite <-(public_dto_same _ _ Heq).
    destruct Heq as (Enn & _). assert (n = m) as -> by congruence. congruence.
  - intros name. unfold handleResolve, ResolveService, Resolve. specialize (Heq name).
    destruct (d_Registry d1 !! name), (d_Registry d2 !! name); simpl in *; try done.
    do 2 f_equal. by apply public_dto_same.
Qed.

(** ** Handlers as steps of the system *)

(** The public API supplies no identity and cannot claim the Docker source. *)
Lemma request_params_ok q source :
  source = SourceProcess ∨ source = SourceManual → request_ok (request_params q source).
Proof. intros Hs. left. done. Qed.

Lemma DeleteRegistration_steps d dels ends iss lost now id token :
  rtc step (mkSys d None dels ends iss lost)
    (mkSys (DeleteRegistration now d id token).1 None dels ends iss lost).
Proof.
  unfold DeleteRegistration. destruct (Lease.Get (d_Lease d) id) as [e|] eqn:He; [|done].
  eapply rtc_l; [by apply (step_delete_get _ _ _ _ _ _ id token e)|].
  destruct (Delete (d_Lease d) id token) as [l r] eqn:Ed.
  eapply rtc_l; [by apply (step_delete d None [] dels ends iss lost id token e l r)|].
  destruct r as [[]|]; simpl; [done..|].
  apply rtc_once, (step_end _ _ [] ends).
Qed.

(** C32: Every API handler, run on the daemon, is a run of the step system: a registration
    request is refused or publishes and grants, a heartbeat is one step, a deletion is a lookup,
    a removal and an end; so the theorems on reachable states hold for the API's clients. *)
Theorem handlers_refine_system d dels ends iss lost :
  let s := mkSys d None dels ends iss lost in
  (∀ req env, env_ok d env → iss !! e_newID env = None → ∃ iss' lost',
     rtc step s (mkSys (handleRegister d req env).1 None dels ends iss' lost')) ∧
  (∀ now id auth, ∃ lost',
     rtc step s (mkSys (handleHeartbeat now d id auth).1 None dels ends iss lost')) ∧
  (∀ now id auth,
     rtc step s (mkSys (handleDelete now d id auth).1 None dels ends iss lost)).
Proof.
  intros s. split; [|split].
  - intros req env Henv Hfresh. unfold handleRegister. destruct req as [q|]; [|by exists iss, lost].
    set (source := if decide (q_Source q = "") then _ else _).
    case_decide as Hs; [by exists iss, lost|].
    destruct (Register _ _ _) as [d1 r] eqn:E.
    apply (Register_steps d dels ends iss lost) in E as (iss' & lost' & Hst); try done.
    + exists iss', lost'. by destruct r.
    + apply request_params_ok.
      destruct (decide (source = SourceProcess)), (decide (source = SourceManual)); tauto.
  - intros now id auth. eexists. apply rtc_once. unfold handleHeartbeat.
    pose proof (step_heartbeat d None dels ends iss lost now id (bearerToken auth)) as Hst.
    destruct (Heartbeat _ _ _ _) as [d1 [exp|e]]; exact Hst.
  - intros now id auth. unfold handleDelete.
    pose proof (DeleteRegistration_steps d dels ends iss lost now id (bearerToken auth)) as Hst.
    by destruct (DeleteRegistration _ _ _ _) as [d1 [e|]].
Qed.
End Handlers.
