(* ===== verification/Client.v ===== *)
(** * pkg/devmesh and internal/transport: the client library

    [client.go], [registration.go] and [types.go] of the public client, and
    the request cycle of [transport/client.go].  A request of the client is
    answered by a handler of [Api.v] or gets lost on the way; what the loop
    does with the reply, its timer and its back-off are functions of it. *)

From S2P Require Import Prelude GoStrings GoNet Registry Lease State Runtime Router Config Daemon DaemonInv DaemonSpec DaemonSystem Restart Api.
From Stdlib Require Import Ascii.
Local Open Scope Z_scope.

(** ** One request (transport/client.go) *)

(** [*Error] carries the status and the code of the API's envelope; every
    other failure is [ErrUnreachable]: no connection, a timeout, a cancelled
    context. *)
Inductive ClientError :=
| ErrUnreachable
| ErrAPI (status : Z) (code : Code).

#[global] Instance ClientError_eq_dec : EqDecision ClientError.
Proof. solve_decision. Defined.

(** [decodeError]: the envelope's code, [internal_error] when there is none. *)
Definition decodeError (status : Z) (b : body) : ClientError :=
  match b with
  | BodyError code => if decide (code = "") then ErrAPI status CodeInternal else ErrAPI status code
  | _ => ErrAPI status CodeInternal
  end.

(** [do], given the response, or [None] when there was none. *)
Definition do_request (reply : option Response) : result body ClientError :=
  match reply with
  | None => Err ErrUnreachable
  | Some (status, b) =>
    if decide (status < 200 ∨ 300 ≤ status) then Err (decodeError status b) else Ok b
  end.

(** The [Authorization] header; no token, no header. *)
Definition authorization (token : string) : string :=
  if decide (token = "") then "" else "Bearer " +:+ token.

(** What becomes of a request: it may get lost before the daemon has seen it,
    or its reply after the daemon has acted on it. *)
Inductive fate := RequestLost | ReplyLost | Answered.

#[global] Instance fate_eq_dec : EqDecision fate.
Proof. solve_decision. Defined.

Definition exchange (f : fate) (d : Daemon) (handler : Daemon → Daemon * Response) :
  Daemon * option Response :=
  match f with
  | RequestLost => (d, None)
  | ReplyLost => ((handler d).1, None)
  | Answered => let '(d', r) := handler d in (d', Some r)
  end.

(** ** Registrations (client.go, types.go) *)

Record RegistrationOptions := mkOptions {
  o_Name : string;
  o_Kind : Kind;
  o_AppProtocol : string;
  o_HTTPHost : string;
  o_Backend : string;
  o_PreferredPort : Z;
  o_TTLSeconds : Z;
  o_Manual : bool;
  o_Socket : string
}.

Definition defaultLeaseTTL : Z := 15 * Second.

(** [registrationHandle]; the client's socket is its only part that matters. *)
Record Handle := mkHandle {
  h_socket : string;
  h_baseReq : RegisterRequest;
  h_name : string;
  h_regID : string;
  h_token : string;
  h_endpoint : string;
  h_ttl : Z;
  h_expires : Z;
  h_closed : bool
}.

Record RegistrationInfo := mkRegInfo {
  ri_RegistrationID : string;
  ri_Name : string;
  ri_Endpoint : string;
  ri_ExpiresAt : Z;
  ri_TTL : Z
}.

Definition Endpoint (h : Handle) : string := h_endpoint h.

Definition Info (h : Handle) : RegistrationInfo :=
  mkRegInfo (h_regID h) (h_name h) (h_endpoint h) (h_expires h) (h_ttl h).

Definition frontendEndpoint (f : FrontendDTO) : string :=
  if decide (fd_URL f ≠ "") then fd_URL f else JoinHostPort (fd_Host f) (Itoa (fd_Port f)).

(** A time after [Format(time.RFC3339)] and [time.Parse]: whole seconds. *)
Definition rfc3339 (t : Z) : Z := t / Second * Second.

Definition set_expires (t : Z) (h : Handle) : Handle :=
  mkHandle (h_socket h) (h_baseReq h) (h_name h) (h_regID h) (h_token h) (h_endpoint h) (h_ttl h) t (h_closed h).

(** What [register] stores of a response. *)
Definition adopt (h : Handle) (resp : RegisterResponse) : Handle :=
  let ttl := if decide (0 < rp_TTLSeconds resp) then int64 (rp_TTLSeconds resp * Second) else defaultLeaseTTL in
  mkHandle (h_socket h) (h_baseReq h) (h_name h) (rp_RegistrationID resp) (rp_LeaseToken resp)
    (frontendEndpoint (rp_Frontend resp)) ttl
    (match rp_ExpiresAt resp with Some t => rfc3339 t | None => 0 end) (h_closed h).

(** The response a 2xx body decodes to; only a [BodyRegister] has its fields. *)
Definition register_response (b : body) : RegisterResponse :=
  match b with
  | BodyRegister r => r
  | _ => mkRegisterResponse "" "" "" (mkFrontendDTO "" 0 "") None 0
  end.

(** [register], given the reply to its request. *)
Definition register (h : Handle) (reply : option Response) : Handle * option ClientError :=
  match do_request reply with
  | Err e => (h, Some e)
  | Ok b => (adopt h (register_response b), None)
  end.

Inductive RegisterError :=
| NameRequired
| BackendRequired
| InvalidBackend (e : AddrError)
| InvalidBackendPort
| RegisterFailed (e : ClientError).

(** The handle [Register] makes before it sends anything. *)
Definition new_handle (default_socket : string) (opts : RegistrationOptions) : result Handle RegisterError :=
  if decide (o_Name opts = "") then Err NameRequired
  else if decide (o_Backend opts = "") then Err BackendRequired
  else match SplitHostPort (o_Backend opts) with
  | Err e => Err (InvalidBackend e)
  | Ok (host, portStr) =>
    match Atoi portStr with
    | None => Err InvalidBackendPort
    | Some port =>
      let socket := if decide (o_Socket opts = "") then default_socket else o_Socket opts in
      let kind := if decide (o_Kind opts = "") then KindTCP else o_Kind opts in
      let source := if o_Manual opts then "manual" else "process" in
      Ok (mkHandle socket
            (mkRegisterRequest (o_Name opts) kind (o_AppProtocol opts) source (mkBackendDTO host port)
               (o_PreferredPort opts) (o_TTLSeconds opts) (o_HTTPHost opts))
            (o_Name opts) "" "" "" 0 0 false)
    end
  end.

(** [h.ttl / 3], at least a second. *)
Definition heartbeatInterval (h : Handle) : Z :=
  let interval := Z.quot (h_ttl h) 3 in
  if decide (interval < Second) then Second else interval.

(** The heartbeat loop between two rounds: the handle, the back-off and when
    the timer fires. *)
Record Loop := mkLoop { lp_h : Handle; lp_backoff : Z; lp_due : Z }.

Definition minBackoff : Z := 100 * Millisecond.
Definition maxBackoff : Z := 5 * Second.

(** The loop as it starts at [now], and as a round that worked leaves it. *)
Definition round_ok (now : Z) (h : Handle) : Loop := mkLoop h minBackoff (now + heartbeatInterval h).

(** The end of a round that failed; [delay] is [jitter(backoff)]. *)
Definition round_failed (now delay : Z) (l : Loop) : Loop :=
  let backoff := int64 (lp_backoff l * 2) in
  mkLoop (lp_h l) (if decide (maxBackoff < backoff) then maxBackoff else backoff) (now + delay).

(** The first half of a round: what the heartbeat's reply says. *)
Inductive verdict := Renewed (h : Handle) | Forgotten | Failed.

Definition heartbeat_verdict (h : Handle) (reply : option Response) : verdict :=
  match do_request reply with
  | Ok b =>
    Renewed (match b with BodyHeartbeat exp => set_expires (rfc3339 exp) h | _ => h end)
  | Err (ErrAPI status _) => if decide (status = 404) then Forgotten else Failed
  | Err ErrUnreachable => Failed
  end.

(** One round of [heartbeatLoop] after its timer has fired, which ends at
    [now]: [reply] answers the heartbeat, [reply'] the registration that is
    sent when the daemon has forgotten the old one. *)
Definition round (now delay : Z) (l : Loop) (reply reply' : option Response) : Loop :=
  match heartbeat_verdict (lp_h l) reply with
  | Renewed h => round_ok now h
  | Forgotten =>
    match register (lp_h l) reply' with
    | (h, None) => round_ok now h
    | (_, Some _) => round_failed now delay l
    end
  | Failed => round_failed now delay l
  end.

(** [jitter]: within 20% of [d], up to the rounding of the multiplication. *)
Definition jittered (d delay : Z) : Prop := 4 * d - 5 ≤ 5 * delay ≤ 6 * d + 5.

(** ** One round of the loop *)

(** The loop never spins and never sleeps for long: its back-off stays between
    100 ms and 5 s, a round that failed is followed by a pause of 80 ms to 6 s
    (up to a nanosecond), one that worked by a third of the TTL.  The identity
    of the registration changes only when the daemon answered 404 and accepted
    a new registration, and then as a whole. *)
Theorem round_bounds now delay l reply reply' :
  minBackoff ≤ lp_backoff l ≤ maxBackoff → jittered (lp_backoff l) delay →
  let l' := round now delay l reply reply' in
  minBackoff ≤ lp_backoff l' ≤ maxBackoff ∧
  ((80 * Millisecond - 1 ≤ lp_due l' - now ≤ 6 * Second + 1 ∧ lp_h l' = lp_h l) ∨
   (lp_due l' = now + heartbeatInterval (lp_h l') ∧ lp_backoff l' = minBackoff ∧
    ((∃ t, lp_h l' = set_expires t (lp_h l)) ∨
     ∃ code b, do_request reply = Err (ErrAPI 404 code) ∧ do_request reply' = Ok b ∧
       lp_h l' = adopt (lp_h l) (register_response b)))).
Proof.
  intros Hb Hj l'. change minBackoff with 100000000 in *. change maxBackoff with 5000000000 in *.
  assert (let f := round_failed now delay l in 100000000 ≤ lp_backoff f ≤ 5000000000 ∧
    80 * Millisecond - 1 ≤ lp_due f - now ≤ 6 * Second + 1 ∧ lp_h f = lp_h l) as Hf.
  { unfold round_failed, jittered in *; simpl. change Millisecond with 1000000. change Second with 1000000000.
    change maxBackoff with 5000000000. rewrite int64_id by (unfold in_int64; lia).
    split_and!; try case_decide; try done; lia. }
  unfold l', round, heartbeat_verdict, register.
  destruct (do_request reply) as [b|[|status code]] eqn:E1; simpl.
  - split; [done|]. right. split_and!; try done. left. destruct b; eauto;
      exists (h_expires (lp_h l)); by destruct (lp_h l).
  - naive_solver.
  - case_decide; [subst status|naive_solver].
    destruct (do_request reply') as [b|e] eqn:E2; [|naive_solver].
    split; [done|]. right. split_and!; try done. right. eauto.
Qed.

Section Client.
Context `{JSON} `{Unicode} `{MapRange}.

(** The requests of the client, as the daemon handles them. *)
Definition post_registration (h : Handle) (env : Env) (d : Daemon) : Daemon * Response :=
  handleRegister d (Some (h_baseReq h)) env.

Definition post_heartbeat (now : Z) (h : Handle) (d : Daemon) : Daemon * Response :=
  handleHeartbeat now d (h_regID h) (authorization (h_token h)).

Definition delete_registration (now : Z) (h : Handle) (d : Daemon) : Daemon * Response :=
  handleDelete now d (h_regID h) (authorization (h_token h)).

(** [Register]: on success the handle with its loop about to start. *)
Definition ClientRegister (default_socket : string) (opts : RegistrationOptions) (f : fate) (env : Env)
    (d : Daemon) : Daemon * result Handle RegisterError :=
  match new_handle default_socket opts with
  | Err e => (d, Err e)
  | Ok h =>
    let '(d', reply) := exchange f d (post_registration h env) in
    match register h reply with
    | (h', None) => (d', Ok h')
    | (_, Some e) => (d', Err (RegisterFailed e))
    end
  end.

(** A round against the daemon, its two requests at [now1] and with [env2];
    [between] is what others do to the daemon in between. *)
Definition beat (f1 : fate) (now1 : Z) (between : Daemon → Daemon) (f2 : fate) (env2 : Env) (now delay : Z)
    (d : Daemon) (l : Loop) : Daemon * Loop :=
  let h := lp_h l in
  let '(d1, reply) := exchange f1 d (post_heartbeat now1 h) in
  match heartbeat_verdict h reply with
  | Forgotten =>
    let '(d2, reply') := exchange f2 (between d1) (post_registration h env2) in
    (d2, round now delay l reply reply')
  | _ => (d1, round now delay l reply None)
  end.

(** [Close], once the loop has stopped (or two seconds have passed). *)
Definition Close (f : fate) (now : Z) (d : Daemon) (h : Handle) : Daemon * Handle :=
  if h_closed h then (d, h)
  else
    let h := mkHandle (h_socket h) (h_baseReq h) (h_name h) (h_regID h) (h_token h) (h_endpoint h)
               (h_ttl h) (h_expires h) true in
    if decide (h_regID h = "" ∨ h_token h = "") then (d, h)
    else ((exchange f d (delete_registration now h)).1, h).

(** [ListenTCP] (registration.go): the port the application listens on stays
    open exactly when the registration succeeds; [None] is a failing
    [net.Listen]. *)
Definition ListenTCP (default_socket : string) (listen : option Z) (name : string) (preferredPort : Z)
    (f : fate) (env : Env) (d : Daemon) : Daemon * option (Z * Handle) :=
  match listen with
  | None => (d, None)
  | Some port =>
    match ClientRegister default_socket
            (mkOptions name KindTCP "" "" (JoinHostPort "127.0.0.1" (Itoa port)) preferredPort 0 false "") f env d with
    | (d', Ok h) => (d', Some (port, h))
    | (d', Err _) => (d', None)
    end
  end.

(** [ListenerHandle.Close]: the listener first, then the registration; what
    closing the listener returned is the result. *)
Definition ListenerHandle_Close (listener_err : bool) (f : fate) (now : Z) (d : Daemon) (h : Handle) :
    bool * (Daemon * Handle) :=
  (listener_err, Close f now d h).

(** ** The replies of the daemon, as the client reads them *)

Lemma authorization_token token :
  token ≠ "" → Forall (λ c, no_space c = true) (bytes token) → bearerToken (authorization token) = token.
Proof.
  intros Hne Ht. unfold authorization. rewrite decide_False by done. by apply bearerToken_roundtrip.
Qed.

(** A lease token: what [NewToken] makes of some random bytes. *)
Definition token_ok (token : string) : Prop :=
  token ≠ "" ∧ Forall (λ c, no_space c = true) (bytes token).

Lemma NewToken_ok rnd token : NewToken (Some rnd) = Some token → rnd ≠ [] → token_ok token.
Proof.
  intros [= <-] Hne. split; [|apply EncodeToString_no_space].
  destruct rnd as [|b rnd]; [done|]. done.
Qed.

Lemma do_request_ok status b : 200 ≤ status < 300 → do_request (Some (status, b)) = Ok b.
Proof. intros. unfold do_request. rewrite decide_False; [done|lia]. Qed.

(** A heartbeat while the lease is live. *)
Lemma post_heartbeat_live now h d e :
  Lease.Get (d_Lease d) (h_regID h) = Some e → now < le_ExpiresAt e →
  le_Token e = h_token h → token_ok (h_token h) →
  post_heartbeat now h d =
  (with_Lease (set_entries (<[h_regID h := set_ExpiresAt (now + le_TTL e) e]> (m_entries (d_Lease d)))
     (d_Lease d)) d, (200, BodyHeartbeat (now + le_TTL e))).
Proof.
  intros He Hnow Ht [Hne Hsp]. unfold post_heartbeat, handleHeartbeat. rewrite authorization_token by done.
  rewrite (Heartbeat_live _ _ _ _ _ He) by done. by rewrite decide_True.
Qed.

(** A registration as the client sees it. *)
Lemma ClientRegister_Ok sock opts f env d d' h :
  ClientRegister sock opts f env d = (d', Ok h) →
  ∃ h0 r, f = Answered ∧ new_handle sock opts = Ok h0 ∧
    handleRegister d (Some (h_baseReq h0)) env = (d', (201, BodyRegister r)) ∧ h = adopt h0 r.
Proof.
  unfold ClientRegister. destruct (new_handle sock opts) as [h0|]; [|done].
  destruct f; simpl; [done|done|]. unfold post_registration.
  destruct (handleRegister _ _ _) as [d1 [st b]] eqn:E. unfold register, do_request.
  case_decide as Hst; [done|]. intros [= <- <-]. exists h0, (register_response b).
  enough (st = 201 ∧ ∃ r, b = BodyRegister r) as (-> & r & ->) by done. revert E. unfold handleRegister.
  assert (∀ c, (writeError c).1 < 200 ∨ 300 ≤ (writeError c).1) as Hw.
  { intros c. unfold writeError, statusForCode. simpl. right. repeat case_decide; lia. }
  case_decide.
  { specialize (Hw CodeInvalidRequest). destruct (writeError CodeInvalidRequest) as [st' b'] eqn:Ew.
    intros; simplify_eq. simpl in Hw. tauto. }
  destruct (Daemon.Register _ _ _) as [d2 [res|e]]; [intros; simplify_eq; eauto|].
  specialize (Hw e). destruct (writeError e) as [st' b'] eqn:Ew. intros; simplify_eq. simpl in Hw. tauto.
Qed.

(** ** The lease is renewed in time *)

(** The lease behind a loop: the token is the holder's, the client's idea of
    the TTL is at least 3 seconds and no more than the daemon's. *)
Definition holds_lease (d : Daemon) (h : Handle) (e : Entry) : Prop :=
  Lease.Get (d_Lease d) (h_regID h) = Some e ∧ le_Token e = h_token h ∧ token_ok (h_token h) ∧
  le_RegistrationID e = h_regID h ∧ 3 * Second ≤ h_ttl h ≤ le_TTL e.

(** The TTL the client works with, from the whole seconds it is told. *)
Lemma adopted_ttl h r ttl : MinLeaseTTL ≤ ttl ≤ MaxLeaseTTL → rp_TTLSeconds r = seconds ttl →
  3 * Second ≤ h_ttl (adopt h r) ≤ ttl.
Proof.
  intros Hb Hs. unfold adopt; simpl. rewrite Hs. unfold seconds in *.
  change MinLeaseTTL with 3000000000 in *. change MaxLeaseTTL with 3600000000000 in *.
  change Second with 1000000000 in *. rewrite Z.quot_div_nonneg by lia.
  pose proof (Z.mul_div_le ttl 1000000000 ltac:(lia)).
  assert (3 ≤ ttl / 1000000000) by (apply Z.div_le_lower_bound; lia).
  rewrite decide_True by lia. rewrite int64_id; [lia|]. unfold in_int64. lia.
Qed.

(** What registering gives the client. *)
Lemma adopted_lease h q source env d d' res r :
  source = SourceProcess ∨ source = SourceManual → e_rand env ≠ Some [] →
  Daemon.Register d (request_params q source) env = (d', Ok res) →
  rp_RegistrationID r = rr_RegistrationID res → rp_LeaseToken r = rr_LeaseToken res →
  rp_TTLSeconds r = rr_TTLSeconds res →
  ∃ e, holds_lease d' (adopt h r) e ∧ le_ExpiresAt e = e_lease_now env + le_TTL e ∧ le_Name e = q_Name q.
Proof.
  intros Hsrc Hrnd HR E1 E2 E3.
  assert (request_source (request_params q source) ≠ SourceDocker) as Hnd
    by (rewrite request_source_params by done; by destruct Hsrc as [-> | ->]).
  apply Register_lease in HR as (ttl & Hb & _ & _ & Htok & Hget & _ & Hsec); [|done].
  rewrite Hsec in E3. apply (adopted_ttl h) in E3; [|done].
  eexists. unfold holds_lease. change (h_regID (adopt h r)) with (rp_RegistrationID r).
  change (h_token (adopt h r)) with (rp_LeaseToken r). rewrite E1, E2.
  split; [split; [exact Hget|]|done]. split_and!; [done| |done|apply E3..].
  destruct (e_rand env) as [rnd|]; [|done]. eapply NewToken_ok; [exact Htok|congruence].
Qed.

Lemma ClientRegister_lease sock opts f env d d' h :
  ClientRegister sock opts f env d = (d', Ok h) → e_rand env ≠ Some [] →
  ∃ e, holds_lease d' h e ∧ le_ExpiresAt e = e_lease_now env + le_TTL e ∧ le_Name e = o_Name opts.
Proof.
  intros (h0 & r & -> & Hn & HR & ->)%ClientRegister_Ok Hrnd.
  apply handleRegister_201 in HR as (q & source & res & [= <-] & Hsrc & HR & E1 & E2 & _ & _ & _ & E3).
  destruct (adopted_lease h0 _ _ _ _ _ _ r Hsrc Hrnd HR E1 E2 E3) as (e & He & Hx & En).
  exists e. split_and!; [done..|]. rewrite En. revert Hn. unfold new_handle. repeat case_match; intros; by simplify_eq/=.
Qed.

(** One event of a client and its daemon: a round of the loop, in which the
    timer fires on time and the requests take at most [L], or something that
    leaves the client's lease alone.  [k] counts the rounds in a row that got
    no reply; there are at most four. *)
Inductive client_step (L : Z) : nat * Daemon * Loop → nat * Daemon * Loop → Prop :=
| client_round k d l f now between f2 env t delay :
    lp_due l ≤ now → now ≤ t → t ≤ lp_due l + L → jittered (lp_backoff l) delay →
    (f ≠ Answered → k < 4)%nat →
    client_step L (k, d, l)
      (if decide (f = Answered) then 0%nat else S k, (beat f now between f2 env t delay d l).1,
       (beat f now between f2 env t delay d l).2)
| client_other k d l d' :
    Lease.Get (d_Lease d') (h_regID (lp_h l)) = Lease.Get (d_Lease d) (h_regID (lp_h l)) →
    client_step L (k, d, l) (k, d', l).

(** The back-off after [k] rounds without a reply, and the most time these
    rounds take. *)
Fixpoint backoff_after (k : nat) : Z :=
  match k with O => minBackoff | S k => 2 * backoff_after k end.

Fixpoint slack (L : Z) (k : nat) : Z :=
  match k with O => 0 | S k => slack L k + L + (6 * backoff_after k + 5) / 5 end.

(** The timer is due at most a third of the TTL, and the rounds that failed,
    after the last renewal. *)
Definition on_schedule (L : Z) (s : nat * Daemon * Loop) : Prop :=
  let '(k, d, l) := s in
  (k ≤ 4)%nat ∧ lp_backoff l = backoff_after k ∧
  ∃ e, holds_lease d (lp_h l) e ∧
    lp_due l ≤ le_ExpiresAt e - le_TTL e + L + heartbeatInterval (lp_h l) + slack L k.

Lemma interval_third h ttl : 3 * Second ≤ h_ttl h ≤ ttl →
  Second ≤ heartbeatInterval h ∧ 3 * heartbeatInterval h ≤ ttl.
Proof.
  intros Ht. unfold heartbeatInterval. change Second with 1000000000 in *. rewrite Z.quot_div_nonneg by lia.
  pose proof (Z.mul_div_le (h_ttl h) 3 ltac:(lia)).
  assert (1000000000 ≤ h_ttl h / 3) by (apply Z.div_le_lower_bound; lia).
  rewrite decide_False by lia. split; lia.
Qed.

Lemma slack_four L k : 0 ≤ L → (k ≤ 4)%nat → slack L k ≤ 4 * L + 1800000004.
Proof.
  intros HL Hk. do 5 (destruct k as [|k]; [cbn [slack backoff_after]; change minBackoff with 100000000; vm_compute Z.div; lia|]). lia.
Qed.

(** On schedule, a request that is sent when the timer fires finds its lease
    alive. *)
Lemma on_schedule_in_time L k d l : 0 ≤ L ≤ 33 * Millisecond → on_schedule L (k, d, l) →
  ∃ e, holds_lease d (lp_h l) e ∧ lp_due l + L < le_ExpiresAt e.
Proof.
  intros HL (Hk & _ & e & He & Hdue). exists e. split; [done|].
  pose proof (slack_four L k ltac:(lia) Hk). destruct He as (_ & _ & _ & _ & Ht).
  apply interval_third in Ht as Hi. change Second with 1000000000 in *. change Millisecond with 1000000 in *. lia.
Qed.

(** A round on schedule: renewed, or one failure more. *)
Lemma beat_on_schedule f now between f2 env t delay d l e :
  holds_lease d (lp_h l) e → now < le_ExpiresAt e →
  let '(d', l') := beat f now between f2 env t delay d l in
  h_regID (lp_h l') = h_regID (lp_h l) ∧ h_endpoint (lp_h l') = h_endpoint (lp_h l) ∧
  h_ttl (lp_h l') = h_ttl (lp_h l) ∧
  match f with
  | Answered => l' = round_ok t (set_expires (rfc3339 (now + le_TTL e)) (lp_h l)) ∧
      holds_lease d' (lp_h l') (set_ExpiresAt (now + le_TTL e) e)
  | ReplyLost => l' = round_failed t delay l ∧ holds_lease d' (lp_h l') (set_ExpiresAt (now + le_TTL e) e)
  | RequestLost => l' = round_failed t delay l ∧ d' = d
  end.
Proof.
  intros (He & Ht & Hok & Hid & Httl) Hnow. unfold beat.
  pose proof (post_heartbeat_live now (lp_h l) d e He Hnow Ht Hok) as Ep.
  destruct f; unfold exchange; rewrite ?Ep; simpl; split_and!; try done;
    unfold holds_lease; simpl; unfold Lease.Get; simpl; rewrite lookup_insert_eq; split_and!; try done; lia.
Qed.

Lemma round_failed_backoff t delay l k : (k < 4)%nat → lp_backoff l = backoff_after k →
  lp_backoff (round_failed t delay l) = backoff_after (S k).
Proof.
  intros Hk Hb. unfold round_failed. rewrite Hb.
  do 4 (destruct k as [|k]; [vm_compute; reflexivity|]). lia.
Qed.

Lemma backoff_after_pos k : 0 < backoff_after k.
Proof. induction k as [|k IH]; simpl; [done|lia]. Qed.

Lemma slack_pos L k : 0 ≤ L → 0 ≤ slack L k.
Proof.
  intros. induction k as [|k IH]; simpl; [lia|]. pose proof (backoff_after_pos k).
  assert (0 ≤ (6 * backoff_after k + 5) / 5) by (apply Z.div_pos; lia). lia.
Qed.

Lemma jittered_bound d delay : jittered d delay → delay ≤ (6 * d + 5) / 5.
Proof. intros [_ ?]. apply Z.div_le_lower_bound; lia. Qed.

Lemma client_step_schedule L s s' : 0 ≤ L ≤ 33 * Millisecond → client_step L s s' → on_schedule L s →
  on_schedule L s' ∧ h_regID (lp_h s'.2) = h_regID (lp_h s.2) ∧ h_endpoint (lp_h s'.2) = h_endpoint (lp_h s.2).
Proof.
  intros HL Hstep Hs.
  destruct Hstep as [k d l f now between f2 env t delay H1' H2' H3' Hj Hk|k d l d' E].
  2:{ simpl. split; [|done]. destruct Hs as (Hk & Hb & e & (He & Hr) & Hdue).
      split_and!; [done..|]. exists e. unfold holds_lease. by rewrite E. }
  pose proof (on_schedule_in_time _ _ _ _ HL Hs) as (e' & He' & Hin).
  destruct Hs as (Hk4 & Hb & e & He & Hdue).
  assert (e' = e) as -> by (destruct He as [He _], He' as [He' _]; congruence).
  pose proof (beat_on_schedule f now between f2 env t delay d l e He ltac:(lia)) as Hbeat.
  destruct (beat f now between f2 env t delay d l) as [d' l']. simpl.
  destruct Hbeat as (Eid & Een & Ettl & Hf). split; [|done].
  assert (heartbeatInterval (lp_h l') = heartbeatInterval (lp_h l)) as Ei
    by (unfold heartbeatInterval; by rewrite Ettl).
  rewrite Hb in Hj. apply jittered_bound in Hj. pose proof (slack_pos L k ltac:(lia)).
  destruct f; simpl in *.
  - destruct Hf as [-> ->]. specialize (Hk ltac:(done)).
    split_and!; [lia|by apply round_failed_backoff|]. exists e. split; [done|]. simpl. lia.
  - destruct Hf as [-> Hl]. specialize (Hk ltac:(done)).
    split_and!; [lia|by apply round_failed_backoff|]. eexists. split; [exact Hl|].
    destruct He as (_ & _ & _ & _ & Httl). apply interval_third in Httl. change Second with 1000000000 in *. simpl. lia.
  - destruct Hf as [-> Hl]. split_and!; [lia|done|]. eexists. split; [exact Hl|]. simpl. lia.
Qed.

Lemma client_run_schedule L s s' : 0 ≤ L ≤ 33 * Millisecond → rtc (client_step L) s s' → on_schedule L s →
  on_schedule L s' ∧ h_regID (lp_h s'.2) = h_regID (lp_h s.2) ∧ h_endpoint (lp_h s'.2) = h_endpoint (lp_h s.2).
Proof.
  intros HL. induction 1 as [|x y z Hxy _ IH]; [done|]. intros Hx.
  apply client_step_schedule in Hxy as (Hy & E1 & E2); [|done|done]. rewrite <-E1, <-E2. auto.
Qed.

(** A registered client keeps its lease: with requests that take at most 33 ms and at most four
    failed rounds in a row, whatever heartbeats or replies are lost, every heartbeat its loop
    sends when its timer fires is answered with 200 and a renewed lease, and the registration's
    ID and endpoint never change; the back-off is short enough for a lease of any admissible
    TTL. *)
Theorem client_keeps_lease L sock opts f env d d' h t k d2 l2 :
  0 ≤ L ≤ 33 * Millisecond → e_rand env ≠ Some [] →
  ClientRegister sock opts f env d = (d', Ok h) → e_lease_now env ≤ t ≤ e_lease_now env + L →
  rtc (client_step L) (0%nat, d', round_ok t h) (k, d2, l2) →
  h_regID (lp_h l2) = h_regID h ∧ Endpoint (lp_h l2) = Endpoint h ∧
  ∃ e, Lease.Get (d_Lease d2) (h_regID h) = Some e ∧ le_Token e = h_token (lp_h l2) ∧
    ∀ now, now ≤ lp_due l2 + L →
      (post_heartbeat now (lp_h l2) d2).2 = (200, BodyHeartbeat (now + le_TTL e)).
Proof.
  intros HL Hrnd HR Ht Hrun. apply ClientRegister_lease in HR as (e & He & Hexp & _); [|done].
  assert (on_schedule L (0%nat, d', round_ok t h)) as Hs.
  { split_and!; [lia|done|]. exists e. split; [done|]. simpl. lia. }
  destruct (client_run_schedule _ _ _ HL Hrun Hs) as (Hs2 & Eid & Een). simpl in Eid, Een.
  split_and!; [done..|].
  destruct (on_schedule_in_time _ _ _ _ HL Hs2) as (e2 & (Hg & Htk & Hok & Hr) & Hlt).
  exists e2. rewrite <-Eid. split_and!; [done..|]. intros now Hnow.
  by rewrite (post_heartbeat_live _ _ _ e2) by (done || lia).
Qed.

(** ** A restart of the daemon *)

(** The daemon does not know the registration. *)
Lemma post_heartbeat_forgotten now h d :
  Lease.Get (d_Lease d) (h_regID h) = None →
  (post_heartbeat now h d).1 = d ∧
  heartbeat_verdict h (Some (post_heartbeat now h d).2) = Forgotten ∧ (post_heartbeat now h d).2.1 = 404.
Proof.
  unfold Lease.Get. intros E. unfold post_heartbeat, handleHeartbeat, Heartbeat, Renew. rewrite E.
  split; [by destruct d|done].
Qed.

(** A client's request, as the daemon gets it. *)
Definition client_source (h : Handle) : Source := q_Source (h_baseReq h).

Lemma post_registration_Ok h env d d' res :
  client_source h = SourceProcess ∨ client_source h = SourceManual →
  Daemon.Register d (request_params (h_baseReq h) (client_source h)) env = (d', Ok res) →
  ∃ r, post_registration h env d = (d', (201, BodyRegister r)) ∧ rp_Frontend r = frontendDTO (rr_Frontend res) ∧
    rp_RegistrationID r = rr_RegistrationID res ∧ rp_LeaseToken r = rr_LeaseToken res ∧
    rp_TTLSeconds r = rr_TTLSeconds res.
Proof.
  unfold client_source. intros Hs HR. unfold post_registration, handleRegister.
  assert (q_Source (h_baseReq h) ≠ "") as Hne by (destruct Hs as [-> | ->]; done).
  rewrite (decide_False (P := q_Source (h_baseReq h) = "")) by done.
  rewrite decide_False by (intros []; tauto). rewrite HR. eexists. split; [reflexivity|]. done.
Qed.


(** ** The life of a registration *)

(** The record behind a lease that is the publication's own. *)
Definition publishes (d : Daemon) (h : Handle) (name : string) (b : Backend) : Prop :=
  ∃ rec, d_Registry d !! name = Some rec ∧ r_Backend rec = Some b ∧ r_Status rec = StatusReady ∧
    r_ProducerID rec = h_regID h ∧ h_endpoint h = frontendEndpoint (frontendDTO (r_Frontend rec)).

Lemma publishes_backend d h name b : publishes d h name b → backendProvider d name = Some b.
Proof.
  intros (rec & Hr & Hb & Hst & _). unfold backendProvider, Resolve. by rewrite Hr, Hst, Hb.
Qed.

Lemma ClientRegister_publishes sock opts f env d d' h :
  ClientRegister sock opts f env d = (d', Ok h) →
  h_closed h = false ∧ h_regID h = e_newID env ∧
  ∃ host portStr port, SplitHostPort (o_Backend opts) = Ok (host, portStr) ∧ Atoi portStr = Some port ∧
    publishes d' h (o_Name opts) (mkBackend host port).
Proof.
  intros (h0 & r & -> & Hn & HR & ->)%ClientRegister_Ok.
  apply handleRegister_201 in HR as (q & source & res & [= <-] & Hsrc & HR & E1 & E2 & _ & _ & E3 & _).
  pose proof HR as (hn & _ & Ereg & _)%Register_registry.
  assert (request_source (request_params (h_baseReq h0) source) ≠ SourceDocker) as Hnd
    by (rewrite request_source_params by done; by destruct Hsrc as [-> | ->]).
  apply Register_lease in HR as (_ & _ & _ & Eid & _); [|done].
  unfold new_handle in Hn. do 2 (case_decide; [done|]).
  destruct (SplitHostPort _) as [[host portStr]|] eqn:Esp; [|done].
  destruct (Atoi portStr) as [port|] eqn:Ea; [|done]. injection Hn as <-. simpl in *.
  rewrite E1, Eid. split_and!; [done..|]. exists host, portStr, port. split_and!; [done..|].
  eexists. split; [by rewrite Ereg, lookup_insert_eq|]. simpl. split_and!; [done..| |by rewrite E3].
  unfold request_producer. rewrite (decide_False (P := request_source _ = SourceDocker)) by done. by rewrite E1, Eid.
Qed.

(** Closing takes the publication back, once. *)
Lemma Close_unpublishes now d h e name b :
  h_closed h = false → h_regID h ≠ "" → holds_lease d h e → le_Name e = name →
  publishes d h name b →
  let '(d', h') := Close Answered now d h in
  backendProvider d' name = None ∧ Lease.Get (d_Lease d') (h_regID h) = None ∧
  ∀ f now', Close f now' d' h' = (d', h').
Proof.
  intros Hc Hid (Hget & Htk & [Hne Hsp] & Hrid & _) Hn (rec & Hr & _ & _ & Hp & _).
  unfold Close. rewrite Hc. simpl. rewrite decide_False by (intros [?|?]; done).
  unfold delete_registration, handleDelete. simpl. rewrite authorization_token by done.
  rewrite (DeleteRegistration_live _ _ _ _ _ Hget), decide_True by done. simpl.
  destruct (endPublication_fields now (with_Lease (Lease.Remove (d_Lease d) (h_regID h)) d) (le_Name e) (le_RegistrationID e))
    as (_ & _ & El & _). split_and!; [| |done].
  - unfold backendProvider, Resolve, endPublication.
    destruct (ClearBackendIf _ _ _ _) as [reg bb] eqn:E. simpl in *.
    pose proof (ClearBackendIf_lookup now (d_Registry d) (le_Name e) (le_RegistrationID e) name) as Hl.
    rewrite E, Hr, decide_True in Hl by (split; congruence). simpl in Hl. by rewrite Hl.
  - unfold Lease.Get. rewrite El. simpl. apply lookup_delete_eq.
Qed.

(** The address of the application's listener is split into what it was joined from. *)
Lemma split_loopback port : 0 ≤ port →
  SplitHostPort (JoinHostPort "127.0.0.1" (Itoa port)) = Ok ("127.0.0.1", Itoa port).
Proof.
  intros Hp. destruct (Itoa_digits port Hp) as [Hd _].
  apply SplitHostPort_JoinHostPort; [by split; apply (bool_decide_unpack _)| |].
  - by split; apply (class_not_elem is_digit).
  - by apply (class_not_elem is_digit).
Qed.

(** ListenTCP returns with the port it listens on published as the service's backend and the
    service's frontend as its endpoint; Close takes the backend away and the lease with it, and
    a second Close does nothing. *)
Theorem ListenTCP_lifecycle sock listen name preferred f env d d' port h :
  ListenTCP sock listen name preferred f env d = (d', Some (port, h)) → e_rand env ≠ Some [] →
  0 ≤ port ≤ 65535 → e_newID env ≠ "" →
  listen = Some port ∧ backendProvider d' name = Some (mkBackend "127.0.0.1" port) ∧
  (∃ rec, Resolve (d_Registry d') name = Some rec ∧ Endpoint h = frontendEndpoint (frontendDTO (r_Frontend rec))) ∧
  ∀ err now, let '(err', (d2, h2)) := ListenerHandle_Close err Answered now d' h in
    err' = err ∧ backendProvider d2 name = None ∧ Lease.Get (d_Lease d2) (h_regID h) = None ∧
    ∀ err2 f' now', ListenerHandle_Close err2 f' now' d2 h2 = (err2, (d2, h2)).
Proof.
  unfold ListenTCP. destruct listen as [q|]; [|done].
  destruct (ClientRegister _ _ _ _ _) as [d1 [h1|]] eqn:HR; [|done]. intros [= -> -> ->] Hrnd Hport Hnew.
  pose proof HR as (Hc & Eid & host & ps & pt & Hsp & Ha & Hpub)%ClientRegister_publishes.
  simpl in *. rewrite split_loopback in Hsp by lia. injection Hsp as <- <-.
  rewrite Atoi_Itoa in Ha by (unfold in_int64; lia). injection Ha as <-.
  split_and!; [done|by eapply publishes_backend| |].
  - destruct Hpub as (rec & Hr & _ & _ & _ & He). by exists rec.
  - intros err now. apply ClientRegister_lease in HR as (e & He & _ & Hen); [|done].
    unfold ListenerHandle_Close. pose proof (Close_unpublishes now d' h e name) as Hcl.
    destruct (Close _ _ _ _) as [d2 h2]. edestruct Hcl as (? & ? & Hagain); try done; [by rewrite Eid|].
    split_and!; try done. intros err2 f' now'. by rewrite Hagain.
Qed.

End Client.
