(* ===== verification/ClientNet.v ===== *)
(** * A client in the running system

    The heartbeat loop of [client.go] and the system of [DaemonSystem.v] run
    side by side on one clock: the loop sends a heartbeat when its timer has
    fired, the request may get lost, or its reply; between any two of its
    steps the rest of the world (other clients, the sweeper, the Docker
    watcher, deletions) takes steps of the system.  What the others do is
    restricted in one way: nobody else presents the client's lease token. *)

From S2P Require Import Prelude GoStrings GoNet Registry Lease State Runtime Router Config Daemon DaemonInv DaemonSpec DaemonSystem Api Client.
From Stdlib Require Import Ascii.
Local Open Scope Z_scope.

Section ClientNet.
Context `{JSON} `{Unicode} `{MapRange}.

(** ** The others *)

(** A step of the system at time [t] that is not made with the token of the
    lease [id]; clock readings are not ahead of [t]. *)
Definition others (t : Z) (id token : string) : Guard :=
  mkGuard (λ _, True) (λ now id' token', now ≤ t ∧ (id', token') ≠ (id, token)) (λ now, now ≤ t)
    (λ id' token', (id', token') ≠ (id, token)) (λ _, True).

Abbreviation foreign t id token := (guarded (others t id token)).

(** A registration under another name leaves the lease of a live service. *)
Lemma publish_keeps_lease s p env d' pr f name rec e :
  sys_inv s → request_ok p → s_issued s !! request_regID p env = None →
  register_publish (s_d s) p env = (d', Ok (pr, f)) →
  d_Registry (s_d s) !! name = Some rec → r_Source rec ≠ SourceDocker → r_Status rec = StatusReady →
  Lease.Get (d_Lease (s_d s)) (r_ProducerID rec) = Some e →
  Lease.Get (d_Lease d') (r_ProducerID rec) = Some e.
Proof.
  intros Hs Hreq Hf E Hr Hsrc Hst He. unfold Lease.Get in *.
  pose proof E as (Ep & d1 & _ & -> & _ & El & _)%register_publish_Ok.
  destruct (publish_fields d1 p pr f (e_now env)) as (_ & -> & _). rewrite El.
  destruct (retire_previous_keeps (s_d s) (p_Name p) pr _ e He) as [?|(rec0 & Hr0 & Hid & _ & Hsrc0)]; [done|].
  pose proof (si_records _ Hs _ _ Hr0 Hsrc0) as E0. rewrite Hid, (si_records _ Hs _ _ Hr Hsrc) in E0.
  injection E0 as ->. edestruct (ready_publish_refused s p env rec Hs) as [e' Ee]; try done. congruence.
Qed.

Lemma Renew_other now t m id id' token token' e :
  m_entries m !! id = Some e → le_Token e = token → t < le_ExpiresAt e → now ≤ t → (id', token') ≠ (id, token) →
  m_entries (Renew now m id' token').1 !! id = Some e.
Proof.
  intros He Ht Hx Hn Hne. unfold Renew. destruct (decide (id' = id)) as [->|Hid].
  - rewrite He, decide_False by (unfold expired; lia).
    rewrite (proj2 (tokenEqual_false _ _)); [done|]. intros E. apply Hne. congruence.
  - destruct (m_entries m !! id') as [e'|]; [|done]. case_decide; [by simpl; rewrite lookup_delete_ne|].
    destruct (negb _); [done|]. simpl. by rewrite lookup_insert_ne.
Qed.

Lemma Delete_other m id id' token token' e :
  m_entries m !! id = Some e → le_Token e = token → (id', token') ≠ (id, token) →
  m_entries (Delete m id' token').1 !! id = Some e.
Proof.
  intros He Ht Hne. unfold Delete. destruct (decide (id' = id)) as [->|Hid].
  - rewrite He, (proj2 (tokenEqual_false _ _)); [done|]. intros E. apply Hne. congruence.
  - destruct (m_entries m !! id') as [e'|]; [|done]. destruct (negb _); [done|]. simpl. by rewrite lookup_delete_ne.
Qed.

(** As long as it has not expired, nobody but the holder of the token does
    anything to the lease of a ready service. *)
Lemma foreign_keeps_lease t id token s s' name rec e :
  sys_inv s → foreign t id token s s' →
  d_Registry (s_d s) !! name = Some rec → r_Source rec ≠ SourceDocker → r_Status rec = StatusReady →
  r_ProducerID rec = id → Lease.Get (d_Lease (s_d s)) id = Some e → le_Token e = token → t < le_ExpiresAt e →
  Lease.Get (d_Lease (s_d s')) id = Some e.
Proof.
  intros Hs Hf Hr Hsrc Hst <- He Ht Hx.
  destruct Hf as [d dels ends iss lost p env d' er _ _ E|d dels ends iss lost p env d' pr f _ Hreq _ Hfr E
    |d dels ends iss lost b d' r E|d reg dels ends iss lost now id' token' [Hn Hne]
    |d reg dels ends iss lost now l out Hn E| |d reg dels1 dels2 ends iss lost id' token' e' l r Hne E
    |d dels ends1 ends2 iss lost now n pid|d dels ends iss lost now n owner cid _ Hc]; simpl in *; try done.
  - apply register_publish_Err in E as [_ ->]; [done|apply (si_daemon _ Hs)].
  - exact (publish_keeps_lease (mkSys d None dels ends iss lost) p env d' pr f name rec e Hs Hreq Hfr E Hr Hsrc Hst He).
  - apply grant_lease_cases in E as [(_ & -> & _)|[(_ & -> & _)|(Hds & _ & _ & e' & _ & El)]]; [done..|].
    unfold Lease.Get in *. rewrite El, lookup_insert_ne; [done|]. intros Hid.
    destruct (si_reg _ Hs b eq_refl Hds) as (_ & _ & Hno & _). simpl in Hno. congruence.
  - rewrite Heartbeat_state. unfold Lease.Get in *. simpl. by eapply Renew_other.
  - pose proof (TakeExpired_entries now (d_Lease d)) as Hent. rewrite E in Hent. unfold Lease.Get in *.
    simpl in *. rewrite Hent. apply map_lookup_filter_Some. split; [done|]. unfold expired. simpl. lia.
  - unfold Lease.Get in *. simpl. pose proof (Delete_other _ _ _ _ _ _ He Ht Hne) as Hd. by rewrite E in Hd.
  - by destruct (endPublication_fields now d n pid) as (_ & _ & -> & _).
  - unfold ForgetDockerPublication. by destruct (endPublication_fields now d n cid) as (_ & _ & -> & _).
Qed.

(** ** The loop in the world *)

(** Where [heartbeatLoop] is: in its select, in the request (which has brought
    [reply], [None] for none), or past the 404 that makes it register again,
    which is the matter of [client_survives_restart]. *)
Inductive loop_phase := InSelect | InRequest (reply : option Response) | Dropped.

(** [n_fails] counts the rounds in a row that failed. *)
Record Net := mkNet {
  n_now : Z;
  n_sys : System;
  n_loop : Loop;
  n_phase : loop_phase;
  n_fails : nat
}.

Definition net_handle (n : Net) : Handle := lp_h (n_loop n).

(** The system after a heartbeat handler has run on its daemon at [now]. *)
Definition sys_heartbeat (now : Z) (h : Handle) (s : System) : System :=
  mkSys (post_heartbeat now h (s_d s)).1 (s_reg s) (s_dels s) (s_ends s) (s_issued s)
    (if late now (s_d s) (h_regID h) then {[h_regID h]} ∪ s_lost s else s_lost s).

(** [L] bounds how long a round lasts from the time the timer is due; a request
    gets lost, or its reply, at most four times in a row. *)
Inductive net_step (L : Z) : Net → Net → Prop :=
| net_tick n t :
    n_now n ≤ t → t ≤ lp_due (n_loop n) + L →
    net_step L n (mkNet t (n_sys n) (n_loop n) (n_phase n) (n_fails n))
| net_foreign n s' :
    foreign (n_now n) (h_regID (net_handle n)) (h_token (net_handle n)) (n_sys n) s' →
    net_step L n (mkNet (n_now n) s' (n_loop n) (n_phase n) (n_fails n))
| net_request_lost n :
    n_phase n = InSelect → lp_due (n_loop n) ≤ n_now n → (n_fails n < 4)%nat →
    net_step L n (mkNet (n_now n) (n_sys n) (n_loop n) (InRequest None) (n_fails n))
| net_heartbeat n (reply_lost : bool) :
    n_phase n = InSelect → lp_due (n_loop n) ≤ n_now n → (reply_lost = true → n_fails n < 4)%nat →
    net_step L n (mkNet (n_now n) (sys_heartbeat (n_now n) (net_handle n) (n_sys n)) (n_loop n)
      (InRequest (if reply_lost then None
                 else Some (post_heartbeat (n_now n) (net_handle n) (s_d (n_sys n))).2)) (n_fails n))
| net_round n reply delay :
    n_phase n = InRequest reply → jittered (lp_backoff (n_loop n)) delay →
    heartbeat_verdict (net_handle n) reply ≠ Forgotten →
    net_step L n (mkNet (n_now n) (n_sys n) (round (n_now n) delay (n_loop n) reply None) InSelect
      (match heartbeat_verdict (net_handle n) reply with Failed => S (n_fails n) | _ => 0%nat end))
| net_dropped n reply :
    n_phase n = InRequest reply → heartbeat_verdict (net_handle n) reply = Forgotten →
    net_step L n (mkNet (n_now n) (n_sys n) (n_loop n) Dropped (n_fails n)).

(** The heartbeat handler is one step of the system. *)
Lemma sys_heartbeat_step now h s : step s (sys_heartbeat now h s).
Proof.
  destruct s as [d reg dels ends iss lost]. unfold sys_heartbeat, post_heartbeat, handleHeartbeat. simpl.
  pose proof (step_heartbeat d reg dels ends iss lost now (h_regID h) (bearerToken (authorization (h_token h)))) as Hst.
  by destruct (Heartbeat _ _ _ _) as [d1 [exp|e]].
Qed.

(** ** What holds while the loop runs *)

(** The service of the loop: its record, which never changes, and the lease
    behind it. *)
Record served (rec : ServiceRecord) (n : Net) (e : Entry) : Prop := mkServed {
  sv_sys : sys_inv (n_sys n);
  sv_record : d_Registry (s_d (n_sys n)) !! r_Name rec = Some rec;
  sv_ready : r_Source rec ≠ SourceDocker ∧ r_Status rec = StatusReady;
  sv_producer : r_ProducerID rec = h_regID (net_handle n);
  sv_lease : holds_lease (s_d (n_sys n)) (net_handle n) e
}.

(** The latest time the timer may be due, after [k] failed rounds. *)
Definition deadline (L : Z) (h : Handle) (e : Entry) (k : nat) : Z :=
  le_ExpiresAt e - le_TTL e + L + heartbeatInterval h + slack L k.

Definition on_track (L : Z) (rec : ServiceRecord) (h : Handle) (n : Net) : Prop :=
  ∃ e, served rec n e ∧
    h_regID (net_handle n) = h_regID h ∧ h_token (net_handle n) = h_token h ∧
    h_endpoint (net_handle n) = h_endpoint h ∧
    (n_fails n ≤ 4)%nat ∧ lp_backoff (n_loop n) = backoff_after (n_fails n) ∧
    n_now n ≤ lp_due (n_loop n) + L ∧
    lp_due (n_loop n) ≤ deadline L (net_handle n) e (n_fails n) ∧
    match n_phase n with
    | InSelect => True
    | InRequest None => lp_due (n_loop n) ≤ n_now n ∧ (n_fails n < 4)%nat
    | InRequest (Some r) =>
      lp_due (n_loop n) ≤ le_ExpiresAt e - le_TTL e ∧ lp_due (n_loop n) ≤ n_now n ∧
      r = (200, BodyHeartbeat (le_ExpiresAt e))
    | Dropped => False
    end.

(** Nothing happens after the lease has expired. *)
Lemma on_track_in_time L rec n e : 0 ≤ L ≤ 33 * Millisecond →
  served rec n e → (n_fails n ≤ 4)%nat → lp_due (n_loop n) ≤ deadline L (net_handle n) e (n_fails n) →
  lp_due (n_loop n) + L < le_ExpiresAt e.
Proof.
  intros HL Hs Hk Hd. unfold deadline in Hd. pose proof (slack_four L (n_fails n) ltac:(lia) Hk).
  destruct (sv_lease _ _ _ Hs) as (_ & _ & _ & _ & Ht). apply interval_third in Ht as Hi.
  change Second with 1000000000 in *. change Millisecond with 1000000 in *. lia.
Qed.

(** The record stays through any step of the system that leaves the lease. *)
Lemma served_step rec n e s' : served rec n e → step (n_sys n) s' →
  d_Registry (s_d s') !! r_Name rec = Some rec ∧ sys_inv s'.
Proof.
  intros [Hs Hr [Hsrc Hst] Hp (He & _)] Hstep. split; [|by eapply step_inv].
  destruct (step_ready_record _ _ _ _ Hs Hstep Hr Hsrc Hst) as [?|Hin]; [done|].
  destruct (si_ends _ Hs _ _ Hin) as [_ Hno]. unfold Lease.Get in He. congruence.
Qed.

(** The same service in another state. *)
Lemma served_moved rec n n' e e' : served rec n e → d_Registry (s_d (n_sys n')) !! r_Name rec = Some rec →
  sys_inv (n_sys n') → h_regID (net_handle n') = h_regID (net_handle n) →
  holds_lease (s_d (n_sys n')) (net_handle n') e' → served rec n' e'.
Proof. intros [_ _ Hrd Hp _] Hr Hs Hid Hl. split; [done..|by rewrite Hid|done]. Qed.

Lemma foreign_served rec n e s' : served rec n e → n_now n < le_ExpiresAt e →
  foreign (n_now n) (h_regID (net_handle n)) (h_token (net_handle n)) (n_sys n) s' →
  served rec (mkNet (n_now n) s' (n_loop n) (n_phase n) (n_fails n)) e.
Proof.
  intros Hsv Hx Hf. destruct (served_step _ _ _ _ Hsv (guarded_step _ _ _ Hf)) as [Hr Hs].
  eapply served_moved; [exact Hsv|done..|]. destruct Hsv as [Hs0 Hr0 [Hsrc Hst] Hp (He & Ht & Hrest)].
  split; [|done]. exact (foreign_keeps_lease _ _ _ _ _ _ _ _ Hs0 Hf Hr0 Hsrc Hst Hp He Ht Hx).
Qed.

(** A heartbeat renews the lease and says so. *)
Lemma heartbeat_served rec n e ph k : served rec n e → n_now n < le_ExpiresAt e →
  let e' := set_ExpiresAt (n_now n + le_TTL e) e in
  served rec (mkNet (n_now n) (sys_heartbeat (n_now n) (net_handle n) (n_sys n)) (n_loop n) ph k) e' ∧
  (post_heartbeat (n_now n) (net_handle n) (s_d (n_sys n))).2 = (200, BodyHeartbeat (n_now n + le_TTL e)).
Proof.
  intros Hsv Hx e'.
  destruct (served_step _ _ _ _ Hsv (sys_heartbeat_step (n_now n) (net_handle n) (n_sys n))) as [Hr Hs].
  destruct (sv_lease _ _ _ Hsv) as (He & Ht & Hok & Hid & Httl).
  pose proof (post_heartbeat_live (n_now n) (net_handle n) _ e He Hx Ht Hok) as Ep.
  split; [|by rewrite Ep]. eapply served_moved; [exact Hsv|done..|].
  unfold net_handle, sys_heartbeat; simpl. fold (net_handle n). rewrite Ep. unfold holds_lease, Lease.Get; simpl.
  rewrite lookup_insert_eq. destruct Httl. by split_and!.
Qed.

Lemma round_renewed now delay l exp :
  round now delay l (Some (200, BodyHeartbeat exp)) None = round_ok now (set_expires (rfc3339 exp) (lp_h l)).
Proof. reflexivity. Qed.

Lemma round_lost now delay l : round now delay l None None = round_failed now delay l.
Proof. reflexivity. Qed.

Lemma jittered_pos k delay : jittered (backoff_after k) delay → 0 < delay ∧ delay ≤ (6 * backoff_after k + 5) / 5.
Proof.
  intros Hj. split; [|by apply jittered_bound]. destruct Hj as [Hj _].
  assert (minBackoff ≤ backoff_after k); [|change minBackoff with 100000000 in *; lia].
  clear Hj. induction k as [|k IH]; simpl; [done|]. pose proof (backoff_after_pos k). lia.
Qed.

Lemma on_track_step L rec h n n' : 0 ≤ L ≤ 33 * Millisecond →
  on_track L rec h n → net_step L n n' → on_track L rec h n'.
Proof.
  intros HL (e & Hsv & Eid & Etk & Een & Hk & Hb & Hnow & Hdl & Hph) Hstep.
  pose proof (on_track_in_time _ _ _ _ HL Hsv Hk Hdl) as Hx.
  assert (0 < heartbeatInterval (net_handle n)) as Hi.
  { destruct (sv_lease _ _ _ Hsv) as (_ & _ & _ & _ & Ht). apply interval_third in Ht as [Hi _].
    change Second with 1000000000 in Hi. lia. }
  pose proof (slack_pos L (n_fails n) ltac:(lia)) as Hsl.
  destruct Hstep as [n t Ht Htl|n s' Hf|n Hw Hd Hl|n rl Hw Hd Hl|n reply delay Ha Hj Hv|n reply Ha Hv].
  - exists e. destruct Hsv. split_and!; try done. simpl. repeat case_match; try done; destruct_and?; split_and?; try done; lia.
  - exists e. split_and!; try done. by apply foreign_served; [|lia|].
  - exists e. destruct Hsv. split_and!; try done.
  - destruct (heartbeat_served rec n e
      (InRequest (if rl then None else Some (post_heartbeat (n_now n) (net_handle n) (s_d (n_sys n))).2)) (n_fails n)
      Hsv ltac:(lia)) as [Hsv' Er].
    eexists. split; [exact Hsv'|]. split_and!; try done.
    + unfold deadline in *. simpl. change (net_handle (mkNet _ _ (n_loop n) _ _)) with (net_handle n). lia.
    + simpl. destruct rl; [by auto|]. rewrite Er. simpl. split_and!; [lia|done|done].
  - rewrite Ha in Hph. destruct reply as [r|].
    + destruct Hph as (Hdue & Hd & ->). rewrite round_renewed. exists e.
      split; [by destruct Hsv|]. split_and!; try done; unfold deadline; simpl in *; try lia.
      all: change (heartbeatInterval (set_expires _ _)) with (heartbeatInterval (net_handle n)).
      all: change (heartbeatInterval (net_handle (mkNet _ _ (round_ok _ _) _ _))) with (heartbeatInterval (net_handle n)); lia.
    + destruct Hph as (Hd & Hk'). rewrite round_lost. simpl. rewrite Hb in Hj. apply jittered_pos in Hj.
      exists e. split; [by destruct Hsv|]. split_and!; try done; simpl.
      * exact (round_failed_backoff (n_now n) delay (n_loop n) (n_fails n) Hk' Hb).
      * lia.
      * unfold deadline in *. simpl in *. unfold net_handle in *. simpl in *. lia.
  - rewrite Ha in Hph. destruct reply as [r|]; [|done]. destruct Hph as (_ & _ & ->). done.
Qed.
Lemma on_track_run L rec h n n' : 0 ≤ L ≤ 33 * Millisecond →
  rtc (net_step L) n n' → on_track L rec h n → on_track L rec h n'.
Proof. intros HL. induction 1; eauto using on_track_step. Qed.

(** ** A registration that works *)

(** The record a client's registration leaves. *)
Lemma ClientRegister_record sock opts f env d d' h :
  ClientRegister sock opts f env d = (d', Ok h) →
  ∃ p res rec, request_ok p ∧ request_regID p env = e_newID env ∧ Daemon.Register d p env = (d', Ok res) ∧
    d_Registry d' !! r_Name rec = Some rec ∧ r_Name rec = o_Name opts ∧
    r_Source rec ≠ SourceDocker ∧ publishes d' h (o_Name opts) (default (mkBackend "" 0) (r_Backend rec)) ∧
    r_Backend rec = Some (p_Backend p) ∧ r_Status rec = StatusReady ∧ r_ProducerID rec = h_regID h.
Proof.
  intros HC. pose proof HC as (_ & Eid & host & ps & port & _ & _ & rec & Hr & Hb & Hst & Hp & Hep)%ClientRegister_publishes.
  apply ClientRegister_Ok in HC as (h0 & r & _ & Hn & HR & ->).
  apply handleRegister_201 in HR as (q & source & res & [= <-] & Hsrc & HR & _).
  pose proof HR as (hn & _ & Ereg & _)%Register_registry.
  assert (q_Name (h_baseReq h0) = o_Name opts) as En
    by (revert Hn; unfold new_handle; repeat case_match; intros; by simplify_eq/=).
  rewrite Ereg in Hr. simpl in Hr. rewrite En, lookup_insert_eq in Hr. injection Hr as Hrec.
  exists (request_params (h_baseReq h0) source), res, rec.
  split_and!; try done.
  - by apply request_params_ok.
  - rewrite Ereg, <-Hrec. simpl. by rewrite lookup_insert_eq.
  - rewrite <-Hrec. done.
  - rewrite <-Hrec. simpl. rewrite request_source_params by done. by destruct Hsrc as [-> | ->].
  - exists rec. rewrite Hb, Ereg. simpl. rewrite En, Hrec, lookup_insert_eq. done.
  - rewrite <-Hrec. done.
Qed.

(** From the registration on the loop is on track. *)
Lemma client_starts_on_track L sock opts f env d dels ends iss lost d' h t :
  0 ≤ L ≤ 33 * Millisecond → e_rand env ≠ Some [] → env_ok d env → iss !! e_newID env = None →
  reachable (mkSys d None dels ends iss lost) →
  ClientRegister sock opts f env d = (d', Ok h) → e_lease_now env ≤ t ≤ e_lease_now env + L →
  ∃ rec b iss' lost', let s1 := mkSys d' None dels ends iss' lost' in
    rtc step (mkSys d None dels ends iss lost) s1 ∧
    d_Registry d' !! o_Name opts = Some rec ∧ r_Name rec = o_Name opts ∧ r_Backend rec = Some b ∧
    r_ProducerID rec = h_regID h ∧ Endpoint h = frontendEndpoint (frontendDTO (r_Frontend rec)) ∧
    on_track L rec h (mkNet t s1 (round_ok t h) InSelect 0).
Proof.
  intros HL Hrnd Henv Hfresh Hreach HC Ht.
  pose proof HC as (e & He & Hexp & _)%ClientRegister_lease; [|done].
  pose proof HC as (p & res & rec & Hreq & Eid & HR & Hrec & En & Hsrc & (rec' & Hr' & _ & _ & _ & Hep) & Hb & Hst & Hp)
    %ClientRegister_record.
  rewrite <-Eid in Hfresh.
  destruct (Register_steps d dels ends iss lost p env d' (Ok res) Hreq Henv Hfresh HR) as (iss' & lost' & Hst1).
  exists rec, (p_Backend p), iss', lost'. intros s1. rewrite <-En.
  assert (rec' = rec) as -> by (rewrite <-En in Hr'; congruence).
  split_and!; try done. exists e. split; [split; try done|].
  - eapply rtc_inv; [exact Hst1|]. by apply reachable_inv.
  - simpl. split_and!; try done; [lia| |unfold deadline; simpl].
    + assert (0 < heartbeatInterval h); [|lia]. destruct He as (_ & _ & _ & _ & Htt).
      apply interval_third in Htt as [Hi _]. change Second with 1000000000 in Hi. lia.
    + change (net_handle _) with h. lia.
Qed.

(** What being on track means for the service. *)
Lemma on_track_served L rec h n : 0 ≤ L ≤ 33 * Millisecond → on_track L rec h n →
  ∃ e, served rec n e ∧ n_phase n ≠ Dropped ∧ h_regID (net_handle n) = h_regID h ∧ Endpoint (net_handle n) = Endpoint h ∧
    n_now n < le_ExpiresAt e.
Proof.
  intros HL (e & Hsv & Hid & _ & Hen & Hk & _ & Hnow & Hdl & Hph). exists e.
  pose proof (on_track_in_time _ _ _ _ HL Hsv Hk Hdl) as Hx. split_and!; try done; [|lia]. by intros E; rewrite E in Hph.
Qed.

(** A client that has registered stays served for as long as its heartbeat loop runs: in every
    interleaving of the loop with the rest of the running system (other registrations,
    heartbeats and deletions, the sweeper, the Docker watcher), with rounds that take at most 33
    ms and at most four in a row that lose the request or the reply, its lease never expires,
    the daemon never answers 404, and the record of its service, its frontend, its backend and
    the endpoint of the handle stay exactly what the registration made them; nobody else is
    assumed to have the token. *)
Theorem client_stays_served L sock opts f env d dels ends iss lost d' h t :
  0 ≤ L ≤ 33 * Millisecond → e_rand env ≠ Some [] → env_ok d env → iss !! e_newID env = None →
  reachable (mkSys d None dels ends iss lost) →
  ClientRegister sock opts f env d = (d', Ok h) → e_lease_now env ≤ t ≤ e_lease_now env + L →
  ∃ rec b iss' lost', let s1 := mkSys d' None dels ends iss' lost' in
    rtc step (mkSys d None dels ends iss lost) s1 ∧
    Resolve (d_Registry d') (o_Name opts) = Some rec ∧ r_Backend rec = Some b ∧
    Endpoint h = frontendEndpoint (frontendDTO (r_Frontend rec)) ∧
    ∀ n, rtc (net_step L) (mkNet t s1 (round_ok t h) InSelect 0) n →
      n_phase n ≠ Dropped ∧ h_regID (net_handle n) = h_regID h ∧ Endpoint (net_handle n) = Endpoint h ∧
      Resolve (d_Registry (s_d (n_sys n))) (o_Name opts) = Some rec ∧
      backendProvider (s_d (n_sys n)) (o_Name opts) = Some b ∧
      ∃ e, Lease.Get (d_Lease (s_d (n_sys n))) (h_regID h) = Some e ∧ n_now n < le_ExpiresAt e.
Proof.
  intros HL Hrnd Henv Hfresh Hreach HC Ht.
  destruct (client_starts_on_track L _ _ _ _ _ _ _ _ _ _ _ t HL Hrnd Henv Hfresh Hreach HC Ht)
    as (rec & b & iss' & lost' & Hst & Hr & En & Hb & _ & Hep & Hot).
  exists rec, b, iss', lost'. intros s1. split_and!; try done. intros n Hrun. rewrite <-En.
  destruct (on_track_served L rec h n HL (on_track_run _ _ _ _ _ HL Hrun Hot)) as (e & Hsv & Hph & Hid & Hen & Hx).
  destruct Hsv as [_ Hrec [_ Hrdy] _ (He & _)]. unfold backendProvider, Resolve. rewrite Hrec, Hrdy, Hb.
  split_and!; try done. exists e. by rewrite <-Hid.
Qed.
End ClientNet.
