(* ===== verification/EndToEnd.v ===== *)
(** * From a connection to the application that registered

    The client's loop in the running system ([ClientNet.v]) together with the
    accept loops and forwarders of the frontends ([DataPlane.v]): what the
    product is for. *)

From S2P Require Import Prelude GoStrings GoNet Registry Lease State Runtime AcceptLoop TcpProxy Router Config Daemon DaemonInv DaemonSpec DaemonSystem DataPlane Forwarding HttpPlane Api Client ClientNet.
From Stdlib Require Import Ascii.
Local Open Scope Z_scope.

Record Scene := mkScene {
  sc_net : Net;
  sc_rts : gmap string AcceptLoop.State;
  sc_pipes : gmap conn (Backend * Pipe);
  sc_reqs : gmap nat (inRequest * http_phase)
}.

Definition requests_of (w : Scene) : HttpPlane := mkHttpPlane (n_sys (sc_net w)) (sc_reqs w).

Definition plane_of (w : Scene) : Plane := mkPlane (n_sys (sc_net w)) (sc_rts w) (sc_pipes w).

Section EndToEnd.
Context `{JSON} `{Unicode} `{MapRange}.

(** The client and the rest of the system, or the data plane, or an HTTP
    request takes a step. *)
Inductive scene_step (L : Z) : Scene → Scene → Prop :=
| scene_net w n :
    net_step L (sc_net w) n → scene_step L w (mkScene n (sc_rts w) (sc_pipes w) (sc_reqs w))
| scene_plane w x :
    plane_step (plane_of w) x → dp_sys x = n_sys (sc_net w) →
    scene_step L w (mkScene (sc_net w) (dp_rts x) (dp_pipes x) (sc_reqs w))
| scene_http w x :
    http_step (requests_of w) x → ht_sys x = n_sys (sc_net w) →
    scene_step L w (mkScene (sc_net w) (sc_rts w) (sc_pipes w) (ht_reqs x)).

(** ** Runs of the scene *)

Lemma net_step_system L n n' : net_step L n n' → rtc step (n_sys n) (n_sys n').
Proof.
  destruct 1 as [n t|n s' Hf|n|n rl|n|n]; try apply rtc_refl.
  - apply rtc_once. by eapply guarded_step.
  - apply rtc_once, sys_heartbeat_step.
Qed.

Lemma net_run_system L n n' : rtc (net_step L) n n' → rtc step (n_sys n) (n_sys n').
Proof. induction 1; [apply rtc_refl|]. etrans; [by eapply net_step_system|done]. Qed.

Lemma scene_run_net L w w' : rtc (scene_step L) w w' → rtc (net_step L) (sc_net w) (sc_net w').
Proof.
  induction 1 as [|w w1 w' Hst _ IH]; [apply rtc_refl|]. etrans; [|exact IH].
  destruct Hst; [by apply rtc_once|apply rtc_refl..].
Qed.

Lemma all_to_run L name base b w0 w :
  (∀ n, rtc (net_step L) (sc_net w0) n → backendProvider (s_d (n_sys n)) name = Some b) →
  rtc (scene_step L) w0 w → all_to name base b (plane_of w0) → all_to name base b (plane_of w).
Proof.
  intros Hb Hrun Ha. revert w Hrun. apply (rtc_ind_r (λ w, all_to name base b (plane_of w))); [done|].
  intros y z Hy Hyz Hya. pose proof (Hb _ (scene_run_net _ _ _ Hy)) as Hp. destruct Hyz as [w n Hn|w x Hx E|w x Hx E]; [done| |done].
  replace (plane_of (mkScene (sc_net w) (dp_rts x) (dp_pipes x) (sc_reqs w))) with x; [exact (all_to_step name base b (plane_of w) x Hp Hx Hya)|].
  unfold plane_of. simpl. rewrite <-E. by destruct x.
Qed.

(** The scene's runs are runs of the data plane. *)
Lemma scene_plane_of w x : dp_sys x = n_sys (sc_net w) →
  plane_of (mkScene (sc_net w) (dp_rts x) (dp_pipes x) (sc_reqs w)) = x.
Proof. intros E. unfold plane_of. simpl. rewrite <-E. by destruct x. Qed.

Lemma scene_step_plane L w w' : scene_step L w w' → rtc plane_step (plane_of w) (plane_of w').
Proof.
  destruct 1 as [w n Hn|w x Hx E|w x Hx E].
  - exact (system_run_plane (plane_of w) _ (net_step_system _ _ _ Hn)).
  - rewrite scene_plane_of by done. by apply rtc_once.
  - apply rtc_refl.
Qed.

Lemma scene_run_plane L w w' : rtc (scene_step L) w w' → rtc plane_step (plane_of w) (plane_of w').
Proof. induction 1; [apply rtc_refl|]. etrans; [by eapply scene_step_plane|done]. Qed.

Lemma accounted_run L name base b w0 w :
  (∀ n, rtc (net_step L) (sc_net w0) n → backendProvider (s_d (n_sys n)) name = Some b) →
  rtc (scene_step L) w0 w → all_to name base b (plane_of w0) →
  accounted (plane_of w0) (plane_of w0) name base b → accounted (plane_of w0) (plane_of w) name base b.
Proof.
  intros Hb Hrun Hto Ha. revert w Hrun. apply (rtc_ind_r (λ w, accounted (plane_of w0) (plane_of w) name base b)); [done|].
  intros y z Hy Hyz Hya. pose proof (Hb _ (scene_run_net _ _ _ Hy)) as Hp. pose proof (scene_step_plane _ _ _ Hyz) as Hr.
  pose proof (all_to_run L _ _ _ _ _ Hb Hy Hto) as Hty. pose proof (scene_run_plane _ _ _ Hy) as Hry.
  destruct Hyz as [w n Hn|w x Hx E|w x Hx E]; [|rewrite scene_plane_of by done|done].
  - by apply (accounted_system _ (plane_of w)).
  - by apply (accounted_step _ (plane_of w)).
Qed.

(** The data plane's own steps are steps of the scene. *)
Lemma own_run_scene L w x : rtc plane_own (plane_of w) x →
  rtc (scene_step L) w (mkScene (sc_net w) (dp_rts x) (dp_pipes x) (sc_reqs w)) ∧ dp_sys x = n_sys (sc_net w).
Proof.
  revert x. apply (rtc_ind_r (λ x, rtc (scene_step L) w (mkScene (sc_net w) (dp_rts x) (dp_pipes x) (sc_reqs w)) ∧
    dp_sys x = n_sys (sc_net w))).
  - destruct w. split; [apply rtc_refl|done].
  - intros y z _ [Hst E] [Hr Ey]. rewrite Ey in E. split; [|done]. eapply rtc_r; [exact Hr|].
    apply (scene_plane L (mkScene (sc_net w) (dp_rts y) (dp_pipes y) (sc_reqs w)) z); [|done].
    by rewrite (scene_plane_of w y Ey).
Qed.

Lemma own_requests_scene L w x : rtc own_step (requests_of w) x →
  rtc (scene_step L) w (mkScene (sc_net w) (sc_rts w) (sc_pipes w) (ht_reqs x)) ∧ ht_sys x = n_sys (sc_net w).
Proof.
  revert x. apply (rtc_ind_r (λ x, rtc (scene_step L) w (mkScene (sc_net w) (sc_rts w) (sc_pipes w) (ht_reqs x)) ∧
    ht_sys x = n_sys (sc_net w))).
  - destruct w. split; [apply rtc_refl|done].
  - intros y z _ [Hst E] [Hr Ey]. rewrite Ey in E. split; [|done]. eapply rtc_r; [exact Hr|].
    apply (scene_http L (mkScene (sc_net w) (sc_rts w) (sc_pipes w) (ht_reqs y)) z); [|done].
    unfold requests_of. simpl. rewrite <-Ey. by destruct y.
Qed.

(** A connection on its way, in the scene. *)
Lemma scene_connection_gets_through L w name rec b c :
  sys_inv (n_sys (sc_net w)) → Resolve (d_Registry (s_d (n_sys (sc_net w)))) name = Some rec → r_Kind rec = KindTCP →
  backendProvider (s_d (n_sys (sc_net w))) name = Some b →
  AcceptLoop.closed (rt_of (plane_of w) name) = false → (st_sem (rt_of (plane_of w) name) < sem_capacity)%nat →
  (∀ b' p, sc_pipes w !! (name, c) = Some (b', p) → b' = b) →
  on_its_way (rt_of (plane_of w) name) c b →
  ∃ w', rtc (scene_step L) w w' ∧ sc_net w' = sc_net w ∧ forwarded (plane_of w') name c b.
Proof.
  intros Hs Hr Hk Hb Hcl Hsem Hp Hw.
  destruct (inv_services _ (si_daemon _ Hs) _ _ Hr) as ([En _] & _ & _ & [(_ & _ & rt & Hrt & _)|(Hk' & _)]); [|by rewrite Hk in Hk'].
  rewrite En in Hrt.
  destruct (connection_gets_through (plane_of w) name rt b c) as (x & Hx & Hf); [done..|].
  destruct (own_run_scene L w x Hx) as [Hrun E]. eexists. split_and!; [exact Hrun|done|]. by rewrite scene_plane_of.
Qed.

(** C12: From an application to its users: once it has registered, then for as long as its
    heartbeat loop runs, in every interleaving with the rest of the running system, the accept
    loops and the forwarders (rounds of at most 33 ms, at most four in a row that lose the
    request or the reply; nobody else has the token), its service stays registered and ready at
    the endpoint of its handle; every connection accepted on its frontend since is forwarded, or
    on its way, or was turned away because all slots of the frontend were taken, the frontend
    was being closed or the dial to the application failed, and never for want of a backend; one
    on its way can always be brought to the application by steps of the data plane alone, while
    its TCP frontend is open and has a free slot; and the forwarded ones go to the very address
    the application gave and to no other, each side being given a prefix of what the other sent,
    and all of it before the end of the stream unless a connection failed. *)
Theorem connections_reach_the_application L sock opts f env x0 x1 q d dels ends iss lost d' h t :
  0 ≤ L ≤ 33 * Millisecond → e_rand env ≠ Some [] → env_ok d env → iss !! e_newID env = None →
  plane_start x0 → rtc plane_step x0 x1 → dp_sys x1 = mkSys d None dels ends iss lost →
  ClientRegister sock opts f env d = (d', Ok h) → e_lease_now env ≤ t ≤ e_lease_now env + L →
  ∃ host portStr port iss' lost',
    let s1 := mkSys d' None dels ends iss' lost' in
    SplitHostPort (o_Backend opts) = Ok (host, portStr) ∧ Atoi portStr = Some port ∧
    rtc plane_step x1 (mkPlane s1 (dp_rts x1) (dp_pipes x1)) ∧
    ∀ w, rtc (scene_step L) (mkScene (mkNet t s1 (round_ok t h) InSelect 0) (dp_rts x1) (dp_pipes x1) q) w →
      n_phase (sc_net w) ≠ Dropped ∧ Endpoint (net_handle (sc_net w)) = Endpoint h ∧
      (∃ rec, Resolve (d_Registry (s_d (n_sys (sc_net w)))) (o_Name opts) = Some rec ∧
         r_Status rec = StatusReady ∧ Endpoint h = frontendEndpoint (frontendDTO (r_Frontend rec))) ∧
      backendProvider (s_d (n_sys (sc_net w))) (o_Name opts) = Some (mkBackend host port) ∧
      (∀ c, (st_accepted (rt_of x1 (o_Name opts)) ≤ c < st_accepted (rt_of (plane_of w) (o_Name opts)))%nat →
         connection_ok (mkPlane s1 (dp_rts x1) (dp_pipes x1)) (plane_of w) (o_Name opts) (mkBackend host port) c ∧
         (∀ rec, Resolve (d_Registry (s_d (n_sys (sc_net w)))) (o_Name opts) = Some rec → r_Kind rec = KindTCP →
            AcceptLoop.closed (rt_of (plane_of w) (o_Name opts)) = false →
            (st_sem (rt_of (plane_of w) (o_Name opts)) < sem_capacity)%nat →
            on_its_way (rt_of (plane_of w) (o_Name opts)) c (mkBackend host port) →
            ∃ w', rtc (scene_step L) w w' ∧ sc_net w' = sc_net w ∧
              forwarded (plane_of w') (o_Name opts) c (mkBackend host port))) ∧
      ∀ c b p, (st_accepted (rt_of x1 (o_Name opts)) ≤ c)%nat → sc_pipes w !! (o_Name opts, c) = Some (b, p) →
        b = mkBackend host port ∧
        ∀ fl, fl = pi_up p ∨ fl = pi_down p →
          fl_delivered fl `prefix_of` fl_sent fl ∧
          (fl_fin fl = true → fl_broken fl = true ∨ (fl_eof fl = true ∧ fl_delivered fl = fl_sent fl)).
Proof.
  intros HL Hrnd Henv Hfresh H0' Hrun Esys HC Ht.
  assert (reachable (mkSys d None dels ends iss lost)) as Hreach.
  { exists (dp_sys x0). split; [apply H0'|]. rewrite <-Esys. by apply plane_run_system. }
  pose proof (ClientRegister_publishes _ _ _ _ _ _ _ HC)
    as (_ & _ & host & ps & port & Esp & Eat & rec' & Hr' & Hb' & Hst' & _).
  destruct (client_stays_served L _ _ _ _ _ _ _ _ _ _ _ t HL Hrnd Henv Hfresh Hreach HC Ht)
    as (rec & b & iss' & lost' & Hst & Hr & Hb & Hep & Hserved).
  unfold Resolve in Hr. rewrite Hr in Hr'. injection Hr' as <-. rewrite Hb in Hb'. injection Hb' as ->.
  exists host, ps, port, iss', lost'. split_and!; [done..| |].
  - apply system_run_plane. by rewrite Esys.
  - intros w Hw. pose proof (Hserved _ (scene_run_net _ _ _ Hw)) as (Hph & _ & Hen & Hres & Hprov & _).
    assert (∀ n, rtc (net_step L) (mkNet t (mkSys d' None dels ends iss' lost') (round_ok t h) InSelect 0) n →
      backendProvider (s_d (n_sys n)) (o_Name opts) = Some (mkBackend host port)) as Hn
      by (intros n Hn; by apply Hserved in Hn as (_ & _ & _ & _ & ? & _)).
    pose proof (all_to_start x1 (o_Name opts) (mkBackend host port) (plane_run_numbered x0 x1 H0' Hrun)) as Hto0.
    set (x1' := mkPlane (mkSys d' None dels ends iss' lost') (dp_rts x1) (dp_pipes x1)) in *.
    assert (all_to (o_Name opts) (st_accepted (rt_of x1 (o_Name opts))) (mkBackend host port) (plane_of w)) as Hto
      by (eapply (all_to_run L); [|exact Hw|exact Hto0]; exact Hn).
    split_and!; [done..|by exists rec|done| |].
    + intros c Hc. split.
      * pose proof (accounted_run L (o_Name opts) _ (mkBackend host port) (mkScene (mkNet t (mkSys d' None dels ends iss' lost') (round_ok t h) InSelect 0) (dp_rts x1) (dp_pipes x1) q) w Hn Hw Hto0 (accounted_start x1' _ _)) as Ha.
        by apply Ha.
      * intros rec1 Hr1 Hk1 Hcl Hsem Hway. eapply scene_connection_gets_through; try done.
        -- eapply rtc_inv; [|exact (reachable_inv _ Hreach)]. etrans; [exact Hst|].
           exact (net_run_system L _ _ (scene_run_net _ _ _ Hw)).
        -- intros b' p Hp. by apply (proj2 (Hto c ltac:(lia)) b' p).
    + intros c b p Hc Hp. destruct (proj2 (Hto c Hc) _ _ Hp) as [-> Hpr]. split; [done|].
      apply forwarder_is_transparent in Hpr. apply Hpr.
Qed.
(** ** The requests to the host name of an HTTP service *)

Lemma hosts_clean_run s s' : sys_inv s → rtc step s s' → hosts_clean (s_d s') → hosts_clean (s_d s).
Proof. intros Hs Hr. revert Hs. induction Hr; eauto using hosts_clean_before, step_inv. Qed.

Lemma all_served_run L q name rec b w0 w : r_Kind rec = KindHTTP →
  (∀ n, rtc (net_step L) (sc_net w0) n →
     sys_inv (n_sys n) ∧ Resolve (d_Registry (s_d (n_sys n))) name = Some rec ∧ backendProvider (s_d (n_sys n)) name = Some b) →
  rtc (scene_step L) w0 w → hosts_clean (s_d (n_sys (sc_net w))) →
  all_served q name (r_Hostname rec) b (requests_of w0) → all_served q name (r_Hostname rec) b (requests_of w).
Proof.
  intros Hk Hn Hrun Hc H0'. revert w Hrun Hc.
  apply (rtc_ind_r (λ w, hosts_clean (s_d (n_sys (sc_net w))) → all_served q name (r_Hostname rec) b (requests_of w))); [done|].
  intros y z Hy Hyz Hya Hz. destruct (Hn _ (scene_run_net _ _ _ Hy)) as (Hs & Hr & Hb).
  destruct Hyz as [w n Hst|w x Hx E|w x Hx E]; simpl in *.
  - apply Hya. by eapply hosts_clean_run; [|by eapply net_step_system|].
  - by apply Hya.
  - replace (requests_of (mkScene (sc_net w) (sc_rts w) (sc_pipes w) (ht_reqs x))) with x.
    + exact (all_served_step q name rec b (requests_of w) x Hs Hz Hr Hk Hb Hx (Hya Hz)).
    + unfold requests_of. simpl. rewrite <-E. by destruct x.
Qed.

Lemma url_string_nonempty scheme host : host ≠ "" → url_string scheme host ≠ "".
Proof.
  intros Hh. unfold url_string. rewrite (decide_False (P := host = "")) by done. case_decide; [done|].
  by destruct scheme.
Qed.

(** C13: The same for HTTP: once an application has registered an HTTP service, then for as long
    as its heartbeat loop runs and the registered host names are DNS-style names, in every
    interleaving of the loop, the rest of the running system, the data plane and other requests,
    every HTTP request to the authority of the URL that is its endpoint is forwarded to the very
    address the application gave: one that has its answer was sent there (it is never answered
    404 or 503, and 502 only when that address fails), and one that has not can always be
    brought there in steps of its own; it is sent with its path, the service's host name and its
    query as the reverse proxy cleans it (the very query when all of it can be parsed, otherwise
    the parameters that can; queries of more than 10000 parameters, where the releases of the
    library differ, are left open). *)
Theorem http_requests_reach_the_application L sock opts f env q d dels ends iss lost d' h t :
  0 ≤ L ≤ 33 * Millisecond → e_rand env ≠ Some [] → env_ok d env → iss !! e_newID env = None →
  reachable (mkSys d None dels ends iss lost) →
  ClientRegister sock opts f env d = (d', Ok h) → e_lease_now env ≤ t ≤ e_lease_now env + L →
  ∃ rec host portStr port iss' lost',
    let s1 := mkSys d' None dels ends iss' lost' in
    let auth := authority (ro_scheme (d_HTTP d')) (ro_port (d_HTTP d')) (r_Hostname rec) in
    SplitHostPort (o_Backend opts) = Ok (host, portStr) ∧ Atoi portStr = Some port ∧
    rtc step (mkSys d None dels ends iss lost) s1 ∧ Resolve (d_Registry d') (o_Name opts) = Some rec ∧
    ∀ rts pipes w,
      r_Kind rec = KindHTTP → rtc (scene_step L) (mkScene (mkNet t s1 (round_ok t h) InSelect 0) rts pipes q) w →
      hosts_clean (s_d (n_sys (sc_net w))) →
      Endpoint (net_handle (sc_net w)) = url_string (ro_scheme (d_HTTP d')) auth ∧
      ∀ i req ph, q !! i = None → sc_reqs w !! i = Some (req, ph) → in_Host req = auth →
        (∀ ans, ph = HttpPlane.Answered ans →
           ∃ out, (ans = BadGateway out ∨ ∃ status, ans = Relayed out status) ∧
             forwards req (r_Hostname rec) (mkBackend host port) out) ∧
        (pending ph →
           ∃ w' out, rtc (scene_step L) w w' ∧ sc_net w' = sc_net w ∧
             sc_reqs w' !! i = Some (req, Sent (o_Name opts) out) ∧
             forwards req (r_Hostname rec) (mkBackend host port) out).
Proof.
  intros HL Hrnd Henv Hfresh Hreach HC Ht.
  pose proof (ClientRegister_publishes _ _ _ _ _ _ _ HC)
    as (_ & _ & host & ps & port & Esp & Eat & rec' & Hr' & Hb' & Hst' & _).
  destruct (client_starts_on_track L _ _ _ _ _ _ _ _ _ _ _ t HL Hrnd Henv Hfresh Hreach HC Ht)
    as (rec & b & iss' & lost' & Hst & Hr & En & Hb & _ & Hep & Hot).
  rewrite Hr in Hr'. injection Hr' as <-. rewrite Hb in Hb'. injection Hb' as ->.
  exists rec, host, ps, port, iss', lost'. split_and!; [done..|]. intros rts pipes w Hk Hw Hclean.
  assert (∀ n, rtc (net_step L) (mkNet t (mkSys d' None dels ends iss' lost') (round_ok t h) InSelect 0) n →
    sys_inv (n_sys n) ∧ Resolve (d_Registry (s_d (n_sys n))) (o_Name opts) = Some rec ∧
    backendProvider (s_d (n_sys n)) (o_Name opts) = Some (mkBackend host port) ∧ Endpoint (net_handle n) = Endpoint h) as Hn.
  { intros n Hn. destruct (on_track_served L rec h n HL (on_track_run _ _ _ _ _ HL Hn Hot)) as (e & [Hs Hrec [_ Hrdy] _ _] & _ & _ & Hen & _).
    unfold backendProvider, Resolve. rewrite <-En, Hrec, Hrdy, Hb. by split_and!. }
  destruct (Hn _ (rtc_refl _ _)) as (Hs1 & _). destruct (Hn _ (scene_run_net _ _ _ Hw)) as (_ & Hrw & _ & ->).
  pose proof (Hclean _ _ Hrw Hk) as Hch. split.
  - rewrite Hep. unfold frontendEndpoint, frontendDTO. simpl.
    rewrite (http_frontend_url d' _ rec (si_daemon _ Hs1) Hr Hk Hch). case_decide as Hne; [done|].
    exfalso. revert Hne. apply url_string_nonempty. intros Ea.
    pose proof (normalizeHost_authority (ro_scheme (d_HTTP d')) (ro_port (d_HTTP d')) _ Hch) as En'.
    rewrite Ea in En'. by destruct Hch as [[] _].
  - intros i req ph Hq Hi Eh.
    assert (all_served q (o_Name opts) (r_Hostname rec) (mkBackend host port) (requests_of w)) as Hall.
    { eapply (all_served_run L q); [exact Hk| |exact Hw|done|].
      - intros n Hnn. destruct (Hn n Hnn) as (? & ? & ? & _). done.
      - split; [done|]. intros j req' ph' Hj Hj'. simpl in Hj'. congruence. }
    split.
    + intros ans ->. by eapply (served_answer q (o_Name opts) _ _ (requests_of w)).
    + intros Hpend. destruct (Hn _ (scene_run_net _ _ _ Hw)) as (Hsw & _ & Hpw & _).
      destruct (request_gets_through q (o_Name opts) rec (mkBackend host port) (requests_of w) i req ph)
        as (x & out & Hx & Hsent & Hfw); [done..|by rewrite Eh, normalizeHost_authority|done|].
      destruct (own_requests_scene L w x Hx) as [Hrun _]. by eexists _, out.
Qed.
End EndToEnd.
