(* ===== verification/Wire.v ===== *)
(** * internal/api: the JSON of requests and responses

    [json.Marshal] of the wire types of [dto.go], [decodeJSON] of
    [handlers.go] with its limit and its refusal of unknown fields, and
    [json.Unmarshal] as the client uses it.  Documents are built from and read
    into the values of [Json.v].  Strings may hold any bytes: those that are not
    part of a rune arrive as the replacement character ([clean_str]). *)

From S2P Require Import Prelude GoStrings GoNet Rfc3339 Registry Lease State Json Runtime Router Config Daemon DaemonInv DaemonSpec DaemonSystem Api Client.
From Stdlib Require Import Ascii.
Local Open Scope char_scope.

(** ** Compact documents *)

Section Join.
Context {A : Type} (print : A → text).

Fixpoint print_list (l : list A) : text :=
  match l with
  | [] => []
  | [v] => print v
  | v :: l => print v ++ "," :: print_list l
  end.
End Join.

Section All.
Context {A : Type} (P : A → Prop).

Fixpoint all_of (l : list A) : Prop := match l with [] => True | v :: l => P v ∧ all_of l end.

Lemma all_of_Forall l : all_of l ↔ Forall P l.
Proof. induction l as [|v l IH]; cbn; [by rewrite Forall_nil|by rewrite Forall_cons, IH]. Qed.
End All.

(** [json.Marshal] of a value. *)
Fixpoint print_json (v : json) : text :=
  match v with
  | JNull => bytes "null"
  | JBool b => if b then bytes "true" else bytes "false"
  | JNum lit => lit
  | JStr s => quote s
  | JArr vs => "[" :: print_list print_json vs ++ ["]"]
  | JObj ms => "{" :: print_list (λ m, quote m.1 ++ ":" :: print_json m.2) ms ++ ["}"]
  end.

Definition print_member (m : text * json) : text := quote m.1 ++ ":" :: print_json m.2.

(** A string as it arrives: the encoder writes the replacement character for
    each byte that is not part of a rune. *)
Definition to_valid (l : text) : text := sanitize (length l) l.

(** A document as it arrives. *)
Fixpoint clean_json (v : json) : json :=
  match v with
  | JStr s => JStr (to_valid s)
  | JArr vs => JArr (map clean_json vs)
  | JObj ms => JObj (map (λ m, (m.1, clean_json m.2)) ms)
  | _ => v
  end.

(** Values as the encoder has them: member names are constants of the source,
    numbers are integers. *)
Fixpoint wire (v : json) : Prop :=
  match v with
  | JNull | JBool _ => True
  | JNum lit => ∃ n, lit = bytes (Itoa n)
  | JStr _ => True
  | JArr vs => all_of wire vs
  | JObj ms => all_of (λ m, valid_utf8_list m.1 = true ∧ wire m.2) ms
  end.

Fixpoint json_depth (v : json) : nat :=
  match v with
  | JArr vs => S (max_list (json_depth <$> vs))
  | JObj ms => S (max_list ((λ m, json_depth m.2) <$> ms))
  | _ => 0
  end.

Fixpoint json_size (v : json) : nat :=
  match v with
  | JArr vs => S (sum_list (json_size <$> vs))
  | JObj ms => S (sum_list ((λ m, json_size m.2) <$> ms))
  | _ => 1
  end.

(** What may follow a value inside a document. *)
Definition value_end (l : text) : Prop := ∃ c l', l = c :: l' ∧ (c = "," ∨ c = "}" ∨ c = "]").

Lemma value_end_number l : value_end l ∨ l = [] → number_end l.
Proof.
  intros [(c & l' & -> & [->|[->| ->]])| ->]; split; try done; by apply (bool_decide_unpack _).
Qed.

Lemma print_head v : wire v → ∃ c l, print_json v = c :: l ∧ c ≠ "]" ∧ c ≠ "}" ∧ skip_ws (c :: l) = c :: l.
Proof.
  destruct v as [|[]|lit|s|vs|ms]; cbn [print_json wire]; intros Hw; try by eexists _, _.
  destruct Hw as [n ->]. destruct (Itoa_form n) as (sign & d & E & Hs & Hd & _).
  destruct (bytes (Itoa n)) as [|c l] eqn:Eb; [by destruct Hs as [-> | ->]; destruct d|].
  exists c, l. split; [done|].
  assert (c = "-" ∨ is_digit c = true) as Hc.
  { destruct Hs as [-> | ->]; [right|left; by simplify_eq/=].
    pose proof (uint_digits d) as Hds. rewrite app_nil_l in E. rewrite <-E in Hds. by inversion Hds. }
  clear -Hc. destruct c as [[] [] [] [] [] [] [] []]; destruct Hc; try done; split_and!; done.
Qed.

Lemma parse_value_num fuel depth n l : number_end l →
  parse_value (S fuel) depth (bytes (Itoa n) ++ l) = Some (JNum (bytes (Itoa n)), l).
Proof. intros Hl. rewrite <-(parse_value_Itoa fuel depth n l Hl). reflexivity. Qed.

Definition reads_back (v : json) : Prop :=
  ∀ fuel depth rest, length (print_json v) < fuel → json_depth v ≤ N.to_nat depth → number_end rest →
    parse_value fuel depth (print_json v ++ rest) = Some (clean_json v, rest).

Lemma print_list_cons {A} (print : A → text) v w l :
  print_list print (v :: w :: l) = print v ++ "," :: print_list print (w :: l).
Proof. done. Qed.

Lemma number_end_close c l : c = "," ∨ c = "}" ∨ c = "]" → number_end (c :: l).
Proof. intros Hc. apply value_end_number. left. by exists c, l. Qed.

(** The members of an object whose values read back. *)
Lemma parse_print_members ms : ∀ fuel depth rest, ms ≠ [] →
  Forall (λ m, valid_utf8_list m.1 = true ∧ reads_back m.2 ∧ json_depth m.2 ≤ N.to_nat depth) ms →
  length (print_list print_member ms) < fuel →
  parse_members fuel depth (print_list print_member ms ++ "}" :: rest) = Some (map (λ m, (m.1, clean_json m.2)) ms, rest).
Proof.
  induction ms as [|[k v] ms IH]; intros fuel depth rest Hne Hms Hf; [done|].
  apply Forall_cons in Hms as [(Hk & Hv & Hd) Hms]. cbn [fst snd] in *. destruct fuel as [|fuel]; [lia|].
  destruct ms as [|m ms].
  - cbn [print_list] in *. unfold print_member in *. cbn [fst snd] in *. rewrite length_app in Hf. cbn [length] in Hf.
    rewrite <-app_assoc. change ((":" :: ?x) ++ ?y) with (":" :: x ++ y).
    change (quote k ++ ?x) with ([] ++ quote k ++ x).
    erewrite parse_members_step; [|constructor|done|apply Hv; [lia|done|apply number_end_close; auto]]. done.
  - rewrite print_list_cons in *. unfold print_member in * at 1. cbn [fst snd] in *.
    rewrite length_app in Hf. cbn [length] in Hf. rewrite !length_app in Hf. cbn [length] in Hf.
    rewrite <-!app_assoc. change ((":" :: ?x) ++ ?y) with (":" :: x ++ y).
    change (("," :: ?x) ++ ?y) with ("," :: x ++ y).
    change (quote k ++ ?x) with ([] ++ quote k ++ x).
    erewrite parse_members_step; [|constructor|done|apply Hv; [lia|done|apply number_end_close; auto]].
    change (expect "}" ("," :: ?x)) with (@None text). change (expect "," ("," :: ?x)) with (Some x).
    cbv beta iota. rewrite IH; [done|done|done|lia].
Qed.

(** The elements of an array. *)
Lemma parse_print_elements vs : ∀ fuel depth rest, vs ≠ [] →
  Forall (λ v, reads_back v ∧ json_depth v ≤ N.to_nat depth) vs →
  length (print_list print_json vs) + 1 < fuel →
  parse_elements fuel depth (print_list print_json vs ++ "]" :: rest) = Some (map clean_json vs, rest).
Proof.
  induction vs as [|v vs IH]; intros fuel depth rest Hne Hvs Hf; [done|].
  apply Forall_cons in Hvs as [[Hv Hd] Hvs]. destruct fuel as [|fuel]; [lia|]. cbn [parse_elements].
  destruct vs as [|w vs].
  - cbn [print_list] in *. rewrite Hv; [done|lia|done|apply number_end_close; auto].
  - rewrite print_list_cons in *. rewrite length_app in Hf. cbn [length] in Hf. rewrite <-app_assoc.
    change (("," :: ?x) ++ ?y) with ("," :: x ++ y).
    rewrite Hv; [|lia|done|apply number_end_close; auto].
    change (expect "]" ("," :: ?x)) with (@None text). change (expect "," ("," :: ?x)) with (Some x).
    cbv beta iota. rewrite IH; [done|done|done|lia].
Qed.

Lemma parse_value_obj fuel depth l : (depth ≠ 0)%N →
  parse_value (S fuel) depth ("{" :: l) =
  match expect "}" l with
  | Some rest => Some (JObj [], rest)
  | None => match parse_members fuel (depth - 1)%N l with
            | Some (ms, rest) => Some (JObj ms, rest)
            | None => None
            end
  end.
Proof. intros Hd. exact (parse_value_object fuel depth [] l (Forall_nil_2 _) Hd). Qed.

Lemma parse_value_arr fuel depth l : (depth ≠ 0)%N →
  parse_value (S fuel) depth ("[" :: l) =
  match expect "]" l with
  | Some rest => Some (JArr [], rest)
  | None => match parse_elements fuel (depth - 1)%N l with
            | Some (vs, rest) => Some (JArr vs, rest)
            | None => None
            end
  end.
Proof.
  intros Hd. cbn [parse_value]. change (skip_ws ("[" :: l)) with ("[" :: l). cbv beta iota.
  by rewrite (decide_False (P := "[" = "034")), (decide_False (P := "[" = "{")), decide_True, decide_False by done.
Qed.

Lemma max_list_le l n k : max_list l ≤ n → k ∈ l → k ≤ n.
Proof. induction l as [|x l IH]; cbn; [set_solver|]. intros H [->|Hk]%elem_of_cons; [lia|apply IH; [lia|done]]. Qed.

Lemma sum_list_le l n k : sum_list l ≤ n → k ∈ l → k ≤ n.
Proof. induction l as [|x l IH]; cbn; [set_solver|]. intros H [->|Hk]%elem_of_cons; [lia|apply IH; [lia|done]]. Qed.

(** Every document of the encoder reads back. *)
Lemma parse_print n : ∀ v, json_size v ≤ n → wire v → reads_back v.
Proof.
  induction n as [|n IH]; intros v Hn Hw; [by destruct v; simpl in Hn; lia|].
  intros fuel depth rest Hf Hd Hr. destruct fuel as [|fuel]; [lia|].
  destruct v as [|b|lit|s|vs|ms]; cbn [print_json wire json_size json_depth] in *.
  - reflexivity.
  - by destruct b.
  - destruct Hw as [z ->]. by apply parse_value_num.
  - rewrite quote_app. cbn [parse_value]. change (skip_ws ("034" :: ?x)) with ("034" :: x). cbv beta iota.
    rewrite decide_True by done. rewrite parse_escape_any; [done|done|rewrite length_app; simpl; lia].
  - change (("[" :: ?x) ++ ?y) with ("[" :: x ++ y). rewrite <-app_assoc.
    change (["]"] ++ rest) with ("]" :: rest). rewrite parse_value_arr by (destruct depth; simpl in *; [lia|done]).
    destruct vs as [|v vs]; [done|].
    assert (expect "]" (print_list print_json (v :: vs) ++ "]" :: rest) = None) as ->.
    { destruct Hw as [Hw _]. destruct (print_head v Hw) as (c & l & E & H1 & _ & Hsk).
      assert (∃ l', print_list print_json (v :: vs) ++ "]" :: rest = c :: l') as [l' El].
      { destruct vs as [|w vs]; [cbn [print_list]|rewrite print_list_cons]; rewrite E; by eexists. }
      rewrite El. unfold expect.
      assert (skip_ws (c :: l') = c :: l') as ->; [|by rewrite decide_False].
      cbn [skip_ws] in *. case_decide; [|done]. exfalso.
      assert (length (skip_ws l) ≤ length l) by apply skip_ws_length. rewrite Hsk in *. simpl in *. lia. }
    rewrite parse_print_elements; [done|done| |cbn [length] in Hf; rewrite length_app in Hf; simpl in Hf |- *; lia].
    rewrite all_of_Forall in Hw. rewrite Forall_forall in Hw |- *. intros w Hin. split.
    + apply IH; [|by apply Hw]. apply (sum_list_le _ _ _ (le_S_n _ _ Hn)). apply list_elem_of_fmap. eauto.
    + rewrite N2Nat.inj_sub. change (N.to_nat 1) with 1.
      assert (json_depth w ≤ max_list (json_depth <$> (v :: vs))); [|lia].
      apply (max_list_le (json_depth <$> (v :: vs))); [lia|]. apply list_elem_of_fmap. eauto.
  - change (("{" :: ?x) ++ ?y) with ("{" :: x ++ y). rewrite <-app_assoc.
    change (["}"] ++ rest) with ("}" :: rest). rewrite parse_value_obj by (destruct depth; simpl in *; [lia|done]).
    destruct ms as [|[k v] ms]; [done|].
    assert (expect "}" (print_list print_member ((k, v) :: ms) ++ "}" :: rest) = None) as Eb.
    { destruct ms; [cbn [print_list]|rewrite print_list_cons]; unfold print_member at 1; cbn [fst snd];
        rewrite <-?app_assoc, quote_app; done. }
    fold print_member. change (λ m : text * json, quote m.1 ++ ":" :: print_json m.2) with print_member in *.
    rewrite Eb, parse_print_members; [done|done| |cbn [length] in Hf; rewrite length_app in Hf; simpl in Hf |- *; lia].
    rewrite all_of_Forall in Hw. rewrite Forall_forall in Hw |- *. intros m Hin. destruct (Hw m Hin) as [Hk Hv].
    split_and!; [done| |].
    + apply IH; [|done]. apply (sum_list_le _ _ _ (le_S_n _ _ Hn)). apply list_elem_of_fmap. eauto.
    + rewrite N2Nat.inj_sub. change (N.to_nat 1) with 1.
      assert (json_depth m.2 ≤ max_list ((λ m, json_depth m.2) <$> ((k, v) :: ms))); [|lia].
      apply (max_list_le ((λ m, json_depth m.2) <$> ((k, v) :: ms))); [lia|]. apply list_elem_of_fmap. eauto.
Qed.

(** ** Encoding structs *)

Local Open Scope string_scope.

Abbreviation fields := (list (text * json)).

Definition str_field (name s : string) : fields := [(bytes name, JStr (bytes s))].
Definition int_field (name : string) (n : Z) : fields := [(bytes name, JNum (bytes (Itoa n)))].

(** [omitempty]. *)
Definition opt_str (name s : string) : fields := if decide (s = "") then [] else str_field name s.
Definition opt_int (name : string) (n : Z) : fields := if decide (n = 0%Z) then [] else int_field name n.

Definition backend_json (b : BackendDTO) : json :=
  JObj (str_field "host" (bd_Host b) ++ int_field "port" (bd_Port b)).

Definition frontend_json (f : FrontendDTO) : json :=
  JObj (str_field "host" (fd_Host f) ++ int_field "port" (fd_Port f) ++ opt_str "url" (fd_URL f)).

Definition service_json (s : ServiceDTO) : json :=
  JObj (str_field "name" (sd_Name s) ++ str_field "kind" (sd_Kind s) ++ opt_str "app_protocol" (sd_AppProtocol s) ++
    str_field "status" (sd_Status s) ++ [(bytes "frontend", frontend_json (sd_Frontend s))]).

Definition inspect_json (i : InspectDTO) : json :=
  JObj (str_field "name" (id_Name i) ++ str_field "kind" (id_Kind i) ++ opt_str "app_protocol" (id_AppProtocol i) ++
    str_field "status" (id_Status i) ++ [(bytes "frontend", frontend_json (id_Frontend i))] ++
    match id_Backend i with Some b => [(bytes "backend", backend_json b)] | None => [] end ++
    opt_str "source" (id_Source i) ++ opt_str "owner_key" (id_OwnerKey i) ++ opt_str "producer_id" (id_ProducerID i) ++
    opt_str "docker_container_id" (id_DockerContainerID i) ++ opt_str "hostname" (id_Hostname i)).

Definition request_json (q : RegisterRequest) : json :=
  JObj (str_field "name" (q_Name q) ++ opt_str "kind" (q_Kind q) ++ opt_str "app_protocol" (q_AppProtocol q) ++
    opt_str "source" (q_Source q) ++ [(bytes "backend", backend_json (q_Backend q))] ++
    opt_int "preferred_port" (q_PreferredPort q) ++ opt_int "ttl_seconds" (q_TTLSeconds q) ++
    opt_str "http_host" (q_HTTPHost q)).

Definition response_json (r : RegisterResponse) : json :=
  JObj (str_field "registration_id" (rp_RegistrationID r) ++ opt_str "lease_token" (rp_LeaseToken r) ++
    str_field "name" (rp_Name r) ++ [(bytes "frontend", frontend_json (rp_Frontend r))] ++
    match rp_ExpiresAt r with Some t => str_field "expires_at" (format_rfc3339 t) | None => [] end ++
    opt_int "ttl_seconds" (rp_TTLSeconds r)).

(** The body of a response; [version] is the daemon's, [message] the text of an
    error. *)
Definition body_json (version message : string) (b : body) : option json :=
  match b with
  | BodyHealth status docker =>
    Some (JObj (str_field "status" status ++ str_field "version" version ++ str_field "docker" docker))
  | BodyList l => Some (JObj [(bytes "services", JArr (service_json <$> l))])
  | BodyService s => Some (service_json s)
  | BodyInspect i => Some (inspect_json i)
  | BodyRegister r => Some (response_json r)
  | BodyHeartbeat t => Some (JObj (str_field "expires_at" (format_rfc3339 t)))
  | BodyEmpty => None
  | BodyError code =>
    Some (JObj [(bytes "error", JObj (str_field "code" code ++ str_field "message" message))])
  end.

(** [writeJSON]: the encoder ends a document with a newline. *)
Definition body_text (version message : string) (b : body) : text :=
  match body_json version message b with
  | Some v => print_json v ++ [newline]
  | None => []
  end.

(** The body of a client's request. *)
Definition request_text (q : RegisterRequest) : text := print_json (request_json q).

(** ** Decoding structs *)

Definition store_str (old : string) (v : json) : option string :=
  match v with JNull => Some old | JStr s => Some (str s) | _ => None end.

(** A struct's fields: a JSON name, and how a value is stored. *)
Definition table (T : Type) := list (string * (json → T → option T)).

(** The field a member is for; [strict] is [DisallowUnknownFields]. *)
Fixpoint store_member {T} (strict : bool) (tbl : table T) (k : text) (v : json) (t : T) : option T :=
  match tbl with
  | [] => if strict then None else Some t
  | (field, store) :: tbl => if decide (names k field) then store v t else store_member strict tbl k v t
  end.

Fixpoint store_members {T} (strict : bool) (tbl : table T) (ms : fields) (t : T) : option T :=
  match ms with
  | [] => Some t
  | (k, v) :: ms =>
    match store_member strict tbl k v t with Some t => store_members strict tbl ms t | None => None end
  end.

(** A struct from a value: null leaves it as it is. *)
Definition store_struct {T} (strict : bool) (tbl : table T) (v : json) (t : T) : option T :=
  match v with JNull => Some t | JObj ms => store_members strict tbl ms t | _ => None end.

Definition backend_table : table BackendDTO :=
  [("host", λ v b, (λ s, mkBackendDTO s (bd_Port b)) <$> store_str (bd_Host b) v);
   ("port", λ v b, (λ n, mkBackendDTO (bd_Host b) n) <$> store_int (bd_Port b) v)].

Definition frontend_table : table FrontendDTO :=
  [("host", λ v f, (λ s, mkFrontendDTO s (fd_Port f) (fd_URL f)) <$> store_str (fd_Host f) v);
   ("port", λ v f, (λ n, mkFrontendDTO (fd_Host f) n (fd_URL f)) <$> store_int (fd_Port f) v);
   ("url", λ v f, (λ s, mkFrontendDTO (fd_Host f) (fd_Port f) s) <$> store_str (fd_URL f) v)].

Definition request_table : table RegisterRequest :=
  [("name", λ v q, (λ s, mkRegisterRequest s (q_Kind q) (q_AppProtocol q) (q_Source q) (q_Backend q)
      (q_PreferredPort q) (q_TTLSeconds q) (q_HTTPHost q)) <$> store_str (q_Name q) v);
   ("kind", λ v q, (λ s, mkRegisterRequest (q_Name q) s (q_AppProtocol q) (q_Source q) (q_Backend q)
      (q_PreferredPort q) (q_TTLSeconds q) (q_HTTPHost q)) <$> store_str (q_Kind q) v);
   ("app_protocol", λ v q, (λ s, mkRegisterRequest (q_Name q) (q_Kind q) s (q_Source q) (q_Backend q)
      (q_PreferredPort q) (q_TTLSeconds q) (q_HTTPHost q)) <$> store_str (q_AppProtocol q) v);
   ("source", λ v q, (λ s, mkRegisterRequest (q_Name q) (q_Kind q) (q_AppProtocol q) s (q_Backend q)
      (q_PreferredPort q) (q_TTLSeconds q) (q_HTTPHost q)) <$> store_str (q_Source q) v);
   ("backend", λ v q, (λ b, mkRegisterRequest (q_Name q) (q_Kind q) (q_AppProtocol q) (q_Source q) b
      (q_PreferredPort q) (q_TTLSeconds q) (q_HTTPHost q)) <$> store_struct true backend_table v (q_Backend q));
   ("preferred_port", λ v q, (λ n, mkRegisterRequest (q_Name q) (q_Kind q) (q_AppProtocol q) (q_Source q)
      (q_Backend q) n (q_TTLSeconds q) (q_HTTPHost q)) <$> store_int (q_PreferredPort q) v);
   ("ttl_seconds", λ v q, (λ n, mkRegisterRequest (q_Name q) (q_Kind q) (q_AppProtocol q) (q_Source q)
      (q_Backend q) (q_PreferredPort q) n (q_HTTPHost q)) <$> store_int (q_TTLSeconds q) v);
   ("http_host", λ v q, (λ s, mkRegisterRequest (q_Name q) (q_Kind q) (q_AppProtocol q) (q_Source q)
      (q_Backend q) (q_PreferredPort q) (q_TTLSeconds q) s) <$> store_str (q_HTTPHost q) v)].

Definition no_request : RegisterRequest := mkRegisterRequest "" "" "" "" (mkBackendDTO "" 0) 0 0 "".

(** [decodeJSON] of a request body: the first value in the first megabyte; what
    follows it is not read. *)
Definition body_limit : N := 1048576.

Definition LimitReader (limit : N) (body : text) : text :=
  if decide (N.of_nat (length body) ≤ limit)%N then body else take (N.to_nat limit) body.

Definition decodeJSON (body : text) : option RegisterRequest :=
  let l := LimitReader body_limit body in
  match parse_value (S (2 * length l)) 10000 l with
  | Some (v, _) => store_struct true request_table v no_request
  | None => None
  end.

(** ** Requests *)

(** The numbers of a request are Go ints. *)
Definition safe_request (q : RegisterRequest) : Prop :=
  Forall in_int64 [bd_Port (q_Backend q); q_PreferredPort q; q_TTLSeconds q].

(** What arrives of a string. *)
Definition clean_str (s : string) : string := str (to_valid (bytes s)).

Lemma clean_str_valid s : valid_utf8 s = true → clean_str s = s.
Proof. intros H. unfold clean_str, to_valid. rewrite sanitize_valid by done. apply str_bytes. Qed.

Lemma clean_str_empty s : clean_str s = "" ↔ s = "".
Proof.
  split; [|by intros ->]. unfold clean_str, to_valid. destruct s as [|c s]; [done|].
  change (bytes (String c s)) with (c :: bytes s). cbn [length sanitize].
  destruct (rune_len (c :: bytes s)) as [|m]; [discriminate|]. cbn [take app]. discriminate.
Qed.

Definition clean_backend (b : BackendDTO) : BackendDTO := mkBackendDTO (clean_str (bd_Host b)) (bd_Port b).

Definition clean_frontend (f : FrontendDTO) : FrontendDTO :=
  mkFrontendDTO (clean_str (fd_Host f)) (fd_Port f) (clean_str (fd_URL f)).

Definition clean_request (q : RegisterRequest) : RegisterRequest :=
  mkRegisterRequest (clean_str (q_Name q)) (clean_str (q_Kind q)) (clean_str (q_AppProtocol q))
    (clean_str (q_Source q)) (clean_backend (q_Backend q)) (q_PreferredPort q) (q_TTLSeconds q)
    (clean_str (q_HTTPHost q)).

(** A struct's document arrives as the document of the struct that arrives. *)
Definition clean_fields (ms : fields) : fields := map (λ m, (m.1, clean_json m.2)) ms.

Lemma clean_json_obj ms : clean_json (JObj ms) = JObj (clean_fields ms).
Proof. done. Qed.

Lemma clean_fields_app ms1 ms2 : clean_fields (ms1 ++ ms2) = (clean_fields ms1 ++ clean_fields ms2)%list.
Proof. apply map_app. Qed.

Lemma clean_str_field f s : clean_fields (str_field f s) = str_field f (clean_str s).
Proof. unfold clean_fields, str_field, clean_str. cbn. by rewrite bytes_str. Qed.

Lemma clean_opt_str f s : clean_fields (opt_str f s) = opt_str f (clean_str s).
Proof.
  unfold opt_str. destruct (decide (s = "")) as [->|Hs]; [done|].
  rewrite decide_False; [apply clean_str_field|by rewrite clean_str_empty].
Qed.

Lemma clean_int_field f n : clean_fields (int_field f n) = int_field f n.
Proof. done. Qed.

Lemma clean_opt_int f n : clean_fields (opt_int f n) = opt_int f n.
Proof. unfold opt_int. by case_decide. Qed.

Lemma clean_field f v : clean_fields [(f, v)] = [(f, clean_json v)].
Proof. done. Qed.

Create Rewrite HintDb clean.
#[export] Hint Rewrite clean_json_obj clean_fields_app clean_str_field clean_opt_str clean_int_field clean_opt_int
  clean_field : clean.

Lemma clean_backend_json b : clean_json (backend_json b) = backend_json (clean_backend b).
Proof. unfold backend_json. by autorewrite with clean. Qed.

Lemma clean_frontend_json f : clean_json (frontend_json f) = frontend_json (clean_frontend f).
Proof. unfold frontend_json. by autorewrite with clean. Qed.

#[export] Hint Rewrite clean_backend_json clean_frontend_json : clean.

Lemma clean_request_json q : clean_json (request_json q) = request_json (clean_request q).
Proof. unfold request_json. by autorewrite with clean. Qed.

(** One field after the other: [t'] is [t] with the field set. *)
Lemma store_then {T} strict (tbl : table T) ms rest t t' :
  store_members strict tbl ms t = Some t' →
  store_members strict tbl (ms ++ rest) t = store_members strict tbl rest t'.
Proof.
  revert t. induction ms as [|[k v] ms IH]; intros t; [by intros [= ->]|]. cbn [app store_members].
  destruct (store_member strict tbl k v t); [apply IH|done].
Qed.

Lemma store_opt_str {T} strict (tbl : table T) f s rest t t' :
  store_members strict tbl (str_field f s) t = Some t' → (s = "" → t' = t) →
  store_members strict tbl (opt_str f s ++ rest) t = store_members strict tbl rest t'.
Proof.
  intros H He. unfold opt_str. case_decide as Hs; [by rewrite He|]. by apply store_then.
Qed.

Lemma store_opt_int {T} strict (tbl : table T) f n rest t t' :
  store_members strict tbl (int_field f n) t = Some t' → (n = 0%Z → t' = t) →
  store_members strict tbl (opt_int f n ++ rest) t = store_members strict tbl rest t'.
Proof.
  intros H He. unfold opt_int. case_decide as Hs; [by rewrite He|]. by apply store_then.
Qed.

Lemma store_str_bytes old s : store_str old (JStr (bytes s)) = Some s.
Proof. cbn. by rewrite str_bytes. Qed.

Ltac wire_proj :=
  cbn [bd_Host bd_Port fd_Host fd_Port fd_URL sd_Name sd_Kind sd_AppProtocol sd_Status sd_Frontend
       q_Name q_Kind q_AppProtocol q_Source q_Backend q_PreferredPort q_TTLSeconds q_HTTPHost
       rp_RegistrationID rp_LeaseToken rp_Name rp_Frontend rp_ExpiresAt rp_TTLSeconds].

(** Find the field of a member with a constant name. *)
Ltac find_field :=
  cbn [store_members store_member str_field int_field];
  repeat match goal with
  | |- context [decide (names ?k ?f)] =>
    first [rewrite (decide_True (P := names k f)) by reflexivity
          |rewrite (decide_False (P := names k f)) by (vm_compute; discriminate)]
  end; rewrite ?store_str_bytes; rewrite ?store_int_Itoa by done; cbn [fmap option_fmap option_map]; wire_proj.

(** The next field of the document. *)
Ltac next_field :=
  etransitivity;
  [lazymatch goal with
   | |- store_members _ _ (opt_str _ _ ++ _) _ = _ => apply store_opt_str; [find_field; reflexivity|by intros ->]
   | |- store_members _ _ (opt_int _ _ ++ _) _ = _ => apply store_opt_int; [find_field; reflexivity|by intros ->]
   | |- _ => apply store_then; find_field; reflexivity
   end|].

Lemma store_backend strict b0 b : in_int64 (bd_Port b) → store_struct strict backend_table (backend_json b) b0 = Some b.
Proof.
  intros Hp. destruct b as [h p]. unfold backend_json, backend_table. cbn [store_struct bd_Host bd_Port] in *.
  next_field. find_field. done.
Qed.

Lemma store_frontend strict f : in_int64 (fd_Port f) →
  store_struct strict frontend_table (frontend_json f) (mkFrontendDTO "" 0 "") = Some f.
Proof.
  intros Hp. destruct f as [h p u]. unfold frontend_json, frontend_table. cbn [store_struct fd_Host fd_Port fd_URL] in *.
  next_field. next_field. rewrite <-(app_nil_r (opt_str _ _)). next_field. done.
Qed.

Lemma store_request q : safe_request q → store_struct true request_table (request_json q) no_request = Some q.
Proof.
  intros Hi. unfold safe_request in Hi. rewrite !Forall_cons in Hi. destruct Hi as (H1 & H2 & H3 & _).
  destruct q as [n k ap src b pp ttl hh].
  unfold request_json, request_table, no_request. cbn [store_struct q_Name q_Kind q_AppProtocol q_Source q_Backend
    q_PreferredPort q_TTLSeconds q_HTTPHost] in *.
  do 4 next_field.
  etransitivity; [apply store_then; find_field; rewrite store_backend by done; reflexivity|].
  do 2 next_field. rewrite <-(app_nil_r (opt_str _ _)). next_field. done.
Qed.

Local Open Scope nat_scope.

(** Documents of limited depth. *)
Definition good (k : nat) (v : json) : Prop := wire v ∧ json_depth v ≤ k.
Definition good_fields (k : nat) (ms : fields) : Prop :=
  Forall (λ m, valid_utf8_list m.1 = true ∧ good k m.2) ms.

Lemma max_list_bound l n : Forall (λ x, x ≤ n) l → max_list l ≤ n.
Proof. induction 1; cbn; lia. Qed.

Lemma good_obj k ms : good_fields k ms → good (S k) (JObj ms).
Proof.
  intros H. split; cbn [wire json_depth].
  - apply all_of_Forall. eapply Forall_impl; [exact H|]. by intros m (? & ? & _).
  - apply le_n_S, max_list_bound, Forall_fmap. eapply Forall_impl; [exact H|]. by intros m (_ & _ & ?).
Qed.

Lemma good_arr k vs : Forall (good k) vs → good (S k) (JArr vs).
Proof.
  intros H. split; cbn [wire json_depth].
  - apply all_of_Forall. eapply Forall_impl; [exact H|]. by intros v [? _].
  - apply le_n_S, max_list_bound, Forall_fmap. eapply Forall_impl; [exact H|]. by intros v [_ ?].
Qed.

Lemma good_str k name s : valid_utf8 name = true → good_fields k (str_field name s).
Proof. intros Hn. apply Forall_singleton. split; [done|split; [done|simpl; lia]]. Qed.

Lemma good_opt_str k name s : valid_utf8 name = true → good_fields k (opt_str name s).
Proof. intros Hn. unfold opt_str. case_decide; [constructor|by apply good_str]. Qed.

Lemma good_int k name n : valid_utf8 name = true → good_fields k (int_field name n).
Proof. intros Hn. apply Forall_singleton. split; [done|split; [by exists n|simpl; lia]]. Qed.

Lemma good_opt_int k name n : valid_utf8 name = true → good_fields k (opt_int name n).
Proof. intros Hn. unfold opt_int. case_decide; [constructor|by apply good_int]. Qed.

Lemma good_field k name v : valid_utf8 name = true → good k v → good_fields k [(bytes name, v)].
Proof. intros Hn Hv. apply Forall_singleton. by split. Qed.

Lemma good_app k ms1 ms2 : good_fields k ms1 → good_fields k ms2 → good_fields k (ms1 ++ ms2).
Proof. intros. by apply Forall_app. Qed.

Create HintDb wire.
#[export] Hint Resolve good_obj good_arr good_str good_opt_str good_int good_opt_int good_field good_app : wire.
#[export] Hint Extern 1 (valid_utf8 _ = true) => reflexivity : wire.

(** What the encoder writes, alone or before a newline, is read back. *)
Lemma parse_good k v : good k v → k ≤ 100 →
  ∀ fuel rest, length (print_json v) < fuel → number_end rest → parse_value fuel 10000 (print_json v ++ rest) = Some (clean_json v, rest).
Proof.
  intros [Hw Hd] Hk fuel rest Hf Hr. apply (parse_print (json_size v)); [done|done|done| |done].
  change (N.to_nat 10000) with (N.to_nat (9900 + 100)). rewrite N2Nat.inj_add. change (N.to_nat 100) with 100. lia.
Qed.

Lemma parse_document k v : good k v → k ≤ 100 → parse_json (print_json v ++ [newline]) = Some (clean_json v).
Proof.
  intros Hv Hk. unfold parse_json. rewrite (parse_good k); [done|done|done| |by apply number_end_newline].
  rewrite length_app. simpl. lia.
Qed.

Lemma good_backend k b : good (S k) (backend_json b).
Proof. unfold backend_json. auto with wire. Qed.

Lemma good_frontend k f : good (S k) (frontend_json f).
Proof. unfold frontend_json. auto 6 with wire. Qed.

#[export] Hint Resolve good_backend good_frontend : wire.

Lemma good_request q : good 2 (request_json q).
Proof. unfold request_json. repeat (apply good_obj || apply good_app); auto with wire. Qed.

(** The body of a client's request is decoded to the request it was made of, as its strings arrive. *)
Lemma decode_request q :
  safe_request q → (N.of_nat (length (request_text q)) ≤ body_limit)%N →
  decodeJSON (request_text q) = Some (clean_request q).
Proof.
  intros Hq Hl. unfold decodeJSON, LimitReader. rewrite decide_True by done.
  rewrite <-(app_nil_r (request_text q)) at 2. unfold request_text at 2.
  rewrite (parse_good 2); [|apply good_request|lia| |done].
  { rewrite clean_request_json. by apply store_request. }
  unfold request_text. lia.
Qed.

(** ** Unknown fields *)

Lemma store_member_unknown {T} (tbl : table T) k v t :
  Forall (λ e, ¬ names k e.1) tbl → store_member true tbl k v t = None.
Proof.
  induction 1 as [|[f st] tbl Hk _ IH]; [done|]. cbn [store_member]. by rewrite decide_False.
Qed.

Lemma store_members_unknown {T} (tbl : table T) k v ms t :
  (k, v) ∈ ms → Forall (λ e, ¬ names k e.1) tbl → store_members true tbl ms t = None.
Proof.
  intros Hin Hk. revert t. induction ms as [|[k' v'] ms IH]; intros t; [by apply not_elem_of_nil in Hin|].
  cbn [store_members]. apply elem_of_cons in Hin as [[= <- <-]|Hin]; [by rewrite store_member_unknown|].
  destruct (store_member true tbl k' v' t); [by apply IH|done].
Qed.

(** A store that fails on a member fails on the whole object. *)
Lemma store_members_fails {T} strict (tbl : table T) k v ms t :
  (k, v) ∈ ms → (∀ t, store_member strict tbl k v t = None) → store_members strict tbl ms t = None.
Proof.
  intros Hin Hk. revert t. induction ms as [|[k' v'] ms IH]; intros t; [by apply not_elem_of_nil in Hin|].
  cbn [store_members]. apply elem_of_cons in Hin as [[= <- <-]|Hin]; [by rewrite Hk|].
  destruct (store_member strict tbl k' v' t); [by apply IH|done].
Qed.

(** The names a request and its backend may have. *)
Definition request_fields : list string := request_table.*1.
Definition backend_fields : list string := backend_table.*1.

Definition undeclared (known : list string) (k : text) : Prop := Forall (λ f, ¬ names k f) known.

#[global] Instance undeclared_dec known k : Decision (undeclared known k).
Proof. unfold undeclared. apply _. Defined.

(** Members the decoder refuses: an undeclared one, or one of the backend. *)
Definition smuggles (ms : fields) : Prop :=
  (∃ k v, (k, v) ∈ ms ∧ undeclared request_fields k) ∨
  (∃ kb bs k v, (kb, JObj bs) ∈ ms ∧ names kb "backend" ∧ (k, v) ∈ bs ∧ undeclared backend_fields k).

Lemma undeclared_table {T} (tbl : table T) k : undeclared tbl.*1 k → Forall (λ e, ¬ names k e.1) tbl.
Proof. unfold undeclared. rewrite Forall_fmap. auto. Qed.

Lemma store_smuggled ms t : smuggles ms → store_members true request_table ms t = None.
Proof.
  intros [(k & v & Hin & Hk)|(kb & bs & k & v & Hin & Hkb & Hinb & Hk)].
  - eapply store_members_unknown; [done|by apply undeclared_table].
  - apply (store_members_fails _ _ kb (JObj bs)); [done|]. clear t. intros t. unfold names in Hkb.
    unfold request_table. cbn [store_member].
    do 4 (rewrite decide_False; [|unfold names; rewrite Hkb; vm_compute; discriminate]).
    rewrite decide_True by done. cbn [store_struct].
    by rewrite (store_members_unknown backend_table k v bs _ Hinb (undeclared_table _ _ Hk)).
Qed.

(** ** The handler of a request text *)

Section Requests.
Context `{JSON} `{Unicode} `{MapRange}.

(** [handleRegister] of a request body. *)
Definition serve_registration (d : Daemon) (env : Env) (body : text) : Daemon * Response :=
  handleRegister d (decodeJSON body) env.

(** C23: A registration request whose JSON object has a member that is not a field of the
    request, or of its backend, such as an owner key, a producer or a container, is answered
    with 400 and invalid_request and changes nothing, whatever else it says and whatever follows
    it. *)
Theorem unknown_fields_refused d env body ms rest :
  parse_value (S (2 * length (LimitReader body_limit body))) 10000 (LimitReader body_limit body) = Some (JObj ms, rest) →
  smuggles ms → serve_registration d env body = (d, (400%Z, BodyError CodeInvalidRequest)).
Proof.
  intros Hp Hs. unfold serve_registration, decodeJSON. rewrite Hp. cbn [store_struct].
  by rewrite store_smuggled.
Qed.
End Requests.
