(* ===== verification/WireReply.v ===== *)
(** * internal/transport: the JSON of replies, as the client reads it

    [json.Unmarshal] of the bodies [writeJSON] writes, [decodeError], and the
    exchange of a registration from the request's bytes to the handle.  The
    client's decoder ignores members it does not know. *)

From S2P Require Import Prelude GoStrings GoNet Rfc3339 Registry Lease State Json Runtime Router Config Daemon DaemonInv DaemonSpec DaemonSystem Api Client Wire.
From Stdlib Require Import Ascii.
Local Open Scope string_scope.

(** ** Decoding *)

Definition no_frontend : FrontendDTO := mkFrontendDTO "" 0 "".
Definition no_service : ServiceDTO := mkServiceDTO "" "" "" "" no_frontend.
Definition no_inspect : InspectDTO := mkInspectDTO "" "" "" "" no_frontend None "" "" "" "" "".
Definition no_response : RegisterResponse := mkRegisterResponse "" "" "" no_frontend None 0.

Definition service_table : table ServiceDTO :=
  [("name", λ v x, (λ s, mkServiceDTO s (sd_Kind x) (sd_AppProtocol x) (sd_Status x) (sd_Frontend x)) <$>
      store_str (sd_Name x) v);
   ("kind", λ v x, (λ s, mkServiceDTO (sd_Name x) s (sd_AppProtocol x) (sd_Status x) (sd_Frontend x)) <$>
      store_str (sd_Kind x) v);
   ("app_protocol", λ v x, (λ s, mkServiceDTO (sd_Name x) (sd_Kind x) s (sd_Status x) (sd_Frontend x)) <$>
      store_str (sd_AppProtocol x) v);
   ("status", λ v x, (λ s, mkServiceDTO (sd_Name x) (sd_Kind x) (sd_AppProtocol x) s (sd_Frontend x)) <$>
      store_str (sd_Status x) v);
   ("frontend", λ v x, (λ f, mkServiceDTO (sd_Name x) (sd_Kind x) (sd_AppProtocol x) (sd_Status x) f) <$>
      store_struct false frontend_table v (sd_Frontend x))].

(** A pointer: null clears it, an object is stored in what it points to or in a
    new struct. *)
Definition store_backend_ptr (old : option BackendDTO) (v : json) : option (option BackendDTO) :=
  match v with
  | JNull => Some None
  | _ => Some <$> store_struct false backend_table v (default (mkBackendDTO "" 0) old)
  end.

Definition inspect_table : table InspectDTO :=
  [("name", λ v x, (λ s, mkInspectDTO s (id_Kind x) (id_AppProtocol x) (id_Status x) (id_Frontend x) (id_Backend x)
      (id_Source x) (id_OwnerKey x) (id_ProducerID x) (id_DockerContainerID x) (id_Hostname x)) <$> store_str (id_Name x) v);
   ("kind", λ v x, (λ s, mkInspectDTO (id_Name x) s (id_AppProtocol x) (id_Status x) (id_Frontend x) (id_Backend x)
      (id_Source x) (id_OwnerKey x) (id_ProducerID x) (id_DockerContainerID x) (id_Hostname x)) <$> store_str (id_Kind x) v);
   ("app_protocol", λ v x, (λ s, mkInspectDTO (id_Name x) (id_Kind x) s (id_Status x) (id_Frontend x) (id_Backend x)
      (id_Source x) (id_OwnerKey x) (id_ProducerID x) (id_DockerContainerID x) (id_Hostname x)) <$> store_str (id_AppProtocol x) v);
   ("status", λ v x, (λ s, mkInspectDTO (id_Name x) (id_Kind x) (id_AppProtocol x) s (id_Frontend x) (id_Backend x)
      (id_Source x) (id_OwnerKey x) (id_ProducerID x) (id_DockerContainerID x) (id_Hostname x)) <$> store_str (id_Status x) v);
   ("frontend", λ v x, (λ f, mkInspectDTO (id_Name x) (id_Kind x) (id_AppProtocol x) (id_Status x) f (id_Backend x)
      (id_Source x) (id_OwnerKey x) (id_ProducerID x) (id_DockerContainerID x) (id_Hostname x)) <$>
      store_struct false frontend_table v (id_Frontend x));
   ("backend", λ v x, (λ b, mkInspectDTO (id_Name x) (id_Kind x) (id_AppProtocol x) (id_Status x) (id_Frontend x) b
      (id_Source x) (id_OwnerKey x) (id_ProducerID x) (id_DockerContainerID x) (id_Hostname x)) <$>
      store_backend_ptr (id_Backend x) v);
   ("source", λ v x, (λ s, mkInspectDTO (id_Name x) (id_Kind x) (id_AppProtocol x) (id_Status x) (id_Frontend x) (id_Backend x)
      s (id_OwnerKey x) (id_ProducerID x) (id_DockerContainerID x) (id_Hostname x)) <$> store_str (id_Source x) v);
   ("owner_key", λ v x, (λ s, mkInspectDTO (id_Name x) (id_Kind x) (id_AppProtocol x) (id_Status x) (id_Frontend x) (id_Backend x)
      (id_Source x) s (id_ProducerID x) (id_DockerContainerID x) (id_Hostname x)) <$> store_str (id_OwnerKey x) v);
   ("producer_id", λ v x, (λ s, mkInspectDTO (id_Name x) (id_Kind x) (id_AppProtocol x) (id_Status x) (id_Frontend x) (id_Backend x)
      (id_Source x) (id_OwnerKey x) s (id_DockerContainerID x) (id_Hostname x)) <$> store_str (id_ProducerID x) v);
   ("docker_container_id", λ v x, (λ s, mkInspectDTO (id_Name x) (id_Kind x) (id_AppProtocol x) (id_Status x) (id_Frontend x)
      (id_Backend x) (id_Source x) (id_OwnerKey x) (id_ProducerID x) s (id_Hostname x)) <$> store_str (id_DockerContainerID x) v);
   ("hostname", λ v x, (λ s, mkInspectDTO (id_Name x) (id_Kind x) (id_AppProtocol x) (id_Status x) (id_Frontend x)
      (id_Backend x) (id_Source x) (id_OwnerKey x) (id_ProducerID x) (id_DockerContainerID x) s) <$> store_str (id_Hostname x) v)].

(** A time as the client keeps it: a string that [time.Parse] refuses leaves
    none. *)
Definition store_time (old : option Z) (v : json) : option (option Z) :=
  match v with JNull => Some old | JStr s => Some (parse_rfc3339 (str s)) | _ => None end.

Definition response_table : table RegisterResponse :=
  [("registration_id", λ v r, (λ s, mkRegisterResponse s (rp_LeaseToken r) (rp_Name r) (rp_Frontend r) (rp_ExpiresAt r)
      (rp_TTLSeconds r)) <$> store_str (rp_RegistrationID r) v);
   ("lease_token", λ v r, (λ s, mkRegisterResponse (rp_RegistrationID r) s (rp_Name r) (rp_Frontend r) (rp_ExpiresAt r)
      (rp_TTLSeconds r)) <$> store_str (rp_LeaseToken r) v);
   ("name", λ v r, (λ s, mkRegisterResponse (rp_RegistrationID r) (rp_LeaseToken r) s (rp_Frontend r) (rp_ExpiresAt r)
      (rp_TTLSeconds r)) <$> store_str (rp_Name r) v);
   ("frontend", λ v r, (λ f, mkRegisterResponse (rp_RegistrationID r) (rp_LeaseToken r) (rp_Name r) f (rp_ExpiresAt r)
      (rp_TTLSeconds r)) <$> store_struct false frontend_table v (rp_Frontend r));
   ("expires_at", λ v r, (λ t, mkRegisterResponse (rp_RegistrationID r) (rp_LeaseToken r) (rp_Name r) (rp_Frontend r) t
      (rp_TTLSeconds r)) <$> store_time (rp_ExpiresAt r) v);
   ("ttl_seconds", λ v r, (λ n, mkRegisterResponse (rp_RegistrationID r) (rp_LeaseToken r) (rp_Name r) (rp_Frontend r)
      (rp_ExpiresAt r) n) <$> store_int (rp_TTLSeconds r) v)].

(** The version is decoded and dropped. *)
Definition health_table : table (string * string) :=
  [("status", λ v p, (λ s, (s, p.2)) <$> store_str p.1 v);
   ("version", λ v p, (λ _, p) <$> store_str "" v);
   ("docker", λ v p, (λ s, (p.1, s)) <$> store_str p.2 v)].

Definition heartbeat_table : table (option Z) := [("expires_at", λ v t, store_time t v)].

(** An array is read into a fresh slice. *)
Definition store_services (old : list ServiceDTO) (v : json) : option (list ServiceDTO) :=
  match v with
  | JNull => Some []
  | JArr vs => mapM (λ v, store_struct false service_table v no_service) vs
  | _ => None
  end.

Definition list_table : table (list ServiceDTO) := [("services", λ v l, store_services l v)].

Definition error_body_table : table (string * string) :=
  [("code", λ v e, (λ s, (s, e.2)) <$> store_str e.1 v); ("message", λ v e, (λ s, (e.1, s)) <$> store_str e.2 v)].

Definition envelope_table : table (string * string) :=
  [("error", λ v e, store_struct false error_body_table v e)].

(** What [do]'s caller decodes a reply into. *)
Inductive Out := OutNone | OutHealth | OutList | OutService | OutInspect | OutRegister | OutHeartbeat.

#[global] Instance Out_eq_dec : EqDecision Out.
Proof. solve_decision. Defined.

Definition read_body (out : Out) (v : json) : option body :=
  match out with
  | OutNone => Some BodyEmpty
  | OutHealth => (λ p, BodyHealth p.1 p.2) <$> store_struct false health_table v ("", "")
  | OutList => BodyList <$> store_struct false list_table v []
  | OutService => BodyService <$> store_struct false service_table v no_service
  | OutInspect => BodyInspect <$> store_struct false inspect_table v no_inspect
  | OutRegister => BodyRegister <$> store_struct false response_table v no_response
  | OutHeartbeat => (λ t, match t with Some t => BodyHeartbeat t | None => BodyEmpty end) <$>
                      store_struct false heartbeat_table v None
  end.

(** [do] after the request: the status and the bytes of the reply, [None] when
    there was none.  A reply that does not decode is a failure without status. *)
Definition decodeErrorText (status : Z) (data : text) : ClientError :=
  match (parse_json data) ≫= λ v, store_struct false envelope_table v ("", "") with
  | Some (code, _) => if decide (code ≠ "") then ErrAPI status code else ErrAPI status CodeInternal
  | None => ErrAPI status CodeInternal
  end.

Definition do_text (out : Out) (reply : option (Z * text)) : result body ClientError :=
  match reply with
  | None => Err ErrUnreachable
  | Some (status, data) =>
    if decide (status < 200 ∨ 300 ≤ status)%Z then Err (decodeErrorText status data)
    else if decide (out ≠ OutNone ∧ data ≠ []) then
      match parse_json data ≫= read_body out with Some b => Ok b | None => Err ErrUnreachable end
    else Ok BodyEmpty
  end.

(** ** What may be sent *)

(** Numbers are Go ints, and instants are of the years 1970 to 9999. *)
Definition safe_frontend (f : FrontendDTO) : Prop := in_int64 (fd_Port f).
Definition safe_service (x : ServiceDTO) : Prop := safe_frontend (sd_Frontend x).

Record safe_inspect (x : InspectDTO) : Prop := mkSafeInspect {
  si_frontend : safe_frontend (id_Frontend x);
  si_backend : ∀ b, id_Backend x = Some b → in_int64 (bd_Port b)
}.

Definition safe_time (t : Z) : Prop := (0 ≤ t / Second < last_second)%Z.

Record safe_response (r : RegisterResponse) : Prop := mkSafeResponse {
  sr_frontend : safe_frontend (rp_Frontend r);
  sr_time : ∀ t, rp_ExpiresAt r = Some t → safe_time t;
  sr_ttl : in_int64 (rp_TTLSeconds r)
}.

Definition safe_body (b : body) : Prop :=
  match b with
  | BodyList l => Forall safe_service l
  | BodyService x => safe_service x
  | BodyInspect x => safe_inspect x
  | BodyRegister r => safe_response r
  | BodyHeartbeat t => safe_time t
  | BodyHealth _ _ | BodyEmpty | BodyError _ => True
  end.

(** ** What arrives *)

Definition clean_service (x : ServiceDTO) : ServiceDTO :=
  mkServiceDTO (clean_str (sd_Name x)) (clean_str (sd_Kind x)) (clean_str (sd_AppProtocol x))
    (clean_str (sd_Status x)) (clean_frontend (sd_Frontend x)).

Definition clean_inspect (x : InspectDTO) : InspectDTO :=
  mkInspectDTO (clean_str (id_Name x)) (clean_str (id_Kind x)) (clean_str (id_AppProtocol x))
    (clean_str (id_Status x)) (clean_frontend (id_Frontend x)) (clean_backend <$> id_Backend x)
    (clean_str (id_Source x)) (clean_str (id_OwnerKey x)) (clean_str (id_ProducerID x))
    (clean_str (id_DockerContainerID x)) (clean_str (id_Hostname x)).

Definition clean_response (r : RegisterResponse) : RegisterResponse :=
  mkRegisterResponse (clean_str (rp_RegistrationID r)) (clean_str (rp_LeaseToken r)) (clean_str (rp_Name r))
    (clean_frontend (rp_Frontend r)) (rp_ExpiresAt r) (rp_TTLSeconds r).

Definition clean_body (b : body) : body :=
  match b with
  | BodyHealth status docker => BodyHealth (clean_str status) (clean_str docker)
  | BodyList l => BodyList (clean_service <$> l)
  | BodyService x => BodyService (clean_service x)
  | BodyInspect x => BodyInspect (clean_inspect x)
  | BodyRegister r => BodyRegister (clean_response r)
  | BodyHeartbeat t => BodyHeartbeat t
  | BodyEmpty => BodyEmpty
  | BodyError code => BodyError (clean_str code)
  end.

Lemma clean_time t : clean_str (format_rfc3339 t) = format_rfc3339 t.
Proof. apply clean_str_valid, all_ascii_utf8, format_rfc3339_ascii. Qed.

Lemma clean_arr vs : clean_json (JArr vs) = JArr (map clean_json vs).
Proof. done. Qed.

#[export] Hint Rewrite clean_time clean_arr : clean.

Lemma clean_service_json x : clean_json (service_json x) = service_json (clean_service x).
Proof. unfold service_json. by autorewrite with clean. Qed.

Lemma clean_inspect_json x : clean_json (inspect_json x) = inspect_json (clean_inspect x).
Proof. unfold inspect_json. destruct (id_Backend x) eqn:E; autorewrite with clean; cbn; by rewrite E. Qed.

Lemma clean_response_json r : clean_json (response_json r) = response_json (clean_response r).
Proof. unfold response_json. destruct (rp_ExpiresAt r) eqn:E; autorewrite with clean; cbn; by rewrite E. Qed.

Lemma clean_services l : map clean_json (service_json <$> l) = service_json <$> (clean_service <$> l).
Proof.
  induction l as [|x l IH]; [done|]. cbn [fmap list_fmap map] in *. by rewrite clean_service_json, IH.
Qed.

#[export] Hint Rewrite clean_service_json clean_inspect_json clean_response_json : clean.

(** A body's document arrives as the document of the body that arrives. *)
Lemma clean_body_json version message b :
  clean_json <$> body_json version message b = body_json (clean_str version) (clean_str message) (clean_body b).
Proof.
  destruct b as [st dk|l|x|x|r|t| |code]; cbn [body_json clean_body fmap option_fmap option_map]; [..|done|];
    autorewrite with clean; try done.
  by rewrite clean_services.
Qed.

(** A body whose times are whole seconds, as [time.RFC3339] leaves them. *)
Definition whole_seconds (b : body) : body :=
  match b with
  | BodyRegister r => BodyRegister (mkRegisterResponse (rp_RegistrationID r) (rp_LeaseToken r) (rp_Name r)
      (rp_Frontend r) (rfc3339 <$> rp_ExpiresAt r) (rp_TTLSeconds r))
  | BodyHeartbeat t => BodyHeartbeat (rfc3339 t)
  | _ => b
  end.

Definition out_of (b : body) : Out :=
  match b with
  | BodyHealth _ _ => OutHealth | BodyList _ => OutList | BodyService _ => OutService | BodyInspect _ => OutInspect
  | BodyRegister _ => OutRegister | BodyHeartbeat _ => OutHeartbeat | BodyEmpty | BodyError _ => OutNone
  end.

(** ** Documents *)

Lemma good_optional {A} k (o : option A) (f : A → fields) :
  (∀ x, o = Some x → good_fields k (f x)) → good_fields k (match o with Some x => f x | None => [] end).
Proof. intros H. destruct o; [by apply H|constructor]. Qed.

Lemma good_time k name t : valid_utf8 name = true → good_fields k (str_field name (format_rfc3339 t)).
Proof. apply good_str. Qed.

#[export] Hint Resolve good_optional good_time : wire.

Ltac good_doc := repeat (apply good_obj || apply good_app); auto with wire.

Lemma good_service k x : good (S (S k)) (service_json x).
Proof. unfold service_json. good_doc. Qed.

Lemma good_inspect k x : good (S (S k)) (inspect_json x).
Proof. unfold inspect_json. good_doc. Qed.

Lemma good_response k r : good (S (S k)) (response_json r).
Proof. unfold response_json. good_doc. Qed.

#[export] Hint Resolve good_service good_inspect good_response : wire.

Lemma good_body version message b v : body_json version message b = Some v → good 4 v.
Proof.
  destruct b; cbn [body_json]; intros E; try discriminate E; apply (inj Some) in E as <-; auto with wire; good_doc.
  apply good_field; [done|]. apply good_arr, Forall_fmap, Forall_forall. auto with wire.
Qed.

(** ** Reading what was written *)

Ltac reply_proj :=
  cbn [store_struct fst snd sd_Name sd_Kind sd_AppProtocol sd_Status sd_Frontend
       id_Name id_Kind id_AppProtocol id_Status id_Frontend id_Backend id_Source id_OwnerKey id_ProducerID
       id_DockerContainerID id_Hostname
       rp_RegistrationID rp_LeaseToken rp_Name rp_Frontend rp_ExpiresAt rp_TTLSeconds] in *.

Ltac reply_field tac := etransitivity; [apply store_then; find_field; reply_proj; tac; reflexivity|].
Ltac next_reply := next_field; reply_proj.

Lemma store_service x : safe_service x → store_struct false service_table (service_json x) no_service = Some x.
Proof.
  intros Hp. destruct x as [n k ap st f]. unfold safe_service, safe_frontend in Hp. unfold service_json, service_table, no_service. reply_proj.
  do 4 next_reply. find_field. by rewrite store_frontend.
Qed.

Lemma store_inspect x : safe_inspect x → store_struct false inspect_table (inspect_json x) no_inspect = Some x.
Proof.
  intros [Hp Hb]. destruct x as [n k ap st f b src ow pr dc hn]. unfold inspect_json, inspect_table, no_inspect.
  reply_proj. do 4 next_reply. reply_field ltac:(rewrite store_frontend by done).
  etransitivity; [eapply (store_then _ _ (match b with Some b => _ | None => _ end) _ _
    (mkInspectDTO n k ap st f b "" "" "" "" ""))|].
  { destruct b as [b|]; [|done]. pose proof (Hb b eq_refl). find_field. reply_proj. cbn [store_backend_ptr backend_json].
    fold (backend_json b). rewrite store_backend by done. done. }
  do 4 next_reply. rewrite <-(app_nil_r (opt_str _ _)). next_reply. done.
Qed.

Lemma store_written_time old t : safe_time t → store_time old (JStr (bytes (format_rfc3339 t))) = Some (Some (rfc3339 t)).
Proof. intros Ht. cbn [store_time]. by rewrite str_bytes, parse_format_rfc3339. Qed.

Lemma store_response r : safe_response r →
  store_struct false response_table (response_json r) no_response =
  Some (mkRegisterResponse (rp_RegistrationID r) (rp_LeaseToken r) (rp_Name r) (rp_Frontend r)
          (rfc3339 <$> rp_ExpiresAt r) (rp_TTLSeconds r)).
Proof.
  intros [Hp Ht Hn]. destruct r as [id tok n f t ttl]. unfold response_json, response_table, no_response.
  reply_proj. do 3 next_reply. reply_field ltac:(rewrite store_frontend by done).
  etransitivity; [eapply (store_then _ _ (match t with Some t => _ | None => _ end) _ _
    (mkRegisterResponse id tok n f (rfc3339 <$> t) 0))|].
  { destruct t as [t|]; [|done]. find_field. rewrite store_written_time by by apply Ht. done. }
  rewrite <-(app_nil_r (opt_int _ _)). next_reply. done.
Qed.

Lemma store_services_written old l : Forall safe_service l → store_services old (JArr (service_json <$> l)) = Some l.
Proof.
  intros Hl. cbn [store_services]. induction Hl as [|x l Hx _ IH]; [done|].
  rewrite fmap_cons. cbn [mapM]. by rewrite store_service, IH.
Qed.

Lemma store_health status version docker :
  store_struct false health_table
    (JObj (str_field "status" status ++ str_field "version" version ++ str_field "docker" docker)) ("", "") =
  Some (status, docker).
Proof. cbn [store_struct]. unfold health_table. do 2 next_reply. find_field. done. Qed.

Lemma store_error code message :
  store_struct false error_body_table (JObj (str_field "code" code ++ str_field "message" message)) ("", "") =
  Some (code, message).
Proof. cbn [store_struct]. unfold error_body_table. next_reply. find_field. done. Qed.

(** Every body of a 2xx reply. *)
Lemma read_body_written version message b v : safe_body b → out_of b ≠ OutNone →
  body_json version message b = Some v → read_body (out_of b) v = Some (whole_seconds b).
Proof.
  intros Hb Ho. destruct b as [st dk|l|x|x|r|t| |code]; cbn [body_json safe_body out_of] in *; try done;
    intros E; apply (inj Some) in E as <-; cbn [read_body whole_seconds].
  - by rewrite store_health.
  - cbn [store_struct]. unfold list_table. find_field. by rewrite store_services_written.
  - by rewrite store_service.
  - by rewrite store_inspect.
  - by rewrite store_response.
  - cbn [store_struct]. unfold heartbeat_table. find_field. by rewrite store_written_time.
Qed.

(** The code of an error's envelope. *)
Lemma read_error version message code v : body_json version message (BodyError code) = Some v →
  store_struct false envelope_table v ("", "") = Some (code, message).
Proof.
  intros E. apply (inj Some) in E as <-. cbn [store_struct]. unfold envelope_table. find_field.
  by rewrite store_error.
Qed.

Lemma clean_body_safe b : safe_body b → safe_body (clean_body b).
Proof.
  destruct b as [st dk|l|x|x|r|t| |code]; cbn [safe_body clean_body]; try done.
  - intros Hl. apply Forall_fmap. eapply Forall_impl; [exact Hl|]. done.
  - intros [Hp Hb]. split; [exact Hp|]. cbn. intros b. destruct (id_Backend x) as [b'|]; [|done].
    intros [= <-]. exact (Hb b' eq_refl).
  - intros [Hp Ht Hn]. split; [exact Hp|exact Ht|exact Hn].
Qed.

Lemma clean_body_out b : out_of (clean_body b) = out_of b.
Proof. by destruct b. Qed.

Section Replies.
Context `{JSON} `{Unicode} `{MapRange}.
Variables version message : string.

(** What the daemon writes is parsed as what arrives of it. *)
Lemma parse_body b v : body_json (clean_str version) (clean_str message) (clean_body b) = Some v →
  parse_json (body_text version message b) = Some v ∧ body_text version message b ≠ [].
Proof.
  rewrite <-clean_body_json. destruct (body_json version message b) as [w|] eqn:E; [|done]. intros [= <-].
  unfold body_text. rewrite E. split; [|intros [_ ?]%app_nil; discriminate].
  apply (parse_document 4); [by apply (good_body version message b)|lia].
Qed.

(** A reply as bytes, and as it arrives. *)
Definition reply_text (r : Response) : Z * text := (r.1, body_text version message r.2).
Definition clean_reply (r : Response) : Response := (r.1, clean_body r.2).

(** What the client makes of the bytes is what it makes of the values that
    arrive, the times in whole seconds. *)
Lemma do_text_written status b :
  (200 ≤ status < 300)%Z → safe_body b → out_of b ≠ OutNone →
  do_text (out_of b) (Some (reply_text (status, b))) = do_request (Some (status, whole_seconds (clean_body b))).
Proof.
  intros Hs Hb Ho. unfold do_text, do_request, reply_text. cbn [fst snd].
  rewrite !decide_False by lia. rewrite <-clean_body_out in Ho |- *.
  assert (∃ v, body_json (clean_str version) (clean_str message) (clean_body b) = Some v) as [v Hv]
    by (destruct b; try done; by eexists).
  destruct (parse_body b v Hv) as [-> Hne]. rewrite decide_True by done. cbn [mbind option_bind].
  rewrite (read_body_written _ _ (clean_body b) v (clean_body_safe b Hb) Ho Hv). by rewrite decide_False by lia.
Qed.

Lemma do_text_error out status code :
  (status < 200 ∨ 300 ≤ status)%Z →
  do_text out (Some (reply_text (status, BodyError code))) = do_request (Some (clean_reply (status, BodyError code))).
Proof.
  intros Hs. unfold do_text, do_request, clean_reply, reply_text. cbn [fst snd]. rewrite !decide_True by done.
  destruct (parse_body (BodyError code) _ eq_refl) as [Hp _]. unfold decodeErrorText. rewrite Hp.
  cbn [mbind option_bind]. rewrite (read_error (clean_str version) (clean_str message) (clean_str code) _ eq_refl).
  cbn [clean_body decodeError]. by repeat case_decide.
Qed.

(** ** The API over the wire *)

(** [register] and the heartbeat of the loop, given the bytes of the reply. *)
Definition register_text (h : Handle) (reply : option (Z * text)) : Handle * option ClientError :=
  match do_text OutRegister reply with
  | Err e => (h, Some e)
  | Ok b => (adopt h (register_response b), None)
  end.

Definition heartbeat_verdict_text (h : Handle) (reply : option (Z * text)) : verdict :=
  match do_text OutHeartbeat reply with
  | Ok b => Renewed (match b with BodyHeartbeat exp => set_expires (rfc3339 exp) h | _ => h end)
  | Err (ErrAPI status _) => if decide (status = 404%Z) then Forgotten else Failed
  | Err ErrUnreachable => Failed
  end.

Lemma rfc3339_idemp t : rfc3339 (rfc3339 t) = rfc3339 t.
Proof. unfold rfc3339. by rewrite Z.div_mul. Qed.

Lemma adopt_whole_seconds h r : adopt h (register_response (whole_seconds (BodyRegister r))) = adopt h r.
Proof. destruct r as [? ? ? ? [t|] ?]; [|done]. cbn. unfold adopt. cbn. by rewrite rfc3339_idemp. Qed.

Lemma writeError_status code : ((writeError code).1 < 200 ∨ 300 ≤ (writeError code).1)%Z.
Proof. unfold writeError, statusForCode. simpl. right. repeat case_decide; lia. Qed.

Lemma do_text_writeError out code :
  do_text out (Some (reply_text (writeError code))) = do_request (Some (clean_reply (writeError code))).
Proof. apply do_text_error, writeError_status. Qed.

Lemma register_over_wire h r : safe_body r.2 →
  (∃ x, r = (201%Z, BodyRegister x)) ∨ (∃ code, r = writeError code) →
  register_text h (Some (reply_text r)) = register h (Some (clean_reply r)).
Proof.
  intros Hb [[x ->]|[code ->]]; unfold register_text, register.
  - change OutRegister with (out_of (BodyRegister x)). rewrite do_text_written by done.
    unfold clean_reply. rewrite !do_request_ok by (cbn [fst]; lia). cbn [snd clean_body].
    by rewrite adopt_whole_seconds.
  - by rewrite do_text_writeError.
Qed.

Lemma heartbeat_over_wire h r : safe_body r.2 →
  (∃ t, r = (200%Z, BodyHeartbeat t)) ∨ (∃ code, r = writeError code) →
  heartbeat_verdict_text h (Some (reply_text r)) = heartbeat_verdict h (Some (clean_reply r)).
Proof.
  intros Hb [[t ->]|[code ->]]; unfold heartbeat_verdict_text, heartbeat_verdict.
  - change OutHeartbeat with (out_of (BodyHeartbeat t)). rewrite do_text_written by done.
    unfold clean_reply. rewrite !do_request_ok by (cbn [fst]; lia). cbn [whole_seconds snd clean_body].
    by rewrite rfc3339_idemp.
  - by rewrite do_text_writeError.
Qed.

Lemma handleRegister_reply d req env :
  (∃ x, (handleRegister d req env).2 = (201%Z, BodyRegister x)) ∨
  (∃ code, (handleRegister d req env).2 = writeError code).
Proof.
  unfold handleRegister. destruct req as [q|]; [|by eauto]. case_decide; [by eauto|].
  destruct (Register _ _ _) as [d1 [res|e]]; [left|right]; by eexists.
Qed.

Lemma handleHeartbeat_reply now d id auth :
  (∃ t, (handleHeartbeat now d id auth).2 = (200%Z, BodyHeartbeat t)) ∨
  (∃ code, (handleHeartbeat now d id auth).2 = writeError code).
Proof. unfold handleHeartbeat. destruct (Heartbeat _ _ _ _) as [d1 [exp|e]]; [left|right]; by eexists. Qed.

(** C22: Nothing gets lost between client and daemon: handling the bytes of the client's
    registration request, if they are at most the 1 MiB that the handler reads, is handling the
    request itself, and what the client makes of the bytes of any reply (a registration, a
    heartbeat, a health check, a list, a resolution, an inspection or an error) is what it would
    make of the reply itself, whatever bytes its strings hold: a string of valid UTF-8 arrives
    as it is, and in any other one the replacement character stands for each byte that is not
    part of a rune. Times arrive in whole seconds. *)
Theorem api_over_the_wire d h env now name :
  safe_request (h_baseReq h) → (N.of_nat (length (request_text (h_baseReq h))) ≤ body_limit)%N →
  let registration := serve_registration d env (request_text (h_baseReq h)) in
  registration = handleRegister d (Some (clean_request (h_baseReq h))) env ∧
  (safe_body registration.2.2 →
   register_text h (Some (reply_text registration.2)) = register h (Some (clean_reply registration.2))) ∧
  (let beat := (post_heartbeat now h d).2 in
   safe_body beat.2 →
   heartbeat_verdict_text h (Some (reply_text beat)) = heartbeat_verdict h (Some (clean_reply beat))) ∧
  Forall (λ '(out, r), safe_body r.2 → do_text out (Some (reply_text r)) = do_request (Some (clean_reply r)))
    [(OutHealth, handleHealth d); (OutList, handleList d); (OutService, handleResolve d name);
     (OutInspect, handleInspect d name)] ∧
  (∀ s, valid_utf8 s = true → clean_str s = s).
Proof.
  intros Hq Hl registration.
  assert (registration = handleRegister d (Some (clean_request (h_baseReq h))) env) as Er
    by (unfold registration, serve_registration; by rewrite decode_request).
  split_and!; [done| | | |exact clean_str_valid].
  - intros Hb. apply register_over_wire; [done|]. rewrite Er. apply handleRegister_reply.
  - intros beat Hb. apply heartbeat_over_wire; [done|]. apply handleHeartbeat_reply.
  - repeat constructor; intros Hb.
    + by apply (do_text_written 200 (BodyHealth _ _)).
    + by apply (do_text_written 200 (BodyList _)).
    + unfold handleResolve in *. destruct (ResolveService d name) as [info|e]; [|by apply do_text_writeError].
      by apply (do_text_written 200 (BodyService _)).
    + unfold handleInspect in *. destruct (Inspect d name) as [info|e]; [|by apply do_text_writeError].
      by apply (do_text_written 200 (BodyInspect _)).
Qed.
End Replies.
