(* ===== verification/Mux.v ===== *)
(** * internal/api/server.go: the routes

    [routes] and the dispatch of [http.ServeMux] over them.  A request carries
    the path after URL decoding, its [Authorization] header and its decoded
    body.  The theorem shows that the paths the clients build from identifiers
    and service names reach the handlers they are meant for. *)

From S2P Require Import Prelude GoStrings GoNet GoPath GoRegexp Id Registry Lease State Runtime Router Config Daemon DaemonInv DaemonSpec DaemonSystem Api Client.
From Stdlib Require Import Ascii.
Local Open Scope Z_scope.

(** ** Patterns *)

Inductive segment := Lit (s : string) | Wild.

Inductive route :=
| RouteHealth
| RouteList
| RouteResolve
| RouteInspect
| RouteRegister
| RouteHeartbeat
| RouteDelete.

#[global] Instance route_eq_dec : EqDecision route.
Proof. solve_decision. Defined.

Definition routes : list (string * list segment * route) :=
  [("GET", [Lit "v1"; Lit "health"], RouteHealth);
   ("GET", [Lit "v1"; Lit "services"], RouteList);
   ("GET", [Lit "v1"; Lit "services"; Wild], RouteResolve);
   ("GET", [Lit "v1"; Lit "services"; Wild; Lit "inspect"], RouteInspect);
   ("POST", [Lit "v1"; Lit "registrations"], RouteRegister);
   ("POST", [Lit "v1"; Lit "registrations"; Wild; Lit "heartbeat"], RouteHeartbeat);
   ("DELETE", [Lit "v1"; Lit "registrations"; Wild], RouteDelete)].

(** A wildcard takes one segment, which is not empty. *)
Fixpoint match_segments (pat : list segment) (segs : list (list ascii)) : option (list string) :=
  match pat, segs with
  | [], [] => Some []
  | Lit s :: pat, t :: segs => if decide (bytes s = t) then match_segments pat segs else None
  | Wild :: pat, t :: segs =>
    if decide (t = []) then None
    else match match_segments pat segs with Some vs => Some (str t :: vs) | None => None end
  | _, _ => None
  end.

(** A [GET] pattern also serves [HEAD]. *)
Definition method_matches (pattern method : string) : bool :=
  bool_decide (pattern = method) || (bool_decide (pattern = "GET") && bool_decide (method = "HEAD")).

Inductive dispatch :=
| Dispatch (r : route) (values : list string)
| Redirect
| NotFound
| MethodNotAllowed.

Definition candidates (segs : list (list ascii)) : list (string * route * list string) :=
  omap (λ e, match match_segments e.1.2 segs with Some vs => Some (e.1.1, e.2, vs) | None => None end) routes.

(** [cleanPath] keeps a slash at the end. *)
Definition cleanPath (p : string) : string :=
  let np := Clean p in
  if decide (last (bytes p) = Some "/"%char ∧ np ≠ "/") then np +:+ "/" else np.

Definition mux (method path : string) : dispatch :=
  if decide (cleanPath path ≠ path) then Redirect
  else
    let found := candidates (tail (split_path (bytes path))) in
    match filter (λ c, method_matches c.1.1 method = true) found with
    | (_, r, vs) :: _ => Dispatch r vs
    | [] => match found with [] => NotFound | _ => MethodNotAllowed end
    end.

(** ** The server *)

Record Request := mkRequest {
  hr_method : string;
  hr_path : string;
  hr_authorization : string;
  hr_body : option RegisterRequest
}.

Section Server.
Context `{JSON} `{Unicode} `{MapRange}.

(** The whole API on one request.  The mux's own answers are plain text, which
    has no error envelope. *)
Definition serve_api (d : Daemon) (now : Z) (env : Env) (r : Request) : Daemon * Response :=
  match mux (hr_method r) (hr_path r) with
  | Dispatch RouteHealth _ => (d, handleHealth d)
  | Dispatch RouteList _ => (d, handleList d)
  | Dispatch RouteResolve vs => (d, handleResolve d (default "" (head vs)))
  | Dispatch RouteInspect vs => (d, handleInspect d (default "" (head vs)))
  | Dispatch RouteRegister _ => handleRegister d (hr_body r) env
  | Dispatch RouteHeartbeat vs => handleHeartbeat now d (default "" (head vs)) (hr_authorization r)
  | Dispatch RouteDelete vs => handleDelete now d (default "" (head vs)) (hr_authorization r)
  | Redirect => (d, (301, BodyEmpty))
  | NotFound => (d, (404, BodyEmpty))
  | MethodNotAllowed => (d, (405, BodyEmpty))
  end.

(** ** Segments that go into a path as they are *)

Definition path_char (c : ascii) : bool :=
  id_char c || is_lower c || bool_decide (c = "-"%char) || bool_decide (c = "."%char).

Definition safe_segment (s : string) : Prop :=
  Forall (λ c, path_char c = true) (bytes s) ∧
  match bytes s with c :: _ => c ≠ "."%char | [] => False end.

Lemma safe_plain s : safe_segment s → plain (bytes s).
Proof.
  intros [Hc Hh]. unfold plain. destruct (bytes s) as [|c l]; [done|]. split_and!; [done|congruence|..].
  - unfold dotdot. congruence.
  - intros Hin. rewrite Forall_forall in Hc. by apply Hc in Hin.
Qed.

Lemma newID_safe t buf : 0 ≤ t < 2 ^ 63 → length buf = 10%nat → safe_segment (newID t buf).
Proof.
  intros Ht Hl. destruct (newID_chars t buf Ht Hl) as [Hne Hc]. unfold safe_segment.
  destruct (bytes (newID t buf)) as [|c l] eqn:E; [by apply bytes_nil in E|]. split.
  - eapply Forall_impl; [exact Hc|]. intros a Ha. unfold path_char. by rewrite Ha.
  - apply Forall_cons in Hc as [Hc _]. by intros ->.
Qed.

Lemma name_tail_path c : name_tail c = true → path_char c = true.
Proof. unfold name_tail, name_head, path_char, id_char. by destruct (is_lower c), (is_digit c), (is_upper c), (bool_decide (c = "-"%char)). Qed.

Lemma valid_label_path w : valid_label w → Forall (λ c, path_char c = true) w.
Proof.
  destruct w as [|c w]; [done|]. intros [Hc Hw]. constructor.
  - apply name_tail_path. unfold name_tail. by rewrite Hc.
  - apply (Forall_impl _ _ _ Hw). apply name_tail_path.
Qed.

Lemma ValidateName_safe name : ValidateName name = None → safe_segment name.
Proof.
  unfold ValidateName, MatchString. repeat (case_decide; [done|]).
  destruct (match_list nameRe (bytes name)) eqn:E; [|done]. intros _.
  apply match_list_spec, nameRe_spec in E. unfold safe_segment.
  destruct (split_on_join "." (bytes name)) as (w & ws & Es & Eb). rewrite Es in E.
  apply Forall_cons in E as [Hw Hws]. rewrite Eb. split.
  - apply Forall_app. split; [by apply valid_label_path|].
    clear Es Eb. induction Hws as [|v ws Hv _ IH]; simpl; [done|].
    constructor; [done|]. apply Forall_app. split; [by apply valid_label_path|done].
  - destruct w as [|c w]; [done|]. destruct Hw as [Hc _]. simpl. by intros ->.
Qed.

(** ** Dispatch *)

Lemma mux_path method segs : segs ≠ [] → Forall plain segs →
  mux method (abs_path segs) =
    match filter (λ c, method_matches c.1.1 method = true) (candidates segs) with
    | (_, r, vs) :: _ => Dispatch r vs
    | [] => match candidates segs with [] => NotFound | _ => MethodNotAllowed end
    end.
Proof.
  intros Hne Hs. unfold mux.
  assert (cleanPath (abs_path segs) = abs_path segs) as Ec.
  { unfold cleanPath. rewrite Clean_abs by done. rewrite decide_False; [done|]. intros [Hl _].
    unfold abs_path in Hl. rewrite bytes_str in Hl.
    destruct (exists_last Hne) as (segs' & s & ->). apply Forall_app in Hs as [_ [(Hs & _ & _ & Hsl) _]%Forall_cons].
    assert (last (join_path (segs' ++ [s])) = last s) as El.
    { destruct segs' as [|s' segs']; [done|]. rewrite join_path_app by done.
      rewrite last_app. cbn [join_path]. rewrite last_cons. by destruct (last s) eqn:El; [|apply last_None in El]. }
    rewrite last_cons, El in Hl. destruct (last s) as [c|] eqn:E; [|by apply last_None in E].
    simplify_eq. apply last_Some in E as [? ->]. set_solver. }
  rewrite decide_False by (rewrite Ec; tauto).
  unfold abs_path. rewrite bytes_str. change (split_path ("/"%char :: join_path segs)) with ([] :: split_path (join_path segs)).
  cbn [tail]. by rewrite split_join by (done || by apply plain_no_slash).
Qed.

(** The requests of the clients, as they put them on the wire. *)
Definition register_request (h : Handle) : Request :=
  mkRequest "POST" "/v1/registrations" "" (Some (h_baseReq h)).

Definition heartbeat_request (h : Handle) : Request :=
  mkRequest "POST" ("/v1/registrations/" +:+ (h_regID h +:+ "/heartbeat")) (authorization (h_token h)) None.

Definition delete_request (h : Handle) : Request :=
  mkRequest "DELETE" ("/v1/registrations/" +:+ h_regID h) (authorization (h_token h)) None.

Definition resolve_request (name : string) : Request :=
  mkRequest "GET" ("/v1/services/" +:+ name) "" None.

Definition inspect_request (name : string) : Request :=
  mkRequest "GET" ("/v1/services/" +:+ (name +:+ "/inspect")) "" None.

Lemma safe_nonempty s : safe_segment s → s ≠ "".
Proof. by intros [_ Hh] ->. Qed.

Lemma plain_lits (l : list string) : Forall (λ s, plain (bytes s)) l → Forall plain (bytes <$> l).
Proof. by rewrite Forall_fmap. Qed.

Ltac solve_plain Hp :=
  repeat constructor; solve [exact Hp | by vm_compute | by apply Hp | by vm_compute; set_solver].

(** A path of literals and one safe segment, and where it leads. *)
Lemma mux_segments method l : l ≠ [] → Forall (λ s, plain (bytes s)) l →
  mux method (abs_path (bytes <$> l)) =
    match filter (λ c, method_matches c.1.1 method = true) (candidates (bytes <$> l)) with
    | (_, r, vs) :: _ => Dispatch r vs
    | [] => match candidates (bytes <$> l) with [] => NotFound | _ => MethodNotAllowed end
    end.
Proof. intros Hne Hl. apply mux_path; [by destruct l|by apply plain_lits]. Qed.

Lemma mux_registration id : safe_segment id →
  mux "DELETE" ("/v1/registrations/" +:+ id) = Dispatch RouteDelete [id] ∧
  mux "POST" ("/v1/registrations/" +:+ (id +:+ "/heartbeat")) = Dispatch RouteHeartbeat [id].
Proof.
  intros Hs. pose proof (safe_plain id Hs) as Hp. pose proof (safe_nonempty id Hs) as Hne.
  assert ("/v1/registrations/" +:+ id = abs_path (bytes <$> ["v1"; "registrations"; id])) as ->.
  { apply bytes_inj. unfold abs_path. by rewrite bytes_str, bytes_app. }
  assert ("/v1/registrations/" +:+ (id +:+ "/heartbeat")
          = abs_path (bytes <$> ["v1"; "registrations"; id; "heartbeat"])) as ->.
  { apply bytes_inj. unfold abs_path. by rewrite bytes_str, !bytes_app. }
  rewrite !mux_segments by (done || solve_plain Hp).
  assert (candidates (bytes <$> ["v1"; "registrations"; id]) = [("DELETE", RouteDelete, [str (bytes id)])]) as ->
    by (by destruct id).
  assert (candidates (bytes <$> ["v1"; "registrations"; id; "heartbeat"])
          = [("POST", RouteHeartbeat, [str (bytes id)])]) as -> by (by destruct id).
  by rewrite str_bytes.
Qed.

Lemma mux_service name : safe_segment name →
  mux "GET" ("/v1/services/" +:+ name) = Dispatch RouteResolve [name] ∧
  mux "GET" ("/v1/services/" +:+ (name +:+ "/inspect")) = Dispatch RouteInspect [name].
Proof.
  intros Hs. pose proof (safe_plain name Hs) as Hp. pose proof (safe_nonempty name Hs) as Hne.
  assert ("/v1/services/" +:+ name = abs_path (bytes <$> ["v1"; "services"; name])) as ->.
  { apply bytes_inj. unfold abs_path. by rewrite bytes_str, bytes_app. }
  assert ("/v1/services/" +:+ (name +:+ "/inspect")
          = abs_path (bytes <$> ["v1"; "services"; name; "inspect"])) as ->.
  { apply bytes_inj. unfold abs_path. by rewrite bytes_str, !bytes_app. }
  rewrite !mux_segments by (done || solve_plain Hp).
  assert (candidates (bytes <$> ["v1"; "services"; name]) = [("GET", RouteResolve, [str (bytes name)])]) as ->
    by (by destruct name).
  assert (candidates (bytes <$> ["v1"; "services"; name; "inspect"])
          = [("GET", RouteInspect, [str (bytes name)])]) as -> by (by destruct name).
  by rewrite str_bytes.
Qed.

(** C21: The URLs the clients build reach the handlers they are meant for: registration,
    heartbeat and deletion with the ID the daemon generated, resolution and inspection with any
    valid service name, each with exactly that ID or name as its path value. *)
Theorem requests_reach_their_handler d now env h name t buf :
  0 ≤ t < 2 ^ 63 → length buf = 10%nat → h_regID h = newID t buf → ValidateName name = None →
  serve_api d now env (register_request h) = post_registration h env d ∧
  serve_api d now env (heartbeat_request h) = post_heartbeat now h d ∧
  serve_api d now env (delete_request h) = delete_registration now h d ∧
  serve_api d now env (resolve_request name) = (d, handleResolve d name) ∧
  serve_api d now env (inspect_request name) = (d, handleInspect d name).
Proof.
  intros Ht Hl Hid Hname.
  destruct (mux_registration (h_regID h)) as [Hdel Hbeat]; [rewrite Hid; by apply newID_safe|].
  destruct (mux_service name) as [Hres Hins]; [by apply ValidateName_safe|].
  unfold serve_api. cbn [hr_method hr_path hr_authorization hr_body register_request heartbeat_request
    delete_request resolve_request inspect_request].
  by rewrite Hdel, Hbeat, Hres, Hins.
Qed.

End Server.
