(* ===== verification/Transport.v ===== *)
(** * internal/transport: the daemon's Unix socket

    [Listen] and [RemoveSocket] of [unix.go], and the order in which [Run] of
    [cmd/devmeshd/cmds/serve.go] uses them.  Daemons that are started and
    stopped on one socket path are processes that take one system call at a
    time on what the path names; each call can also fail for reasons of its
    own. *)

From S2P Require Import Prelude.
Local Open Scope nat_scope.

(** ** The path and the processes *)

(** What the socket path names: nothing, the socket some process has bound
    (that process may be gone: a stale socket), or something else. *)
Inductive node :=
| Absent
| Socket (owner : nat) (private : bool)
| Foreign.

#[global] Instance node_eq_dec : EqDecision node.
Proof. solve_decision. Defined.

Inductive ListenError :=
| ErrMkdir
| ErrLstat
| ErrNotASocket
| ErrAlreadyListening
| ErrRemove
| ErrListen
| ErrChmod.

#[global] Instance ListenError_eq_dec : EqDecision ListenError.
Proof. solve_decision. Defined.

(** How far a process has come: the calls of [Listen], then serving; then
    [httpSrv.Shutdown], which closes the listener, and the deferred
    [RemoveSocket]. *)
Inductive proc :=
| AtMkdir
| AtLstat
| AtDial
| AtRemove
| AtListen
| AtChmod
| Serving
| AtRemoveSocket
| Exited
| Failed (e : ListenError).

#[global] Instance proc_eq_dec : EqDecision proc.
Proof. solve_decision. Defined.

Record Sock := mkSock {
  sk_node : node;
  sk_listening : gset nat;
  sk_procs : gmap nat proc
}.

Definition goto (p : nat) (pc : proc) (s : Sock) : Sock :=
  mkSock (sk_node s) (sk_listening s) (<[p := pc]> (sk_procs s)).

Definition set_node (n : node) (s : Sock) : Sock := mkSock n (sk_listening s) (sk_procs s).

(** [net.DialTimeout] gets through to a socket whose owner listens, unless the
    call fails: the process is out of file descriptors, the owner's backlog is
    full, half a second passes. *)
Definition dial_ok (s : Sock) : bool :=
  match sk_node s with
  | Socket o _ => bool_decide (o ∈ sk_listening s)
  | _ => false
  end.

(** [ln.Close] of a Unix listener also unlinks its path, whatever that names. *)
Definition close_listener (p : nat) (s : Sock) : Sock :=
  mkSock Absent (sk_listening s ∖ {[p]}) (sk_procs s).

(** [RemoveSocket]. *)
Definition RemoveSocket (s : Sock) : Sock := set_node Absent s.

(** The next system call of a process [p] that has come to [pc]; [fault] makes
    a call fail that may. *)
Definition call (p : nat) (pc : proc) (fault : bool) (s : Sock) : Sock :=
  match pc with
  | AtMkdir => goto p (if fault then Failed ErrMkdir else AtLstat) s
  | AtLstat =>
    if fault then goto p (Failed ErrLstat) s
    else match sk_node s with
         | Absent => goto p AtListen s
         | Foreign => goto p (Failed ErrNotASocket) s
         | Socket _ _ => goto p AtDial s
         end
  | AtDial =>
    if dial_ok s && negb fault then goto p (Failed ErrAlreadyListening) s else goto p AtRemove s
  | AtRemove =>
    if fault then goto p (Failed ErrRemove) s
    else if decide (sk_node s = Absent) then goto p (Failed ErrRemove) s
    else goto p AtListen (set_node Absent s)
  | AtListen =>
    if fault then goto p (Failed ErrListen) s
    else if decide (sk_node s = Absent)
    then goto p AtChmod (mkSock (Socket p false) ({[p]} ∪ sk_listening s) (sk_procs s))
    else goto p (Failed ErrListen) s
  | AtChmod =>
    if fault then goto p (Failed ErrChmod) (close_listener p s)
    else match sk_node s with
         | Absent => goto p (Failed ErrChmod) (close_listener p s)
         | Socket o _ => goto p Serving (set_node (Socket o true) s)
         | Foreign => goto p Serving s
         end
  | Serving => goto p AtRemoveSocket (close_listener p s)
  | AtRemoveSocket => goto p Exited (RemoveSocket s)
  | Exited | Failed _ => s
  end.

Definition sock_step (p : nat) (fault : bool) (s : Sock) : Sock :=
  match sk_procs s !! p with Some pc => call p pc fault s | None => s end.

(** A schedule: who makes the next call, and whether it fails. *)
Definition sock_run (sched : list (nat * bool)) (s : Sock) : Sock :=
  foldl (λ s pf, sock_step pf.1 pf.2 s) s sched.

(** Clients that dial the path get through to [p]. *)
Definition reachable_at (p : nat) (s : Sock) : Prop :=
  ∃ m, sk_node s = Socket p m ∧ p ∈ sk_listening s.

(** [Listen] by [p] with nobody else in between, until it returns; it makes at
    most six calls, whose failures are [faults]. *)
Fixpoint listen_calls (p : nat) (faults : list bool) (s : Sock) : Sock :=
  match faults with
  | [] => s
  | f :: faults =>
    match sk_procs s !! p with
    | Some Serving | Some (Failed _) => s
    | _ => listen_calls p faults (sock_step p f s)
    end
  end.

Definition Listen (p : nat) (f1 f2 f3 f4 f5 f6 : bool) (s : Sock) : Sock :=
  listen_calls p [f1; f2; f3; f4; f5; f6] (goto p AtMkdir s).

(** ** What a daemon that starts alone does *)

Lemma goto_lookup p pc s : sk_procs (goto p pc s) !! p = Some pc.
Proof. apply lookup_insert_eq. Qed.

Lemma goto_goto p pc pc' s : goto p pc' (goto p pc s) = goto p pc' s.
Proof. unfold goto. simpl. by rewrite insert_insert_eq. Qed.

Lemma call_goto p pc pc' f s : (∀ e, pc ≠ Failed e) → pc ≠ Exited → call p pc f (goto p pc' s) = call p pc f s.
Proof.
  intros Hf He. destruct pc; simpl; unfold dial_ok, set_node, close_listener, RemoveSocket; simpl;
    repeat (case_match || case_decide); try done; try (unfold goto; simpl; by rewrite insert_insert_eq).
  by destruct (Hf e).
Qed.

Lemma listen_calls_call p pc f fs s : (∀ e, pc ≠ Failed e) → pc ≠ Exited → pc ≠ Serving →
  listen_calls p (f :: fs) (goto p pc s) = listen_calls p fs (call p pc f s).
Proof.
  intros Hf He Hs. cbn [listen_calls]. unfold sock_step. rewrite goto_lookup, call_goto by done.
  destruct pc; try done. by destruct (Hf e).
Qed.

Lemma listen_calls_done p pc fs s : pc = Serving ∨ (∃ e, pc = Failed e) →
  listen_calls p fs (goto p pc s) = goto p pc s.
Proof. intros Hpc. destruct fs; [done|]. cbn [listen_calls]. rewrite goto_lookup. by destruct Hpc as [->|[e ->]]. Qed.

(** Evaluate a run of [Listen]. *)
Ltac listen_eval :=
  repeat first
    [ rewrite listen_calls_done by eauto
    | rewrite listen_calls_call by done; cbn [call]
    | case_match; simplify_eq
    | case_decide; simplify_eq/= ].

(** What [Listen] returns in each case. *)
Lemma Listen_cases p f1 f2 f3 f4 f5 f6 s :
  let s' := Listen p f1 f2 f3 f4 f5 f6 s in
  (∃ e, sk_procs s' !! p = Some (Failed e) ∧ (sk_node s = Foreign ∨ (dial_ok s = true ∧ f3 = false) → sk_node s' = sk_node s) ∧
     (p ∉ sk_listening s → sk_listening s' = sk_listening s)) ∨
  (sk_procs s' !! p = Some Serving ∧ sk_node s ≠ Foreign ∧ (dial_ok s = false ∨ f3 = true) ∧
     sk_node s' = Socket p true ∧ sk_listening s' = {[p]} ∪ sk_listening s).
Proof.
  unfold Listen. cbv zeta.
  destruct (dial_ok s && negb f3) eqn:Ed.
  - apply andb_true_iff in Ed as [Ed E3%negb_true_iff]. subst f3.
    listen_eval; simpl; rewrite lookup_insert_eq;
      first [ left; eexists; by split_and!
            | exfalso; unfold dial_ok in *; destruct (sk_node s); simplify_eq; congruence
            | exfalso; match goal with E : dial_ok s && _ = false |- _ => by rewrite Ed in E end ].
  - assert (dial_ok s = false ∨ f3 = true) as Hd by (destruct (dial_ok s), f3; auto).
    assert (¬ (dial_ok s = true ∧ f3 = false)) as Hd' by (intros [E1 E2]; by rewrite E1, E2 in Ed).
    revert Ed Hd Hd'. listen_eval; simpl; intros Ed Hd Hd'; rewrite lookup_insert_eq;
      first [ done | right; by split_and! | left; eexists; split_and!; [done|intros [?|?]; done || congruence|intros Hnl; try done; clear -Hnl; set_solver] ].
Qed.

(** A daemon that clients get through to answers a dial that does not fail. *)
Lemma reachable_dial o s : reachable_at o s ↔ dial_ok s = true ∧ ∃ m, sk_node s = Socket o m.
Proof.
  unfold reachable_at, dial_ok. split.
  - intros (m & Hn & Hin). rewrite Hn, bool_decide_true by done. eauto.
  - intros [Hd [m Hn]]. rewrite Hn in Hd. apply bool_decide_eq_true in Hd. eauto.
Qed.

Lemma unreachable_dial s : (∀ o, ¬ reachable_at o s) → dial_ok s = false.
Proof.
  intros Hr. destruct (dial_ok s) eqn:E; [|done]. exfalso. unfold dial_ok in E. destruct (sk_node s) as [|o m|] eqn:En; try done.
  apply (Hr o). exists m. split; [done|]. by apply bool_decide_eq_true in E.
Qed.

(** Listen, run with no other daemon in between and whichever of its system calls fail, leaves a
    path that is not a socket alone and fails, leaves a daemon that answers the probe of its
    socket reachable and fails, and otherwise replaces the socket: when it succeeds clients
    reach the new daemon through a private socket, and it does succeed over a stale one when no
    call fails. *)
Theorem Listen_respects_the_path p f1 f2 f3 f4 f5 f6 s :
  p ∉ sk_listening s →
  let s' := Listen p f1 f2 f3 f4 f5 f6 s in
  (sk_node s = Foreign → sk_node s' = Foreign ∧ ∃ e, sk_procs s' !! p = Some (Failed e)) ∧
  (∀ o, reachable_at o s → f3 = false → reachable_at o s' ∧ ∃ e, sk_procs s' !! p = Some (Failed e)) ∧
  (sk_procs s' !! p = Some Serving → reachable_at p s' ∧ sk_node s' = Socket p true) ∧
  (sk_node s ≠ Foreign → (∀ o, ¬ reachable_at o s) → f1 = false → f2 = false → f3 = false → f4 = false →
   f5 = false → f6 = false → sk_procs s' !! p = Some Serving).
Proof.
  intros Hp s'. pose proof (Listen_cases p f1 f2 f3 f4 f5 f6 s) as Hc. fold s' in Hc. cbv zeta in Hc.
  destruct Hc as [(e & He & Hn & Hl)|(Hs & Hf & Hd & Hn & Hl)].
  - split_and!; [intros Hf; split; [by rewrite Hn by auto|by eauto]| |congruence|].
    + intros o Ho Hf3. split; [|eauto]. pose proof Ho as [Hd _]%reachable_dial. destruct Ho as (m & Hm & Hin).
      exists m. rewrite Hn, Hl by auto. done.
    + intros Hf Hr%unreachable_dial -> -> -> -> -> ->. exfalso.
      revert He. unfold s', Listen. clear - Hf Hr. revert Hf Hr. listen_eval; simpl; intros Hf Hr;
        rewrite ?lookup_insert_eq; try done; try congruence.
      all: match goal with E : _ && _ = true |- _ => by rewrite Hr in E end.
  - split_and!; [done| | |done].
    + intros o [Ho _]%reachable_dial Hf3. destruct Hd; congruence.
    + intros _. split; [|done]. exists true. rewrite Hl. split; [done|set_solver].
Qed.

(** A dial that fails for a reason of its own is taken for a stale socket: the socket of a
    daemon that is there and serves is removed, and the daemon that starts takes its place. *)
Theorem failed_dial_removes_live_socket p o s :
  p ∉ sk_listening s → reachable_at o s → p ≠ o →
  let s' := Listen p false false true false false false s in
  sk_procs s' !! p = Some Serving ∧ reachable_at p s' ∧ o ∈ sk_listening s' ∧ ¬ reachable_at o s'.
Proof.
  intros Hp (m & Hm & Hin) Hne s'.
  assert (sk_procs s' !! p = Some Serving ∧ sk_node s' = Socket p true ∧ sk_listening s' = {[p]} ∪ sk_listening s) as (Hs & Hn & Hl).
  { unfold s', Listen. clear - Hm. revert Hm. listen_eval; simpl; intros Hm; rewrite ?lookup_insert_eq; try done; try congruence.
    all: match goal with E : _ && _ = true |- _ => by rewrite andb_false_r in E end. }
  split_and!; [done|exists true; rewrite Hl; split; [done|set_solver]|rewrite Hl; set_solver|].
  intros (m' & Hm' & _). congruence.
Qed.

(** ** Any number of daemons at once *)

(** Whatever daemons are started on a path that names something else than a socket, in any
    interleaving, it is never removed. *)
Theorem foreign_file_survives sched s :
  sk_node s = Foreign → sk_listening s = ∅ → map_Forall (λ _ pc, pc = AtMkdir) (sk_procs s) →
  let s' := sock_run sched s in
  sk_node s' = Foreign ∧ sk_listening s' = ∅ ∧
  map_Forall (λ _ pc, pc = AtMkdir ∨ pc = AtLstat ∨ ∃ e, pc = Failed e) (sk_procs s').
Proof.
  intros Hn Hl Hp. unfold sock_run.
  assert (map_Forall (λ _ pc, pc = AtMkdir ∨ pc = AtLstat ∨ ∃ e, pc = Failed e) (sk_procs s)) as Hp'
    by (eapply map_Forall_impl; [done|]; auto).
  clear Hp. revert s Hn Hl Hp'. induction sched as [|[p f] sched IH]; intros s Hn Hl Hp; simpl; [done|].
  assert (∀ pc, pc = AtMkdir ∨ pc = AtLstat ∨ (∃ e, pc = Failed e) → let s' := goto p pc s in
    sk_node s' = Foreign ∧ sk_listening s' = ∅ ∧
    map_Forall (λ _ pc, pc = AtMkdir ∨ pc = AtLstat ∨ ∃ e, pc = Failed e) (sk_procs s')) as Hgoto.
  { intros pc Hpc. split_and!; [done..|]. simpl. by apply map_Forall_insert_2. }
  unfold sock_step. destruct (sk_procs s !! p) as [pc|] eqn:E; [|by apply IH].
  destruct (Hp p pc E) as [->|[->|[e ->]]]; simpl; rewrite ?Hn; destruct f; try (by apply IH);
    apply IH; apply Hgoto; eauto.
Qed.

(** ** Two daemons on one path *)

(** A stale socket, and two daemons about to start. *)
Definition stale_start : Sock := mkSock (Socket 0 true) ∅ {[ 1 := AtMkdir; 2 := AtMkdir ]}.

(** Two daemons that find the same stale socket can both end up serving, the first one
    unreachable: the second removes the socket of the first between probing and binding. *)
Theorem concurrent_start_orphans_daemon :
  ∃ sched, let s := sock_run sched stale_start in
    sk_procs s !! 1 = Some Serving ∧ sk_procs s !! 2 = Some Serving ∧
    1 ∈ sk_listening s ∧ ¬ reachable_at 1 s ∧ reachable_at 2 s.
Proof.
  (* both find the stale socket; 1 replaces it; 2 then removes 1's socket *)
  exists ((λ p, (p, false)) <$> [1; 1; 1; 2; 2; 2; 1; 1; 1; 2; 2; 2]).
  cbv zeta. split_and!; [by vm_compute..| |].
  - intros (m & Hm & _). vm_compute in Hm. done.
  - exists true. by split; vm_compute.
Qed.

(** A daemon that exits after its successor has bound the path removes the successor's socket,
    which goes on listening where nobody can reach it. *)
Theorem late_remove_orphans_successor :
  ∃ sched, let s0 := mkSock (Socket 1 true) {[1]} {[ 1 := Serving; 2 := AtMkdir ]} in
    let s := sock_run sched s0 in
    sk_procs s !! 1 = Some Exited ∧ sk_procs s !! 2 = Some Serving ∧ 2 ∈ sk_listening s ∧
    sk_node s = Absent.
Proof.
  exists ((λ p, (p, false)) <$> [1; 2; 2; 2; 2; 1]). cbv zeta. by split_and!; vm_compute.
Qed.
