(* ===== verification/ServeRun.v ===== *)
(** * cmd/devmeshd: a run of the daemon, from its settings to its end

    [Run] of [serve.go] with the parts it puts together: the configuration of
    the settings, [New], [Listen] on the socket, the running system, and on a
    signal the shutdown of the API server and of the daemon and the removal of
    the socket.  A machine is the files and the socket path; processes that
    run [devmeshd] on it have numbers.  The log, the HTTP server of the Go
    library and the workers' own shutdown ([Lifecycle.v]) are not repeated. *)

From S2P Require Import Prelude GoStrings GoNet Registry Lease State Runtime Router Config ConfigFile Serve Daemon DaemonInv DaemonSpec DaemonSystem Restart Transport.
From Stdlib Require Import Ascii.
Local Open Scope Z_scope.

Record Machine := mkMachine { mc_fs : FS; mc_sock : Sock }.

(** What a start depends on: the operating system's answers about the user,
    those of [New], and which of the six calls of [Listen] fail. *)
Record RunIO := mkRunIO {
  ru_os : OS;
  ru_start : StartIO;
  ru_faults : bool * bool * bool * bool * bool * bool
}.

(** The third call is the probe of a socket that is there. *)
Definition probe_fails (io : RunIO) : bool := let '(_, _, f3, _, _, _) := ru_faults io in f3.

Definition no_faults : bool * bool * bool * bool * bool * bool := (false, false, false, false, false, false).

Inductive RunError := RunConfig (e : ServeError) | RunNew (e : NewError) | RunListen (e : ListenError).

Section ServeRun.
Context `{JSON} `{Unicode} `{MapRange}.

(** [Run] up to [d.Start]. *)
Definition run_up (io : RunIO) (p : nat) (settings : ServeSettings) (m : Machine) :
  Machine * result Daemon RunError :=
  match serve_config (ru_os io) settings with
  | Err e => (m, Err (RunConfig e))
  | Ok cfg =>
    match NewDaemon (ru_start io) (mc_fs m) cfg with
    | (fs, _, Err e) => (mkMachine fs (mc_sock m), Err (RunNew e))
    | (fs, _, Ok d) =>
      let '(f1, f2, f3, f4, f5, f6) := ru_faults io in
      let sock := Transport.Listen p f1 f2 f3 f4 f5 f6 (mc_sock m) in
      (mkMachine fs sock,
       match sk_procs sock !! p with
       | Some (Failed e) => Err (RunListen e)
       | _ => Ok d
       end)
    end
  end.

(** [Run] after a signal: [httpSrv.Shutdown] closes the socket's listener,
    [d.Shutdown] ends the daemon, and the deferred [RemoveSocket] runs. *)
Definition run_down (io : SaveIO) (p : nat) (d : Daemon) (sock : Sock) : Machine * option stage :=
  let sock := sock_step p false sock in
  let '(d, err) := ShutdownDaemon io d in
  (mkMachine (w_fs (d_World d)) (sock_step p false sock), err).

(** The process is killed: its files stay, its listener is gone, its socket is
    left behind. *)
Definition run_killed (p : nat) (d : Daemon) (sock : Sock) : Machine :=
  mkMachine (w_fs (d_World d)) (mkSock (sk_node sock) (sk_listening sock ∖ {[p]}) (<[p := Exited]> (sk_procs sock))).

(** ** What a run never changes *)

Definition state_path (w : World) : option string := s_path <$> w_state w.

Lemma SetPort_path io s fs name port : s_path (SetPort io s fs name port).1.1 = s_path s.
Proof.
  unfold SetPort, save_and_clear. case_decide; [done|]. by destruct (saveLocked _ _ _) as [[? ?] [?|]].
Qed.

Lemma try_port_path io w name port w' r : try_port io w name port = (w', r) → state_path w' = state_path w.
Proof.
  unfold try_port, state_path. destruct (Runtime.Listen _ _ _) as [ln|]; [|by intros [= <- <-]].
  destruct (w_state w) as [s|]; [|by intros [= <- <-]]. pose proof (SetPort_path (io_save io) s (w_fs w) name port) as E.
  destruct (SetPort _ _ _ _ _) as [[s' fs'] [err|]]; intros [= <- <-]; simpl in *; by rewrite E.
Qed.

Lemma EnsureTCPRuntime_path io m w name preferred m' w' r :
  EnsureTCPRuntime io m w name preferred = (m', w', r) → state_path w' = state_path w.
Proof.
  unfold EnsureTCPRuntime. destruct (rm_runtimes m !! name); [by intros [= <- <- <-]|].
  destruct (Allocate_cases (rm_alloc m) io w name preferred)
    as [[_ ->]|(l1 & p & ln & l2 & wx & _ & _ & _ & [(-> & Et & _)|(st & -> & Et & _)])];
    intros; simplify_eq; [done|by eapply try_port_path..].
Qed.

Lemma register_publish_static d p env d' r :
  register_publish d p env = (d', r) → d_cfg d' = d_cfg d ∧ state_path (d_World d') = state_path (d_World d).
Proof.
  unfold register_publish. destruct (prepare d p env) as [pr|]; [|by intros [= <- <-]].
  destruct (retire_previous_fields d (p_Name p) pr) as (_ & E2 & E3 & _ & E5).
  destruct (assign_frontend _ _ _ _) as [d1 rf] eqn:Ea.
  assert (d_cfg d1 = d_cfg d ∧ state_path (d_World d1) = state_path (d_World d)) as [Ec Ep].
  { pose proof Ea as (_ & _ & _ & ->)%assign_frontend_fields. split; [done|]. rewrite <-E3. revert Ea.
    unfold assign_frontend. case_decide; [by intros [= <- <-]|].
    destruct (EnsureTCPRuntime _ _ _ _ _) as [[m' w'] r'] eqn:Ee. apply EnsureTCPRuntime_path in Ee.
    destruct r'; [|case_match]; intros [= <- <-]; done. }
  destruct rf as [f|]; [|by intros [= <- <-]].
  destruct (CreateOrReplaceOwned _ _ _) as [rg [?|]]; intros [= <- <-]; [|done].
  unfold install_route. by case_decide.
Qed.

(** Neither the configuration nor the place of the state file changes while
    the daemon runs. *)
Lemma step_static s s' : step s s' →
  d_cfg (s_d s') = d_cfg (s_d s) ∧ state_path (d_World (s_d s')) = state_path (d_World (s_d s)).
Proof.
  destruct 1 as [d dels ends iss lost p env d' e _ _ E|d dels ends iss lost p env d' pr f _ _ _ E
    |d dels ends iss lost b d' r E|d reg dels ends iss lost now id token| | |
    |d dels ends1 ends2 iss lost now n pid|d dels ends iss lost now n owner cid Hc]; simpl; try done.
  - by eapply register_publish_static.
  - by eapply register_publish_static.
  - revert E. unfold grant_lease. case_decide; [by intros [= <- <-]|].
    destruct (NewToken _); [|by intros [= <- <-]]. by intros [= <- <-].
  - by rewrite Heartbeat_state.
  - by destruct (endPublication_fields now d n pid) as (_ & -> & _ & _ & ->).
  - unfold ForgetDockerPublication. by destruct (endPublication_fields now d n cid) as (_ & -> & _ & _ & ->).
Qed.

Lemma run_static s s' : rtc step s s' →
  d_cfg (s_d s') = d_cfg (s_d s) ∧ state_path (d_World (s_d s')) = state_path (d_World (s_d s)).
Proof.
  induction 1 as [|s s1 s2 Hstep _ [E1 E2]]; [done|]. apply step_static in Hstep as [F1 F2]. split; congruence.
Qed.

Lemma serve_config_path os settings cfg : serve_config os settings = Ok cfg → c_StatePath cfg ≠ "".
Proof.
  unfold serve_config, configFromSettings. repeat (destruct (parseDuration _ _); [|done]).
  destruct (Validate _); [done|]. intros [= <-]. simpl. case_decide; [apply DefaultStatePath_nonempty|done].
Qed.

(** A start copies a state file that does not parse, and changes no other
    file. *)
Lemma Load_path io path fs : (Load io path fs).1 !! path = fs !! path.
Proof.
  unfold Load. destruct (fs !! path) as [data|] eqn:E; [|done]. destruct (negb _); [done|].
  case_decide; [done|]. destruct (Unmarshal data) as [[v ports]|]; [by case_decide|].
  destruct (io_backup_ok io); simpl; [|done]. rewrite lookup_insert_ne; [done|]. apply backup_ne.
Qed.

Lemma NewDaemon_files io fs cfg : c_StatePath cfg ≠ "" →
  let '(fs', _, r) := NewDaemon io fs cfg in
  fs' !! c_StatePath cfg = fs !! c_StatePath cfg ∧
  ∀ d, r = Ok d → d_cfg d = cfg ∧ state_path (d_World d) = Some (c_StatePath cfg) ∧ w_fs (d_World d) = fs'.
Proof.
  intros Hne. unfold NewDaemon. destruct (Validate cfg); [done|]. rewrite (decide_False (P := c_StatePath cfg = "")) by done.
  pose proof (Load_path (st_load io) (c_StatePath cfg) fs) as Hp.
  destruct (Load _ _ _) as [fs1 [st|]] eqn:El; [|done].
  apply Load_inv in El as (_ & _ & Es & _).
  destruct (loadTLS _ _); [|done]. destruct (listenerPort _); [|done].
  destruct (bindProxyListeners _ _ _) as [lns' [u|]]; [|done]. split; [done|]. intros d [= <-]. simpl.
  split_and!; [done| |done]. unfold state_path. simpl. by rewrite Es.
Qed.

(** ** Starting *)

(** C20: Starting devmeshd, with whatever settings and whichever system calls fail, leaves the
    contents of the state file as they are, leaves a socket path that is not a socket alone and
    fails, and leaves a daemon that serves on the socket reachable and fails, unless its probe
    of that socket fails for a reason of its own, which is taken for a stale socket; when it
    succeeds clients reach the new daemon through a private socket, and it does succeed over a
    stale socket when the configuration is valid, New succeeds and no call of Listen fails. *)
Theorem start_respects_the_machine io p settings m m' r :
  p ∉ sk_listening (mc_sock m) → run_up io p settings m = (m', r) →
  (∀ cfg, serve_config (ru_os io) settings = Ok cfg → mc_fs m' !! c_StatePath cfg = mc_fs m !! c_StatePath cfg) ∧
  (sk_node (mc_sock m) = Foreign → sk_node (mc_sock m') = Foreign ∧ is_Ok r = false) ∧
  (∀ o, reachable_at o (mc_sock m) → probe_fails io = false → reachable_at o (mc_sock m') ∧ is_Ok r = false) ∧
  (∀ d, r = Ok d → reachable_at p (mc_sock m') ∧ sk_node (mc_sock m') = Socket p true) ∧
  (sk_node (mc_sock m) ≠ Foreign → (∀ o, ¬ reachable_at o (mc_sock m)) → ru_faults io = no_faults →
   ∀ cfg fs lns d, serve_config (ru_os io) settings = Ok cfg →
     NewDaemon (ru_start io) (mc_fs m) cfg = (fs, lns, Ok d) → r = Ok d).
Proof.
  intros Hp. unfold run_up. destruct (serve_config (ru_os io) settings) as [cfg|e] eqn:Ec.
  2:{ intros [= <- <-]. by split_and!. }
  pose proof (NewDaemon_files (ru_start io) (mc_fs m) cfg (serve_config_path _ _ _ Ec)) as Hf.
  destruct (NewDaemon _ _ _) as [[fs lns] [d|e]] eqn:EN; destruct Hf as [Hf _].
  2:{ intros [= <- <-]. split_and!; try done; [by intros ? [= <-]|]. intros _ _ _ cfg' fs' lns' d' [= <-] E. congruence. }
  unfold probe_fails. destruct (ru_faults io) as [[[[[f1 f2] f3] f4] f5] f6] eqn:Ef.
  pose proof (Listen_respects_the_path p f1 f2 f3 f4 f5 f6 (mc_sock m) Hp) as Hl.
  pose proof (Listen_cases p f1 f2 f3 f4 f5 f6 (mc_sock m)) as Hc. cbv zeta in Hl, Hc.
  set (sock := Transport.Listen p f1 f2 f3 f4 f5 f6 (mc_sock m)) in *. intros [= <- <-]. simpl.
  destruct Hl as (L1 & L2 & L3 & L4). split_and!.
  - by intros ? [= <-].
  - intros Hn. destruct (L1 Hn) as (? & e & ->). done.
  - intros o Ho Hf3. destruct (L2 o Ho Hf3) as (? & e & ->). done.
  - intros d' Hr. apply L3. destruct Hc as [(e & He & _)|[? _]]; [by rewrite He in Hr|done].
  - intros Hn Hr [= -> -> -> -> -> ->] cfg' fs' lns' d' [= <-] E. rewrite L4 by done. congruence.
Qed.

(** ** Stopping and starting again *)

(** How a run ends: the process is killed, or it is stopped by a signal, with
    a last save that may fail. *)
Inductive ending := Killed | Signalled (io : SaveIO).

Definition run_end (how : ending) (p : nat) (d : Daemon) (sock : Sock) : Machine :=
  match how with
  | Killed => run_killed p d sock
  | Signalled io => (run_down io p d sock).1
  end.

Definition ending_ok (how : ending) (d : Daemon) : Prop :=
  match how with
  | Killed => True
  | Signalled io => ∀ path, state_path (d_World d) = Some path → io_fresh io path (w_fs (d_World d))
  end.

(** Whatever ends the run, the ports of its services are in the state file. *)
Lemma ending_keeps_port how p d sock name rec :
  daemon_inv d → ending_ok how d → d_Registry d !! name = Some rec → r_Kind rec = KindTCP →
  ∃ path ports, state_path (d_World d) = Some path ∧ reload path (mc_fs (run_end how p d sock)) = Some ports ∧
    ports !! name = Some (f_Port (r_Frontend rec)).
Proof.
  intros Hd Hok Hr Hk.
  destruct (service_port_saved d name rec Hd Hr Hk) as (_ & _ & s & ports & Es & Hs & Hrel & Hpt).
  exists (s_path s). assert (state_path (d_World d) = Some (s_path s)) as Ep by (unfold state_path; by rewrite Es).
  destruct how as [|io]; [by exists ports|]. specialize (Hok _ Ep). simpl.
  unfold run_down, ShutdownDaemon. destruct (Runtime.Shutdown _ _) as [rm w] eqn:Ew.
  destruct (foldl_close_state (range (rm_runtimes (d_Runtime d))).*2 (d_World d)) as [F1 F2].
  unfold Runtime.Shutdown in Ew. injection Ew as _ Ew. rewrite Ew in F1, F2. rewrite F1, Es.
  destruct (inv_world d Hd) as (s0 & Es0 & (Hsafe & Hv & Hdirty)). assert (s0 = s) as -> by congruence.
  unfold Save. destruct (save_and_clear io s (w_fs w)) as [[s' fs'] err] eqn:Esv. simpl.
  rewrite F2 in Esv. pose proof Esv as (_ & Em & Epath & Hok')%save_and_clear_inv; [|done..].
  destruct err as [st|].
  - exists ports. split_and!; [done| |done].
    revert Esv. unfold save_and_clear. destruct (saveLocked _ _ _) as [[fs1 h] [e|]] eqn:El; [|done].
    apply saveLocked_result in El; [|done]. intros [= <- <- <-]. by rewrite El.
  - exists (Snapshot s'). split_and!; [done|by apply Hok'|]. unfold Snapshot in *. by rewrite Em.
Qed.

(** The socket a run leaves behind does not stand in the way of the next. *)
Lemma ending_frees_socket how p d sock :
  sk_node sock = Socket p true → sk_procs sock !! p = Some Serving →
  sk_node (mc_sock (run_end how p d sock)) ≠ Foreign ∧ ∀ o, ¬ reachable_at o (mc_sock (run_end how p d sock)).
Proof.
  intros Hn Hp. destruct how as [|io]; unfold run_end, reachable_at.
  - simpl. rewrite Hn. split; [done|]. intros o (mo & [= <- _] & Hin). set_solver.
  - unfold run_down. destruct (ShutdownDaemon io d) as [d' err]. simpl.
    unfold sock_step at 2 4 6. rewrite Hp. simpl. unfold sock_step. simpl. rewrite lookup_insert_eq. simpl.
    split; [done|]. by intros o (mo & ? & _).
Qed.

Lemma run_up_Ok io p settings m m' d : run_up io p settings m = (m', Ok d) →
  ∃ cfg lns, serve_config (ru_os io) settings = Ok cfg ∧ NewDaemon (ru_start io) (mc_fs m) cfg = (mc_fs m', lns, Ok d) ∧
    sk_procs (mc_sock m') !! p = Some Serving ∧ sk_node (mc_sock m') = Socket p true.
Proof.
  unfold run_up. destruct (serve_config _ _) as [cfg|e] eqn:Ec; [|done].
  destruct (NewDaemon _ _ _) as [[fs lns] [d'|e]] eqn:EN; [|done].
  destruct (ru_faults io) as [[[[[f1 f2] f3] f4] f5] f6].
  pose proof (Listen_cases p f1 f2 f3 f4 f5 f6 (mc_sock m)) as Hc. cbv zeta in Hc.
  destruct Hc as [(e & He & _)|(Hs & _ & _ & Hn & _)]; [rewrite He; done|]. rewrite Hs. intros [= <- <-].
  by exists cfg, lns.
Qed.

(** The run of a process: its daemon has kept the configuration and the state
    file it was started with, and satisfies its invariant. *)
Lemma run_keeps_config io p settings m m1 d0 cfg s :
  run_up io p settings m = (m1, Ok d0) → serve_config (ru_os io) settings = Ok cfg →
  rtc step (mkSys d0 None [] [] ∅ ∅) s →
  daemon_inv (s_d s) ∧ d_cfg (s_d s) = cfg ∧ state_path (d_World (s_d s)) = Some (c_StatePath cfg).
Proof.
  intros (cfg' & lns & Ec & EN & _)%run_up_Ok Ec' Hr. rewrite Ec in Ec'. injection Ec' as ->.
  pose proof (NewDaemon_files (ru_start io) (mc_fs m) cfg (serve_config_path _ _ _ Ec)) as Hf.
  rewrite EN in Hf. destruct Hf as [_ Hf]. destruct (Hf _ eq_refl) as (Hcfg & Hpath & _).
  destruct (run_static _ _ Hr) as [-> ->]. simpl. split; [|done].
  apply si_daemon, reachable_inv. exists (mkSys d0 None [] [] ∅ ∅). split; [|exact Hr].
  by exists (ru_start io), (mc_fs m), cfg, (mc_fs m1), lns, d0.
Qed.

(** C6: However a run of devmeshd ends (killed at any point between two operations, or stopped
    by a signal with a last save that succeeds or fails), the socket it leaves does not stop the
    next run from starting; and when that has started with the same state file and frontend
    host, then at any time of the new run, whatever the other services have done by then and
    however their saves went, a registration of a TCP service of the old run that passes the
    checks is given the very frontend the service had, provided that this registration, and
    every earlier one of the service in the new run that got as far as a port, finds its port
    free; it fails, with internal_error, only when an earlier save has failed and its retry
    fails too. *)
Theorem restart_keeps_frontends io p settings m m1 d0 cfg s how io' settings' cfg' name rec :
  run_up io p settings m = (m1, Ok d0) → serve_config (ru_os io) settings = Ok cfg →
  rtc step (mkSys d0 None [] [] ∅ ∅) s → ending_ok how (s_d s) →
  Resolve (d_Registry (s_d s)) name = Some rec → r_Kind rec = KindTCP →
  serve_config (ru_os io') settings' = Ok cfg' →
  c_StatePath cfg' = c_StatePath cfg → c_TCPFrontendHost cfg' = c_TCPFrontendHost cfg →
  let m' := run_end how p (s_d s) (mc_sock m1) in
  (sk_node (mc_sock m') ≠ Foreign ∧ ∀ o, ¬ reachable_at o (mc_sock m')) ∧
  ∀ p' m2 d2 s2 params env pr,
    run_up io' p' settings' m' = (m2, Ok d2) →
    rtc (kept_step name (f_Port (r_Frontend rec))) (mkSys d2 None [] [] ∅ ∅) s2 →
    p_Name params = name → prepare (s_d s2) params env = Ok pr → pr_kind pr = KindTCP →
    found_free name (f_Port (r_Frontend rec)) (s_d s2) env → is_Some (e_rand env) →
    match (Register (s_d s2) params env).2 with
    | Ok res => rr_Frontend res = r_Frontend rec
    | Err e => e = CodeInternal ∧
        (∃ st, w_state (d_World (s_d s2)) = Some st ∧ s_dirty st = true) ∧ io_fault (io_save (e_alloc env)) ≠ None
    end.
Proof.
  intros Hup Ec Hrun Hend Hrec Hk Ec' Hpath Hhost m'.
  destruct (run_keeps_config _ _ _ _ _ _ _ _ Hup Ec Hrun) as (Hd & Hcfg & Hsp).
  pose proof Hup as (_ & _ & _ & _ & Hsv & Hnode)%run_up_Ok. split; [by apply ending_frees_socket|].
  intros p' m2 d2 s2 params env pr Hup2 Hrun2 Hn Hp Hkind Hfree Hrnd.
  destruct (ending_keeps_port how p (s_d s) (mc_sock m1) name rec Hd Hend Hrec Hk) as (path & ports & Ep & Hrel & Hpt).
  destruct (service_port_saved (s_d s) name rec Hd Hrec Hk) as (Ef & Hport & _).
  rewrite Hsp in Ep. injection Ep as <-. apply run_up_Ok in Hup2 as (cfg2 & lns2 & Ec2 & EN & _).
  rewrite Ec' in Ec2. injection Ec2 as <-. rewrite Hcfg, <-Hhost in Ef. rewrite <-Hpath in Hrel.
  pose proof (NewDaemon_keeps name _ _ _ _ _ _ _ _ (serve_config_path _ _ _ Ec') Hrel Hpt EN) as Hk2.
  pose proof (kept_run_keeps name _ _ Hport _ _ Hrun2 Hk2) as Hk3.
  pose proof (kept_registration name _ _ Hport _ params env pr Hk3 Hn Hp Hkind Hfree Hrnd) as Hback.
  unfold comes_back in Hback. destruct (Register _ _ _) as [d3 [res|e]]; simpl in *; [by rewrite Hback, <-Ef|done].
Qed.
End ServeRun.
