(* ===== verification/Dockerwatch.v ===== *)
(** * internal/dockerwatch: labeled containers as registrations

    [labels.go], [inspect.go] and the reconciliation and event handling of
    [watcher.go], wired to the daemon as [DockerCallbacks] in [daemon.go]
    does.  What the Docker engine answers is an argument of the operations. *)

From S2P Require Import Prelude GoStrings GoNet Registry Lease State Runtime Router Config Daemon DaemonInv DaemonSpec DaemonSystem.
From Stdlib Require Import Ascii.
Local Open Scope Z_scope.

(** ** Labels (labels.go) *)

Definition LabelEnable : string := "io.devmesh.enable".
Definition LabelName : string := "io.devmesh.name".
Definition LabelContainerPort : string := "io.devmesh.container-port".
Definition LabelKind : string := "io.devmesh.kind".
Definition LabelAppProtocol : string := "io.devmesh.app-protocol".
Definition LabelPreferredPort : string := "io.devmesh.preferred-port".
Definition LabelHTTPHost : string := "io.devmesh.http-host".
Definition ComposeProjectLabel : string := "com.docker.compose.project".
Definition ComposeServiceLabel : string := "com.docker.compose.service".

Record Labels := mkLabels {
  l_Enabled : bool;
  l_Name : string;
  l_ContainerPort : Z;
  l_Kind : string;
  l_AppProtocol : string;
  l_PreferredPort : Z;
  l_HTTPHost : string
}.

Definition no_labels : Labels := mkLabels false "" 0 "" "" 0 "".

Inductive LabelError :=
| NameRequired
| ContainerPortRequired
| InvalidContainerPort (v : string)
| UnsupportedKind (v : string)
| InvalidPreferredPort (v : string).

(** Go's [m[k]]: the empty string for a missing label. *)
Definition label (m : gmap string string) (k : string) : string := default "" (m !! k).

(** A port label: a number between 1 and 65535. *)
Definition parse_port (v : string) : option Z :=
  match Atoi v with
  | Some p => if decide (p ≤ 0 ∨ 65535 < p) then None else Some p
  | None => None
  end.

(** [ParseLabels]. *)
Definition ParseLabels (m : gmap string string) : result Labels LabelError :=
  if negb (match m !! LabelEnable with Some raw => EqualFold_lower raw "true" | None => false end)
  then Ok no_labels
  else if decide (label m LabelName = "") then Err NameRequired
  else
    let portStr := label m LabelContainerPort in
    if decide (portStr = "") then Err ContainerPortRequired
    else match parse_port portStr with
    | None => Err (InvalidContainerPort portStr)
    | Some port =>
      let kind := label m LabelKind in
      if decide (kind ≠ "" ∧ kind ≠ "tcp" ∧ kind ≠ "http") then Err (UnsupportedKind kind)
      else
        let l pp := mkLabels true (label m LabelName) port (if decide (kind = "") then "tcp" else kind)
                      (label m LabelAppProtocol) pp (label m LabelHTTPHost) in
        let pp := label m LabelPreferredPort in
        if decide (pp = "") then Ok (l 0)
        else match parse_port pp with
             | None => Err (InvalidPreferredPort pp)
             | Some p => Ok (l p)
             end
    end.

(** [OwnerKey]. *)
Definition OwnerKey (containerName : string) (labels : gmap string string) (containerPort : Z) : string :=
  let project := label labels ComposeProjectLabel in
  let service := label labels ComposeServiceLabel in
  if decide (project ≠ "" ∧ service ≠ "")
  then "docker:" +:+ project +:+ ":" +:+ service +:+ ":" +:+ Itoa containerPort
  else
    let name := TrimPrefix containerName "/" in
    "docker:" +:+ (if decide (name = "") then "unknown" else name) +:+ ":" +:+ Itoa containerPort.

(** ** Inspection (inspect.go) *)

Record PortBinding := mkBinding { pb_HostIP : string; pb_HostPort : string }.

(** The parts of Docker's inspect response the code reads; nil pointers are
    [None]. *)
Record InspectResponse := mkInspect {
  in_ID : string;
  in_Name : string;
  in_Labels : option (gmap string string);              (* Config.Labels *)
  in_Running : option bool;                             (* State.Running *)
  in_Ports : option (gmap string (list PortBinding))    (* NetworkSettings.Ports *)
}.

Record Registration := mkRegistration {
  g_Name : string;
  g_Kind : string;
  g_AppProtocol : string;
  g_BackendHost : string;
  g_BackendPort : Z;
  g_PreferredPort : Z;
  g_OwnerKey : string;
  g_ContainerID : string;
  g_HTTPHost : string
}.

Inductive InspectError :=
| BadLabels (e : LabelError)
| NotEnabled
| ErrNotPublished (port : Z)
| ErrNonLoopback (hostIP : string) (port : Z)
| BadHostPort (v : string).

Definition isLoopbackIP (host : string) : bool :=
  if decide (host = "") then false
  else match ParseIP host with
       | None => false
       | Some ip => IsLoopback ip
       end.

(** [fmt.Sscanf(s, "%d", &port)]: white space other than line ends, a sign,
    the longest run of digits, in the range of int; the rest is ignored. *)
Fixpoint skip_space (fuel : nat) (l : list ascii) : option (list ascii) :=
  match fuel, l with
  | S fuel, c :: _ =>
    if decide (c = ascii_of_nat 10) then None
    else match strip_one spaces l with
         | Some l' => skip_space fuel l'
         | None => Some l
         end
  | _, _ => Some l
  end.

Fixpoint take_digits (l : list ascii) : list ascii :=
  match l with
  | c :: l => if is_digit c then c :: take_digits l else []
  | [] => []
  end.

Definition Sscanf_d (s : string) : option Z :=
  match skip_space (String.length s) (bytes s) with
  | None => None
  | Some l =>
    match l with
    | c :: l' =>
      if decide (c = "-"%char ∨ c = "+"%char) then Atoi (String c (str (take_digits l')))
      else Atoi (str (take_digits l))
    | [] => None
    end
  end.

(** The binding the registration uses: the first on a loopback address, or
    else the first. *)
Definition choose_binding (b0 : PortBinding) (bindings : list PortBinding) : PortBinding :=
  match filter (λ b, isLoopbackIP (pb_HostIP b) = true) bindings with
  | b :: _ => b
  | [] => b0
  end.

(** The end of [RegistrationFromInspect], for a binding that is acceptable. *)
Definition registration_of (i : InspectResponse) (labels : gmap string string) (parsed : Labels)
    (chosen : PortBinding) : result Registration InspectError :=
  if decide (pb_HostPort chosen = "") then Err (ErrNotPublished (l_ContainerPort parsed))
  else match Sscanf_d (pb_HostPort chosen) with
  | None => Err (BadHostPort (pb_HostPort chosen))
  | Some port =>
    let backendHost := if decide (pb_HostIP chosen = "" ∨ isLoopbackIP (pb_HostIP chosen) = false)
                       then "127.0.0.1" else pb_HostIP chosen in
    Ok (mkRegistration (l_Name parsed) (l_Kind parsed) (l_AppProtocol parsed) backendHost port
          (l_PreferredPort parsed) (OwnerKey (in_Name i) labels (l_ContainerPort parsed))
          (in_ID i) (l_HTTPHost parsed))
  end.

(** [RegistrationFromInspect]. *)
Definition RegistrationFromInspect (i : InspectResponse) (allowNonLoopback : bool) :
  result Registration InspectError :=
  let labels := default ∅ (in_Labels i) in
  match ParseLabels labels with
  | Err e => Err (BadLabels e)
  | Ok parsed =>
  if negb (l_Enabled parsed) then Err NotEnabled else
  let port := l_ContainerPort parsed in
  match in_Ports i with
  | None => Err (ErrNotPublished port)
  | Some ports =>
  match default [] (ports !! (Itoa port +:+ "/tcp")) with
  | [] => Err (ErrNotPublished port)
  | b0 :: rest =>
    let bindings := b0 :: rest in
    match (if allowNonLoopback then []
           else filter (λ b, isLoopbackIP (pb_HostIP b) = false) bindings) with
    | b :: _ => Err (ErrNonLoopback (pb_HostIP b) port)
    | [] =>
      let chosen := choose_binding b0 bindings in
      if negb (isLoopbackIP (pb_HostIP chosen)) && negb allowNonLoopback
      then Err (ErrNonLoopback (pb_HostIP chosen) port)
      else registration_of i labels parsed chosen
    end
  end end end.

(** ** The watcher (watcher.go) *)

Inductive WatchError :=
| InspectFailed
| BadInspect (e : InspectError)
| RegisterFailed (code : Code)
| Cancelled.

(** The delays before the retries of [registerContainer]. *)
Definition delays : list Z :=
  [50 * Millisecond; 100 * Millisecond; 200 * Millisecond; 400 * Millisecond;
   800 * Millisecond; 1500 * Millisecond; 2 * Second].

(** The daemon and the watcher's [tracked] map, which the callbacks couple. *)
Record Watched := mkWatched {
  wd_d : Daemon;
  wd_tracked : gmap string Registration
}.

(** What Docker and the environment contribute to one attempt: the answer of
    the inspect call, the environment of the registration, and whether the
    context ends while the watcher waits. *)
Record Attempt := mkAttempt {
  at_inspect : option InspectResponse;
  at_env : Env;
  at_cancelled : bool
}.

(** The registration [OnRegister] passes to the daemon. *)
Definition docker_params (reg : Registration) : RegisterParams :=
  mkParams (g_Name reg) (g_Kind reg) (g_AppProtocol reg)
    (mkBackend (g_BackendHost reg) (g_BackendPort reg)) (g_PreferredPort reg) 0 SourceDocker
    (g_OwnerKey reg) "" (g_ContainerID reg) (g_HTTPHost reg).

Section Watcher.
Context `{JSON} `{Unicode} `{MapRange}.
Variable allowNonLoopback : bool.

(** [registerContainer]: an attempt, and one more after each delay while the
    port is not published yet. *)
Fixpoint register_attempts (ds : list Z) (attempt : nat) (io : nat → Attempt) (w : Watched) :
  Watched * result (option Registration) WatchError :=
  match at_inspect (io attempt) with
  | None => (w, Err InspectFailed)
  | Some i =>
    if decide (in_Running i ≠ Some true) then (w, Ok None)
    else match RegistrationFromInspect i allowNonLoopback with
    | Ok reg =>
      match Register (wd_d w) (docker_params reg) (at_env (io attempt)) with
      | (d', Err e) => (mkWatched d' (wd_tracked w), Err (RegisterFailed e))
      | (d', Ok _) => (mkWatched d' (<[g_ContainerID reg := reg]> (wd_tracked w)), Ok (Some reg))
      end
    | Err (ErrNotPublished port) =>
      match ds with
      | [] => (w, Err (BadInspect (ErrNotPublished port)))
      | _ :: ds =>
        if at_cancelled (io attempt) then (w, Err Cancelled)
        else register_attempts ds (S attempt) io w
      end
    | Err e => (w, Err (BadInspect e))
    end
  end.

Definition registerContainer (io : nat → Attempt) (w : Watched) :
  Watched * result (option Registration) WatchError :=
  register_attempts delays 0 io w.

(** [forget], through [OnForget]. *)
Definition forget (now : Z) (w : Watched) (reg : Registration) : Watched :=
  mkWatched (ForgetDockerPublication now (wd_d w) (g_Name reg) (g_OwnerKey reg) (g_ContainerID reg))
    (wd_tracked w).

Record Summary := mkSummary { sm_ID : string; sm_Labels : gmap string string }.

(** The loop of [Reconcile] over the listed containers; [io i] is what the
    attempts on the [i]-th container see. *)
Fixpoint reconcile_list (io : nat → nat → Attempt) (i : nat) (cs : list Summary)
    (w : Watched) (seen : gset string) : Watched * gset string :=
  match cs with
  | [] => (w, seen)
  | c :: cs =>
    match ParseLabels (sm_Labels c) with
    | Err _ => reconcile_list io (S i) cs w seen
    | Ok labels =>
      if negb (l_Enabled labels) then reconcile_list io (S i) cs w seen
      else reconcile_list io (S i) cs (registerContainer (io i) w).1 ({[sm_ID c]} ∪ seen)
    end
  end.

(** [Reconcile]: [None] is a failed list call; [clock] stamps the records
    of the containers that are gone. *)
Definition Reconcile (listing : option (list Summary)) (io : nat → nat → Attempt)
    (clock : nat → Z) (w : Watched) : Watched * bool :=
  match listing with
  | None => (w, false)
  | Some cs =>
    let '(w1, seen) := reconcile_list io 0 cs w ∅ in
    let gone := (filter (λ kv, kv.1 ∉ seen) (range (wd_tracked w1))).*2 in
    let w2 := mkWatched (wd_d w1) (filter (λ kv, kv.1 ∈ seen) (wd_tracked w1)) in
    (foldl (λ w tr, forget tr.1 w tr.2) w2 (imap (λ i reg, (clock i, reg)) gone), true)
  end.

(** [handleEvent]. *)
Definition handleEvent (action id : string) (io : nat → Attempt) (now : Z) (w : Watched) : Watched :=
  if decide (action = "start" ∨ action = "restart") then (registerContainer io w).1
  else if decide (action = "die" ∨ action = "stop" ∨ action = "destroy") then
    match wd_tracked w !! id with
    | None => w
    | Some reg => forget now (mkWatched (wd_d w) (delete id (wd_tracked w))) reg
    end
  else w.

End Watcher.

(** ** What a labeled container may ask for *)

Lemma parse_port_Some v p : parse_port v = Some p → 1 ≤ p ≤ 65535.
Proof. unfold parse_port. repeat (case_match || case_decide); intros; simplify_eq; lia. Qed.

(** Labels that parse are either those of a container devmesh does not manage or name a
    service, a container port and an optional preferred port between 1 and 65535, and a
    supported kind. *)
Theorem ParseLabels_sound m l :
  ParseLabels m = Ok l →
  (l = no_labels ∧
   (m !! LabelEnable = None ∨ ∃ raw, m !! LabelEnable = Some raw ∧ EqualFold_lower raw "true" = false)) ∨
  (l_Enabled l = true ∧ l_Name l = label m LabelName ∧ l_Name l ≠ "" ∧
   1 ≤ l_ContainerPort l ≤ 65535 ∧ Atoi (label m LabelContainerPort) = Some (l_ContainerPort l) ∧
   (l_Kind l = KindTCP ∨ l_Kind l = KindHTTP) ∧
   (l_PreferredPort l = 0 ∨ 1 ≤ l_PreferredPort l ≤ 65535)).
Proof.
  unfold ParseLabels.
  destruct (negb _) eqn:En.
  { intros [= <-]. left. split; [done|]. destruct (m !! LabelEnable) as [raw|]; [right|by left].
    apply negb_true_iff in En. eauto. }
  case_decide; [done|]. case_decide; [done|].
  destruct (parse_port (label m LabelContainerPort)) as [port|] eqn:Ep; [|done].
  destruct (decide (_ ∧ _)) as [|Hk]; [done|]. intros Hl. right.
  assert (Atoi (label m LabelContainerPort) = Some port) as Ea
    by (unfold parse_port in Ep; repeat (case_match || case_decide); by simplify_eq).
  apply parse_port_Some in Ep.
  assert ((if decide (label m LabelKind = "") then "tcp" else label m LabelKind) = KindTCP ∨
          (if decide (label m LabelKind = "") then "tcp" else label m LabelKind) = KindHTTP) as Hkind.
  { unfold KindTCP, KindHTTP. destruct (decide (label m LabelKind = "")); [by left|].
    destruct (decide (label m LabelKind = "tcp")), (decide (label m LabelKind = "http")); tauto. }
  destruct (decide (label m LabelPreferredPort = "")); simplify_eq/=.
  - split_and!; try done; [lia..|by left].
  - destruct (parse_port _) as [pp|] eqn:Epp; [|done]. apply parse_port_Some in Epp.
    simplify_eq/=. split_and!; try done; [lia..|right; lia].
Qed.

(** The backend of a registration is always on a loopback address. *)
Lemma registration_of_Ok i labels parsed chosen reg :
  registration_of i labels parsed chosen = Ok reg →
  isLoopbackIP (g_BackendHost reg) = true ∧ g_Name reg = l_Name parsed ∧ g_ContainerID reg = in_ID i ∧
  g_OwnerKey reg = OwnerKey (in_Name i) labels (l_ContainerPort parsed) ∧
  Sscanf_d (pb_HostPort chosen) = Some (g_BackendPort reg).
Proof.
  unfold registration_of. case_decide; [done|].
  destruct (Sscanf_d _) as [port|]; [|done]. intros [= <-]. simpl. split_and!; try done.
  case_decide as E; [by vm_compute|]. destruct (isLoopbackIP (pb_HostIP chosen)); tauto.
Qed.

Lemma RegistrationFromInspect_Ok i allow reg :
  RegistrationFromInspect i allow = Ok reg →
  ∃ parsed ports b0 rest,
    ParseLabels (default ∅ (in_Labels i)) = Ok parsed ∧ l_Enabled parsed = true ∧
    in_Ports i = Some ports ∧
    default [] (ports !! (Itoa (l_ContainerPort parsed) +:+ "/tcp")) = b0 :: rest ∧
    (allow = false → Forall (λ b, isLoopbackIP (pb_HostIP b) = true) (b0 :: rest)) ∧
    registration_of i (default ∅ (in_Labels i)) parsed (choose_binding b0 (b0 :: rest)) = Ok reg.
Proof.
  unfold RegistrationFromInspect. destruct (ParseLabels _) as [parsed|] eqn:Ep; [|done].
  destruct (l_Enabled parsed) eqn:Ee; [|done]. simpl. destruct (in_Ports i) as [ports|] eqn:Eports; [|done].
  destruct (default [] _) as [|b0 rest] eqn:Eb; [done|].
  destruct (if allow then _ else _) as [|b l] eqn:Ef; [|done].
  destruct (_ && _); [done|]. intros Hr. exists parsed, ports, b0, rest. split_and!; try done.
  intros ->. apply Forall_forall. intros b Hb.
  destruct (isLoopbackIP (pb_HostIP b)) eqn:E; [done|].
  assert (b ∈ filter (λ b, isLoopbackIP (pb_HostIP b) = false) (b0 :: rest)) as Hin
    by by apply list_elem_of_filter.
  rewrite Ef in Hin. by apply not_elem_of_nil in Hin.
Qed.

(** C35: The backend of a registration made from an inspected container is always on a loopback
    address; unless non-loopback ports are allowed every published binding of the port is, and
    the host port is that of a loopback binding whenever there is one. *)
Theorem docker_backend_is_loopback i allow reg :
  RegistrationFromInspect i allow = Ok reg →
  isLoopbackIP (g_BackendHost reg) = true ∧
  (∃ parsed ports, ParseLabels (default ∅ (in_Labels i)) = Ok parsed ∧ in_Ports i = Some ports ∧
     let bindings := default [] (ports !! (Itoa (l_ContainerPort parsed) +:+ "/tcp")) in
     (allow = false → Forall (λ b, isLoopbackIP (pb_HostIP b) = true) bindings) ∧
     ∃ b, b ∈ bindings ∧ Sscanf_d (pb_HostPort b) = Some (g_BackendPort reg) ∧
          (isLoopbackIP (pb_HostIP b) = false →
             Forall (λ b, isLoopbackIP (pb_HostIP b) = false) bindings)).
Proof.
  intros (parsed & ports & b0 & rest & Ep & _ & Eports & Eb & Hall & Hr)%RegistrationFromInspect_Ok.
  apply registration_of_Ok in Hr as (Hl & _ & _ & _ & Hs). split; [done|].
  exists parsed, ports. split; [done|]. split; [done|]. rewrite Eb. split; [done|].
  exists (choose_binding b0 (b0 :: rest)). revert Hs. unfold choose_binding.
  destruct (filter _ _) as [|b l] eqn:Ef; intros Hs; split_and!; try done; try by left.
  - intros _. apply Forall_forall. intros b Hb.
    destruct (isLoopbackIP (pb_HostIP b)) eqn:E; [|done].
    assert (b ∈ filter (λ b, isLoopbackIP (pb_HostIP b) = true) (b0 :: rest)) as Hin
      by by apply list_elem_of_filter.
    rewrite Ef in Hin. by apply not_elem_of_nil in Hin.
  - assert (b ∈ b :: l) as Hin by left. rewrite <-Ef in Hin. by apply list_elem_of_filter in Hin as [_ ?].
  - assert (b ∈ b :: l) as Hin by left. rewrite <-Ef in Hin.
    apply list_elem_of_filter in Hin as [? _]. congruence.
Qed.

Lemma OwnerKey_docker name labels port : HasPrefix (OwnerKey name labels port) "docker:" = true.
Proof.
  unfold OwnerKey, HasPrefix. case_decide; by rewrite bytes_app, strip_prefix_app.
Qed.

Lemma docker_params_ok i allow reg :
  RegistrationFromInspect i allow = Ok reg → request_ok (docker_params reg).
Proof.
  intros (parsed & ports & b0 & rest & _ & _ & _ & _ & _ & (_ & _ & _ & Eo & _)%registration_of_Ok)%RegistrationFromInspect_Ok.
  right. split; [done|]. simpl. rewrite Eo. apply OwnerKey_docker.
Qed.

(** ** Recreated containers *)

Section WatcherFacts.
Context `{JSON} `{Unicode} `{MapRange}.

(** A container that is recreated with the same name and labels registers the same service under
    the same owner key, whatever its new ID and port, and so is allowed to replace the
    publication of its predecessor while that is still ready. *)
Theorem recreated_container_replaces d i1 i2 allow reg1 reg2 rec :
  in_Name i1 = in_Name i2 → in_Labels i1 = in_Labels i2 →
  RegistrationFromInspect i1 allow = Ok reg1 → RegistrationFromInspect i2 allow = Ok reg2 →
  Resolve (d_Registry d) (g_Name reg1) = Some rec → r_OwnerKey rec = g_OwnerKey reg1 →
  g_Name reg2 = g_Name reg1 ∧ g_OwnerKey reg2 = g_OwnerKey reg1 ∧
  CheckOwnership (d_Registry d) (g_Name reg2) (g_OwnerKey reg2) = None.
Proof.
  intros En El (parsed & ? & ? & ? & Ep & _ & _ & _ & _ & (_ & N1 & _ & O1 & _)%registration_of_Ok)%RegistrationFromInspect_Ok.
  intros (parsed' & ? & ? & ? & Ep' & _ & _ & _ & _ & (_ & N2 & _ & O2 & _)%registration_of_Ok)%RegistrationFromInspect_Ok.
  rewrite El, Ep' in Ep. injection Ep as ->. rewrite N1, N2, O1, O2, En, El. unfold Resolve.
  intros Hr Ho. split_and!; [done..|]. unfold CheckOwnership, owned_by_other. rewrite Hr, Ho.
  rewrite bool_decide_false; [done|tauto].
Qed.

(** ** The watcher's invariant *)

(** The service a container is labeled for: labels do not change while a
    container exists. *)
Variable service_of : string → string.
Variable allowNonLoopback : bool.

Definition attempts_ok (io : nat → Attempt) : Prop :=
  ∀ k i reg, at_inspect (io k) = Some i → RegistrationFromInspect i allowNonLoopback = Ok reg →
    g_Name reg = service_of (g_ContainerID reg).

(** The tracked registrations are filed under their container, and every
    ready Docker service is backed by one of them. *)
Definition tracked_ok (tracked : gmap string Registration) : Prop :=
  map_Forall (λ id reg, g_ContainerID reg = id ∧ g_Name reg = service_of id) tracked.

Definition backed (reg : Registry) (P : string → Prop) : Prop :=
  ∀ name rec, reg !! name = Some rec → r_Source rec = SourceDocker → r_Status rec = StatusReady →
    P (r_ProducerID rec) ∧ service_of (r_ProducerID rec) = name.

Definition watch_inv (w : Watched) : Prop :=
  tracked_ok (wd_tracked w) ∧ backed (d_Registry (wd_d w)) (λ id, is_Some (wd_tracked w !! id)).

(** A Docker registration that fails leaves the records alone. *)
Lemma Register_docker_Err d p env d' e :
  request_source p = SourceDocker → Register d p env = (d', Err e) → d_Registry d' = d_Registry d.
Proof.
  intros Hs. unfold Register. destruct (prepare d p env) as [pr|] eqn:Ep; [|intros; by simplify_eq].
  pose proof (commit_cases d p pr env Ep) as Hc.
  apply prepare_Ok in Ep as (_ & _ & _ & (Es & _) & _).
  destruct (assign_frontend _ p pr env) as [d1 rf] eqn:Ea. rewrite Hc. clear Hc.
  apply assign_frontend_fields in Ea as (Er & _).
  destruct (retire_previous_fields d (p_Name p) pr) as (E1 & _).
  destruct rf as [f|e1]; [|intros; simplify_eq; congruence].
  unfold grant_lease. by rewrite decide_True by congruence.
Qed.

Lemma register_tracked_inv w reg env d' res :
  watch_inv w → g_Name reg = service_of (g_ContainerID reg) →
  Register (wd_d w) (docker_params reg) env = (d', Ok res) →
  watch_inv (mkWatched d' (<[g_ContainerID reg := reg]> (wd_tracked w))).
Proof.
  intros [Ht Hb] Hn (h & _ & Ereg & _)%Register_registry. split; simpl.
  - by apply map_Forall_insert_2.
  - rewrite Ereg. intros name rec [[<- <-]|[Hne Hrec]]%lookup_insert_Some Hs Hst.
    + simpl. rewrite lookup_insert_eq. eauto.
    + destruct (Hb name rec Hrec Hs Hst) as [Hid Hsv]. rewrite lookup_insert. by case_decide.
Qed.

Lemma register_attempts_inv ds k io w w' r :
  attempts_ok io → watch_inv w → register_attempts allowNonLoopback ds k io w = (w', r) →
  watch_inv w'.
Proof.
  intros Hio Hw. revert k. induction ds as [|delay ds IH]; intros k; cbn [register_attempts];
    (destruct (at_inspect (io k)) as [i|] eqn:Ei; [|intros; by simplify_eq]);
    (destruct (decide (in_Running i ≠ Some true)); [intros; by simplify_eq|]);
    destruct (RegistrationFromInspect i allowNonLoopback) as [reg|e] eqn:Er;
    try (destruct (Register _ _ _) as [d' [res|e]] eqn:ER; intros; simplify_eq;
      [by eapply register_tracked_inv; [|by eapply Hio|]
      |apply Register_docker_Err in ER; [|done]; destruct Hw; split; [done|]; simpl; by rewrite ER]).
  - destruct e; intros; by simplify_eq.
  - destruct e; try (intros; by simplify_eq).
    destruct (at_cancelled _); [intros; by simplify_eq|]. apply IH.
Qed.

Lemma registerContainer_inv io w :
  attempts_ok io → watch_inv w → watch_inv (registerContainer allowNonLoopback io w).1.
Proof.
  intros Hio Hw. unfold registerContainer. destruct (register_attempts _ _ _ _ _) as [w' r] eqn:E.
  by apply register_attempts_inv in E.
Qed.

(** Forgetting a container clears the service it backs. *)
Lemma forget_backed now w reg (P : string → Prop) :
  g_Name reg = service_of (g_ContainerID reg) →
  backed (d_Registry (wd_d w)) (λ id, P id ∨ id = g_ContainerID reg) →
  backed (d_Registry (wd_d (forget now w reg))) P.
Proof.
  intros Hn Hb name rec' Hr Hs Hst. unfold forget, ForgetDockerPublication in Hr. simpl in Hr.
  pose proof (ClearBackendIf_lookup now (d_Registry (wd_d w)) (g_Name reg) (g_ContainerID reg) name) as Hl.
  unfold endPublication in Hr. destruct (ClearBackendIf _ _ _ _) as [r b]. simpl in *.
  rewrite Hl in Hr. destruct (d_Registry (wd_d w) !! name) as [rec|] eqn:Hrec; [|done].
  destruct (decide (name = g_Name reg ∧ _)) as [?|Hne]; [by simplify_eq|]. injection Hr as <-.
  destruct (Hb name rec Hrec Hs Hst) as [[?|Hid] Hsv]; [done|]. exfalso. apply Hne.
  split; [|done]. by rewrite Hn, <-Hsv, Hid.
Qed.

Lemma forget_all_backed l w (P : string → Prop) :
  Forall (λ tr : Z * Registration, g_Name tr.2 = service_of (g_ContainerID tr.2)) l →
  backed (d_Registry (wd_d w)) (λ id, P id ∨ ∃ tr, tr ∈ l ∧ id = g_ContainerID tr.2) →
  let w' := foldl (λ w tr, forget tr.1 w tr.2) w l in
  backed (d_Registry (wd_d w')) P ∧ wd_tracked w' = wd_tracked w.
Proof.
  revert w. induction l as [|tr l IH]; intros w Hl Hb; simpl.
  - split; [|done]. intros name rec Hr Hs Hst.
    destruct (Hb name rec Hr Hs Hst) as [[?|(tr & Hin & _)] ?]; [done|by apply not_elem_of_nil in Hin].
  - apply Forall_cons in Hl as [Htr Hl]. apply (IH (forget tr.1 w tr.2)); [done|].
    apply forget_backed; [done|]. intros name rec Hr Hs Hst.
    destruct (Hb name rec Hr Hs Hst) as [[?|(tr' & [->|Hin]%elem_of_cons & ->)] ?]; split; eauto.
Qed.

(** ** Reconciliation *)

(** The containers of a listing that devmesh manages. *)
Definition managed (cs : list Summary) (id : string) : Prop :=
  ∃ c l, c ∈ cs ∧ sm_ID c = id ∧ ParseLabels (sm_Labels c) = Ok l ∧ l_Enabled l = true.

Lemma managed_cons c cs id : managed cs id → managed (c :: cs) id.
Proof. intros (c' & l & ? & ?). exists c', l. split; [by right|done]. Qed.

Lemma reconcile_list_inv io i cs w seen :
  (∀ k, attempts_ok (io k)) → watch_inv w →
  let '(w', seen') := reconcile_list allowNonLoopback io i cs w seen in
  watch_inv w' ∧ (∀ id, id ∈ seen' → id ∈ seen ∨ managed cs id).
Proof.
  intros Hio. revert i w seen. induction cs as [|c cs IH]; intros i w seen Hw; cbn [reconcile_list]; [by auto|].
  destruct (ParseLabels (sm_Labels c)) as [l|e] eqn:Ep; [destruct (l_Enabled l) eqn:Ee; simpl|].
  - specialize (IH (S i) (registerContainer allowNonLoopback (io i) w).1 ({[sm_ID c]} ∪ seen)).
    destruct (reconcile_list _ _ _ _ _ _) as [w' seen'].
    destruct IH as [? Hseen]; [by apply registerContainer_inv|]. split; [done|].
    intros id [[->%elem_of_singleton|?]%elem_of_union|Hm]%Hseen; [right|by left|right; by apply managed_cons].
    exists c, l. split; [by left|done].
  - specialize (IH (S i) w seen Hw). destruct (reconcile_list _ _ _ _ _ _) as [w' seen'].
    destruct IH as [? Hseen]. split; [done|]. intros id [?|Hm]%Hseen; [by left|right; by apply managed_cons].
  - specialize (IH (S i) w seen Hw). destruct (reconcile_list _ _ _ _ _ _) as [w' seen'].
    destruct IH as [? Hseen]. split; [done|]. intros id [?|Hm]%Hseen; [by left|right; by apply managed_cons].
Qed.

(** A pass over a listing leaves only what the listing has. *)
Lemma Reconcile_managed cs io clock w w' ok :
  (∀ k, attempts_ok (io k)) → watch_inv w →
  Reconcile allowNonLoopback (Some cs) io clock w = (w', ok) →
  ok = true ∧ watch_inv w' ∧
  (∀ id, is_Some (wd_tracked w' !! id) → managed cs id) ∧
  (∀ name rec, Resolve (d_Registry (wd_d w')) name = Some rec → r_Source rec = SourceDocker →
     r_Status rec = StatusReady → managed cs (r_ProducerID rec)).
Proof.
  intros Hio Hw. unfold Reconcile. pose proof (reconcile_list_inv io 0 cs w ∅ Hio Hw) as Hrl.
  destruct (reconcile_list _ _ _ _ _ _) as [w1 seen]. destruct Hrl as [[Ht Hb] Hseen].
  set (gone := (filter _ _).*2). set (trs := imap _ gone).
  assert (∀ reg, reg ∈ gone ↔ ∃ id, wd_tracked w1 !! id = Some reg ∧ id ∉ seen) as Hgone.
  { intros reg. unfold gone. rewrite list_elem_of_fmap. split.
    - intros ([id reg'] & -> & [? ?%range_elem]%list_elem_of_filter). eauto.
    - intros (id & ? & ?). exists (id, reg). split; [done|]. apply list_elem_of_filter. by rewrite range_elem. }
  assert (∀ reg, reg ∈ gone ↔ ∃ t, (t, reg) ∈ trs) as Htrs.
  { intros reg. unfold trs. split.
    - intros [i Hi]%list_elem_of_lookup. exists (clock i). apply list_elem_of_lookup. exists i.
      by rewrite list_lookup_imap, Hi.
    - intros [t [i Hi]%list_elem_of_lookup]. rewrite list_lookup_imap in Hi.
      destruct (gone !! i) eqn:E; simplify_eq/=. by eapply list_elem_of_lookup_2. }
  destruct (forget_all_backed trs (mkWatched (wd_d w1) (filter (λ kv, kv.1 ∈ seen) (wd_tracked w1)))
    (λ id, is_Some (filter (λ kv, kv.1 ∈ seen) (wd_tracked w1) !! id))) as [Hb' Et'].
  - apply Forall_forall. intros [t reg] Hin. simpl.
    destruct (proj1 (Hgone reg)) as (id & Hid & _); [apply Htrs; eauto|].
    destruct (Ht _ _ Hid) as [-> ?]. done.
  - simpl. intros name rec Hr Hs Hst. destruct (Hb name rec Hr Hs Hst) as [[reg Hreg] Hsv].
    split; [|done]. destruct (decide (r_ProducerID rec ∈ seen)) as [Hin|Hin].
    + left. exists reg. by apply map_lookup_filter_Some.
    + right. destruct (proj1 (Htrs reg)) as [t Htr]; [apply Hgone; eauto|].
      exists (t, reg). split; [done|]. simpl. by destruct (Ht _ _ Hreg) as [-> _].
  - intros [= <- <-]. cbn [wd_tracked] in Et'.
    assert (∀ id, is_Some (filter (λ kv, kv.1 ∈ seen) (wd_tracked w1) !! id) → managed cs id) as Hman.
    { intros id [reg [_ Hin]%map_lookup_filter_Some]. simpl in Hin.
      by destruct (Hseen id Hin) as [?%not_elem_of_empty|?]. }
    unfold watch_inv. rewrite Et'. split_and!; [done| |done|done|].
    + intros id reg [? _]%map_lookup_filter_Some. by apply Ht.
    + unfold Resolve. intros name rec Hr Hs Hst. apply Hman. by apply (Hb' name rec).
Qed.

(** C34: After a reconciliation pass over a listing, every tracked container is a managed
    container of the listing, and so is the container behind every ready Docker service:
    whatever events were missed, no service is left pointing at a container that is gone. *)
Theorem Reconcile_repairs cs io clock w w' ok :
  (∀ k, attempts_ok (io k)) → watch_inv w →
  Reconcile allowNonLoopback (Some cs) io clock w = (w', ok) →
  ok = true ∧ watch_inv w' ∧
  (∀ id, is_Some (wd_tracked w' !! id) → managed cs id) ∧
  (∀ name rec, Resolve (d_Registry (wd_d w')) name = Some rec → r_Source rec = SourceDocker →
     r_Status rec = StatusReady → managed cs (r_ProducerID rec)).
Proof. apply Reconcile_managed. Qed.

(** An event keeps the correspondence. *)
Lemma handleEvent_watch action id io now w :
  attempts_ok io → watch_inv w →
  watch_inv (handleEvent allowNonLoopback action id io now w) ∧
  ((action = "die" ∨ action = "stop" ∨ action = "destroy") →
   let w' := handleEvent allowNonLoopback action id io now w in
   wd_tracked w' !! id = None ∧
   ∀ name rec, Resolve (d_Registry (wd_d w)) name = Some rec → r_ProducerID rec ≠ id →
     Resolve (d_Registry (wd_d w')) name = Some rec).
Proof.
  intros Hio Hw. unfold handleEvent. case_decide as Hstart.
  { split; [by apply registerContainer_inv|]. intros Hstop.
    destruct Hstart as [-> | ->], Hstop as [?|[?|?]]; done. }
  case_decide as Hstop; [|by split].
  destruct Hw as [Ht Hb]. destruct (wd_tracked w !! id) as [reg|] eqn:Ereg; [|split; by auto].
  destruct (Ht _ _ Ereg) as [Ec Hn]. unfold watch_inv. split; [split; simpl|].
  - by apply map_Forall_delete.
  - apply forget_backed; [by rewrite Ec|]. simpl. intros name rec Hr Hs Hst.
    destruct (Hb name rec Hr Hs Hst) as [Hid ?]. split; [|done].
    destruct (decide (r_ProducerID rec = id)) as [->|Hne]; [by right|left].
    by rewrite lookup_delete_ne.
  - intros _. simpl. rewrite lookup_delete_eq. split; [done|]. unfold Resolve. intros name rec Hr Hne.
    unfold ForgetDockerPublication, endPublication.
    pose proof (ClearBackendIf_lookup now (d_Registry (wd_d w)) (g_Name reg) (g_ContainerID reg) name) as Hl.
    destruct (ClearBackendIf _ _ _ _) as [r b]. simpl in *. rewrite Hl, Hr, decide_False; [done|].
    rewrite Ec. tauto.
Qed.

(** Every container event keeps the correspondence of tracked containers and ready Docker
    services; a stop event untracks its container and leaves every record alone that another
    producer has published, so the late stop of a replaced container is ignored. *)
Theorem handleEvent_keeps_watch action id io now w :
  attempts_ok io → watch_inv w →
  watch_inv (handleEvent allowNonLoopback action id io now w) ∧
  ((action = "die" ∨ action = "stop" ∨ action = "destroy") →
   let w' := handleEvent allowNonLoopback action id io now w in
   wd_tracked w' !! id = None ∧
   ∀ name rec, Resolve (d_Registry (wd_d w)) name = Some rec → r_ProducerID rec ≠ id →
     Resolve (d_Registry (wd_d w')) name = Some rec).
Proof. apply handleEvent_watch. Qed.

(** ** The watcher as a client of the system *)

(** What [g] and the IDs issued say of the registrations of one container, and
    of a container that is forgotten. *)
Definition attempts_allowed (g : Guard) (iss : gmap string string) (io : nat → Attempt) (d : Daemon) : Prop :=
  ∀ k, env_ok d (at_env (io k)) ∧ iss !! e_newID (at_env (io k)) = None ∧
    ∀ i reg, at_inspect (io k) = Some i → RegistrationFromInspect i allowNonLoopback = Ok reg →
      may_publish g (docker_params reg).

Definition forget_allowed (g : Guard) (iss : gmap string string) (reg : Registration) : Prop :=
  may_forget g (g_ContainerID reg) ∧ iss !! g_ContainerID reg = None.

(** A Docker registration, run alone: it issues no ID and loses no lease. *)
Lemma docker_Register_steps g d dels ends iss lost p env d' r :
  may_publish g p → request_ok p → p_Source p = SourceDocker → env_ok d env → iss !! request_regID p env = None →
  Register d p env = (d', r) →
  rtc (guarded g) (mkSys d None dels ends iss lost) (mkSys d' None dels ends iss lost).
Proof.
  intros Hg Hreq Hsrc Henv Hfresh. rewrite Register_phases.
  destruct (register_publish d p env) as [d1 [[pr f]|e]] eqn:Ep.
  - intros Hr. assert (pr_source pr = SourceDocker) as Es.
    { apply register_publish_Ok in Ep as [(_ & _ & _ & (Es & _) & _)%prepare_Ok _].
      rewrite Es. unfold request_source. by rewrite Hsrc. }
    pose proof Hr as [(_ & -> & Hok)|[(Hne & _)|(Hne & _)]]%grant_lease_cases; [|done..].
    assert (issue p env iss = iss) as Ei by (unfold issue, request_source; by rewrite Hsrc).
    eapply rtc_l; [by eapply guarded_publish|]. apply rtc_once. rewrite Ei.
    pose proof (guarded_grant g d1 dels ends iss lost (mkPublishing p pr f env) _ _ Hr) as Hst. by rewrite Hok in Hst.
  - intros; simplify_eq. apply rtc_once. by eapply guarded_refused.
Qed.

Lemma register_attempts_steps g ds k io w dels ends iss lost :
  attempts_allowed g iss io (wd_d w) →
  rtc (guarded g) (mkSys (wd_d w) None dels ends iss lost)
    (mkSys (wd_d (register_attempts allowNonLoopback ds k io w).1) None dels ends iss lost).
Proof.
  intros Henv. revert k. induction ds as [|delay ds IH]; intros k; cbn [register_attempts];
    (destruct (at_inspect (io k)) as [i|] eqn:Ei; [|done]);
    (destruct (decide (in_Running i ≠ Some true)); [done|]);
    destruct (RegistrationFromInspect i allowNonLoopback) as [reg|e] eqn:Er;
    try (destruct (Henv k) as (He & Hf & Hg); destruct (Register _ _ _) as [d' r] eqn:ER;
      apply (docker_Register_steps g _ dels ends iss lost) in ER;
      [by destruct r|by eapply Hg|by eapply docker_params_ok|done..]).
  - by destruct e.
  - destruct e; try done. destruct (at_cancelled _); [done|apply IH].
Qed.

(** The containers of a listing, one after the other. *)
Fixpoint listing_allowed (g : Guard) (iss : gmap string string) (io : nat → nat → Attempt) (i : nat)
    (cs : list Summary) (w : Watched) : Prop :=
  match cs with
  | [] => True
  | c :: cs =>
    match ParseLabels (sm_Labels c) with
    | Err _ => listing_allowed g iss io (S i) cs w
    | Ok labels =>
      if negb (l_Enabled labels) then listing_allowed g iss io (S i) cs w
      else attempts_allowed g iss (io i) (wd_d w) ∧
           listing_allowed g iss io (S i) cs (registerContainer allowNonLoopback (io i) w).1
    end
  end.

Lemma reconcile_list_steps g io i cs w seen dels ends iss lost :
  listing_allowed g iss io i cs w →
  rtc (guarded g) (mkSys (wd_d w) None dels ends iss lost)
    (mkSys (wd_d (reconcile_list allowNonLoopback io i cs w seen).1) None dels ends iss lost).
Proof.
  revert i w seen. induction cs as [|c cs IH]; intros i w seen; cbn [listing_allowed reconcile_list]; [done|].
  destruct (ParseLabels (sm_Labels c)) as [l|e]; [|apply IH]. destruct (negb (l_Enabled l)); [apply IH|].
  intros [Ha Hc]. etrans; [by apply register_attempts_steps|by apply IH].
Qed.

Lemma forget_all_steps g l w dels ends iss lost :
  Forall (λ tr : Z * Registration, forget_allowed g iss tr.2) l →
  rtc (guarded g) (mkSys (wd_d w) None dels ends iss lost)
    (mkSys (wd_d (foldl (λ w tr, forget tr.1 w tr.2) w l)) None dels ends iss lost).
Proof.
  revert w. induction l as [|tr l IH]; intros w; simpl; [done|]. intros [[Hm Hi] Hl]%Forall_cons.
  eapply rtc_l; [by apply (guarded_forget g _ _ _ _ _ tr.1 (g_Name tr.2) (g_OwnerKey tr.2))|]. by apply (IH (forget tr.1 w tr.2)).
Qed.

Lemma handleEvent_steps g action id io now w dels ends iss lost :
  attempts_allowed g iss io (wd_d w) →
  (∀ reg, wd_tracked w !! id = Some reg → forget_allowed g iss reg) →
  rtc (guarded g) (mkSys (wd_d w) None dels ends iss lost)
    (mkSys (wd_d (handleEvent allowNonLoopback action id io now w)) None dels ends iss lost).
Proof.
  intros Henv Hids. unfold handleEvent. case_decide; [by apply register_attempts_steps|].
  case_decide; [|done]. destruct (wd_tracked w !! id) as [reg|] eqn:Er; [|done].
  destruct (Hids reg eq_refl). apply rtc_once. by apply guarded_forget.
Qed.

(** The containers that a pass forgets. *)
Definition gone_allowed (g : Guard) (iss : gmap string string) (p : Watched * gset string) : Prop :=
  ∀ id reg, wd_tracked p.1 !! id = Some reg → id ∉ p.2 → forget_allowed g iss reg.

Lemma Reconcile_steps g cs io clock w dels ends iss lost :
  listing_allowed g iss io 0 cs w → gone_allowed g iss (reconcile_list allowNonLoopback io 0 cs w ∅) →
  rtc (guarded g) (mkSys (wd_d w) None dels ends iss lost)
    (mkSys (wd_d (Reconcile allowNonLoopback (Some cs) io clock w).1) None dels ends iss lost).
Proof.
  intros Hl Hgone. unfold Reconcile.
  pose proof (reconcile_list_steps g io 0 cs w ∅ dels ends iss lost Hl) as Hst.
  destruct (reconcile_list _ _ _ _ _ _) as [w1 seen]. etrans; [exact Hst|]. cbn [fst].
  apply (forget_all_steps g _ (mkWatched (wd_d w1) (filter (λ kv, kv.1 ∈ seen) (wd_tracked w1)))).
  apply Forall_forall. intros [t reg] [i Hi]%list_elem_of_lookup. rewrite list_lookup_imap in Hi.
  destruct (_ !! i) as [reg'|] eqn:E in Hi; simplify_eq/=. apply list_elem_of_lookup_2 in E.
  apply list_elem_of_fmap in E as ([id reg'] & -> & [Hn Hin%range_elem]%list_elem_of_filter). simpl. by eapply Hgone.
Qed.

(** What a pass has seen. *)
Lemma reconcile_list_seen io i cs w seen :
  let '(_, seen') := reconcile_list allowNonLoopback io i cs w seen in
  seen ⊆ seen' ∧ ∀ id, managed cs id → id ∈ seen'.
Proof.
  clear service_of. revert i w seen. induction cs as [|c cs IH]; intros i w seen; cbn [reconcile_list].
  { split; [done|]. intros id (c & l & Hc & _). by apply not_elem_of_nil in Hc. }
  destruct (ParseLabels (sm_Labels c)) as [l|e] eqn:Ep; [destruct (l_Enabled l) eqn:Ee; simpl|].
  - specialize (IH (S i) (registerContainer allowNonLoopback (io i) w).1 ({[sm_ID c]} ∪ seen)).
    destruct (reconcile_list _ _ _ _ _ _) as [w' seen']. destruct IH as [Hsub Hm]. split; [set_solver|].
    intros id (c' & l' & [->|Hc]%elem_of_cons & <- & Hl); [set_solver|]. apply Hm. by exists c', l'.
  - specialize (IH (S i) w seen). destruct (reconcile_list _ _ _ _ _ _) as [w' seen']. destruct IH as [? Hm].
    split; [done|]. intros id (c' & l' & [->|Hc]%elem_of_cons & Hid & Hl & Hen); [congruence|].
    apply Hm. by exists c', l'.
  - specialize (IH (S i) w seen). destruct (reconcile_list _ _ _ _ _ _) as [w' seen']. destruct IH as [? Hm].
    split; [done|]. intros id (c' & l' & [->|Hc]%elem_of_cons & Hid & Hl & Hen); [congruence|].
    apply Hm. by exists c', l'.
Qed.

(** C36: Handling a container event and reconciling with a listing are runs of the step system,
    with registrations of the form the watcher makes, under every restriction that admits those
    registrations and the containers forgotten: what holds of the reachable states, and of the
    restricted runs, holds with the watcher running. *)
Theorem watcher_refines_system g w dels ends iss lost :
  (∀ action id io now,
    attempts_allowed g iss io (wd_d w) →
    (∀ reg, wd_tracked w !! id = Some reg → forget_allowed g iss reg) →
    rtc (guarded g) (mkSys (wd_d w) None dels ends iss lost)
      (mkSys (wd_d (handleEvent allowNonLoopback action id io now w)) None dels ends iss lost)) ∧
  (∀ cs io clock,
    listing_allowed g iss io 0 cs w → gone_allowed g iss (reconcile_list allowNonLoopback io 0 cs w ∅) →
    rtc (guarded g) (mkSys (wd_d w) None dels ends iss lost)
      (mkSys (wd_d (Reconcile allowNonLoopback (Some cs) io clock w).1) None dels ends iss lost)).
Proof. split; intros; [by apply handleEvent_steps|by apply Reconcile_steps]. Qed.
End WatcherFacts.
