(* ===== verification/Containers.v ===== *)
(** * From a connection to the container behind it

    The second half of what the product is for: a labeled container that the
    watcher has registered, the running system and the data plane beside it,
    and nobody renewing anything, since Docker's services have no lease. *)

From S2P Require Import Prelude GoStrings GoNet Registry Lease State Runtime AcceptLoop TcpProxy Router Config Daemon DaemonInv DaemonSpec DaemonSystem DataPlane Forwarding HttpPlane Api Client ClientNet EndToEnd Dockerwatch.
From Stdlib Require Import Ascii.
Local Open Scope Z_scope.

Section Containers.
Context `{JSON} `{Unicode} `{MapRange}.

(** The registration of the container. *)
Variable reg : Registration.

(** The address its port is published at. *)
Definition published_at : Backend := mkBackend (g_BackendHost reg) (g_BackendPort reg).

(** While the container runs: the watcher does not forget it, and registers
    its service for no other container; it may well register it again, which
    every reconciliation does.  All others do what they like. *)
Definition undisturbed : Guard :=
  mkGuard (λ p, p_Source p = SourceDocker → p_Name p = g_Name reg → p = docker_params reg)
    (λ _ _ _, True) (λ _, True) (λ _ _, True) (λ containerID, containerID ≠ g_ContainerID reg).

(** What the watcher registers for the other containers is of that kind. *)
Lemma undisturbed_attempts service_of allow iss io d :
  (∀ k, env_ok d (at_env (io k)) ∧ iss !! e_newID (at_env (io k)) = None) →
  attempts_ok service_of allow io →
  (∀ k i reg', at_inspect (io k) = Some i → RegistrationFromInspect i allow = Ok reg' →
     service_of (g_ContainerID reg') = g_Name reg → reg' = reg) →
  attempts_allowed allow undisturbed iss io d.
Proof.
  intros Henv Hok Hsame k. destruct (Henv k) as [He Hf]. split_and!; [done..|].
  intros i reg' Hi Er _ Hn. simpl in Hn. rewrite (Hok _ _ _ Hi Er) in Hn. by rewrite (Hsame _ _ _ Hi Er Hn).
Qed.

(** So is whatever it does about them, and a reconciliation with a listing
    that has the container. *)
Theorem watcher_leaves_container service_of allow w dels ends iss lost :
  watch_inv service_of w →
  (∀ action id io now,
    attempts_allowed allow undisturbed iss io (wd_d w) → id ≠ g_ContainerID reg → iss !! id = None →
    rtc (guarded undisturbed) (mkSys (wd_d w) None dels ends iss lost)
      (mkSys (wd_d (handleEvent allow action id io now w)) None dels ends iss lost)) ∧
  (∀ cs io clock,
    (∀ k, attempts_ok service_of allow (io k)) → listing_allowed allow undisturbed iss io 0 cs w →
    managed cs (g_ContainerID reg) →
    (∀ id, is_Some (wd_tracked (reconcile_list allow io 0 cs w ∅).1 !! id) → iss !! id = None) →
    rtc (guarded undisturbed) (mkSys (wd_d w) None dels ends iss lost)
      (mkSys (wd_d (Reconcile allow (Some cs) io clock w).1) None dels ends iss lost)).
Proof.
  intros Hw. split.
  - intros action id io now Ha Hne Hi. apply handleEvent_steps; [done|].
    intros reg' Hr. destruct (proj1 Hw _ _ Hr) as [Hid _]. by split; simpl; rewrite Hid.
  - intros cs io clock Hok Hl Hm Hi. apply Reconcile_steps; [done|]. intros id reg' Hr Hs.
    pose proof (reconcile_list_inv service_of allow io 0 cs w ∅ Hok Hw) as Hw1.
    pose proof (reconcile_list_seen allow io 0 cs w ∅) as Hseen.
    destruct (reconcile_list _ _ _ _ _ _) as [w1 seen]. simpl in *.
    destruct Hw1 as [[Ht _] _], Hseen as [_ Hseen]. destruct (Ht _ _ Hr) as [<- _]. split; [|by apply Hi; eexists].
    simpl. intros E. apply Hs. rewrite E. by apply Hseen.
Qed.

(** The service of the container. *)
Definition backs (rec : ServiceRecord) : Prop :=
  r_Source rec = SourceDocker ∧ r_Status rec = StatusReady ∧ r_OwnerKey rec = g_OwnerKey reg ∧
  r_ProducerID rec = g_ContainerID reg ∧ r_Backend rec = Some published_at.

Record container_up (rec0 : ServiceRecord) (s : System) : Prop := mkContainerUp {
  cu_sys : sys_inv s;
  cu_issued : s_issued s !! g_ContainerID reg ≠ Some (g_Name reg);
  cu_record : ∃ rec, d_Registry (s_d s) !! g_Name reg = Some rec ∧ backs rec ∧ same_frontend rec0 rec
}.

(** The record of a registration of the container. *)
Lemma docker_record pr f env d :
  prepare d (docker_params reg) env = Ok pr → HasPrefix (g_OwnerKey reg) "docker:" = true →
  backs (new_record (docker_params reg) pr f (e_now env)).
Proof.
  intros (_ & _ & _ & (Es & _) & _ & _ & _ & (_ & Eo & Ep) & _)%prepare_Ok Hpre.
  assert (g_OwnerKey reg ≠ "") as Hne by (intros E; by rewrite E in Hpre).
  unfold backs, new_record, request_owner, request_producer, request_source in *. simpl in *.
  rewrite decide_False in Eo by done. split_and!; [by rewrite Es|done|done|by rewrite Ep|done].
Qed.

(** Another owner is refused the service. *)
Lemma backed_publish_refused s p env pr rec :
  request_ok p → p_Source p ≠ SourceDocker → HasPrefix (g_OwnerKey reg) "docker:" = true →
  d_Registry (s_d s) !! p_Name p = Some rec → backs rec → prepare (s_d s) p env ≠ Ok pr.
Proof.
  intros Hreq Hsrc Hpre Hr (_ & Hst & Ho & _) (_ & _ & _ & _ & _ & _ & _ & (_ & Eo & _) & Hno)%prepare_Ok.
  unfold owned_by_other in Hno. rewrite Hr, Hst, Ho, Eo in Hno. apply bool_decide_eq_false in Hno.
  apply Hno. split; [|done]. intros E. rewrite E in Hpre. unfold request_owner, request_source in Hpre.
  destruct Hreq as [([Hp|Hp] & Hk & _)|[Hp _]]; [rewrite Hp, Hk in Hpre; done..|done].
Qed.

Hypothesis reg_docker : HasPrefix (g_OwnerKey reg) "docker:" = true.

(** A step leaves the container's service up. *)
Lemma container_record_step rec0 s s' : container_up rec0 s → guarded undisturbed s s' →
  ∃ rec, d_Registry (s_d s') !! g_Name reg = Some rec ∧ backs rec.
Proof.
  intros [Hs Hi (rec & Hr & Hb & _)] Hst.
  assert (∀ now n pid, pid ≠ g_ContainerID reg ∨ n ≠ g_Name reg →
    ∃ rec', d_Registry (endPublication now (s_d s) n pid).1 !! g_Name reg = Some rec' ∧ backs rec') as Hend.
  { intros now n pid Hne. exists rec. split; [|done]. unfold endPublication.
    pose proof (ClearBackendIf_lookup now (d_Registry (s_d s)) n pid (g_Name reg)) as Hl.
    destruct (ClearBackendIf _ _ _ _). simpl in *. destruct Hb as (_ & _ & _ & Hp & _).
    rewrite Hl, Hr, decide_False; [done|]. rewrite Hp. destruct Hne; naive_solver. }
  destruct Hst as [d dels ends iss lost p env d' e _ _ E|d dels ends iss lost p env d' pr f Hg Hreq _ Hf E
    |d dels ends iss lost b d' r E|d rg dels ends iss lost now id token| | |
    |d dels ends1 ends2 iss lost now n pid|d dels ends iss lost now n owner cid Hc]; simpl in *;
    try (by exists rec).
  - exists rec. by apply register_publish_Err in E as [-> _]; [|apply (si_daemon _ Hs)].
  - pose proof E as (Ep & d1 & _ & -> & Er & _)%register_publish_Ok.
    destruct (publish_fields d1 p pr f (e_now env)) as (-> & _). rewrite Er, lookup_insert.
    case_decide as Hn; [|by exists rec]. destruct (decide (p_Source p = SourceDocker)) as [Hsrc|Hsrc].
    + rewrite (Hg Hsrc Hn) in *. eexists. split; [done|]. by eapply docker_record.
    + destruct (backed_publish_refused (mkSys d None dels ends iss lost) p env pr rec Hreq Hsrc reg_docker);
        [by rewrite Hn|done..].
  - exists rec. by apply grant_lease_cases in E as [(_ & -> & _)|[(_ & -> & _)|(_ & _ & -> & _)]].
  - exists rec. by rewrite Heartbeat_state.
  - apply Hend. destruct (decide (pid = g_ContainerID reg)) as [->|]; [right|by left]. intros ->.
    apply Hi. by apply (si_ends _ Hs); set_solver.
  - apply Hend. by left.
Qed.

Lemma container_issued_step rec0 s s' : container_up rec0 s → guarded undisturbed s s' →
  s_issued s' !! g_ContainerID reg ≠ Some (g_Name reg).
Proof.
  intros [Hs Hi (rec & Hr & Hb & _)] Hst. destruct Hst; try exact Hi. simpl in *. unfold issue.
  case_decide as Hsrc; [done|]. rewrite lookup_insert. case_decide; [|done]. intros [= Hn].
  match goal with E : register_publish _ _ _ = _ |- _ => apply register_publish_Ok in E as (Ep & _) end.
  eapply (backed_publish_refused (mkSys d None dels ends iss lost) p env pr rec); [done| |done|by rewrite Hn|done|done].
  intros Hp. apply Hsrc. unfold request_source. by rewrite Hp.
Qed.

Lemma container_up_step rec0 s s' : container_up rec0 s → guarded undisturbed s s' → container_up rec0 s'.
Proof.
  intros Hu Hst. pose proof Hu as [Hs Hi (rec & Hr & Hb & Hf)]. pose proof (guarded_step _ _ _ Hst) as Hst'.
  split; [by eapply step_inv|by eapply container_issued_step|].
  destruct (container_record_step rec0 s s' Hu Hst) as (rec' & Hr' & Hb').
  destruct (step_same_frontend _ _ _ _ Hs Hst' Hr) as (rec1 & Hr1 & Hf1).
  rewrite Hr' in Hr1. injection Hr1 as <-. exists rec'. split_and!; [done..|].
  unfold same_frontend in *. destruct_and?. split_and!; congruence.
Qed.

Lemma container_up_run rec0 s s' : container_up rec0 s → rtc (guarded undisturbed) s s' → container_up rec0 s'.
Proof. intros Hu Hr. induction Hr; eauto using container_up_step. Qed.

Lemma container_provider rec0 s : container_up rec0 s →
  ∃ rec, Resolve (d_Registry (s_d s)) (g_Name reg) = Some rec ∧ backs rec ∧ same_frontend rec0 rec ∧
    backendProvider (s_d s) (g_Name reg) = Some published_at.
Proof.
  intros [Hs _ (rec & Hr & Hb & Hf)]. exists rec. split_and!; [done..|].
  unfold backendProvider, Resolve. rewrite Hr. destruct Hb as (_ & Hst & _ & _ & Hbk). rewrite Hst. by case_decide.
Qed.

(** ** The registration of the container *)

Lemma container_registered d dels ends iss lost env d' res : sys_inv (mkSys d None dels ends iss lost) →
  request_ok (docker_params reg) → env_ok d env → iss !! e_newID env = None → iss !! g_ContainerID reg = None →
  Register d (docker_params reg) env = (d', Ok res) →
  ∃ rec, Resolve (d_Registry d') (g_Name reg) = Some rec ∧ rr_Frontend res = r_Frontend rec ∧
    rtc step (mkSys d None dels ends iss lost) (mkSys d' None dels ends iss lost) ∧
    container_up rec (mkSys d' None dels ends iss lost).
Proof.
  intros Hs Hreq Henv Hfresh Hc HR.
  assert (rtc (guarded undisturbed) (mkSys d None dels ends iss lost) (mkSys d' None dels ends iss lost)) as Hrun.
  { eapply docker_Register_steps; [|exact Hreq|done|exact Henv|exact Hfresh|exact HR]. done. }
  apply guarded_run in Hrun. rewrite Register_phases in HR.
  destruct (register_publish d (docker_params reg) env) as [d1 [[pr f]|e]] eqn:Ep; [|done].
  apply register_publish_Ok in Ep as (Ep & d2 & _ & -> & Er & _).
  pose proof (docker_record pr f env d Ep reg_docker) as Hb.
  pose proof HR as [(_ & -> & _)|[(Hne & _)|(Hne & _)]]%grant_lease_cases;
    [|exfalso; apply Hne; by apply prepare_Ok in Ep as (_ & _ & _ & (-> & _) & _)..].
  destruct (publish_fields d2 (docker_params reg) pr f (e_now env)) as (P1 & _).
  exists (new_record (docker_params reg) pr f (e_now env)).
  assert (d_Registry (publish d2 (docker_params reg) pr f (e_now env)) !! g_Name reg =
    Some (new_record (docker_params reg) pr f (e_now env))) as Hr by (rewrite P1; simpl; by rewrite lookup_insert_eq).
  split_and!; [exact Hr| |exact Hrun|].
  - revert HR. unfold grant_lease. case_decide as Hne; [by intros [= <-]|]. exfalso.
    apply prepare_Ok in Ep as (_ & _ & _ & (Es & _) & _). by apply Hne; rewrite Es.
  - split; [by eapply rtc_inv|simpl; congruence|]. eexists. split_and!; [exact Hr|done|by split_and!].
Qed.

(** ** The data plane beside it *)

Record CScene := mkCScene {
  cs_plane : Plane;
  cs_reqs : gmap nat (inRequest * http_phase)
}.

Definition cs_sys (v : CScene) : System := dp_sys (cs_plane v).
Definition cs_http (v : CScene) : HttpPlane := mkHttpPlane (cs_sys v) (cs_reqs v).

(** The system, a connection or an HTTP request takes a step. *)
Inductive container_step : CScene → CScene → Prop :=
| container_system v s' :
    guarded undisturbed (cs_sys v) s' →
    container_step v (mkCScene (mkPlane s' (dp_rts (cs_plane v)) (dp_pipes (cs_plane v))) (cs_reqs v))
| container_plane v x :
    plane_step (cs_plane v) x → dp_sys x = cs_sys v → container_step v (mkCScene x (cs_reqs v))
| container_http v x :
    http_step (cs_http v) x → ht_sys x = cs_sys v → container_step v (mkCScene (cs_plane v) (ht_reqs x)).

Lemma container_step_up rec0 v v' : container_up rec0 (cs_sys v) → container_step v v' → container_up rec0 (cs_sys v').
Proof.
  intros Hu. destruct 1 as [v s' Hs|v x Hx E|v x Hx E]; [by eapply container_up_step| |done].
  unfold cs_sys in *. simpl. by rewrite E.
Qed.

Lemma container_run_up rec0 v v' : rtc container_step v v' → container_up rec0 (cs_sys v) → container_up rec0 (cs_sys v').
Proof. induction 1; eauto using container_step_up. Qed.

Lemma container_step_all_to rec0 base v v' : container_up rec0 (cs_sys v) → container_step v v' →
  all_to (g_Name reg) base published_at (cs_plane v) → all_to (g_Name reg) base published_at (cs_plane v').
Proof.
  intros (rec & _ & _ & _ & Hp)%container_provider. destruct 1 as [v s' Hs|v x Hx E|v x Hx E]; [done| |done].
  by apply all_to_step.
Qed.

Lemma container_run_all_to rec0 base v v' : rtc container_step v v' → container_up rec0 (cs_sys v) →
  all_to (g_Name reg) base published_at (cs_plane v) → all_to (g_Name reg) base published_at (cs_plane v').
Proof. induction 1; eauto using container_step_up, container_step_all_to. Qed.

Lemma container_step_plane v v' : container_step v v' → rtc plane_step (cs_plane v) (cs_plane v').
Proof.
  destruct 1 as [v s' Hs|v x Hx E|v x Hx E]; [|by apply rtc_once|apply rtc_refl].
  apply rtc_once, plane_system. by eapply guarded_step.
Qed.

Lemma container_run_plane v v' : rtc container_step v v' → rtc plane_step (cs_plane v) (cs_plane v').
Proof. induction 1; [apply rtc_refl|]. etrans; [by eapply container_step_plane|done]. Qed.

Lemma container_run_accounted rec0 base v v' : rtc container_step v v' → container_up rec0 (cs_sys v) →
  all_to (g_Name reg) base published_at (cs_plane v) →
  accounted (cs_plane v) (cs_plane v) (g_Name reg) base published_at →
  accounted (cs_plane v) (cs_plane v') (g_Name reg) base published_at.
Proof.
  intros Hrun Hu Hto Ha. revert v' Hrun.
  apply (rtc_ind_r (λ v', accounted (cs_plane v) (cs_plane v') (g_Name reg) base published_at)); [done|].
  intros y z Hy Hyz Hya. pose proof (container_run_up _ _ _ Hy Hu) as Huy.
  pose proof (container_run_all_to _ base _ _ Hy Hu Hto) as Hty. pose proof (container_run_plane _ _ Hy) as Hry.
  pose proof (container_step_plane _ _ Hyz) as Hr.
  destruct (container_provider _ _ Huy) as (_ & _ & _ & _ & Hp). destruct Hyz as [v1 s' Hs|v1 x Hx E|v1 x Hx E]; [| |done].
  - by apply accounted_system.
  - by apply (accounted_step _ (cs_plane v1)).
Qed.

(** The steps of the data plane and of requests alone are steps of the scene. *)
Lemma own_run_container v x : rtc plane_own (cs_plane v) x → rtc container_step v (mkCScene x (cs_reqs v)) ∧ dp_sys x = cs_sys v.
Proof.
  revert x. apply (rtc_ind_r (λ x, rtc container_step v (mkCScene x (cs_reqs v)) ∧ dp_sys x = cs_sys v)).
  - destruct v. split; [apply rtc_refl|done].
  - intros y z _ [Hst E] [Hr Ey]. split; [|congruence]. eapply rtc_r; [exact Hr|].
    by apply (container_plane (mkCScene y (cs_reqs v)) z).
Qed.

Lemma own_requests_container v x : rtc own_step (cs_http v) x → rtc container_step v (mkCScene (cs_plane v) (ht_reqs x)) ∧ ht_sys x = cs_sys v.
Proof.
  revert x. apply (rtc_ind_r (λ x, rtc container_step v (mkCScene (cs_plane v) (ht_reqs x)) ∧ ht_sys x = cs_sys v)).
  - destruct v. split; [apply rtc_refl|done].
  - intros y z _ [Hst E] [Hr Ey]. split; [|congruence]. eapply rtc_r; [exact Hr|].
    apply (container_http (mkCScene (cs_plane v) (ht_reqs y)) z); [|unfold cs_sys in *; simpl; congruence].
    unfold cs_http, cs_sys in *. simpl. rewrite <-Ey. by destruct y.
Qed.

(** A connection on its way to the container. *)
Lemma container_connection_gets_through rec0 v c : container_up rec0 (cs_sys v) → r_Kind rec0 = KindTCP →
  AcceptLoop.closed (rt_of (cs_plane v) (g_Name reg)) = false →
  (st_sem (rt_of (cs_plane v) (g_Name reg)) < sem_capacity)%nat →
  (∀ b' p, dp_pipes (cs_plane v) !! (g_Name reg, c) = Some (b', p) → b' = published_at) →
  on_its_way (rt_of (cs_plane v) (g_Name reg)) c published_at →
  ∃ v', rtc container_step v v' ∧ cs_sys v' = cs_sys v ∧ forwarded (cs_plane v') (g_Name reg) c published_at.
Proof.
  intros Hu Hk Hcl Hsem Hp Hw. destruct (container_provider _ _ Hu) as (rec & Hr & _ & (_ & Hk' & _) & Hb).
  destruct (inv_services _ (si_daemon _ (cu_sys _ _ Hu)) _ _ Hr) as ([En _] & _ & _ & [(_ & _ & rt & Hrt & _)|(Hkh & _)]);
    [|by rewrite Hk', Hk in Hkh].
  rewrite En in Hrt. destruct (connection_gets_through (cs_plane v) (g_Name reg) rt published_at c) as (x & Hx & Hf); [done..|].
  destruct (own_run_container v x Hx) as [Hrun E]. by eexists.
Qed.

(** Host names that are clean at the end were so before. *)
Lemma container_step_hosts rec0 v v' : container_up rec0 (cs_sys v) → container_step v v' →
  hosts_clean (s_d (cs_sys v')) → hosts_clean (s_d (cs_sys v)).
Proof.
  intros Hu. destruct 1 as [v s' Hs|v x Hx E|v x Hx E]; [|by unfold cs_sys in *; simpl; rewrite <-E|done].
  eapply hosts_clean_before; [apply Hu|by eapply guarded_step].
Qed.

Lemma container_step_served rec0 q v v' : r_Kind rec0 = KindHTTP → container_up rec0 (cs_sys v) →
  hosts_clean (s_d (cs_sys v)) → container_step v v' →
  all_served q (g_Name reg) (r_Hostname rec0) published_at (cs_http v) →
  all_served q (g_Name reg) (r_Hostname rec0) published_at (cs_http v').
Proof.
  intros Hk Hu Hc. pose proof Hu as (rec & Hr & _ & (_ & Hk' & Hh & _) & Hp)%container_provider.
  destruct 1 as [v s' Hs|v x Hx E|v x Hx E]; intros Ha; [done|done|].
  assert (all_served q (g_Name reg) (r_Hostname rec) published_at x) as Ha'.
  { eapply (all_served_step q (g_Name reg) rec published_at (cs_http v)); [apply Hu|done|done|congruence|done|done|by rewrite Hh]. }
  by rewrite Hh in Ha'.
Qed.

Lemma container_run_served rec0 q v v' : r_Kind rec0 = KindHTTP → container_up rec0 (cs_sys v) →
  rtc container_step v v' → hosts_clean (s_d (cs_sys v')) →
  all_served q (g_Name reg) (r_Hostname rec0) published_at (cs_http v) →
  all_served q (g_Name reg) (r_Hostname rec0) published_at (cs_http v').
Proof.
  intros Hk Hu Hrun Hc Ha. revert v' Hrun Hc.
  apply (rtc_ind_r (λ v', hosts_clean (s_d (cs_sys v')) →
    all_served q (g_Name reg) (r_Hostname rec0) published_at (cs_http v'))); [done|].
  intros y z Hy Hyz IH Hz. pose proof (container_run_up _ _ _ Hy Hu) as Huy.
  pose proof (container_step_hosts _ _ _ Huy Hyz Hz) as Hcy. eapply container_step_served; eauto.
Qed.

End Containers.

(** ** The theorem *)

Section Reach.
Context `{JSON} `{Unicode} `{MapRange}.
Variable allowNonLoopback : bool.

(** A container the watcher has registered. *)
Lemma registerContainer_Ok io w w' reg : registerContainer allowNonLoopback io w = (w', Ok (Some reg)) →
  ∃ k i res, at_inspect (io k) = Some i ∧ in_Running i = Some true ∧ RegistrationFromInspect i allowNonLoopback = Ok reg ∧
    Register (wd_d w) (docker_params reg) (at_env (io k)) = (wd_d w', Ok res).
Proof.
  unfold registerContainer. generalize delays, 0%nat. intros ds. induction ds as [|delay ds IH]; intros k; cbn [register_attempts];
    (destruct (at_inspect (io k)) as [i|] eqn:Ei; [|done]);
    (destruct (decide (in_Running i ≠ Some true)) as [|Hrun]; [done|]);
    destruct (RegistrationFromInspect i allowNonLoopback) as [reg'|e] eqn:Er;
    try (destruct (Register _ _ _) as [d' [res|e']] eqn:ER; [|done]; intros [= <- <-]; exists k, i, res;
      split_and!; try done; destruct (in_Running i) as [[]|]; naive_solver).
  - by destruct e.
  - destruct e; try done. destruct (at_cancelled _); [done|apply IH].
Qed.

Lemma registered_docker i reg : RegistrationFromInspect i allowNonLoopback = Ok reg →
  isLoopbackIP (g_BackendHost reg) = true ∧ HasPrefix (g_OwnerKey reg) "docker:" = true.
Proof.
  intros (parsed & ports & b0 & rest & _ & _ & _ & _ & _ & (Hl & _ & _ & Eo & _)%registration_of_Ok)%RegistrationFromInspect_Ok.
  split; [done|]. rewrite Eo. apply OwnerKey_docker.
Qed.

(** C14: From a container to its users: once the watcher has registered a labeled container,
    then for as long as the watcher neither forgets the container nor registers another one for
    the service (it may register the container again), in every interleaving with everything
    else that the system does, the accept loops, the forwarders and HTTP requests, the
    container's service stays ready at the same frontend; every connection accepted on it since
    is forwarded, or on its way (and can then be brought there by the data plane alone, while
    the TCP frontend is open and has a free slot), or was turned away because all slots were
    taken, the frontend was being closed or the dial failed; the forwarded ones go to the
    loopback address the container's port is published at, each side being given a prefix of
    what the other sent, and all of it before the end of the stream unless a connection failed;
    and if it is an HTTP service, then while the registered host names are DNS-style names every
    request to the authority of its URL that has its answer was sent there, with its path, the
    service's host name and its cleaned query, and never answered 404 or 503, and one that has
    not can always be brought there. *)
Theorem connections_reach_the_container io w w' reg q x0 x1 dels ends iss lost :
  plane_start x0 → rtc plane_step x0 x1 → dp_sys x1 = mkSys (wd_d w) None dels ends iss lost →
  (∀ k, env_ok (wd_d w) (at_env (io k)) ∧ iss !! e_newID (at_env (io k)) = None) → iss !! g_ContainerID reg = None →
  registerContainer allowNonLoopback io w = (w', Ok (Some reg)) →
  ∃ rec,
    let s1 := mkSys (wd_d w') None dels ends iss lost in
    let http := d_HTTP (wd_d w') in
    let auth := authority (ro_scheme http) (ro_port http) (r_Hostname rec) in
    isLoopbackIP (g_BackendHost reg) = true ∧ Resolve (d_Registry (wd_d w')) (g_Name reg) = Some rec ∧
    rtc step (mkSys (wd_d w) None dels ends iss lost) s1 ∧
    ∀ v, rtc (container_step reg) (mkCScene (mkPlane s1 (dp_rts x1) (dp_pipes x1)) q) v →
      (∃ rec', Resolve (d_Registry (s_d (cs_sys v))) (g_Name reg) = Some rec' ∧
         r_Status rec' = StatusReady ∧ r_Frontend rec' = r_Frontend rec) ∧
      backendProvider (s_d (cs_sys v)) (g_Name reg) = Some (published_at reg) ∧
      (∀ c, (st_accepted (rt_of x1 (g_Name reg)) ≤ c < st_accepted (rt_of (cs_plane v) (g_Name reg)))%nat →
         connection_ok (mkPlane s1 (dp_rts x1) (dp_pipes x1)) (cs_plane v) (g_Name reg) (published_at reg) c ∧
         (r_Kind rec = KindTCP → AcceptLoop.closed (rt_of (cs_plane v) (g_Name reg)) = false →
            (st_sem (rt_of (cs_plane v) (g_Name reg)) < sem_capacity)%nat →
            on_its_way (rt_of (cs_plane v) (g_Name reg)) c (published_at reg) →
            ∃ v', rtc (container_step reg) v v' ∧ cs_sys v' = cs_sys v ∧
              forwarded (cs_plane v') (g_Name reg) c (published_at reg))) ∧
      (∀ c b p, (st_accepted (rt_of x1 (g_Name reg)) ≤ c)%nat → dp_pipes (cs_plane v) !! (g_Name reg, c) = Some (b, p) →
        b = published_at reg ∧
        ∀ fl, fl = pi_up p ∨ fl = pi_down p →
          fl_delivered fl `prefix_of` fl_sent fl ∧
          (fl_fin fl = true → fl_broken fl = true ∨ (fl_eof fl = true ∧ fl_delivered fl = fl_sent fl))) ∧
      (r_Kind rec = KindHTTP → hosts_clean (s_d (cs_sys v)) →
        f_URL (r_Frontend rec) = url_string (ro_scheme http) auth ∧
        ∀ i req ph, q !! i = None → cs_reqs v !! i = Some (req, ph) → in_Host req = auth →
          (∀ ans, ph = HttpPlane.Answered ans →
             ∃ out, (ans = BadGateway out ∨ ∃ status, ans = Relayed out status) ∧
               forwards req (r_Hostname rec) (published_at reg) out) ∧
          (pending ph →
             ∃ v' out, rtc (container_step reg) v v' ∧ cs_sys v' = cs_sys v ∧
               cs_reqs v' !! i = Some (req, Sent (g_Name reg) out) ∧
               forwards req (r_Hostname rec) (published_at reg) out)).
Proof.
  intros H0' Hrun Esys Henv Hc (k & i & res & _ & _ & Ei & HR)%registerContainer_Ok.
  destruct (registered_docker _ _ Ei) as [Hl Hpre]. destruct (Henv k) as [He Hf].
  assert (sys_inv (mkSys (wd_d w) None dels ends iss lost)) as Hs.
  { rewrite <-Esys. eapply rtc_inv; [by apply plane_run_system|]. apply init_inv, H0'. }
  destruct (container_registered reg Hpre _ dels ends iss lost _ _ _ Hs (docker_params_ok _ _ _ Ei) He Hf Hc HR)
    as (rec & Hr & _ & Hst & Hu).
  exists rec. split_and!; [done..|]. intros v Hv.
  pose proof (container_run_up reg Hpre _ _ _ Hv Hu) as Huv.
  destruct (container_provider reg _ _ Huv) as (rec' & Hr' & (_ & Hrdy & _) & (_ & Hk' & Hh & Hfr) & Hp).
  pose proof (all_to_start x1 (g_Name reg) (published_at reg) (plane_run_numbered x0 x1 H0' Hrun)) as Hto0.
  pose proof (container_run_all_to reg Hpre rec (st_accepted (rt_of x1 (g_Name reg))) _ _ Hv Hu Hto0) as Hto.
  split_and!; [by exists rec'|done| | |].
  - intros c Hbase. split.
    + by apply (container_run_accounted reg Hpre rec _ _ _ Hv Hu Hto0 (accounted_start _ _ _)).
    + intros Hk Hcl Hsem Hway. eapply container_connection_gets_through; try done.
      intros b' p Hpi. by apply (proj2 (Hto c ltac:(lia)) b' p).
  - intros c b p Hbase Hpi.
    destruct (proj2 (Hto c Hbase) _ _ Hpi) as [-> Hpr]. split; [done|]. apply forwarder_is_transparent in Hpr. apply Hpr.
  - intros Hk Hclean. assert (clean_host (r_Hostname rec)) as Hch.
    { rewrite <-Hh. apply (Hclean _ _ Hr'). congruence. }
    split; [exact (http_frontend_url _ _ _ (si_daemon _ (cu_sys _ _ _ Hu)) Hr Hk Hch)|].
    intros j req ph Hq Hj Eh.
    assert (all_served q (g_Name reg) (r_Hostname rec) (published_at reg) (cs_http v)) as Hall.
    { eapply (container_run_served reg Hpre rec q (mkCScene (mkPlane _ _ _) _) v Hk Hu Hv Hclean).
      split; [done|]. intros j' req' ph' Hj1 Hj2. simpl in Hj2. congruence. }
    split.
    + intros ans ->. by eapply (served_answer q (g_Name reg) _ _ (cs_http v)).
    + intros Hpend.
      destruct (request_gets_through q (g_Name reg) rec' (published_at reg) (cs_http v) j req ph) as (x & out & Hx & Hsent & Hfw);
        rewrite ?Hh; try done; [|by rewrite Eh, normalizeHost_authority|].
      * split_and!; [apply Huv|done..|congruence|done].
      * destruct (own_requests_container reg v x Hx) as [Hrun' _]. rewrite Hh in Hfw. by eexists _, out.
Qed.
End Reach.
