(* ===== verification/WatcherRun.v ===== *)
(** * internal/dockerwatch: the life of the watcher

    [Run], [reconcileWithRetry] and [eventLoop] of [watcher.go]: the watcher's
    goroutine as a state machine that is driven by what happens around it
    (Docker's answers, events, timers, the end of the context).  One step is
    one pass through a [select] or one reconciliation. *)

From S2P Require Import Prelude GoStrings GoNet Registry Lease State Runtime Router Config Daemon DaemonInv DaemonSpec DaemonSystem Dockerwatch.
From Stdlib Require Import Ascii.
Local Open Scope Z_scope.

(** Where the goroutine is: in the loop of [reconcileWithRetry], before its
    [n]-th attempt or waiting after it; in [eventLoop]; waiting to reconnect;
    about to reconcile after that wait; or done. *)
Inductive Phase :=
| Connecting (n : nat) (backoff : Z)
| Retrying (n : nat) (backoff : Z)
| Streaming
| Waiting
| Repairing
| Stopped.

Record WRun := mkRun {
  wr_w : Watched;
  wr_phase : Phase;
  wr_backoff : Z;
  wr_cancelled : bool
}.

(** What drives the goroutine. *)
Inductive Event :=
| Cancel                                  (* the context ends *)
| Noticed                                 (* the goroutine looks at ctx.Done() or ctx.Err() *)
| Reconciled (listing : option (list Summary)) (io : nat → nat → Attempt) (clock : nat → Z)
| Timer                                   (* time.After *)
| Message (action id : string) (io : nat → Attempt) (now : Z)
| Tick (listing : option (list Summary)) (io : nat → nat → Attempt) (clock : nat → Z)
| StreamEnd                               (* an error, or a closed channel *)
| Others (d : Daemon).                    (* what the daemon's other users do to it *)

Definition StatusConnected : string := "connected".
Definition StatusDegraded : string := "degraded".

Definition with_phase (p : Phase) (s : WRun) : WRun := mkRun (wr_w s) p (wr_backoff s) (wr_cancelled s).
Definition with_watched (w : Watched) (s : WRun) : WRun := mkRun w (wr_phase s) (wr_backoff s) (wr_cancelled s).
Definition with_backoff (b : Z) (s : WRun) : WRun := mkRun (wr_w s) (wr_phase s) b (wr_cancelled s).

(** [setStatus], through [OnStatus]. *)
Definition setStatus (status : string) (s : WRun) : WRun :=
  with_watched (mkWatched (SetDockerStatus status (wd_d (wr_w s))) (wd_tracked (wr_w s))) s.

(** The top of the loop of [Run]: the context is checked, then events are read. *)
Definition loop_top (s : WRun) : WRun :=
  with_phase (if wr_cancelled s then Stopped else Streaming) s.

Section Run.
Context `{JSON} `{Unicode} `{MapRange}.
Variable allowNonLoopback : bool.

(** [NewWatcher] and the start of [Run]. *)
Definition NewWatcher (d : Daemon) : WRun :=
  mkRun (mkWatched d ∅) (Connecting 0 (250 * Millisecond)) Second false.

(** One step; [None] when the event does not concern the goroutine where it is. *)
Definition run_step (ev : Event) (s : WRun) : option WRun :=
  match ev, wr_phase s with
  | Cancel, _ => Some (mkRun (wr_w s) (wr_phase s) (wr_backoff s) true)
  | Others d, _ => Some (with_watched (mkWatched d (wd_tracked (wr_w s))) s)
  | _, Stopped => None
  (* reconcileWithRetry *)
  | Noticed, (Connecting _ _ | Retrying _ _ | Streaming | Waiting) =>
    if wr_cancelled s then Some (with_phase Stopped s) else None
  | Reconciled listing io clock, Connecting n b =>
    if wr_cancelled s then None
    else
      let '(w, ok) := Reconcile allowNonLoopback listing io clock (wr_w s) in
      Some (if ok then loop_top (setStatus StatusConnected (with_watched w s))
            else with_phase (Retrying n b) (with_watched w s))
  | Timer, Retrying n b =>
    if decide (S n < 5)%nat then Some (with_phase (Connecting (S n) (int64 (b * 2))) s)
    else if wr_cancelled s then Some (with_phase Stopped s)
    else Some (loop_top (setStatus StatusDegraded s))
  (* eventLoop *)
  | Message action id io now, Streaming =>
    Some (with_watched (handleEvent allowNonLoopback action id io now (wr_w s)) s)
  | Tick listing io clock, Streaming =>
    Some (with_watched (Reconcile allowNonLoopback listing io clock (wr_w s)).1 s)
  | StreamEnd, Streaming =>
    if wr_cancelled s then Some (with_phase Stopped s)
    else Some (with_phase Waiting (setStatus StatusDegraded s))
  (* the rest of the loop of Run *)
  | Timer, Waiting =>
    let b := int64 (wr_backoff s * 2) in
    Some (with_phase Repairing (with_backoff (if decide (30 * Second < b) then 30 * Second else b) s))
  | Reconciled listing io clock, Repairing =>
    let '(w, ok) := Reconcile allowNonLoopback listing io clock (wr_w s) in
    Some (if ok then loop_top (with_backoff Second (setStatus StatusConnected (with_watched w s)))
          else loop_top (with_watched w s))
  | _, _ => None
  end.

(** A sequence of events, each of which concerned the goroutine. *)
Fixpoint run_steps (evs : list Event) (s : WRun) : option WRun :=
  match evs with
  | [] => Some s
  | ev :: evs => match run_step ev s with Some s' => run_steps evs s' | None => None end
  end.

End Run.

(** ** The status is the watcher's *)

Section Facts.
Context `{JSON} `{Unicode} `{MapRange}.

Lemma Register_status d p env : d_dockerStatus (Daemon.Register d p env).1 = d_dockerStatus d.
Proof.
  unfold Daemon.Register, commit. destruct (prepare d p env) as [pr|]; [|done].
  assert (d_dockerStatus (retire_previous d (p_Name p) pr) = d_dockerStatus d) as E1.
  { unfold retire_previous. repeat (case_match || case_decide); done. }
  assert (∀ d0, d_dockerStatus (assign_frontend d0 p pr env).1 = d_dockerStatus d0) as E2.
  { intros d0. unfold assign_frontend. repeat (case_match || case_decide); simplify_eq; done. }
  specialize (E2 (retire_previous d (p_Name p) pr)). rewrite E1 in E2.
  destruct (assign_frontend _ _ _ _) as [d1 [f|e]]; simpl in E2; [|done].
  destruct (CreateOrReplaceOwned _ _ _) as [r [rec|e]]; [|done].
  unfold grant_lease, install_route. repeat (case_match || case_decide); simplify_eq; done.
Qed.

Lemma endPublication_status now d name producer :
  d_dockerStatus (endPublication now d name producer).1 = d_dockerStatus d.
Proof. unfold endPublication. by destruct (ClearBackendIf _ _ _ _). Qed.

Lemma register_attempts_status allow ds k io w :
  d_dockerStatus (wd_d (register_attempts allow ds k io w).1) = d_dockerStatus (wd_d w).
Proof.
  revert k. induction ds as [|x ds IH]; intros k; cbn [register_attempts];
    (destruct (at_inspect (io k)) as [i|]; [|done]); (case_decide; [done|]);
    destruct (RegistrationFromInspect i allow) as [reg|e];
    try (pose proof (Register_status (wd_d w) (docker_params reg) (at_env (io k))) as E;
         destruct (Daemon.Register _ _ _) as [d' [res|c]]; exact E).
  - by destruct e.
  - destruct e; try done. destruct (at_cancelled _); [done|apply IH].
Qed.

Lemma reconcile_list_status allow io i cs w seen :
  d_dockerStatus (wd_d (reconcile_list allow io i cs w seen).1) = d_dockerStatus (wd_d w).
Proof.
  revert i w seen. induction cs as [|c cs IH]; intros i w seen; cbn [reconcile_list]; [done|].
  destruct (ParseLabels _) as [l|]; [destruct (l_Enabled l); simpl|]; rewrite IH; try done.
  apply register_attempts_status.
Qed.

Lemma forget_all_status l w :
  d_dockerStatus (wd_d (foldl (λ w tr, forget tr.1 w tr.2) w l)) = d_dockerStatus (wd_d w).
Proof.
  revert w. induction l as [|tr l IH]; intros w; simpl; [done|]. rewrite IH. apply endPublication_status.
Qed.

Lemma Reconcile_status allow listing io clock w :
  d_dockerStatus (wd_d (Reconcile allow listing io clock w).1) = d_dockerStatus (wd_d w).
Proof.
  unfold Reconcile. destruct listing as [cs|]; [|done].
  pose proof (reconcile_list_status allow io 0 cs w ∅) as E.
  destruct (reconcile_list _ _ _ _ _ _) as [w1 seen]. simpl in *. by rewrite forget_all_status.
Qed.

Lemma handleEvent_status allow action id io now w :
  d_dockerStatus (wd_d (handleEvent allow action id io now w)) = d_dockerStatus (wd_d w).
Proof.
  unfold handleEvent. case_decide; [apply register_attempts_status|]. case_decide; [|done].
  destruct (_ !! id); [|done]. apply endPublication_status.
Qed.

End Facts.

(** ** Invariants of a run *)

Section Invariants.
Context `{JSON} `{Unicode} `{MapRange}.
Variable service_of : string → string.
Variable allowNonLoopback : bool.

(** Docker answers consistently, and the daemon's other users neither publish
    Docker services nor report Docker's status. *)
Definition event_ok (ev : Event) (s : WRun) : Prop :=
  match ev with
  | Reconciled _ io _ | Tick _ io _ => ∀ k, attempts_ok service_of allowNonLoopback (io k)
  | Message _ _ io _ => attempts_ok service_of allowNonLoopback io
  | Others d =>
    d_dockerStatus d = d_dockerStatus (wd_d (wr_w s)) ∧
    ∀ name rec, d_Registry d !! name = Some rec → r_Source rec = SourceDocker → r_Status rec = StatusReady →
      ∃ rec', d_Registry (wd_d (wr_w s)) !! name = Some rec' ∧ r_Source rec' = SourceDocker ∧
        r_Status rec' = StatusReady ∧ r_ProducerID rec' = r_ProducerID rec
  | _ => True
  end.

(** The states of a watcher that was started on [d]. *)
Inductive watcher_reaches (d : Daemon) : WRun → Prop :=
| watcher_start : watcher_reaches d (NewWatcher d)
| watcher_step s ev s' :
    watcher_reaches d s → event_ok ev s → run_step allowNonLoopback ev s = Some s' → watcher_reaches d s'.

Definition status (s : WRun) : string := d_dockerStatus (wd_d (wr_w s)).

(** The first attempts are at most five, their pauses 250 ms to 4 s. *)
Definition phase_ok (p : Phase) : Prop :=
  match p with
  | Connecting n b | Retrying n b => (n < 5)%nat ∧ b = 250 * Millisecond * 2 ^ Z.of_nat n
  | _ => True
  end.

Definition run_inv (s : WRun) : Prop :=
  watch_inv service_of (wr_w s) ∧ phase_ok (wr_phase s) ∧ Second ≤ wr_backoff s ≤ 30 * Second ∧
  (status s = StatusConnected ∧ (wr_phase s = Streaming ∨ wr_phase s = Stopped) ∨ status s = StatusDegraded).

Lemma watch_inv_Others w d : watch_inv service_of w → event_ok (Others d) (mkRun w Streaming 0 false) →
  watch_inv service_of (mkWatched d (wd_tracked w)).
Proof.
  intros [Ht Hb] [_ Ho]. split; [done|]. intros name rec Hr Hs Hst. simpl.
  destruct (Ho name rec Hr Hs Hst) as (rec' & Hr' & Hs' & Hst' & <-). by apply Hb.
Qed.

Lemma Reconcile_watch listing io clock w :
  (∀ k, attempts_ok service_of allowNonLoopback (io k)) → watch_inv service_of w →
  watch_inv service_of (Reconcile allowNonLoopback listing io clock w).1.
Proof.
  intros Hio Hw. destruct listing as [cs|]; [|done].
  destruct (Reconcile _ _ _ _ _) as [w' ok] eqn:E. by apply (Reconcile_managed service_of) in E as (_ & ? & _).
Qed.

Lemma phase_ok_Timer n b : phase_ok (Retrying n b) → (S n < 5)%nat → phase_ok (Connecting (S n) (int64 (b * 2))).
Proof.
  intros [Hn ->] HS. split; [done|]. change Millisecond with 1000000.
  do 4 (destruct n as [|n]; [vm_compute; reflexivity|]). lia.
Qed.

(** A status with the phases it may be reported in. *)
Definition status_ok (st : string) (p : Phase) : Prop :=
  st = StatusConnected ∧ (p = Streaming ∨ p = Stopped) ∨ st = StatusDegraded.

Lemma status_ok_stopped st p : status_ok st p → status_ok st Stopped.
Proof. unfold status_ok. naive_solver. Qed.

Lemma status_ok_early st p p' : status_ok st p → p ≠ Streaming → p ≠ Stopped → status_ok st p'.
Proof. unfold status_ok. naive_solver. Qed.

Lemma run_inv_mk w p b c :
  watch_inv service_of w → phase_ok p → Second ≤ b ≤ 30 * Second → status_ok (d_dockerStatus (wd_d w)) p →
  run_inv (mkRun w p b c).
Proof. by intros ????. Qed.

Lemma top_phase (c : bool) : let p := if c then Stopped else Streaming in
  phase_ok p ∧ ∀ st, st = StatusConnected ∨ st = StatusDegraded → status_ok st p.
Proof. unfold status_ok. destruct c; naive_solver. Qed.

Lemma status_ok_cases st p : status_ok st p → st = StatusConnected ∨ st = StatusDegraded.
Proof. unfold status_ok. naive_solver. Qed.

Lemma reconciled_inv listing io clock w p b c s' :
  run_inv (mkRun w p b c) → (∀ k, attempts_ok service_of allowNonLoopback (io k)) →
  run_step allowNonLoopback (Reconciled listing io clock) (mkRun w p b c) = Some s' → run_inv s'.
Proof.
  intros (Hw & Hp & Hb & Hst) Hio. simpl in *. change (status_ok (d_dockerStatus (wd_d w)) p) in Hst.
  pose proof (Reconcile_watch listing io clock w Hio Hw) as Hw'.
  pose proof (Reconcile_status allowNonLoopback listing io clock w) as Es.
  destruct (Reconcile _ _ _ _ _) as [w' ok]. simpl in *. destruct (top_phase c) as [Ht1 Ht2].
  destruct p; try done.
  - destruct c; [done|]. intros [= <-]. destruct ok; apply run_inv_mk; simpl; rewrite ?Es; try done.
    + apply Ht2. by left.
    + by eapply status_ok_early.
  - intros [= <-]. destruct ok; apply run_inv_mk; simpl; rewrite ?Es; try done.
    + apply Ht2. by left.
    + by eapply Ht2, status_ok_cases.
Qed.

Lemma timer_inv w p b c s' :
  run_inv (mkRun w p b c) → run_step allowNonLoopback Timer (mkRun w p b c) = Some s' → run_inv s'.
Proof.
  intros (Hw & Hp & Hb & Hst). simpl in *. change (status_ok (d_dockerStatus (wd_d w)) p) in Hst.
  destruct (top_phase c) as [Ht1 Ht2]. destruct p as [|n b'| | | |]; try done.
  - case_decide as Hn.
    + intros [= <-]. apply run_inv_mk; [done|by apply phase_ok_Timer|done|by eapply status_ok_early].
    + destruct c; intros [= <-]; apply run_inv_mk; try done; [by eapply status_ok_stopped|].
      apply Ht2. by right.
  - intros [= <-]. apply run_inv_mk; [done|done| |by eapply status_ok_early].
    change Second with 1000000000 in *. rewrite int64_id by (unfold in_int64; lia). cbn [wr_backoff with_backoff]. case_decide; lia.
Qed.

Lemma streaming_inv w p b c ev s' :
  (∃ action id io now, ev = Message action id io now) ∨ (∃ l io clock, ev = Tick l io clock) ∨ ev = StreamEnd →
  run_inv (mkRun w p b c) → event_ok ev (mkRun w p b c) →
  run_step allowNonLoopback ev (mkRun w p b c) = Some s' → run_inv s'.
Proof.
  intros Hcase (Hw & Hp & Hb & Hst) Hev. simpl in *. change (status_ok (d_dockerStatus (wd_d w)) p) in Hst.
  destruct Hcase as [(action & id & io & now & ->)|[(l & io & clock & ->)| ->]]; simpl in *; destruct p; try done.
  - intros [= <-]. apply run_inv_mk; [by apply handleEvent_watch|done|done|by rewrite handleEvent_status].
  - intros [= <-]. apply run_inv_mk; [by apply Reconcile_watch|done|done|by rewrite Reconcile_status].
  - destruct c; intros [= <-]; apply run_inv_mk; try done; [by eapply status_ok_stopped|by right].
Qed.

Lemma run_step_inv s ev s' : run_inv s → event_ok ev s → run_step allowNonLoopback ev s = Some s' → run_inv s'.
Proof.
  destruct s as [w p b c]. intros Hs Hev Hstep.
  destruct ev as [| |listing io clock| |action id io now|listing io clock| |d].
  - injection Hstep as <-. done.
  - destruct Hs as (Hw & Hp & Hb & Hst). destruct p, c; simplify_eq/=; apply run_inv_mk; try done;
      by eapply status_ok_stopped.
  - by eapply reconciled_inv.
  - by eapply timer_inv.
  - eapply streaming_inv; [|exact Hs|exact Hev|exact Hstep]. left. eauto.
  - eapply streaming_inv; [|exact Hs|exact Hev|exact Hstep]. right. left. eauto.
  - eapply streaming_inv; [|exact Hs|exact Hev|exact Hstep]. right. by right.
  - injection Hstep as <-. destruct Hs as (Hw & Hp & Hb & Hst). destruct Hev as [Es Ho].
    apply run_inv_mk; try done; [|simpl in *; by rewrite Es]. by apply watch_inv_Others.
Qed.

Lemma watcher_reaches_inv d s :
  d_Registry d = ∅ → d_dockerStatus d = StatusDegraded → watcher_reaches d s → run_inv s.
Proof.
  intros Hr Hd Hreach. induction Hreach as [|s ev s' _ IH Hev Hstep]; [|by eapply run_step_inv].
  apply run_inv_mk; [|by split; [lia|]|done|by right]. split; [apply map_Forall_empty|].
  intros name rec. simpl. by rewrite Hr.
Qed.

(** After a pass that got a listing, ready Docker services are in it. *)
Lemma reconciled_managed s ev cs io clock s' :
  run_inv s → event_ok ev s → run_step allowNonLoopback ev s = Some s' →
  ev = Tick (Some cs) io clock ∨ ev = Reconciled (Some cs) io clock →
  ∀ name rec, Resolve (d_Registry (wd_d (wr_w s'))) name = Some rec → r_Source rec = SourceDocker →
    r_Status rec = StatusReady → managed cs (r_ProducerID rec).
Proof.
  intros Hs Hev Hstep Hcase.
  assert (∀ k, attempts_ok service_of allowNonLoopback (io k)) as Hio by by destruct Hcase as [-> | ->].
  destruct Hs as (Hw & _). destruct s as [w p b c]. simpl in *.
  destruct (Reconcile allowNonLoopback (Some cs) io clock w) as [w' ok] eqn:E.
  pose proof (Reconcile_managed service_of _ _ _ _ _ _ _ Hio Hw E) as (-> & _ & _ & Hm).
  assert (d_Registry (wd_d (wr_w s')) = d_Registry (wd_d w')) as ->; [|done].
  destruct Hcase as [-> | ->]; unfold run_step in Hstep; cbn [wr_phase wr_w wr_cancelled] in Hstep;
    rewrite E in Hstep; destruct p, c; by simplify_eq/=.
Qed.

(** C19: Through every sequence of events of the watcher's run (initial retries, messages,
    ticks, stream failures, back-off, reconnects, cancellation) tracked containers and ready
    Docker services correspond, the back-off stays between 1 and 30 seconds and the reported
    status is connected or degraded; and after every successful reconciliation only containers
    of the listing are behind ready Docker services. *)
Theorem watcher_run_invariant d s :
  d_Registry d = ∅ → d_dockerStatus d = StatusDegraded → watcher_reaches d s →
  run_inv s ∧
  ∀ ev cs io clock s', event_ok ev s → run_step allowNonLoopback ev s = Some s' →
    ev = Tick (Some cs) io clock ∨ ev = Reconciled (Some cs) io clock →
    ∀ name rec, Resolve (d_Registry (wd_d (wr_w s'))) name = Some rec → r_Source rec = SourceDocker →
      r_Status rec = StatusReady → managed cs (r_ProducerID rec).
Proof.
  intros Hr Hd Hreach. assert (run_inv s) as Hs by by eapply watcher_reaches_inv.
  split; [done|]. intros ev cs io clock s' Hev Hstep Hcase. by eapply reconciled_managed.
Qed.

(** While the event stream works, messages and successful reconciliations do not change a
    degraded status: it lasts until the stream breaks and is repaired. *)
Theorem docker_status_sticks s evs s' :
  wr_phase s = Streaming → status s = StatusDegraded →
  Forall (λ ev, match ev with Message _ _ _ _ | Tick _ _ _ => True | _ => False end) evs →
  run_steps allowNonLoopback evs s = Some s' →
  wr_phase s' = Streaming ∧ status s' = StatusDegraded.
Proof.
  intros Hp Hst Hevs. revert s Hp Hst. induction Hevs as [|ev evs Hev _ IH]; intros s Hp Hst; simpl.
  { by intros [= <-]. }
  destruct (run_step _ ev s) as [s1|] eqn:E; [|done]. apply IH.
  - destruct ev; try done; simpl in E; rewrite Hp in E; by simplify_eq/=.
  - unfold status in *. destruct ev; try done; simpl in E; rewrite Hp in E; simplify_eq/=;
      by rewrite ?handleEvent_status, ?Reconcile_status.
Qed.

End Invariants.
