(* ===== verification/DockerApi.v ===== *)
(** * internal/dockerwatch/docker.go: the Docker engine client

    The interface [DockerAPI] as a class of operations on the state of the
    engine, the client that forwards each of them to the Docker SDK, whose own
    operations are a parameter, and, in a class of its own, what the callers
    rely on.  A client that keeps a list of its calls is another instance. *)

From S2P Require Import Prelude GoStrings GoNet Registry Lease State Runtime Router Config Daemon DaemonInv DaemonSpec DaemonSystem Dockerwatch.

(** What [ContainerCreate] is given: the image, the command, the exposed ports
    and the bindings of their host side. *)
Record ContainerSpec := mkSpec {
  cn_Image : string;
  cn_Cmd : list string;
  cn_Exposed : list string;
  cn_Bindings : gmap string (list PortBinding)
}.

(** [None] and [false] are errors; a context that ends is one of them. *)
Class DockerAPI (E : Type) := {
  Stream : Type;
  ContainerList : E → E * option (list Summary);
  ContainerInspect : string → E → E * option InspectResponse;
  ContainerCreate : ContainerSpec → E → E * option string;
  ContainerStart : string → E → E * bool;
  ContainerRemove : string → bool → E → E * bool;
  ImageList : E → E * option (list (list string));
  Events : E → E * Stream;
  CloseAPI : E → E * bool
}.

(** ** The client *)

(** The methods of the SDK's client, and its constructor. *)
Class DockerSDK (E : Type) := {
  cli_Stream : Type;
  cli_ContainerList : E → E * option (list Summary);
  cli_ContainerInspect : string → E → E * option InspectResponse;
  cli_ContainerCreate : ContainerSpec → E → E * option string;
  cli_ContainerStart : string → E → E * bool;
  cli_ContainerRemove : string → bool → E → E * bool;
  cli_ImageList : E → E * option (list (list string));
  cli_Events : E → E * cli_Stream;
  cli_Close : E → E * bool;
  NewClientWithOpts : option E
}.

Definition dockerClient {E} `{DockerSDK E} : DockerAPI E := {|
  Stream := cli_Stream;
  ContainerList := cli_ContainerList;
  ContainerInspect := cli_ContainerInspect;
  ContainerCreate := cli_ContainerCreate;
  ContainerStart := cli_ContainerStart;
  ContainerRemove := cli_ContainerRemove;
  ImageList := cli_ImageList;
  Events := cli_Events;
  CloseAPI := cli_Close
|}.

(** [NewClient]: the connection, or the error of its options. *)
Definition NewClient {E} `{DockerSDK E} : option E := NewClientWithOpts.

(** ** What the callers rely on *)

(** The containers made through the connection that are still there: a new one
    has an ID of its own, a removal that succeeds removes, and no other call
    than a creation adds one; anybody else may remove some at any time.  Of a
    creation that fails nothing is known: its request may have been carried out
    when its context ended. *)
Class DockerLaws (E : Type) `{DockerAPI E} := {
  containers : E → gset string;
  list_containers e : containers (ContainerList e).1 ⊆ containers e;
  inspect_containers id e : containers (ContainerInspect id e).1 ⊆ containers e;
  create_containers spec e e' id :
    ContainerCreate spec e = (e', Some id) → id ∉ containers e ∧ containers e' ⊆ {[id]} ∪ containers e;
  start_containers id e : containers (ContainerStart id e).1 ⊆ containers e;
  remove_containers id e e' : ContainerRemove id true e = (e', true) → containers e' ⊆ containers e ∖ {[id]};
  remove_fails id e e' : ContainerRemove id true e = (e', false) → containers e' ⊆ containers e;
  images_containers e : containers (ImageList e).1 ⊆ containers e
}.

(** ** A client that keeps a list *)

Inductive engine_call :=
| CallList
| CallInspect (id : string)
| CallCreate (image : string)
| CallStart (id : string)
| CallRemove (id : string) (force : bool)
| CallImageList
| CallEvents
| CallClose.

#[global] Instance engine_call_eq_dec : EqDecision engine_call.
Proof. solve_decision. Defined.

(** A call, put on the list. *)
Definition recorded {E A} (c : engine_call) (call : E → E * A) (e : list engine_call * E) :
  (list engine_call * E) * A :=
  let '(e', a) := call e.2 in ((e.1 ++ [c], e'), a).

Definition recording {E} `{DockerAPI E} : DockerAPI (list engine_call * E) := {|
  Stream := Stream;
  ContainerList := recorded CallList ContainerList;
  ContainerInspect id := recorded (CallInspect id) (ContainerInspect id);
  ContainerCreate spec := recorded (CallCreate (cn_Image spec)) (ContainerCreate spec);
  ContainerStart id := recorded (CallStart id) (ContainerStart id);
  ContainerRemove id force := recorded (CallRemove id force) (ContainerRemove id force);
  ImageList := recorded CallImageList ImageList;
  Events := recorded CallEvents Events;
  CloseAPI := recorded CallClose CloseAPI
|}.
