(* ===== verification/WatcherEngine.v ===== *)
(** * internal/dockerwatch/watcher.go: the watcher on an engine

    The watcher's handlers and its run with every call they make of the engine
    client, over the interface of [DockerApi.v].  What [Dockerwatch.v] and
    [WatcherRun.v] take as Docker's answers is here what the engine says when
    it is asked; a run on an engine is a run of the machine of [WatcherRun.v]. *)

From S2P Require Import Prelude GoStrings GoNet Registry Lease State Runtime Router Config Daemon DaemonInv DaemonSpec DaemonSystem Dockerwatch WatcherRun DockerApi.
From Stdlib Require Import Ascii.
Local Open Scope Z_scope.

(** What the environment contributes to an attempt besides the engine. *)
Record Around := mkAround { ar_env : Env; ar_cancelled : bool }.

(** What drives the goroutine, without the engine's answers. *)
Inductive EngineEvent :=
| OnCancel
| OnNoticed
| OnReconcile (arounds : nat → nat → Around) (clock : nat → Z)
| OnTimer
| OnMessage (action id : string) (around : nat → Around) (now : Z)
| OnTick (arounds : nat → nat → Around) (clock : nat → Z)
| OnStreamEnd
| OnOthers (d : Daemon).

Section Engine.
Context {E : Type} `{DockerAPI E} `{JSON} `{Unicode} `{MapRange}.
Variable allowNonLoopback : bool.

(** [listContainers] and [inspectContainer]: a call that exceeds its deadline
    fails. *)
Definition listContainers : E → E * option (list Summary) := ContainerList.
Definition inspectContainer (id : string) : E → E * option InspectResponse := ContainerInspect id.

(** [registerContainer]. *)
Fixpoint attempts_on (id : string) (ds : list Z) (attempt : nat) (around : nat → Around) (e : E) (w : Watched) :
  E * (Watched * result (option Registration) WatchError) :=
  let '(e, inspect) := inspectContainer id e in
  match inspect with
  | None => (e, (w, Err InspectFailed))
  | Some i =>
    if decide (in_Running i ≠ Some true) then (e, (w, Ok None))
    else match RegistrationFromInspect i allowNonLoopback with
    | Ok reg =>
      match Register (wd_d w) (docker_params reg) (ar_env (around attempt)) with
      | (d', Err err) => (e, (mkWatched d' (wd_tracked w), Err (RegisterFailed err)))
      | (d', Ok _) => (e, (mkWatched d' (<[g_ContainerID reg := reg]> (wd_tracked w)), Ok (Some reg)))
      end
    | Err (ErrNotPublished port) =>
      match ds with
      | [] => (e, (w, Err (BadInspect (ErrNotPublished port))))
      | _ :: ds =>
        if ar_cancelled (around attempt) then (e, (w, Err Cancelled))
        else attempts_on id ds (S attempt) around e w
      end
    | Err err => (e, (w, Err (BadInspect err)))
    end
  end.

Definition registerContainer_on (id : string) (around : nat → Around) (e : E) (w : Watched) :
  E * (Watched * result (option Registration) WatchError) :=
  attempts_on id delays 0 around e w.

(** [Reconcile]. *)
Fixpoint reconcile_list_on (arounds : nat → nat → Around) (i : nat) (cs : list Summary) (e : E)
    (w : Watched) (seen : gset string) : E * (Watched * gset string) :=
  match cs with
  | [] => (e, (w, seen))
  | c :: cs =>
    match ParseLabels (sm_Labels c) with
    | Err _ => reconcile_list_on arounds (S i) cs e w seen
    | Ok labels =>
      if negb (l_Enabled labels) then reconcile_list_on arounds (S i) cs e w seen
      else
        let '(e, r) := registerContainer_on (sm_ID c) (arounds i) e w in
        reconcile_list_on arounds (S i) cs e r.1 ({[sm_ID c]} ∪ seen)
    end
  end.

Definition Reconcile_on (arounds : nat → nat → Around) (clock : nat → Z) (e : E) (w : Watched) :
    E * (Watched * bool) :=
  let '(e, listing) := listContainers e in
  match listing with
  | None => (e, (w, false))
  | Some cs =>
    let '(e, (w1, seen)) := reconcile_list_on arounds 0 cs e w ∅ in
    let gone := (filter (λ kv, kv.1 ∉ seen) (range (wd_tracked w1))).*2 in
    let w2 := mkWatched (wd_d w1) (filter (λ kv, kv.1 ∈ seen) (wd_tracked w1)) in
    (e, (foldl (λ w tr, forget tr.1 w tr.2) w2 (imap (λ i reg, (clock i, reg)) gone), true))
  end.

(** [handleEvent]. *)
Definition handleEvent_on (action id : string) (around : nat → Around) (now : Z) (e : E) (w : Watched) : E * Watched :=
  if decide (action = "start" ∨ action = "restart") then
    let '(e, r) := registerContainer_on id around e w in (e, r.1)
  else if decide (action = "die" ∨ action = "stop" ∨ action = "destroy") then
    match wd_tracked w !! id with
    | None => (e, w)
    | Some reg => (e, forget now (mkWatched (wd_d w) (delete id (wd_tracked w))) reg)
    end
  else (e, w).

(** The top of the loop of [Run]: [eventLoop] asks for the events first. *)
Definition loop_top_on (e : E) (s : WRun) : E * WRun :=
  (if wr_cancelled s then e else (Events e).1, loop_top s).

(** One step of the goroutine, as [run_step]. *)
Definition engine_step (ev : EngineEvent) (x : E * WRun) : option (E * WRun) :=
  let '(e, s) := x in
  match ev, wr_phase s with
  | OnCancel, _ => Some (e, mkRun (wr_w s) (wr_phase s) (wr_backoff s) true)
  | OnOthers d, _ => Some (e, with_watched (mkWatched d (wd_tracked (wr_w s))) s)
  | _, Stopped => None
  | OnNoticed, (Connecting _ _ | Retrying _ _ | Streaming | Waiting) =>
    if wr_cancelled s then Some (e, with_phase Stopped s) else None
  | OnReconcile arounds clock, Connecting n b =>
    if wr_cancelled s then None
    else
      let '(e, (w, ok)) := Reconcile_on arounds clock e (wr_w s) in
      Some (if ok : bool then loop_top_on e (setStatus StatusConnected (with_watched w s))
            else (e, with_phase (Retrying n b) (with_watched w s)))
  | OnTimer, Retrying n b =>
    if decide (S n < 5)%nat then Some (e, with_phase (Connecting (S n) (int64 (b * 2))) s)
    else if wr_cancelled s then Some (e, with_phase Stopped s)
    else Some (loop_top_on e (setStatus StatusDegraded s))
  | OnMessage action id around now, Streaming =>
    let '(e, w) := handleEvent_on action id around now e (wr_w s) in Some (e, with_watched w s)
  | OnTick arounds clock, Streaming =>
    let '(e, (w, _)) := Reconcile_on arounds clock e (wr_w s) in Some (e, with_watched w s)
  | OnStreamEnd, Streaming =>
    if wr_cancelled s then Some (e, with_phase Stopped s)
    else Some (e, with_phase Waiting (setStatus StatusDegraded s))
  | OnTimer, Waiting =>
    let b := int64 (wr_backoff s * 2) in
    Some (e, with_phase Repairing (with_backoff (if decide (30 * Second < b) then 30 * Second else b) s))
  | OnReconcile arounds clock, Repairing =>
    let '(e, (w, ok)) := Reconcile_on arounds clock e (wr_w s) in
    Some (if ok : bool then loop_top_on e (with_backoff Second (setStatus StatusConnected (with_watched w s)))
          else loop_top_on e (with_watched w s))
  | _, _ => None
  end.

Fixpoint engine_steps (evs : list EngineEvent) (x : E * WRun) : option (E * WRun) :=
  match evs with
  | [] => Some x
  | ev :: evs => match engine_step ev x with Some x' => engine_steps evs x' | None => None end
  end.

End Engine.

(** ** Answers *)

Section Answers.
Context {E : Type} `{DockerAPI E} `{JSON} `{Unicode} `{MapRange}.
Variable allowNonLoopback : bool.

(** Attempts whose inspections the engine answered, in this environment. *)
Definition answered (id : string) (around : nat → Around) (io : nat → Attempt) : Prop :=
  ∀ n, at_env (io n) = ar_env (around n) ∧ at_cancelled (io n) = ar_cancelled (around n) ∧
    ∃ e, at_inspect (io n) = (inspectContainer id e).2.

(** Attempts before the current one do not matter. *)
Lemma register_attempts_ext ds a io io' w :
  (∀ n, (a ≤ n)%nat → io n = io' n) →
  register_attempts allowNonLoopback ds a io w = register_attempts allowNonLoopback ds a io' w.
Proof.
  revert a. induction ds as [|dl ds IH]; intros a Hext; cbn [register_attempts]; rewrite (Hext a) by lia; [done|].
  repeat (case_match; try done). apply IH. intros m Hm. apply Hext. lia.
Qed.

(** One more answer before the others. *)
Definition answer_at (a : nat) (at_a : Attempt) (io : nat → Attempt) : nat → Attempt :=
  λ n, if decide (n = a) then at_a else io n.

Definition around_attempt (inspect : option InspectResponse) (ar : Around) : Attempt :=
  mkAttempt inspect (ar_env ar) (ar_cancelled ar).

Lemma answered_at id around a e io :
  answered id around io →
  answered id around (answer_at a (around_attempt (inspectContainer id e).2 (around a)) io).
Proof. intros Hio n. unfold answer_at. case_decide as Hn; [|apply Hio]. subst n. split_and!; [done..|]. by exists e. Qed.

Lemma answered_const id around e : answered id around (λ n, around_attempt (inspectContainer id e).2 (around n)).
Proof. intros n. split_and!; [done..|]. by exists e. Qed.

Lemma attempts_on_answered id ds a around e w :
  ∃ io, answered id around io ∧
    (attempts_on allowNonLoopback id ds a around e w).2 = register_attempts allowNonLoopback ds a io w.
Proof.
  revert a e. induction ds as [|dl ds IH]; intros a e.
  - eexists. split; [apply (answered_const id around e)|]. cbn [attempts_on register_attempts around_attempt at_inspect].
    destruct (inspectContainer id e) as [e1 insp]. cbn. by repeat (case_match; try done).
  - destruct (IH (S a) (inspectContainer id e).1) as (io & Hio & Heq). eexists.
    split; [apply (answered_at _ _ a e), Hio|].
    cbn [attempts_on register_attempts].
    assert (register_attempts allowNonLoopback ds (S a) io w =
      register_attempts allowNonLoopback ds (S a) (answer_at a (around_attempt (inspectContainer id e).2 (around a)) io) w) as Hx.
    { apply register_attempts_ext. intros n Hn. unfold answer_at. rewrite decide_False by lia. done. }
    rewrite Hx in Heq. unfold answer_at at 1 2 3. rewrite decide_True by done. cbn [around_attempt at_inspect at_env at_cancelled].
    destruct (inspectContainer id e) as [e1 insp]. cbn [fst snd] in *. repeat (case_match; try done).
Qed.

Lemma registerContainer_on_answered id around e w :
  ∃ io, answered id around io ∧
    (registerContainer_on allowNonLoopback id around e w).2 = registerContainer allowNonLoopback io w.
Proof. apply attempts_on_answered. Qed.

(** The same of a listing: whichever containers are inspected. *)
Definition all_answered (arounds : nat → nat → Around) (ios : nat → nat → Attempt) : Prop :=
  ∀ i, ∃ id, answered id (arounds i) (ios i).

Lemma reconcile_list_ext ios ios' i cs w seen :
  (∀ k, (i ≤ k)%nat → ios k = ios' k) →
  reconcile_list allowNonLoopback ios i cs w seen = reconcile_list allowNonLoopback ios' i cs w seen.
Proof.
  revert i w seen. induction cs as [|c cs IH]; intros i w seen Hext; cbn [reconcile_list]; [done|].
  assert (∀ k, (S i ≤ k)%nat → ios k = ios' k) as Hext' by (intros; apply Hext; lia).
  rewrite (Hext i) by lia. destruct (ParseLabels _) as [l|]; [|by apply IH]. destruct (negb _); by apply IH.
Qed.

Lemma reconcile_list_on_answered arounds i cs e w seen :
  ∃ ios, all_answered arounds ios ∧
    (reconcile_list_on allowNonLoopback arounds i cs e w seen).2 = reconcile_list allowNonLoopback ios i cs w seen.
Proof.
  revert i e w seen. induction cs as [|c cs IH]; intros i e w seen; cbn [reconcile_list_on reconcile_list].
  { exists (λ k n, around_attempt (inspectContainer "" e).2 (arounds k n)). split; [|done].
    intros k. exists "". apply answered_const. }
  destruct (ParseLabels _) as [l|]; [|apply IH]. destruct (negb _); [apply IH|].
  destruct (registerContainer_on_answered (sm_ID c) (arounds i) e w) as (io & Hio & Er).
  destruct (registerContainer_on _ _ _ e w) as [e1 r]. cbn [snd] in Er. subst r.
  destruct (IH (S i) e1 (registerContainer allowNonLoopback io w).1 ({[sm_ID c]} ∪ seen)) as (ios & Hios & ->).
  exists (λ k, if decide (k = i) then io else ios k). split.
  - intros k. case_decide as Hk; [subst k; by eauto|apply Hios].
  - rewrite decide_True by done. apply reconcile_list_ext. intros k Hk. by rewrite decide_False by lia.
Qed.

Lemma Reconcile_on_answered arounds clock e w :
  ∃ ios, all_answered arounds ios ∧
    (Reconcile_on allowNonLoopback arounds clock e w).2 =
      Reconcile allowNonLoopback (listContainers e).2 ios clock w.
Proof.
  unfold Reconcile_on. destruct (listContainers e) as [e1 [cs|]].
  - destruct (reconcile_list_on_answered arounds 0 cs e1 w ∅) as (ios & Hios & Er). exists ios. split; [done|].
    cbn [snd Reconcile]. rewrite <-Er. by destruct (reconcile_list_on _ _ _ _ _ _ _) as [e2 [w1 seen]].
  - destruct (reconcile_list_on_answered arounds 0 [] e w ∅) as (ios & Hios & _). by exists ios.
Qed.

Lemma handleEvent_on_answered action id around now e w :
  ∃ io, answered id around io ∧
    (handleEvent_on allowNonLoopback action id around now e w).2 = handleEvent allowNonLoopback action id io now w.
Proof.
  destruct (registerContainer_on_answered id around e w) as (io & Hio & Er). exists io. split; [done|].
  unfold handleEvent_on, handleEvent. rewrite <-Er. by repeat (case_match; try done).
Qed.

(** The events of the two machines, when the engine is [e]. *)
Inductive answers (e : E) : EngineEvent → Event → Prop :=
| answers_cancel : answers e OnCancel Cancel
| answers_noticed : answers e OnNoticed Noticed
| answers_reconcile arounds clock ios :
    all_answered arounds ios → answers e (OnReconcile arounds clock) (Reconciled (listContainers e).2 ios clock)
| answers_timer : answers e OnTimer Timer
| answers_message action id around now io :
    answered id around io → answers e (OnMessage action id around now) (Message action id io now)
| answers_tick arounds clock ios :
    all_answered arounds ios → answers e (OnTick arounds clock) (Tick (listContainers e).2 ios clock)
| answers_end : answers e OnStreamEnd StreamEnd
| answers_others d : answers e (OnOthers d) (Others d).
#[local] Hint Constructors answers : core.

Lemma engine_step_answered ev e s e' s' :
  engine_step allowNonLoopback ev (e, s) = Some (e', s') →
  ∃ ev', answers e ev ev' ∧ run_step allowNonLoopback ev' s = Some s'.
Proof.
  unfold engine_step. destruct ev as [| |arounds clock| |action id around now|arounds clock| |d].
  - intros [= <- <-]. eauto.
  - intros Hs. exists Noticed. split; [done|]. unfold run_step. by repeat (case_match; simplify_eq; try done).
  - destruct (Reconcile_on_answered arounds clock e (wr_w s)) as (ios & Hios & Er). intros Hs.
    exists (Reconciled (listContainers e).2 ios clock). split; [eauto|]. unfold run_step. rewrite <-Er.
    destruct (wr_phase s); try done; [destruct (wr_cancelled s); [done|]|];
      destruct (Reconcile_on _ _ _ e (wr_w s)) as [e1 [w []]]; unfold loop_top_on in Hs; by simplify_eq/=.
  - intros Hs. exists Timer. split; [done|]. unfold run_step, loop_top_on in *. by repeat (case_match; simplify_eq/=; try done).
  - destruct (handleEvent_on_answered action id around now e (wr_w s)) as (io & Hio & Er). intros Hs.
    exists (Message action id io now). split; [eauto|]. unfold run_step. rewrite <-Er.
    destruct (wr_phase s); try done. destruct (handleEvent_on _ _ _ _ _ e (wr_w s)) as [e1 w]. by simplify_eq/=.
  - destruct (Reconcile_on_answered arounds clock e (wr_w s)) as (ios & Hios & Er). intros Hs.
    exists (Tick (listContainers e).2 ios clock). split; [eauto|]. unfold run_step. rewrite <-Er.
    destruct (wr_phase s); try done. destruct (Reconcile_on _ _ _ e (wr_w s)) as [e1 [w ok]]. by simplify_eq/=.
  - intros Hs. exists StreamEnd. split; [done|]. unfold run_step. by repeat (case_match; simplify_eq; try done).
  - intros [= <- <-]. eauto.
Qed.

End Answers.

(** ** Calls *)

(** The calls that look at the engine and change nothing in it. *)
Definition looks (c : engine_call) : bool :=
  match c with CallList | CallInspect _ | CallEvents => true | _ => false end.

Section Calls.
Context {E : Type} `{DockerAPI E} `{JSON} `{Unicode} `{MapRange}.
Variable allowNonLoopback : bool.

(** A handler on a client that keeps a list does what it does without, and
    makes calls as [P] says. *)
Definition calls_as {A} (P : list engine_call → Prop) (listed : list engine_call * E → (list engine_call * E) * A)
  (plain : E → E * A) : Prop :=
  ∀ l e, ∃ calls, P calls ∧ listed (l, e) = let '(e', r) := plain e in ((l ++ calls, e'), r).

(** At most [n] inspections of one container. *)
Definition inspections (id : string) (n : nat) (calls : list engine_call) : Prop :=
  ∃ k, (k ≤ n)%nat ∧ calls = replicate k (CallInspect id).

Lemma attempts_on_calls id ds a around w :
  calls_as (inspections id (S (length ds)))
    (λ e, attempts_on (H := recording) allowNonLoopback id ds a around e w)
    (λ e, attempts_on allowNonLoopback id ds a around e w).
Proof.
  revert a. induction ds as [|dl ds IH]; intros a l e; cbn [attempts_on]; unfold inspectContainer;
    cbn [ContainerInspect recording]; unfold recorded; cbn [fst snd];
    destruct (ContainerInspect id e) as [e1 insp].
  - exists [CallInspect id]. split; [exists 1%nat; by split; [cbn; lia|]|]. by repeat (case_match; try done).
  - destruct (IH (S a) (l ++ [CallInspect id]) e1) as (calls & (k & Hk & ->) & Hrec).
    assert (inspections id (S (length (dl :: ds))) [CallInspect id]) as Hone by (exists 1%nat; by split; [cbn; lia|]).
    repeat (case_match; try (exists [CallInspect id]; by split)).
    exists (CallInspect id :: replicate k (CallInspect id)). split; [exists (S k); split; [cbn in *; lia|done]|].
    rewrite Hrec. destruct (attempts_on _ _ _ _ _ e1) as [? ?]. by rewrite <-app_assoc.
Qed.

Lemma registerContainer_on_calls id around w :
  calls_as (inspections id 8) (λ e, registerContainer_on (H := recording) allowNonLoopback id around e w)
    (λ e, registerContainer_on allowNonLoopback id around e w).
Proof. exact (attempts_on_calls id delays 0 around w). Qed.

(** Inspections of managed containers, at most eight of each listed one. *)
Definition inspections_of (cs : list Summary) (calls : list engine_call) : Prop :=
  ∃ ids, calls = CallInspect <$> ids ∧ Forall (managed cs) ids ∧ (length ids ≤ 8 * length cs)%nat.

Lemma inspections_of_cons c cs calls : inspections_of cs calls → inspections_of (c :: cs) calls.
Proof.
  intros (ids & -> & Hm & Hl). exists ids. split_and!; [done| |cbn; lia].
  eapply Forall_impl; [exact Hm|]. intros id. apply managed_cons.
Qed.

Lemma reconcile_list_on_calls arounds i cs w seen :
  calls_as (inspections_of cs) (λ e, reconcile_list_on (H := recording) allowNonLoopback arounds i cs e w seen)
    (λ e, reconcile_list_on allowNonLoopback arounds i cs e w seen).
Proof.
  revert i w seen. induction cs as [|c cs IH]; intros i w seen l e; cbn [reconcile_list_on].
  { exists []. split; [by exists []|]. by rewrite app_nil_r. }
  assert (∀ l e w seen, ∃ calls, inspections_of (c :: cs) calls ∧
    reconcile_list_on (H := recording) allowNonLoopback arounds (S i) cs (l, e) w seen =
      let '(e', r) := reconcile_list_on allowNonLoopback arounds (S i) cs e w seen in ((l ++ calls, e'), r)) as Hskip.
  { intros l1 e1 w1 seen1. destruct (IH (S i) w1 seen1 l1 e1) as (calls & Hc & Hr). exists calls.
    split; [by apply inspections_of_cons|done]. }
  destruct (ParseLabels (sm_Labels c)) as [lb|] eqn:El; [|apply Hskip]. destruct (negb (l_Enabled lb)) eqn:Een; [apply Hskip|].
  destruct (registerContainer_on_calls (sm_ID c) (arounds i) w l e) as (calls & (k & Hk & ->) & ->).
  destruct (registerContainer_on allowNonLoopback _ _ e w) as [e1 r]. cbn [fst].
  destruct (IH (S i) r.1 ({[sm_ID c]} ∪ seen) (l ++ replicate k (CallInspect (sm_ID c))) e1) as (calls & (ids & -> & Hm & Hl) & Hr).
  exists (CallInspect <$> replicate k (sm_ID c) ++ ids). split.
  - exists (replicate k (sm_ID c) ++ ids). split_and!; [done| |rewrite length_app, length_replicate; cbn; lia].
    apply Forall_app. split.
    + apply Forall_replicate. exists c, lb. apply negb_false_iff in Een. by split_and!; [left| | |].
    + eapply Forall_impl; [exact Hm|]. intros id. apply managed_cons.
  - rewrite Hr. destruct (reconcile_list_on allowNonLoopback _ _ _ e1 _ _) as [e2 r2].
    by rewrite fmap_app, fmap_replicate, app_assoc.
Qed.

(** A pass of the watcher lists the containers once, inspects the managed ones of the list, each
    at most eight times, and asks for nothing else; and what it does to the daemon is what
    Reconcile does with the answers it got. *)
Theorem Reconcile_through_the_engine arounds clock l e w :
  let cs := default [] (listContainers e).2 in
  ∃ calls ios e', inspections_of cs calls ∧ all_answered arounds ios ∧
    Reconcile_on (H := recording) allowNonLoopback arounds clock (l, e) w =
      ((l ++ CallList :: calls, e'), Reconcile allowNonLoopback (listContainers e).2 ios clock w) ∧
    Reconcile_on allowNonLoopback arounds clock e w =
      (e', Reconcile allowNonLoopback (listContainers e).2 ios clock w).
Proof.
  intros cs. destruct (Reconcile_on_answered allowNonLoopback arounds clock e w) as (ios & Hios & Er).
  assert (∃ calls, inspections_of cs calls ∧
    Reconcile_on (H := recording) allowNonLoopback arounds clock (l, e) w =
      let '(e', r) := Reconcile_on allowNonLoopback arounds clock e w in ((l ++ CallList :: calls, e'), r)) as (calls & Hc & ->).
  { subst cs. unfold Reconcile_on, listContainers. cbn [ContainerList recording]. unfold recorded. cbn [fst snd].
    destruct (ContainerList e) as [e1 [cs|]]; [|exists []; split; [by exists []|done]]. cbn [snd default].
    destruct (reconcile_list_on_calls arounds 0 cs w ∅ (l ++ [CallList]) e1) as (calls & Hc & ->).
    exists calls. split; [done|]. destruct (reconcile_list_on _ _ _ _ e1 _ _) as [e2 [w1 seen]].
    by rewrite <-app_assoc. }
  destruct (Reconcile_on _ _ _ e w) as [e' r]. cbn [snd] in Er. subst r. by exists calls, ios, e'.
Qed.

Lemma managed_looks cs calls : inspections_of cs calls → Forall looks calls.
Proof. intros (ids & -> & _). by apply Forall_fmap, Forall_true. Qed.

Lemma Reconcile_on_looks arounds clock w :
  calls_as (Forall looks) (λ e, Reconcile_on (H := recording) allowNonLoopback arounds clock e w)
    (λ e, Reconcile_on allowNonLoopback arounds clock e w).
Proof.
  intros l e. destruct (Reconcile_through_the_engine arounds clock l e w) as (calls & ios & e' & Hc & _ & -> & ->).
  exists (CallList :: calls). split; [|done]. constructor; [done|]. by eapply managed_looks.
Qed.

Lemma handleEvent_on_looks action id around now w :
  calls_as (Forall looks) (λ e, handleEvent_on (H := recording) allowNonLoopback action id around now e w)
    (λ e, handleEvent_on allowNonLoopback action id around now e w).
Proof.
  intros l e. unfold handleEvent_on. case_decide.
  - destruct (registerContainer_on_calls id around w l e) as (calls & (k & _ & ->) & ->).
    destruct (registerContainer_on allowNonLoopback _ _ e w) as [e1 r]. exists (replicate k (CallInspect id)).
    split; [by apply Forall_replicate|done].
  - exists []. split; [done|]. rewrite app_nil_r. by repeat (case_match; try done).
Qed.

End Calls.

(** ** A run on an engine *)

Section Runs.
Context `{JSON} `{Unicode} `{MapRange}.
Variable service_of : string → string.
Variable allowNonLoopback : bool.

(** The states of a watcher that was started on [d] and [e0]; [OnOthers] is as
    in [event_ok]. *)
Inductive engine_reaches {E} `{HD : DockerAPI E} (d : Daemon) (e0 : E) : E * WRun → Prop :=
| engine_start : engine_reaches d e0 (e0, NewWatcher d)
| engine_moves x ev x' :
    engine_reaches d e0 x →
    (∀ d', ev = OnOthers d' → event_ok service_of allowNonLoopback (Others d') x.2) →
    engine_step allowNonLoopback ev x = Some x' → engine_reaches d e0 x'.

Context {E : Type} `{DockerAPI E}.

(** What an engine says of a container's labels does not change. *)
Definition consistent : Prop :=
  ∀ id e i reg, (inspectContainer id e).2 = Some i → RegistrationFromInspect i allowNonLoopback = Ok reg →
    g_Name reg = service_of (g_ContainerID reg).

Lemma answered_ok id around io : consistent → answered id around io → attempts_ok service_of allowNonLoopback io.
Proof. intros Hc Hio n i reg. destruct (Hio n) as (_ & _ & e & ->). apply Hc. Qed.

Lemma answers_ok e ev ev' s :
  consistent → (∀ d, ev = OnOthers d → event_ok service_of allowNonLoopback (Others d) s) →
  answers e ev ev' → event_ok service_of allowNonLoopback ev' s.
Proof.
  intros Hc Ho Ha. revert Ho. destruct Ha as [| |arounds clock ios Hios| |action id around now io Hio|arounds clock ios Hios| |d];
    intros Ho; cbn [event_ok]; try done.
  - intros k. destruct (Hios k) as [id ?]. by eapply answered_ok.
  - by eapply answered_ok.
  - intros k. destruct (Hios k) as [id ?]. by eapply answered_ok.
  - exact (Ho d eq_refl).
Qed.

(** A step on a client that keeps a list. *)
Definition step_calls (l : list engine_call) (plain : option (E * WRun)) (x : (list engine_call * E) * WRun) : Prop :=
  ∃ calls e' s', x = ((l ++ calls, e'), s') ∧ Forall looks calls ∧ plain = Some (e', s').

Lemma step_silent l e s x : Some ((l, e), s) = Some x → step_calls l (Some (e, s)) x.
Proof. intros [= <-]. exists [], e, s. by rewrite app_nil_r. Qed.

Lemma step_made l calls e s x :
  Forall looks calls → Some ((l ++ calls, e), s) = Some x → step_calls l (Some (e, s)) x.
Proof. intros Hc [= <-]. by exists calls, e, s. Qed.

Lemma step_top l calls e s x :
  Forall looks calls → Some (loop_top_on (H := recording) (l ++ calls, e) s) = Some x →
  step_calls l (Some (loop_top_on e s)) x.
Proof.
  unfold loop_top_on. destruct (wr_cancelled s); [apply step_made|]. cbn [Events recording]. unfold recorded.
  cbn [fst snd]. destruct (Events e) as [e1 st]. intros Hc [= <-]. exists (calls ++ [CallEvents]), e1. eexists.
  split; [by rewrite <-app_assoc|]. split; [|done]. apply Forall_app. by split; [|repeat constructor].
Qed.

Lemma step_top_only l e s x :
  Some (loop_top_on (H := recording) (l, e) s) = Some x → step_calls l (Some (loop_top_on e s)) x.
Proof. rewrite <-(app_nil_r l) at 1. by apply step_top. Qed.

Lemma engine_step_calls ev l e s x :
  engine_step (H := recording) allowNonLoopback ev ((l, e), s) = Some x →
  step_calls l (engine_step allowNonLoopback ev (e, s)) x.
Proof.
  unfold engine_step. destruct ev as [| |arounds clock| |action id around now|arounds clock| |d].
  - apply step_silent.
  - destruct (wr_phase s); try done; destruct (wr_cancelled s); try done; apply step_silent.
  - destruct (Reconcile_on_looks allowNonLoopback arounds clock (wr_w s) l e) as (calls & Hc & ->).
    destruct (Reconcile_on _ _ _ e (wr_w s)) as [e1 [w ok]].
    destruct (wr_phase s); try done; [destruct (wr_cancelled s); [done|]|];
      destruct ok; first [by apply step_top|by apply step_made].
  - destruct (wr_phase s); try done; [|apply step_silent].
    case_decide; [apply step_silent|]. destruct (wr_cancelled s); [apply step_silent|apply step_top_only].
  - destruct (wr_phase s); try done.
    destruct (handleEvent_on_looks allowNonLoopback action id around now (wr_w s) l e) as (calls & Hc & ->).
    destruct (handleEvent_on _ _ _ _ _ e (wr_w s)) as [e1 w]. by apply step_made.
  - destruct (wr_phase s); try done.
    destruct (Reconcile_on_looks allowNonLoopback arounds clock (wr_w s) l e) as (calls & Hc & ->).
    destruct (Reconcile_on _ _ _ e (wr_w s)) as [e1 [w ok]]. by apply step_made.
  - destruct (wr_phase s); try done. destruct (wr_cancelled s); apply step_silent.
  - apply step_silent.
Qed.

(** C37: On an engine that answers consistently the watcher is the machine of WatcherRun.v:
    whatever drives it, every state it reaches is one of that machine's, with its invariant. It
    lists, inspects and subscribes, and makes no call that would change a container. After a
    pass that got a listing, only managed containers of that listing are behind ready Docker
    services. *)
Theorem watcher_on_the_engine d e x :
  consistent → d_Registry d = ∅ → d_dockerStatus d = StatusDegraded →
  engine_reaches (HD := recording) d ([], e) x →
  engine_reaches d e (x.1.2, x.2) ∧
  watcher_reaches service_of allowNonLoopback d x.2 ∧ run_inv service_of x.2 ∧
  Forall looks x.1.1 ∧
  ∀ ev cs x', (∃ arounds clock, ev = OnReconcile arounds clock ∨ ev = OnTick arounds clock) →
    (listContainers x.1.2).2 = Some cs → engine_step allowNonLoopback ev (x.1.2, x.2) = Some x' →
    ∀ name rec, Resolve (d_Registry (wd_d (wr_w x'.2))) name = Some rec → r_Source rec = SourceDocker →
      r_Status rec = StatusReady → managed cs (r_ProducerID rec).
Proof.
  intros Hcons Hr Hd Hreach.
  assert (engine_reaches d e (x.1.2, x.2) ∧ watcher_reaches service_of allowNonLoopback d x.2 ∧ Forall looks x.1.1)
    as (He & Hw & Hl).
  { induction Hreach as [|[[l e1] s] ev x' _ (He & Hw & Hl) Ho Hstep]; [split_and!; constructor|].
    apply engine_step_calls in Hstep as (calls & e' & s' & -> & Hc & Hstep). cbn [fst snd] in *. split_and!.
    - by eapply engine_moves.
    - destruct (engine_step_answered _ _ _ _ _ _ Hstep) as (ev' & Ha & Hrun).
      eapply watcher_step; [exact Hw|by eapply answers_ok|exact Hrun].
    - apply Forall_app. by split. }
  pose proof (watcher_reaches_inv _ _ _ _ Hr Hd Hw) as Hinv. split_and!; [done..|].
  intros ev cs [e' s'] (arounds & clock & Hev) Hcs Hstep. cbn [snd].
  destruct (engine_step_answered _ _ _ _ _ _ Hstep) as (ev' & Ha & Hrun).
  assert (event_ok service_of allowNonLoopback ev' x.2) as Hok.
  { eapply answers_ok; [exact Hcons| |exact Ha]. intros d' ->. by destruct Hev. }
  destruct Hev as [-> | ->]; inversion Ha; subst; eapply reconciled_managed; try done; rewrite <-Hcs; by eauto.
Qed.

End Runs.
