(* ===== verification/Probe.v ===== *)
(** * internal/dockerwatch/probe.go: the disposable publication test

    [ProbeLoopbackPublication] over the interface of [DockerApi.v]: a sequence
    of calls that can fail, with the removal of the container deferred. *)

From S2P Require Import Prelude GoStrings GoNet Registry Lease State Runtime Router Config Daemon DaemonInv DaemonSpec DaemonSystem Dockerwatch DockerApi.

Record ProbeResult := mkProbe {
  pr_Skipped : bool;
  pr_Supported : bool;
  pr_Image : string;
  pr_HostIP : string;
  pr_HostPort : string;
  pr_Detail : string
}.

Inductive ProbeError :=
| ProbeImageList
| ProbeCreate
| ProbeStart
| ProbeCancelled.

Definition probe_images : list string := ["busybox:latest"; "alpine:latest"; "busybox"; "alpine"].

(** The first candidate among the local tags, or nothing. *)
Definition choose_image (images : list (list string)) : string :=
  let available := mjoin images in
  default "" (head (filter (λ c, c ∈ available) probe_images)).

(** The container: port 80 at any port of the loopback address. *)
Definition probe_spec (image : string) : ContainerSpec :=
  mkSpec image ["sleep"; "30"] ["80/tcp"] {[ "80/tcp" := [mkBinding "127.0.0.1" ""] ]}.

(** The bindings an inspection reports. *)
Definition published (i : option InspectResponse) : list PortBinding :=
  match i with
  | Some i => match in_Ports i with Some ports => default [] (ports !! "80/tcp") | None => [] end
  | None => []
  end.

Section Probe.
Context {E : Type} `{DockerAPI E}.

(** [cancelled i]: the context is done when the loop waits after the [i]-th
    inspection. *)
Variable cancelled : nat → bool.

(** Calls that return early with an error. *)
Definition fallible (A : Type) : Type := E → E * result A ProbeError.

Definition and_then {A B} (m : fallible A) (k : A → fallible B) : fallible B :=
  λ e, match m e with (e, Ok a) => k a e | (e, Err err) => (e, Err err) end.

Definition or_error {A} (err : ProbeError) (c : E → E * option A) : fallible A :=
  λ e, let '(e, a) := c e in (e, match a with Some a => Ok a | None => Err err end).

Definition returns {A} (a : A) : fallible A := λ e, (e, Ok a).

(** A deferred call, whose result is dropped. *)
Definition deferred {A} (cleanup : E → E) (m : fallible A) : fallible A :=
  λ e, let '(e, r) := m e in (cleanup e, r).

(** The waiting loop, from its [i]-th round with [n] left. *)
Fixpoint await_binding (id : string) (i n : nat) : fallible (string * string) :=
  match n with
  | O => returns ("", "")
  | S n => λ e,
    let '(e, insp) := ContainerInspect id e in
    match published insp with
    | b :: _ => (e, Ok (pb_HostIP b, pb_HostPort b))
    | [] => if cancelled i then (e, Err ProbeCancelled) else await_binding id (S i) n e
    end
  end.

Definition probe_result (image : string) (binding : string * string) : ProbeResult :=
  let '(hostIP, hostPort) := binding in
  if decide (hostPort = "")
  then mkProbe false false image "" "" "published port did not appear before timeout"
  else mkProbe false (isLoopbackIP hostIP) image hostIP hostPort ("published 80/tcp on " +:+ hostIP +:+ ":" +:+ hostPort).

Definition start (id : string) (e : E) : E * option unit :=
  let '(e, ok) := ContainerStart id e in (e, if ok : bool then Some tt else None).

(** What the probe does with the container it has made. *)
Definition probe_container (image id : string) : fallible ProbeResult :=
  deferred (λ e, (ContainerRemove id true e).1)
    (and_then (or_error ProbeStart (start id)) (λ _,
     and_then (await_binding id 0 20) (λ binding, returns (probe_result image binding)))).

Definition ProbeLoopbackPublication : fallible ProbeResult :=
  and_then (or_error ProbeImageList ImageList) (λ images,
  let image := choose_image images in
  if decide (image = "") then
    returns (mkProbe true false "" "" "" "no local busybox/alpine image available for a disposable publication test")
  else and_then (or_error ProbeCreate (ContainerCreate (probe_spec image))) (λ id, probe_container image id)).

End Probe.

Lemma choose_image_local images : choose_image images ≠ "" →
  choose_image images ∈ mjoin images ∧ choose_image images ∈ probe_images.
Proof.
  unfold choose_image. destruct (filter _ _) as [|c l] eqn:E; [done|]. intros _. cbn.
  assert (c ∈ filter (λ c, c ∈ mjoin images) probe_images) as Hc by (rewrite E; by left).
  by apply list_elem_of_filter in Hc.
Qed.

(** ** What it leaves behind *)

Section Leaves.
Context {E : Type} `{DockerLaws E}.
Variable cancelled : nat → bool.

Lemma await_binding_keeps id i n e :
  let '(e', r) := await_binding cancelled id i n e in
  containers e' ⊆ containers e ∧
  match r with
  | Ok (ip, port) => port ≠ "" → ∃ e1 b bs, published (ContainerInspect id e1).2 = b :: bs ∧
      ip = pb_HostIP b ∧ port = pb_HostPort b
  | Err err => err = ProbeCancelled ∧ ∃ j, cancelled j = true
  end.
Proof.
  revert i e. induction n as [|n IH]; intros i e; cbn [await_binding]; [done|].
  pose proof (inspect_containers id e) as Hi. destruct (ContainerInspect id e) as [e1 insp] eqn:Ei. cbn [fst] in Hi.
  destruct (published insp) as [|b bs] eqn:Ep.
  - destruct (cancelled i) eqn:Ec; [by eauto|]. specialize (IH (S i) e1).
    destruct (await_binding _ _ _ _ e1) as [e' r]. destruct IH as [Hs Hr]. split; [by etrans|done].
  - split; [done|]. intros _. exists e, b, bs. by rewrite Ei.
Qed.

(** The container is gone unless its removal failed. *)
Definition removed (id : string) (before after : E) : Prop :=
  containers after ⊆ containers before ∖ {[id]} ∨
  ∃ e1, ContainerRemove id true e1 = (after, false) ∧ containers after ⊆ containers before.

Lemma probe_container_removes image id e :
  let '(e', r) := probe_container cancelled image id e in
  removed id e e' ∧
  match r with
  | Ok res => pr_Skipped res = false ∧ pr_Image res = image ∧
      (pr_Supported res = true → isLoopbackIP (pr_HostIP res) = true ∧
         ∃ e1 b bs, published (ContainerInspect id e1).2 = b :: bs ∧ pb_HostIP b = pr_HostIP res ∧ pb_HostPort b = pr_HostPort res)
  | Err err => err = ProbeStart ∨ err = ProbeCancelled
  end.
Proof.
  unfold probe_container, deferred, and_then, or_error, start, returns.
  pose proof (start_containers id e) as Hs. destruct (ContainerStart id e) as [e1 ok]. cbn [fst] in Hs.
  assert (∀ e2, containers e2 ⊆ containers e → removed id e (ContainerRemove id true e2).1) as Hr.
  { intros e2 H2. destruct (ContainerRemove id true e2) as [e' []] eqn:E2; [left|right]; cbn [fst].
    - apply remove_containers in E2. set_solver.
    - exists e2. split; [done|]. apply remove_fails in E2. set_solver. }
  destruct ok; [|split; [by apply Hr|by left]].
  pose proof (await_binding_keeps id 0 20 e1) as Hw. destruct (await_binding _ _ _ _ e1) as [e2 [[ip port]|err]];
    destruct Hw as [H2 Hb]; (split; [apply Hr; by etrans|]); [|right; by destruct Hb].
  unfold probe_result. case_decide as Hp; [done|]. split_and!; [done..|]. cbn. intros Hl. split; [done|].
  destruct (Hb Hp) as (e3 & b & bs & ? & -> & ->). by exists e3, b, bs.
Qed.

(** C40: The publication probe leaves no container of its own behind, whatever fails and
    whenever its context ends once the container has been created, unless the engine refuses the
    removal; when the creation itself returns an error, nothing is called after it, and what it
    may have left stays; and a result that says supported is a loopback address that the engine
    reported for a container. *)
Theorem probe_leaves_nothing e :
  let '(e', r) := ProbeLoopbackPublication cancelled e in
  (containers e' ⊆ containers e ∨
   (∃ id e1, ContainerRemove id true e1 = (e', false) ∧ id ∉ containers e ∧ containers e' ⊆ {[id]} ∪ containers e) ∨
   (r = Err ProbeCreate ∧ ∃ image e1, containers e1 ⊆ containers e ∧ ContainerCreate (probe_spec image) e1 = (e', None))) ∧
  match r with
  | Ok res => pr_Supported res = true → isLoopbackIP (pr_HostIP res) = true ∧
      ∃ id e1 b bs, published (ContainerInspect id e1).2 = b :: bs ∧ pb_HostIP b = pr_HostIP res ∧ pb_HostPort b = pr_HostPort res
  | Err _ => True
  end.
Proof.
  unfold ProbeLoopbackPublication, and_then, or_error, returns.
  pose proof (images_containers e) as Hi. destruct (ImageList e) as [e1 [images|]]; cbn [fst] in Hi; [|by auto].
  case_decide; [by split; [left|]|].
  destruct (ContainerCreate _ e1) as [e2 [id|]] eqn:Ec; [|split; [right; right; by eauto|done]].
  apply create_containers in Ec as [Hid Hc].
  pose proof (probe_container_removes (choose_image images) id e2) as Hp.
  destruct (probe_container _ _ _ e2) as [e' r]. destruct Hp as [Hr Hres]. split.
  - destruct Hr as [Hr|(e3 & E3 & Hr)]; [left; set_solver|].
    destruct (decide (id ∈ containers e)) as [Hin|Hin]; [left; set_solver|].
    right. left. exists id, e3. split_and!; [done|done|set_solver].
  - destruct r as [res|]; [|done]. destruct Hres as (_ & _ & Hs). intros Hsup. destruct (Hs Hsup) as [? (e3 & b & bs & ?)].
    split; [done|]. by exists id, e3, b, bs.
Qed.
End Leaves.

(** ** The calls it makes *)

Section Calls.
Context {E : Type} `{DockerAPI E}.
Variable cancelled : nat → bool.

(** The waiting loop on a client that keeps a list. *)
Lemma await_binding_calls id i n l e :
  ∃ k, k ≤ n ∧
  await_binding (H := recording) cancelled id i n (l, e) =
    let '(e', r) := await_binding cancelled id i n e in ((l ++ replicate k (CallInspect id), e'), r).
Proof.
  revert i l e. induction n as [|n IH]; intros i l e; cbn [await_binding].
  { exists 0. split; [done|]. cbn. by rewrite app_nil_r. }
  cbn. unfold recorded. cbn. destruct (ContainerInspect id e) as [e1 insp]. cbn. destruct (published insp) as [|b bs]; [|by exists 1; split; [lia|]].
  destruct (cancelled i); [by exists 1; split; [lia|]|].
  destruct (IH (S i) (l ++ [CallInspect id]) e1) as (k & Hk & ->). exists (S k). split; [lia|].
  destruct (await_binding _ _ _ _ e1) as [e' r]. by rewrite <-app_assoc.
Qed.

Lemma probe_container_calls image id l e :
  ∃ k, k ≤ 20 ∧
  probe_container (H := recording) cancelled image id (l, e) =
    let '(e', r) := probe_container cancelled image id e in
    ((l ++ CallStart id :: replicate k (CallInspect id) ++ [CallRemove id true], e'), r).
Proof.
  unfold probe_container, deferred, and_then, or_error, start, returns. cbn -[await_binding]. unfold recorded. cbn -[await_binding].
  destruct (ContainerStart id e) as [e1 []]; cbn -[await_binding].
  - destruct (await_binding_calls id 0 20 (l ++ [CallStart id]) e1) as (k & Hk & ->). exists k. split; [done|].
    destruct (await_binding _ _ _ _ e1) as [e2 [binding|err]]; unfold recorded; cbn -[await_binding];
      destruct (ContainerRemove id true e2) as [e3 ok]; cbn -[await_binding]; by rewrite <-!app_assoc.
  - exists 0. split; [lia|]. unfold recorded. cbn -[await_binding]. destruct (ContainerRemove id true e1). cbn -[await_binding]. by rewrite <-app_assoc.
Qed.

(** The calls of the probe, in order: it lists the images; from an image that is present, if
    any, it creates a container; and once it has, it starts it, inspects it at most 20 times,
    and always ends with its forced removal, whatever failed. Keeping the list changes nothing
    in what it does. *)
Theorem probe_calls e :
  let '((calls, e'), r) := ProbeLoopbackPublication (H := recording) cancelled ([], e) in
  (e', r) = ProbeLoopbackPublication cancelled e ∧
  (calls = [CallImageList] ∧ match r with Ok res => pr_Skipped res = true | Err err => err = ProbeImageList end ∨
   ∃ images image, (ImageList e).2 = Some images ∧ image ∈ mjoin images ∧ image ∈ probe_images ∧
     (calls = [CallImageList; CallCreate image] ∧ r = Err ProbeCreate ∨
      ∃ id k, k ≤ 20 ∧ calls = [CallImageList; CallCreate image; CallStart id] ++
        replicate k (CallInspect id) ++ [CallRemove id true])).
Proof.
  unfold ProbeLoopbackPublication, and_then, or_error, returns. cbn -[probe_container]. unfold recorded. cbn -[probe_container].
  destruct (ImageList e) as [e1 [images|]]; cbn -[probe_container]; [|by auto]. case_decide as Himg; [by auto|].
  apply choose_image_local in Himg as [Hin Hp]. unfold recorded. cbn -[probe_container].
  destruct (ContainerCreate _ e1) as [e2 [id|]]; cbn -[probe_container].
  - destruct (probe_container_calls (choose_image images) id [CallImageList; CallCreate (choose_image images)] e2) as (k & Hk & ->).
    destruct (probe_container _ _ _ e2) as [e' r]. split; [done|]. right. exists images, (choose_image images).
    split_and!; [done..|]. right. by exists id, k.
  - split; [done|]. right. exists images, (choose_image images). split_and!; [done..|]. by left.
Qed.
End Calls.
