(* ===== verification/Cli.v ===== *)
(** * cmd/devmesh: the command line

    The commands of [cmd/devmesh/cmds] as functions of their decoded flags and
    of the daemon's replies: the shared connection settings, [services list],
    [services inspect], [services resolve] with its waiting loop, [register],
    [health] and [doctor].  A row is what the output processor is given. *)

From S2P Require Import Prelude GoStrings GoNet GoTime GoPath Registry Lease State Runtime Router Config ConfigFile Serve Daemon DaemonInv DaemonSpec DaemonSystem Api Client Dockerwatch DockerApi Probe.
From Stdlib Require Import Ascii.
Local Open Scope Z_scope.

(** ** The connection (daemonconn.go, transport/client.go) *)

Record ConnSettings := mkConn { cs_Socket : string; cs_Timeout : string }.

Record HTTPClient := mkHTTPClient { hcl_socket : string; hcl_timeout : Z }.

Definition NewClient (socketPath : string) (timeout : Z) : HTTPClient :=
  mkHTTPClient socketPath (if decide (timeout ≤ 0) then 5 * Second else timeout).

(** [Settings.Client]: a timeout that does not parse is ignored. *)
Definition Settings_Client (os : OS) (s : ConnSettings) : HTTPClient :=
  let timeout :=
    if decide (cs_Timeout s ≠ "") then default (5 * Second) (ParseDuration (cs_Timeout s)) else 5 * Second in
  let socket := if decide (cs_Socket s = "") then DefaultSocketPath os else cs_Socket s in
  NewClient socket timeout.

(** ** Rows *)

Abbreviation row := (list (string * string)).

(** [Endpoint] and [EndpointOf] of list.go. *)
Definition HostPortEndpoint (host : string) (port : Z) : string :=
  if decide (port = 0) then "" else JoinHostPort host (Itoa port).

Definition EndpointOf (f : FrontendDTO) : string :=
  if decide (fd_URL f ≠ "") then fd_URL f else HostPortEndpoint (fd_Host f) (fd_Port f).

(** The services a reply of [GET /v1/services] decodes to. *)
Definition list_response (b : body) : list ServiceDTO :=
  match b with BodyList l => l | _ => [] end.

Definition list_row (svc : ServiceDTO) : row :=
  [("name", sd_Name svc); ("kind", sd_Kind svc); ("app_protocol", sd_AppProtocol svc);
   ("status", sd_Status svc); ("endpoint", EndpointOf (sd_Frontend svc))].

(** The loop of [services list]. *)
Definition list_rows (nameFilter status : string) (reply : option Response) : result (list row) ClientError :=
  match do_request reply with
  | Err e => Err e
  | Ok b =>
    Ok (list_row <$>
      filter (λ svc, (nameFilter = "" ∨ Contains (sd_Name svc) nameFilter = true) ∧
                     (status = "" ∨ sd_Status svc = status)) (list_response b))
  end.

Definition no_frontend : FrontendDTO := mkFrontendDTO "" 0 "".

Definition inspect_response (b : body) : InspectDTO :=
  match b with
  | BodyInspect i => i
  | _ => mkInspectDTO "" "" "" "" no_frontend None "" "" "" "" ""
  end.

(** [services inspect]. *)
Definition inspect_row (reply : option Response) : result row ClientError :=
  match do_request reply with
  | Err e => Err e
  | Ok b =>
    let svc := inspect_response b in
    let backend := match id_Backend svc with
                   | Some b => HostPortEndpoint (bd_Host b) (bd_Port b)
                   | None => ""
                   end in
    Ok [("name", id_Name svc); ("kind", id_Kind svc); ("status", id_Status svc);
        ("frontend", EndpointOf (id_Frontend svc)); ("backend", backend); ("source", id_Source svc);
        ("owner_key", id_OwnerKey svc); ("producer_id", id_ProducerID svc);
        ("docker_container_id", id_DockerContainerID svc)]
  end.

(** [health]. *)
Definition health_row (version : string) (reply : option Response) : result row ClientError :=
  match do_request reply with
  | Err e => Err e
  | Ok (BodyHealth status docker) => Ok [("status", status); ("version", version); ("docker", docker)]
  | Ok _ => Ok [("status", ""); ("version", ""); ("docker", "")]
  end.

(** ** Resolve (resolve.go) *)

Definition retryInterval : Z := 250 * Millisecond.

Definition retryableLookupError (e : ClientError) : bool :=
  match e with
  | ErrAPI status _ => bool_decide (status = 404) || bool_decide (500 ≤ status)
  | ErrUnreachable => true
  end.

Inductive ResolveError :=
| BadWait
| LookupFailed (e : ClientError)
| NoBackend (name status : string)
| ResolveCancelled.

Inductive ResolveOutput :=
| RawEndpoint (endpoint : string)
| ResolvedRow (r : row).

Definition service_response (b : body) : ServiceDTO :=
  match b with BodyService s => s | _ => mkServiceDTO "" "" "" "" no_frontend end.

(** The endpoint as the loop forms it. *)
Definition resolve_endpoint (svc : ServiceDTO) : string :=
  let endpoint := HostPortEndpoint (fd_Host (sd_Frontend svc)) (fd_Port (sd_Frontend svc)) in
  if decide (fd_URL (sd_Frontend svc) ≠ "") then fd_URL (sd_Frontend svc) else endpoint.

Definition resolve_row (svc : ServiceDTO) : row :=
  [("name", sd_Name svc); ("kind", sd_Kind svc); ("status", sd_Status svc); ("endpoint", resolve_endpoint svc)].

(** One lookup: its reply, the clock when the reply is in, and whether the
    context is done while the command sleeps after it. *)
Record Attempt := mkAttempt { at_reply : option Response; at_now : Z; at_cancelled : bool }.

(** One round of the loop; [None] is [continue]. *)
Definition resolve_round (raw : bool) (wait deadline : Z) (a : Attempt) : option (result ResolveOutput ResolveError) :=
  match do_request (at_reply a) with
  | Ok b =>
    let svc := service_response b in
    let endpoint := resolve_endpoint svc in
    if decide (sd_Status svc = "ready" ∨ (wait = 0 ∧ raw = false)) then
      Some (if raw
            then if decide (sd_Status svc ≠ "ready") then Err (NoBackend (sd_Name svc) (sd_Status svc))
                 else Ok (RawEndpoint endpoint)
            else Ok (ResolvedRow (resolve_row svc)))
    else if decide (0 < wait ∧ 0 < deadline - at_now a) then
      if at_cancelled a then Some (Err ResolveCancelled) else None
    else if raw then Some (Err (NoBackend (sd_Name svc) (sd_Status svc)))
    else Some (Ok (ResolvedRow (resolve_row svc)))
  | Err e =>
    if decide (0 < wait ∧ 0 < deadline - at_now a ∧ retryableLookupError e = true) then
      if at_cancelled a then Some (Err ResolveCancelled) else None
    else Some (Err (LookupFailed e))
  end.

(** The loop on the lookups to come; [None] when it has not returned yet. *)
Fixpoint resolve_loop (raw : bool) (wait deadline : Z) (attempts : list Attempt) :
  option (result ResolveOutput ResolveError) :=
  match attempts with
  | [] => None
  | a :: attempts =>
    match resolve_round raw wait deadline a with
    | Some r => Some r
    | None => resolve_loop raw wait deadline attempts
    end
  end.

Definition parse_wait (text : string) : option Z :=
  if decide (text ≠ "") then ParseDuration text else Some 0.

(** [services resolve], begun at [now]. *)
Definition resolve (raw : bool) (wait_text : string) (now : Z) (attempts : list Attempt) :
  option (result ResolveOutput ResolveError) :=
  match parse_wait wait_text with
  | None => Some (Err BadWait)
  | Some wait => resolve_loop raw wait (now + wait) attempts
  end.

(** ** Register (register.go) *)

Record RegisterSettings := mkRegisterSettings {
  g_name : string;
  g_kind : string;
  g_app_protocol : string;
  g_backend : string;
  g_http_host : string;
  g_preferred_port : Z;
  g_ttl : Z;
  g_once : bool
}.

(** The options of the long-running registration. *)
Definition register_options (s : RegisterSettings) (socket : string) : RegistrationOptions :=
  mkOptions (g_name s) (g_kind s) (g_app_protocol s) (g_http_host s) (g_backend s) (g_preferred_port s)
    (g_ttl s) true socket.

Inductive OnceError := OnceAddr (e : AddrError) | OncePort.

(** The request of [registerOnce]. *)
Definition once_request (s : RegisterSettings) : result RegisterRequest OnceError :=
  match SplitHostPort (g_backend s) with
  | Err e => Err (OnceAddr e)
  | Ok (host, portStr) =>
    match Atoi portStr with
    | None => Err OncePort
    | Some port =>
      Ok (mkRegisterRequest (g_name s) (g_kind s) (g_app_protocol s) "manual" (mkBackendDTO host port)
            (if decide (g_preferred_port s ≠ 0) then g_preferred_port s else 0) (g_ttl s) (g_http_host s))
    end
  end.

Definition once_endpoint (f : FrontendDTO) : string :=
  if decide (fd_URL f = "") then JoinHostPort (fd_Host f) (Itoa (fd_Port f)) else fd_URL f.

(** The rows of the two modes; the time is formatted by [fmt_time]. *)
Definition once_row (fmt_time : Z → string) (resp : RegisterResponse) : row :=
  [("name", rp_Name resp); ("endpoint", once_endpoint (rp_Frontend resp));
   ("registration_id", rp_RegistrationID resp);
   ("expires_at", match rp_ExpiresAt resp with Some t => fmt_time (rfc3339 t) | None => "" end)].

Definition emitRow (fmt_time : Z → string) (info : RegistrationInfo) : row :=
  [("name", ri_Name info); ("endpoint", ri_Endpoint info); ("registration_id", ri_RegistrationID info);
   ("expires_at", if decide (ri_ExpiresAt info = 0) then "" else fmt_time (ri_ExpiresAt info))].

(** ** Doctor (doctor.go) *)

Record Check := mkCheck { ck_Name : string; ck_Status : string; ck_Detail : string }.

Section Doctor.
Context {E : Type} `{DockerAPI E}.

(** What the checks find: the reply of the daemon, what [NewClient] returns and
    whether the probe's context ends while it waits, the address of a loopback
    listener, the socket's directory. *)
Record Findings := mkFindings {
  fi_health : option Response;
  fi_version : string;
  fi_client : option E;
  fi_cancelled : nat → bool;
  fi_loopback : option string;
  fi_mkdir : bool;
  fi_create_temp : bool
}.

Definition probe_check (r : result ProbeResult ProbeError) : Check :=
  match r with
  | Err _ => mkCheck "docker-publication-probe" "fail" "error"
  | Ok res =>
    if pr_Skipped res then mkCheck "docker-publication-probe" "skip" (pr_Detail res)
    else if pr_Supported res then mkCheck "docker-publication-probe" "ok" (pr_Detail res)
    else mkCheck "docker-publication-probe" "fail"
           (pr_Detail res +:+ "; devmesh will not auto-register containers exposed beyond loopback")
  end.

(** With the engine as it is left, if there was a connection. *)
Definition probeDockerPublication (cancelled : nat → bool) (client : option E) : option E * list Check :=
  match client with
  | None => (None, [mkCheck "docker-publication-probe" "fail" "error"])
  | Some e =>
    let '(e, r) := ProbeLoopbackPublication cancelled e in
    (Some (CloseAPI e).1, [probe_check r])
  end.

Definition docker_check (docker : string) : Check :=
  if decide (docker = "connected") then mkCheck "docker" "ok" "connected"
  else if decide (docker = "disabled") then mkCheck "docker" "skip" "disabled by configuration"
  else mkCheck "docker" "fail" ("status: " +:+ docker).

Definition runChecks (socket : string) (fi : Findings) : option E * list Check :=
  let '(engine, docker_checks) :=
    match do_request (fi_health fi) with
    | Err _ => (None, [mkCheck "daemon-reachable" "fail" "error"])
    | Ok b =>
      let docker := match b with BodyHealth _ docker => docker | _ => "" end in
      let '(engine, probe) :=
        if decide (docker ≠ "disabled") then probeDockerPublication (fi_cancelled fi) (fi_client fi) else (None, []) in
      (engine, [mkCheck "daemon-reachable" "ok" ("version " +:+ fi_version fi); docker_check docker] ++ probe)
    end in
  (engine, docker_checks ++
    [match fi_loopback fi with
     | None => mkCheck "loopback-bind" "fail" "error"
     | Some addr => mkCheck "loopback-bind" "ok" ("bound " +:+ addr)
     end;
     if negb (fi_mkdir fi) then mkCheck "socket-dir" "fail" "error"
     else if negb (fi_create_temp fi) then mkCheck "socket-dir" "fail" "error"
     else mkCheck "socket-dir" "ok" (Dir socket +:+ " writable")]).

Definition check_row (c : Check) : row := [("check", ck_Name c); ("status", ck_Status c); ("detail", ck_Detail c)].

(** The rows of [doctor] and whether it ends with an error. *)
Definition doctor (socket : string) (fi : Findings) : option E * list row * bool :=
  let '(engine, checks) := runChecks socket fi in
  (engine, check_row <$> checks, existsb (λ c, bool_decide (ck_Status c = "fail")) checks).

End Doctor.
Arguments Findings : clear implicits.

(** ** One socket for all *)

(** Daemon, command line and client library that are given the same socket setting, the empty
    one included, use the same path, and a request of the command line always has a positive
    timeout. *)
Theorem clients_meet_daemon os s cfg timeout opts h :
  configFromSettings os s = Ok cfg → o_Socket opts = s_Socket s →
  new_handle (DefaultSocketPath os) opts = Ok h →
  let cli := Settings_Client os (mkConn (s_Socket s) timeout) in
  hcl_socket cli = c_Socket cfg ∧ h_socket h = c_Socket cfg ∧ c_Socket cfg ≠ "" ∧ 0 < hcl_timeout cli.
Proof.
  intros Hcfg Hopt Hh cli.
  assert (c_Socket cfg = if decide (s_Socket s = "") then DefaultSocketPath os else s_Socket s) as ->.
  { unfold configFromSettings in Hcfg. repeat case_match; by simplify_eq/=. }
  assert (h_socket h = if decide (s_Socket s = "") then DefaultSocketPath os else s_Socket s) as ->.
  { rewrite <-Hopt. unfold new_handle in Hh. repeat case_decide; try done; repeat case_match; by simplify_eq/=. }
  split_and!; [done|done|..].
  - case_decide; [apply DefaultSocketPath_nonempty|done].
  - unfold cli, Settings_Client, NewClient. cbn [hcl_timeout]. change Second with 1000000000.
    repeat case_decide; lia.
Qed.

(** ** One endpoint for all *)

Section Endpoints.
Context `{JSON} `{Unicode} `{MapRange}.

Lemma FrontendURL_nonempty (r : Router string) hostname : ro_scheme r ≠ "" → FrontendURL r hostname ≠ "".
Proof.
  intros Hs. unfold FrontendURL, url_string. rewrite (decide_False (P := ro_scheme r = "")) by done.
  by destruct (ro_scheme r).
Qed.

Lemma service_frontend d name rec :
  daemon_inv d → ro_scheme (d_HTTP d) ≠ "" → Resolve (d_Registry d) name = Some rec →
  f_URL (r_Frontend rec) ≠ "" ∨ 0 < f_Port (r_Frontend rec).
Proof.
  intros Hd Hs Hrec. destruct (inv_services d Hd name rec Hrec) as (_ & _ & _ & [(_ & _ & rt & Hrt & ->)|(_ & _ & ->)]).
  - right. destruct (inv_runtimes d Hd) as [Hwf _]. destruct (Hwf _ _ Hrt) as (_ & -> & ? & _). simpl. lia.
  - left. by apply FrontendURL_nonempty.
Qed.

Lemma JoinHostPort_nonempty h p : p ≠ "" → JoinHostPort h p ≠ "".
Proof.
  intros Hp E%(f_equal bytes). unfold JoinHostPort in E. case_match; rewrite ?bytes_app in E;
    by repeat (apply app_nil in E as [? E]).
Qed.

(** For every service of a daemon the commands and the client library show the same, non-empty
    endpoint, although they format it in four different places, and inspect shows the record's
    backend. *)
Theorem endpoints_agree d name rec :
  daemon_inv d → ro_scheme (d_HTTP d) ≠ "" → Resolve (d_Registry d) name = Some rec →
  let f := frontendDTO (r_Frontend rec) in
  EndpointOf f ≠ "" ∧ frontendEndpoint f = EndpointOf f ∧ once_endpoint f = EndpointOf f ∧
  resolve_endpoint (serviceDTO (infoFromRecord rec false)) = EndpointOf f ∧
  inspect_row (Some (handleInspect d name)) =
    Ok [("name", name); ("kind", r_Kind rec); ("status", r_Status rec); ("frontend", EndpointOf f);
        ("backend", from_option Backend_Addr "" (r_Backend rec)); ("source", r_Source rec);
        ("owner_key", r_OwnerKey rec); ("producer_id", r_ProducerID rec);
        ("docker_container_id", r_DockerContainerID rec)].
Proof.
  intros Hd Hs Hrec f. pose proof (service_frontend d name rec Hd Hs Hrec) as Hf.
  destruct (inv_services d Hd name rec Hrec) as ([Hname _] & _ & Hback & _).
  split_and!.
  - unfold EndpointOf, HostPortEndpoint, f; simpl. case_decide; [done|]. rewrite decide_False by (destruct Hf; [done|lia]).
    apply JoinHostPort_nonempty. intros E. pose proof (Itoa_digits (f_Port (r_Frontend rec))). naive_solver lia.
  - unfold frontendEndpoint, EndpointOf, HostPortEndpoint, f; simpl. case_decide; [done|].
    by rewrite decide_False by (destruct Hf; [done|lia]).
  - unfold once_endpoint, EndpointOf, HostPortEndpoint, f; simpl. repeat case_decide; try done. destruct Hf; [done|lia].
  - done.
  - unfold inspect_row, handleInspect, Inspect. rewrite Hrec.
    cbn [do_request inspect_response id_Name id_Kind id_Status id_Frontend id_Backend id_Source id_OwnerKey
         id_ProducerID id_DockerContainerID inspectDTO infoFromRecord i_Name i_Kind i_Status i_Frontend
         i_Backend i_Source i_OwnerKey i_ProducerID i_DockerContainerID].
    rewrite (decide_False (P := 200 < 200 ∨ 300 ≤ 200)) by lia. cbn -[EndpointOf HostPortEndpoint]. rewrite Hname.
    destruct (r_Backend rec) as [b|] eqn:Eb; [|done]. cbn -[EndpointOf HostPortEndpoint].
    unfold HostPortEndpoint. destruct (Hback b eq_refl) as [? _]. by rewrite decide_False by lia.
Qed.

(** ** Once or for good *)

(** register --once sends the request the long-running registration sends, and prints the same
    row for the same response. *)
Theorem register_once_agrees sock default_sock s h resp fmt_time :
  new_handle default_sock (register_options s sock) = Ok h → g_kind s ≠ "" → rp_Name resp = g_name s →
  (∀ t, rp_ExpiresAt resp = Some t → Second ≤ t) →
  once_request s = Ok (h_baseReq h) ∧ emitRow fmt_time (Info (adopt h resp)) = once_row fmt_time resp.
Proof.
  intros Hh Hk Hname Ht. unfold new_handle in Hh. cbn [register_options o_Name o_Backend o_Kind o_AppProtocol
    o_HTTPHost o_PreferredPort o_TTLSeconds o_Manual o_Socket] in Hh.
  repeat (case_decide; [done|]). unfold once_request.
  destruct (SplitHostPort (g_backend s)) as [[host portStr]|]; [|done].
  destruct (Atoi portStr) as [port|]; [|done]. rewrite (decide_False (P := g_kind s = "")) in Hh by done.
  injection Hh as <-. cbn [h_baseReq].
  assert ((if decide (g_preferred_port s ≠ 0) then g_preferred_port s else 0) = g_preferred_port s) as ->
    by (case_decide; lia).
  split; [done|].
  unfold emitRow, once_row, Info, adopt. cbn -[once_endpoint frontendEndpoint]. rewrite Hname.
  assert (frontendEndpoint (rp_Frontend resp) = once_endpoint (rp_Frontend resp)) as ->.
  { unfold frontendEndpoint, once_endpoint. by repeat case_decide. }
  destruct (rp_ExpiresAt resp) as [t|]; [|done].
  rewrite decide_False; [done|]. specialize (Ht t eq_refl). unfold rfc3339.
  change Second with 1000000000 in *. pose proof (Z.div_le_lower_bound t 1000000000 1). lia.
Qed.

(** ** Waiting *)

(** Lookups of a run that began at [now]: the first reply is in no earlier,
    and between two of them lies a sleep. *)
Fixpoint spaced (now : Z) (attempts : list Attempt) : Prop :=
  match attempts with
  | [] => True
  | a :: attempts => now ≤ at_now a ∧ spaced (at_now a + retryInterval) attempts
  end.

Lemma resolve_round_again raw wait deadline a :
  resolve_round raw wait deadline a = None → 0 < wait ∧ at_now a < deadline ∧ at_cancelled a = false.
Proof. unfold resolve_round. intros E. repeat case_match; simplify_eq; repeat case_decide; simplify_eq; naive_solver lia. Qed.

Lemma resolve_loop_ends raw wait deadline now attempts :
  spaced now attempts → deadline - now ≤ (Z.of_nat (length attempts) - 1) * retryInterval → attempts ≠ [] →
  is_Some (resolve_loop raw wait deadline attempts).
Proof.
  revert now. induction attempts as [|a attempts IH]; intros now Hs Hd Hne; [done|].
  cbn [resolve_loop]. destruct (resolve_round raw wait deadline a) eqn:E; [done|].
  apply resolve_round_again in E as (Hw & Hdl & _). destruct Hs as [Hn Hs].
  cbn [length] in Hd. change retryInterval with 250000000 in *.
  apply (IH (at_now a + 250000000)); [done|lia|]. intros ->. simpl in Hd. lia.
Qed.

(** A lookup that makes the loop go on, and one that ends it well. *)
Definition pending (wait deadline : Z) (a : Attempt) : Prop :=
  0 < wait ∧ at_now a < deadline ∧ at_cancelled a = false ∧
  match do_request (at_reply a) with
  | Ok b => sd_Status (service_response b) ≠ "ready"
  | Err e => retryableLookupError e = true
  end.

Definition ready (a : Attempt) (svc : ServiceDTO) : Prop :=
  do_request (at_reply a) = Ok (BodyService svc) ∧ sd_Status svc = "ready".

Lemma resolve_round_pending raw wait deadline a :
  pending wait deadline a → resolve_round raw wait deadline a = None.
Proof.
  intros (Hw & Hd & Hc & Hr). unfold resolve_round. destruct (do_request (at_reply a)) as [b|e].
  - rewrite decide_False by (intros [?|[? _]]; [done|lia]). by rewrite decide_True, Hc by lia.
  - by rewrite decide_True, Hc by (split_and!; done || lia).
Qed.

Lemma resolve_round_ready raw wait deadline a svc :
  ready a svc → resolve_round raw wait deadline a =
    Some (Ok (if raw then RawEndpoint (resolve_endpoint svc) else ResolvedRow (resolve_row svc))).
Proof.
  intros [Hr Hs]. unfold resolve_round. rewrite Hr. cbn [service_response]. rewrite decide_True by (by left).
  destruct raw; [|done]. rewrite decide_False; [done|]. intros Hn. by apply Hn.
Qed.

(** C39: The waiting loop of services resolve ends: with a pause of 250 ms between lookups it
    returns after at most one lookup more than fit into the wait; and while lookups find the
    service unknown, without a backend, or the daemon unreachable, it keeps on and returns the
    endpoint of the first lookup that finds the service ready. *)
Theorem resolve_waits raw wait_text wait now attempts :
  parse_wait wait_text = Some wait → spaced now attempts →
  (wait ≤ (Z.of_nat (length attempts) - 1) * retryInterval → attempts ≠ [] →
     is_Some (resolve raw wait_text now attempts)) ∧
  (∀ before a svc after, attempts = before ++ a :: after → Forall (pending wait (now + wait)) before →
     ready a svc → resolve raw wait_text now attempts =
       Some (Ok (if raw then RawEndpoint (resolve_endpoint svc) else ResolvedRow (resolve_row svc)))).
Proof.
  intros Hw Hs. unfold resolve. rewrite Hw. split.
  - intros Hl Hne. apply (resolve_loop_ends _ _ _ now); [done|lia|done].
  - intros before a svc after -> Hp Hr. clear Hs. induction Hp as [|b before Hb _ IH]; cbn [app resolve_loop].
    + by rewrite (resolve_round_ready _ _ _ _ svc).
    + by rewrite resolve_round_pending.
Qed.

(** What raw output is ever printed for. *)
Lemma resolve_loop_raw raw wait deadline attempts e :
  resolve_loop raw wait deadline attempts = Some (Ok (RawEndpoint e)) →
  ∃ a b, a ∈ attempts ∧ do_request (at_reply a) = Ok b ∧ sd_Status (service_response b) = "ready" ∧
    e = resolve_endpoint (service_response b).
Proof.
  induction attempts as [|a attempts IH]; cbn [resolve_loop]; [done|].
  destruct (resolve_round raw wait deadline a) as [r|] eqn:E.
  - intros [= ->]. exists a. unfold resolve_round in E.
    destruct (do_request (at_reply a)) as [b|err]; [|repeat case_decide; simplify_eq; by repeat case_match; simplify_eq].
    exists b. split; [by left|]. split; [done|].
    repeat case_decide; repeat case_match; simplify_eq; split; [|done].
    by destruct (decide (sd_Status (service_response b) = "ready")).
  - intros Hl. destruct (IH Hl) as (a' & b & Hin & ?). exists a', b. split; [by right|done].
Qed.

(** services resolve --raw prints only endpoints that are usable: what it prints is not empty
    and is the frontend of the named service as a daemon had it, ready and with a backend, at
    one of the lookups. *)
Theorem raw_endpoint_is_ready wait_text now name attempts e :
  (∀ a, a ∈ attempts → at_reply a = None ∨
     ∃ d, daemon_inv d ∧ ro_scheme (d_HTTP d) ≠ "" ∧ at_reply a = Some (handleResolve d name)) →
  resolve true wait_text now attempts = Some (Ok (RawEndpoint e)) →
  e ≠ "" ∧ ∃ a d rec, a ∈ attempts ∧ at_reply a = Some (handleResolve d name) ∧
    Resolve (d_Registry d) name = Some rec ∧ r_Status rec = StatusReady ∧ is_Some (r_Backend rec) ∧
    e = EndpointOf (frontendDTO (r_Frontend rec)).
Proof.
  intros Hall. unfold resolve. destruct (parse_wait wait_text) as [wait|]; [|done]. intros Hr.
  apply resolve_loop_raw in Hr as (a & b & Hin & Hb & Hst & ->).
  destruct (Hall a Hin) as [Hn|(d & Hd & Hsch & Hrep)]; [by rewrite Hn in Hb|].
  rewrite Hrep in Hb. unfold handleResolve, ResolveService in Hb.
  destruct (Resolve (d_Registry d) name) as [rec|] eqn:Hrec; [|by cbn in Hb].
  assert (b = BodyService (serviceDTO (infoFromRecord rec false))) as ->.
  { unfold do_request in Hb. rewrite decide_False in Hb by lia. by injection Hb. }
  cbn [service_response] in *.
  destruct (inv_services d Hd name rec Hrec) as ([_ Hwf] & _).
  assert (r_Status rec = StatusReady) as Hready by exact Hst.
  split.
  - unfold resolve_endpoint. cbn. destruct (service_frontend d name rec Hd Hsch Hrec) as [Hu|Hp].
    + by rewrite decide_True.
    + case_decide; [done|]. unfold HostPortEndpoint. rewrite decide_False by lia.
      apply JoinHostPort_nonempty. apply Itoa_digits. lia.
  - exists a, d, rec. split_and!; try done. destruct Hwf as [[_ ?]|[Hu _]]; [done|]. by rewrite Hready in Hu.
Qed.

End Endpoints.

(** ** Doctor *)

Definition check_failed (c : Check) : bool := bool_decide (ck_Status c = "fail").

Lemma probe_check_ok r : check_failed (probe_check r) = false ↔
  ∃ res, r = Ok res ∧ (pr_Skipped res = true ∨ pr_Supported res = true).
Proof.
  destruct r as [res|e]; [|split; [done|by intros (? & ? & _)]].
  unfold probe_check. destruct (pr_Skipped res) eqn:E1; [by split; eauto|].
  destruct (pr_Supported res) eqn:E2; [by split; eauto|].
  split; [done|]. intros (res' & [= <-] & [?|?]); congruence.
Qed.

Lemma docker_check_ok docker : check_failed (docker_check docker) = false ↔ docker = "disabled" ∨ docker = "connected".
Proof. unfold docker_check. repeat case_decide; subst; split; try done; auto. by intros [?|?]. Qed.

(** doctor succeeds exactly when the daemon answers, Docker is disabled or connected with a
    probe that is skipped or supported, the loopback interface can be bound, and the socket's
    directory can be written. *)
Theorem doctor_fails_iff {E} `{DockerAPI E} socket (fi : Findings E) :
  (doctor socket fi).2 = false ↔
  (∃ b docker, do_request (fi_health fi) = Ok b ∧
     docker = match b with BodyHealth _ docker => docker | _ => "" end ∧
     (docker = "disabled" ∨
      (docker = "connected" ∧ ∃ e res, fi_client fi = Some e ∧ (ProbeLoopbackPublication (fi_cancelled fi) e).2 = Ok res ∧
         (pr_Skipped res = true ∨ pr_Supported res = true)))) ∧
  is_Some (fi_loopback fi) ∧ fi_mkdir fi = true ∧ fi_create_temp fi = true.
Proof.
  unfold doctor, runChecks.
  match goal with |- context [let '(_, _) := (let '(_, _) := ?m in _) in _] => set (dc := m) end.
  assert (existsb check_failed dc.2 = false ↔ ∃ b docker, do_request (fi_health fi) = Ok b ∧
     docker = match b with BodyHealth _ docker => docker | _ => "" end ∧
     (docker = "disabled" ∨
      (docker = "connected" ∧ ∃ e res, fi_client fi = Some e ∧ (ProbeLoopbackPublication (fi_cancelled fi) e).2 = Ok res ∧
         (pr_Skipped res = true ∨ pr_Supported res = true)))) as Hdc.
  - unfold dc. destruct (do_request (fi_health fi)) as [b|e]; [|split; [done|by intros (? & ? & ? & _)]].
    set (docker := match b with BodyHealth _ docker => docker | _ => "" end).
    transitivity (docker = "disabled" ∨
      (docker = "connected" ∧ ∃ e res, fi_client fi = Some e ∧ (ProbeLoopbackPublication (fi_cancelled fi) e).2 = Ok res ∧
         (pr_Skipped res = true ∨ pr_Supported res = true))); [|by naive_solver].
    pose proof (docker_check_ok docker) as Hd.
    destruct (decide (docker = "disabled")) as [->|Hdis]; [by split; [left|]|].
    rewrite decide_True by done. unfold probeDockerPublication.
    destruct (fi_client fi) as [e|].
    + destruct (ProbeLoopbackPublication _ e) as [e' r] eqn:Ep. cbn [snd app existsb fst].
      change (check_failed (mkCheck "daemon-reachable" _ _)) with false. cbn [orb].
      rewrite orb_false_r, orb_false_iff, Hd, probe_check_ok. split.
      * intros ([?|Hc] & res & -> & Hs); [done|]. right. split; [done|]. exists e, res. by rewrite Ep.
      * intros [?|(Hc & e0 & res & [= <-] & Hr & Hs)]; [done|]. rewrite Ep in Hr. split; [by right|by exists res].
    + cbn [snd app existsb]. rewrite !orb_true_r. naive_solver.
  - destruct dc as [engine checks]. cbn [snd] in *. rewrite existsb_app, orb_false_iff. fold check_failed.
    apply Morphisms_Prop.and_iff_morphism; [exact Hdc|]. cbn [existsb]. rewrite orb_false_r, orb_false_iff.
    destruct (fi_loopback fi) as [addr|], (fi_mkdir fi), (fi_create_temp fi); cbn; split; try done; try naive_solver.
    all: intros (Hl & _); by destruct Hl.
Qed.
