(* ===== verification/Commands.v ===== *)
(** * cmd/devmesh, cmd/devmeshd: the command trees

    The descriptions of the commands with the fields they declare, the structs
    the fields are decoded into, [AddCommands] of root.go, and the [run] and
    [main] of both programs.  Cobra, Glazed and its help system are parameters. *)

From S2P Require Import Prelude GoStrings GoNet GoTime GoPath Registry Lease State Runtime Router Config ConfigFile Serve Daemon DaemonInv DaemonSpec DaemonSystem Api Client Dockerwatch DockerApi Probe Cli.
Local Open Scope Z_scope.

(** ** Fields *)

Inductive FieldType := TypeString | TypeInteger | TypeBool.

#[global] Instance FieldType_eq_dec : EqDecision FieldType.
Proof. solve_decision. Defined.

Record Field := mkField {
  fn_Name : string;
  fn_Type : FieldType;
  fn_Default : option any;
  fn_IsArgument : bool;
  fn_Required : bool
}.

(** [fields.New], and with its options. *)
Definition field (name : string) (type : FieldType) : Field := mkField name type None false false.
Definition WithDefault (v : any) (f : Field) : Field :=
  mkField (fn_Name f) (fn_Type f) (Some v) (fn_IsArgument f) (fn_Required f).
Definition WithRequired (f : Field) : Field := mkField (fn_Name f) (fn_Type f) (fn_Default f) (fn_IsArgument f) true.
Definition WithIsArgument (f : Field) : Field := mkField (fn_Name f) (fn_Type f) (fn_Default f) true (fn_Required f).

Record SectionImpl := mkSection { sec_Slug : string; sec_Fields : list Field }.

Record CommandDescription := mkCommand {
  cm_Name : string;
  cm_Parents : list string;
  cm_Arguments : list Field;
  cm_Flags : list Field;
  cm_Sections : list SectionImpl
}.

(** The [glazed] tags of a struct, with the types of their fields. *)
Abbreviation tags := (list (string * FieldType)).

(** ** The commands of devmesh *)

(** daemonconn.go *)
Definition Slug : string := "daemon".

Definition conn_fields : list Field :=
  [field "socket" TypeString; WithDefault (AString "5s") (field "timeout" TypeString)].
Definition conn_tags : tags := [("socket", TypeString); ("timeout", TypeString)].

(** list.go *)
Definition list_flags : list Field := [field "name" TypeString; field "status" TypeString].
Definition list_tags : tags := [("name", TypeString); ("status", TypeString)].

(** resolve.go *)
Definition resolve_arguments : list Field := [WithIsArgument (field "name" TypeString)].
Definition resolve_flags : list Field := [WithDefault (ABool false) (field "raw" TypeBool); field "wait" TypeString].
Definition resolve_tags : tags := [("name", TypeString); ("raw", TypeBool); ("wait", TypeString)].

(** inspect.go *)
Definition inspect_arguments : list Field := [WithIsArgument (field "name" TypeString)].
Definition inspect_tags : tags := [("name", TypeString)].

(** register.go *)
Definition register_flags : list Field :=
  [WithRequired (field "name" TypeString);
   WithRequired (field "backend" TypeString);
   WithDefault (AString "tcp") (field "kind" TypeString);
   field "app-protocol" TypeString;
   field "http-host" TypeString;
   field "preferred-port" TypeInteger;
   WithDefault (AInt 15) (field "ttl" TypeInteger);
   WithDefault (ABool false) (field "once" TypeBool)].
Definition register_tags : tags :=
  [("name", TypeString); ("kind", TypeString); ("app-protocol", TypeString); ("backend", TypeString);
   ("http-host", TypeString); ("preferred-port", TypeInteger); ("ttl", TypeInteger); ("once", TypeBool)].

(** serve.go *)
Definition serve_flags : list Field :=
  let d := Default in
  [field "config" TypeString;
   field "socket" TypeString;
   WithDefault (AString (c_TCPFrontendHost d)) (field "tcp-frontend-host" TypeString);
   WithDefault (AInt (c_TCPFrontendMin d)) (field "tcp-frontend-min" TypeInteger);
   WithDefault (AInt (c_TCPFrontendMax d)) (field "tcp-frontend-max" TypeInteger);
   WithDefault (AString (Duration_String (c_LeaseTTL d))) (field "lease-ttl" TypeString);
   WithDefault (AString (Duration_String (c_ShutdownTimeout d))) (field "shutdown-timeout" TypeString);
   field "state" TypeString;
   WithDefault (ABool (dc_Enabled (c_Docker d))) (field "docker-enabled" TypeBool);
   WithDefault (ABool (dc_AllowNonLoopbackPublishedPorts (c_Docker d)))
     (field "docker-allow-non-loopback-published-ports" TypeBool);
   WithDefault (ABool (hc_Enabled (c_HTTP d))) (field "http-enabled" TypeBool);
   WithDefault (AString (hc_HTTPAddr (c_HTTP d))) (field "http-addr" TypeString);
   WithDefault (AString (hc_HTTPSAddr (c_HTTP d))) (field "https-addr" TypeString);
   WithDefault (AString (hc_BaseDomain (c_HTTP d))) (field "http-base-domain" TypeString);
   field "http-cert-file" TypeString;
   field "http-key-file" TypeString].

Definition NewServeCommand : CommandDescription := mkCommand "serve" [] [] serve_flags [].

Definition serve_tags : tags :=
  ((λ t, (t.1, TypeString)) <$> string_tags) ++ ((λ t, (t.1, TypeInteger)) <$> int_tags) ++
  ((λ t, (t.1, TypeBool)) <$> bool_tags).

(** ** The libraries *)

(** What cobra, Glazed and the help system do to a command tree; [false] is an
    error.  [NewSection i] is the [i]-th call of that function. *)
Class Libraries (Root : Type) := {
  NewSection : nat → string → list Field → option SectionImpl;
  NewRoot : string → Root;
  AddLoggingSection : string → Root → Root * bool;
  AddCommandsToRootCommand : string → list CommandDescription → Root → Root * bool;
  Cobra : Type;
  BuildCobraCommand : CommandDescription → option Cobra;
  AddCommand : Cobra → Root → Root;
  LoadSectionsFromFS : bool;
  SetupCobraRootCommand : Root → Root;
  Execute : Root → Root * bool
}.

(** A section that is built is the one that was asked for. *)
Class LibraryLaws (Root : Type) `{Libraries Root} := {
  NewSection_built n slug fs s : NewSection n slug fs = Some s → s = mkSection slug fs
}.

Section Trees.
Context {Root : Type} `{Libraries Root}.

(** [daemonconn.NewSection] *)
Definition NewConnSection (n : nat) : option SectionImpl := NewSection n Slug conn_fields.

Definition with_section (n : nat) (k : SectionImpl → CommandDescription) : option CommandDescription :=
  match NewConnSection n with Some s => Some (k s) | None => None end.

Definition NewListCommand (n : nat) : option CommandDescription :=
  with_section n (λ s, mkCommand "list" ["services"] [] list_flags [s]).
Definition NewResolveCommand (n : nat) : option CommandDescription :=
  with_section n (λ s, mkCommand "resolve" ["services"] resolve_arguments resolve_flags [s]).
Definition NewInspectCommand (n : nat) : option CommandDescription :=
  with_section n (λ s, mkCommand "inspect" ["services"] inspect_arguments [] [s]).
Definition NewRegisterCommand (n : nat) : option CommandDescription :=
  with_section n (λ s, mkCommand "register" [] [] register_flags [s]).
Definition NewDoctorCommand (n : nat) : option CommandDescription :=
  with_section n (λ s, mkCommand "doctor" [] [] [] [s]).
Definition NewHealthCommand (n : nat) : option CommandDescription :=
  with_section n (λ s, mkCommand "health" [] [] [] [s]).

(** [AddCommands] *)
Definition AddCommands (root : Root) : Root * bool :=
  match NewListCommand 0 with None => (root, false) | Some listCmd =>
  match NewResolveCommand 1 with None => (root, false) | Some resolveCmd =>
  match NewInspectCommand 2 with None => (root, false) | Some inspectCmd =>
  match NewRegisterCommand 3 with None => (root, false) | Some registerCmd =>
  match NewDoctorCommand 4 with None => (root, false) | Some doctorCmd =>
  match NewHealthCommand 5 with None => (root, false) | Some healthCmd =>
    AddCommandsToRootCommand "devmesh" [listCmd; resolveCmd; inspectCmd; registerCmd; doctorCmd; healthCmd] root
  end end end end end end.

(** [doc.AddDocToHelpSystem] *)
Definition AddDocToHelpSystem : bool := LoadSectionsFromFS.

(** [run] of devmesh, and of devmeshd. *)
Definition devmesh_run : Root * bool :=
  match AddLoggingSection "devmesh" (NewRoot "devmesh") with
  | (root, false) => (root, false)
  | (root, true) =>
    match AddCommands root with
    | (root, false) => (root, false)
    | (root, true) => if AddDocToHelpSystem then Execute (SetupCobraRootCommand root) else (root, false)
    end
  end.

Definition devmeshd_run : Root * bool :=
  match AddLoggingSection "devmeshd" (NewRoot "devmeshd") with
  | (root, false) => (root, false)
  | (root, true) =>
    match BuildCobraCommand NewServeCommand with
    | None => (root, false)
    | Some serveCmd =>
      let root := AddCommand serveCmd root in
      if AddDocToHelpSystem then Execute (SetupCobraRootCommand root) else (root, false)
    end
  end.

(** [main]: the status the process ends with. *)
Definition devmesh_main : Z := if devmesh_run.2 then 0 else 1.
Definition devmeshd_main : Z := if devmeshd_run.2 then 0 else 1.

End Trees.

(** ** Properties *)

(** A value has a field's type. *)
Definition has_type (t : FieldType) (v : any) : Prop :=
  match t with
  | TypeString => ∃ s, v = AString s
  | TypeInteger => ∃ n, in_int64 n ∧ v = AInt n
  | TypeBool => ∃ b, v = ABool b
  end.

Definition well_typed (f : Field) : Prop := ∀ v, fn_Default f = Some v → has_type (fn_Type f) v.

(** The fields of a command's own section, and of its shared sections. *)
Definition own_fields (c : CommandDescription) : list Field := cm_Arguments c ++ cm_Flags c.
Definition shared_fields (c : CommandDescription) : list Field := mjoin (sec_Fields <$> cm_Sections c).
Definition declared (fs : list Field) : tags := (λ f, (fn_Name f, fn_Type f)) <$> fs.

(** The words a command is called with. *)
Definition command_path (c : CommandDescription) : list string := cm_Parents c ++ [cm_Name c].

(** A command and the structs its [Run] decodes: every tag is a declared field
    of that type, names are not declared twice, defaults have their type. *)
Record decodes (c : CommandDescription) (own shared : tags) : Prop := {
  dec_own : declared (own_fields c) ≡ₚ own;
  dec_shared : declared (shared_fields c) ≡ₚ shared;
  dec_distinct : NoDup (fn_Name <$> own_fields c ++ shared_fields c);
  dec_typed : Forall well_typed (own_fields c ++ shared_fields c)
}.

Lemma well_typed_field n t : well_typed (field n t).
Proof. by intros v Hv. Qed.
Lemma well_typed_required f : well_typed f → well_typed (WithRequired f).
Proof. done. Qed.
Lemma well_typed_argument f : well_typed f → well_typed (WithIsArgument f).
Proof. done. Qed.
Lemma well_typed_default v f : has_type (fn_Type f) v → well_typed (WithDefault v f).
Proof. by intros Hv w [= <-]. Qed.

Lemma has_type_string s : has_type TypeString (AString s).
Proof. by exists s. Qed.
Lemma has_type_bool b : has_type TypeBool (ABool b).
Proof. by exists b. Qed.
Lemma has_type_int n : in_int64 n → has_type TypeInteger (AInt n).
Proof. by exists n. Qed.

Create HintDb fields discriminated.
#[local] Hint Resolve well_typed_field well_typed_required well_typed_argument well_typed_default
  has_type_string has_type_bool has_type_int : fields.
#[local] Hint Extern 1 (has_type (fn_Type _) _) => simpl : fields.
#[local] Hint Extern 1 (in_int64 _) => by vm_compute : fields.

(** Decides [decodes] of a concrete command. *)
Ltac fields_decided :=
  split; [| | |cbn; repeat (apply Forall_cons; split); auto 6 with fields];
  refine (bool_decide_unpack _ _); vm_compute; exact I.

Section Facts.
Context {Root : Type} `{LibraryLaws Root}.

(** The commands of devmesh, with the tags of their settings. *)
Definition devmesh_builders : list ((nat → option CommandDescription) * tags) :=
  [(NewListCommand, list_tags); (NewResolveCommand, resolve_tags); (NewInspectCommand, inspect_tags);
   (NewRegisterCommand, register_tags); (NewDoctorCommand, []); (NewHealthCommand, [])].

Lemma with_section_built n k c : with_section n k = Some c → c = k (mkSection Slug conn_fields).
Proof.
  unfold with_section, NewConnSection. destruct (NewSection n Slug conn_fields) as [s|] eqn:E; [|done].
  intros [= <-]. by rewrite (NewSection_built _ _ _ _ E).
Qed.

(** Every command of devmesh and devmeshd declares what it decodes: the fields of its settings
    struct are declared with their types, in the shared section too, no name is declared twice,
    and each default is a value of its field's type. The one exception is runtime-idle-ttl, which
    serve decodes and does not declare. *)
Theorem commands_declare_what_they_decode :
  Forall (λ b, ∀ n c, b.1 n = Some c → decodes c b.2 conn_tags) devmesh_builders ∧
  decodes NewServeCommand (filter (λ t, t.1 ≠ "runtime-idle-ttl") serve_tags) [] ∧
  ("runtime-idle-ttl", TypeString) ∈ serve_tags ∧
  (λ f, (fn_Name f, fn_Default f)) <$> serve_flags = serve_fields.
Proof.
  split_and!.
  - repeat (apply Forall_cons; split); [..|apply Forall_nil; done]; cbn [fst snd];
      intros n c Hc; apply with_section_built in Hc as ->; fields_decided.
  - fields_decided.
  - refine (bool_decide_unpack _ _). vm_compute. exact I.
  - reflexivity.
Qed.

(** The declared defaults are accepted by the code that reads them: the timeout is the one the
    client falls back to, the kind of register is a kind, and its lease is in the daemon's bounds
    and the one the daemon grants on its own. *)
Theorem defaults_are_accepted d :
  (∃ s, ("timeout", Some (AString s)) ∈ (λ f, (fn_Name f, fn_Default f)) <$> conn_fields ∧
    ParseDuration s = Some (5 * Second)) ∧
  (∃ k, ("kind", Some (AString k)) ∈ (λ f, (fn_Name f, fn_Default f)) <$> register_flags ∧
    (k = KindTCP ∨ k = KindHTTP)) ∧
  (∃ n, ("ttl", Some (AInt n)) ∈ (λ f, (fn_Name f, fn_Default f)) <$> register_flags ∧
    MinLeaseTTL ≤ effective_ttl d SourceManual n ≤ MaxLeaseTTL ∧
    effective_ttl d SourceManual n = c_LeaseTTL Default).
Proof.
  split_and!.
  - exists "5s". split; [apply list_elem_of_In; cbn; tauto|by vm_compute].
  - exists KindTCP. split; [apply list_elem_of_In; cbn; tauto|by left].
  - exists 15. split; [apply list_elem_of_In; cbn; tauto|].
    split; [|by vm_compute]. split; apply Z.leb_le; by vm_compute.
Qed.

(** Every command that is built. *)
Definition built : option (list CommandDescription) :=
  mapM (λ b, b) (imap (λ n b, b.1 n) devmesh_builders).

Lemma AddCommands_built root :
  AddCommands root =
    match built with Some cs => AddCommandsToRootCommand "devmesh" cs root | None => (root, false) end.
Proof.
  unfold built, AddCommands. cbn.
  unfold NewListCommand, NewResolveCommand, NewInspectCommand, NewRegisterCommand, NewDoctorCommand,
    NewHealthCommand, with_section.
  destruct (NewConnSection 0); [|done]. destruct (NewConnSection 1); [|done].
  destruct (NewConnSection 2); [|done]. destruct (NewConnSection 3); [|done].
  destruct (NewConnSection 4); [|done]. by destruct (NewConnSection 5).
Qed.

Lemma built_paths cs :
  built = Some cs →
  command_path <$> cs =
    [["services"; "list"]; ["services"; "resolve"]; ["services"; "inspect"]; ["register"]; ["doctor"]; ["health"]].
Proof.
  unfold built. intros Hb%mapM_Some. cbn in Hb.
  repeat match goal with H : Forall2 _ (_ :: _) _ |- _ => apply Forall2_cons_inv_l in H as (?&?&?&?&->)
    | H : Forall2 _ [] _ |- _ => apply Forall2_nil_inv_l in H as -> end.
  repeat match goal with H : _ = Some _ |- _ => apply with_section_built in H as -> end. done.
Qed.

(** [AddCommands] mounts all six commands at once, each under its own path, or leaves the tree as
    it was. *)
Theorem AddCommands_all_or_nothing root :
  match built with
  | Some cs =>
    AddCommands root = AddCommandsToRootCommand "devmesh" cs root ∧
    NoDup (command_path <$> cs) ∧
    command_path <$> cs =
      [["services"; "list"]; ["services"; "resolve"]; ["services"; "inspect"]; ["register"]; ["doctor"]; ["health"]]
  | None => AddCommands root = (root, false)
  end.
Proof.
  rewrite AddCommands_built. destruct built as [cs|] eqn:Hb; [|done].
  rewrite (built_paths _ Hb). split_and!; [done| |done].
  refine (bool_decide_unpack _ _). vm_compute. exact I.
Qed.

(** devmesh fails, with its tree as the logging section left it, when a section cannot be built;
    status 0 is reported exactly for a tree whose execution succeeded. *)
Theorem devmesh_main_status :
  (built = None → devmesh_main = 1 ∧ devmesh_run.1 = (AddLoggingSection "devmesh" (NewRoot "devmesh")).1) ∧
  (devmesh_main = 0 ↔ ∃ r0 cs r1,
    AddLoggingSection "devmesh" (NewRoot "devmesh") = (r0, true) ∧ built = Some cs ∧
    AddCommandsToRootCommand "devmesh" cs r0 = (r1, true) ∧ LoadSectionsFromFS = true ∧
    (Execute (SetupCobraRootCommand r1)).2 = true).
Proof.
  unfold devmesh_main, devmesh_run, AddDocToHelpSystem.
  pose proof AddCommands_built as Hall. generalize dependent built. intros b Hall.
  destruct (AddLoggingSection _ _) as [r0 [|]]; cbn; cycle 1.
  { split; [done|]. split; [done|]. by intros (?&?&?&[=]&?). }
  rewrite Hall. destruct b as [cs|]; cbn; cycle 1.
  { split; [done|]. split; [done|]. by intros (?&?&?&?&[=]&?). }
  split; [done|]. destruct (AddCommandsToRootCommand _ _ r0) as [r1 [|]] eqn:Er; cbn.
  - destruct LoadSectionsFromFS; cbn; [|naive_solver].
    destruct (Execute _) as [r2 ok] eqn:Ee; cbn. split.
    + intros Hok. exists r0, cs, r1. rewrite Ee. by destruct ok.
    + intros (?&?&?&[= <-]&[= <-]&Hr&_&Hx). rewrite Er in Hr. injection Hr as <-. rewrite Ee in Hx. by destruct ok.
  - split; [done|]. intros (?&?&?&[= <-]&[= <-]&Hr&_). congruence.
Qed.

End Facts.
