(* ===== verification/RegisterRun.v ===== *)
(** * devmesh register, from start to interrupt

    The command of [register.go] in the running system: [Register], the row,
    the heartbeat loop until the command's context is canceled, and the
    deferred [Close].  With --once there is one request and nothing after it. *)

From S2P Require Import Prelude GoStrings GoNet Registry Lease State Runtime Router Config Daemon DaemonInv DaemonSpec DaemonSystem Api Client ClientNet Cli.
From Stdlib Require Import Ascii.
Local Open Scope Z_scope.

Section RegisterRun.
Context `{JSON} `{Unicode} `{MapRange}.

Inductive OnceRunError := OnceBadBackend (e : OnceError) | OnceRefused (e : ClientError).

(** [registerOnce]. *)
Definition registerOnce (fmt_time : Z → string) (s : RegisterSettings) (f : fate) (env : Env) (d : Daemon) :
    Daemon * result row OnceRunError :=
  match once_request s with
  | Err e => (d, Err (OnceBadBackend e))
  | Ok req =>
    let '(d', reply) := exchange f d (λ d, handleRegister d (Some req) env) in
    match do_request reply with
    | Err e => (d', Err (OnceRefused e))
    | Ok b => (d', Ok (once_row fmt_time (register_response b)))
    end
  end.

(** Where the command is: the single registration is over, it failed, it has
    put out its row and the heartbeat loop runs, or it is over. *)
Inductive Command :=
| OnceDone (d : Daemon) (r : result row OnceRunError)
| CommandFailed (d : Daemon) (e : RegisterError)
| Maintaining (d : Daemon) (l : Loop) (r : row)
| Unregistered (d : Daemon) (h : Handle).

(** The deferred [Close]. *)
Definition unregister (f : fate) (now : Z) (d : Daemon) (h : Handle) : Command :=
  let '(d', h') := Close f now d h in Unregistered d' h'.

(** [RunIntoGlazeProcessor] up to the wait, after the settings are decoded and
    the socket's path is known; [emits] is what [gp.AddRow] returns. *)
Definition run_register (fmt_time : Z → string) (default_socket socket : string) (s : RegisterSettings)
    (f : fate) (env : Env) (now : Z) (emits : bool) (f' : fate) (d : Daemon) : Command :=
  if g_once s then let '(d', r) := registerOnce fmt_time s f env d in OnceDone d' r
  else match ClientRegister default_socket (register_options s socket) f env d with
  | (d', Err e) => CommandFailed d' e
  | (d', Ok h) =>
    if emits then Maintaining d' (round_ok now h) (emitRow fmt_time (Info h)) else unregister f' now d' h
  end.

(** The context is canceled. *)
Definition interrupt (f : fate) (now : Z) (d : Daemon) (l : Loop) : Command := unregister f now d (lp_h l).

(** ** --once *)

(** The single request does to the daemon what the long-running registration
    does first. *)
Lemma registerOnce_daemon fmt_time default_socket socket s f env d h :
  new_handle default_socket (register_options s socket) = Ok h → g_kind s ≠ "" →
  (registerOnce fmt_time s f env d).1 = (ClientRegister default_socket (register_options s socket) f env d).1.
Proof.
  intros Hh Hk. unfold registerOnce, ClientRegister. rewrite Hh.
  assert (once_request s = Ok (h_baseReq h)) as ->.
  { revert Hh. unfold new_handle, once_request. cbn [register_options o_Name o_Backend o_Kind o_AppProtocol o_HTTPHost
      o_PreferredPort o_TTLSeconds o_Manual o_Socket]. repeat (case_decide; [done|]).
    destruct (SplitHostPort (g_backend s)) as [[host portStr]|]; [|done].
    destruct (Atoi portStr) as [port|]; [|done]. rewrite (decide_False (P := g_kind s = "")) by done. intros [= <-].
    simpl. do 2 f_equal. case_decide; lia. }
  unfold post_registration. destruct (exchange _ _ _) as [d' reply]. unfold register. by destruct (do_request reply).
Qed.

(** ** The handle of the loop is open *)

Lemma heartbeat_verdict_open h reply h' : heartbeat_verdict h reply = Renewed h' → h_closed h' = h_closed h.
Proof. unfold heartbeat_verdict. intros E. repeat case_match; by simplify_eq/=. Qed.

Lemma net_step_open (L : Z) n n' : net_step L n n' → h_closed (net_handle n) = false → h_closed (net_handle n') = false.
Proof.
  destruct 1 as [n t|n s' Hf|n|n rl|n reply delay Hp Hj Hv|n]; try done. intros Hc.
  unfold net_handle in *. simpl. unfold round. destruct (heartbeat_verdict _ _) as [h'| |] eqn:E; [|done|done].
  apply heartbeat_verdict_open in E. simpl. congruence.
Qed.

Lemma net_run_open (L : Z) n n' : rtc (net_step L) n n' → h_closed (net_handle n) = false → h_closed (net_handle n') = false.
Proof. induction 1; eauto using net_step_open. Qed.

(** ** The end of the registration *)

(** [Close] on the daemon of a loop that is on track. *)
Lemma Close_served rec n e : served rec n e → h_closed (net_handle n) = false → h_regID (net_handle n) ≠ "" →
  let '(d2, h2) := Close Answered (n_now n) (s_d (n_sys n)) (net_handle n) in
  d_Registry d2 = <[r_Name rec := set_Backend None StatusUnavailable (n_now n) rec]> (d_Registry (s_d (n_sys n))) ∧
  d_Lease d2 = Lease.Remove (d_Lease (s_d (n_sys n))) (h_regID (net_handle n)) ∧
  (∀ f now, Close f now d2 h2 = (d2, h2)) ∧
  (s_reg (n_sys n) = None → ∃ s2, rtc step (n_sys n) s2 ∧ s_d s2 = d2).
Proof.
  intros [Hs Hr [Hsrc Hst] Hp (He & Htk & [Hne Hsp] & Hid & _)] Hc Hnid.
  assert (le_Name e = r_Name rec) as Hn.
  { pose proof (si_leases _ Hs _ _ He) as E1. pose proof (si_records _ Hs _ _ Hr Hsrc) as E2. congruence. }
  unfold Close. rewrite Hc. simpl. rewrite decide_False by (intros [?|?]; done).
  unfold delete_registration, handleDelete. simpl. rewrite authorization_token by done.
  pose proof (DeleteRegistration_live (n_now n) (s_d (n_sys n)) _ _ (h_token (net_handle n)) He) as El.
  rewrite decide_True in El by done. rewrite El. simpl. rewrite Hn, Hid, <-Hp.
  set (d1 := with_Lease _ _). destruct (endPublication_fields (n_now n) d1 (r_Name rec) (r_ProducerID rec)) as (_ & _ & E & _).
  split_and!; [|done|done|].
  - unfold endPublication, ClearBackendIf. simpl. by rewrite Hr, decide_False by auto.
  - intros Hreg. destruct (n_sys n) as [d reg dels ends iss lost]. simpl in *. subst reg.
    eexists. split; [apply (DeleteRegistration_steps d dels ends iss lost (n_now n) (h_regID (net_handle n)) (h_token (net_handle n)))|].
    simpl. by rewrite El, Hn, Hid, <-Hp.
Qed.

End RegisterRun.
