(* ===== verification/Examples.v ===== *)
(** * Concrete runs

    Instances of the interfaces, a small configuration, and runs of the
    daemon, the accept loop and the watcher on which the theorems of the
    other files are applied: every hypothesis holds somewhere. *)

From S2P Require Import Prelude GoStrings GoNet GoUrl Registry Lease State Json Runtime AcceptLoop Router Config Daemon DaemonInv DaemonSpec DaemonSystem Api Dockerwatch.
From Stdlib Require Import Ascii.
Local Open Scope Z_scope.

(** ** Instances *)

#[global] Instance json_safe_dec m : Decision (json_safe m).
Proof. unfold json_safe. apply _. Defined.

(** [State.JSON] is [Json.go_json]. *)
#[global] Instance example_unicode : Unicode := λ s, s.
#[global] Instance example_range : MapRange := range_ascending.

(** ** A daemon and its first registrations *)

Definition example_cfg : Config := set_StatePath "/state.json" Default.

Definition start_io : StartIO := mkStartIO "" (mkLoadIO true true 0) true (λ _ _, true).

Definition loopback : Resolver := λ _, None.

Definition alloc_io (tmp : string) : AllocIO := mkAllocIO (λ _, true) 40000 (mkSaveIO tmp None).

Definition env_at (now : Z) (id : string) : Env :=
  mkEnv now now id (Some ["a"%char; "b"%char]) loopback (alloc_io "/.state-1.tmp").

Definition request (name kind host : string) : RegisterParams :=
  mkParams name kind "" (mkBackend "127.0.0.1" 8080) 0 0 SourceProcess "" "" "" host.

(** The daemon after [New], after a TCP and after an HTTP registration. *)
Definition d0 : Daemon :=
  match (NewDaemon start_io ∅ example_cfg).2 with
  | Ok d => d
  | Err _ => mkDaemon example_cfg New (Runtime.NewManager (mkAllocator "" 0 0))
               (mkWorld None ∅ ∅) (Lease.NewManager 0) (NewRouter "" 0) ""
  end.

Definition p1 : RegisterParams := request "api" "" "".
Definition env1 : Env := env_at 1000 "ID1".
Definition d1 : Daemon := (Register d0 p1 env1).1.

Definition p2 : RegisterParams := request "web" "http" "app.local".
Definition env2 : Env := env_at 2000 "ID2".
Definition d2 : Daemon := (Register d1 p2 env2).1.

Definition res_of (r : result RegisterResult Code) : RegisterResult :=
  match r with Ok x => x | Err _ => mkResult "" "" "" (mkFrontend "" 0 "") None 0 end.
Definition res1 : RegisterResult := res_of (Register d0 p1 env1).2.
Definition res2 : RegisterResult := res_of (Register d1 p2 env2).2.

Lemma d0_eq : NewDaemon start_io ∅ example_cfg = (∅, [], Ok d0).
Proof. reflexivity. Qed.

Lemma d1_eq : Register d0 p1 env1 = (d1, Ok res1).
Proof. vm_compute. reflexivity. Qed.

Lemma d2_eq : Register d1 p2 env2 = (d2, Ok res2).
Proof. vm_compute. reflexivity. Qed.

(** ** Side conditions *)

Definition env_fresh (d : Daemon) (env : Env) : bool :=
  match w_state (d_World d) with
  | Some s => bool_decide (w_fs (d_World d) !! io_tmp (io_save (e_alloc env)) = None ∧
                           io_tmp (io_save (e_alloc env)) ≠ s_path s)
  | None => true
  end.

Lemma env_fresh_ok d env : env_fresh d env = true → env_ok d env.
Proof.
  unfold env_fresh, env_ok. intros Hf s Hs. rewrite Hs in Hf. by apply bool_decide_eq_true in Hf.
Qed.

Lemma d0_inv : daemon_inv d0.
Proof. exact (NewDaemon_inv _ _ _ _ _ _ d0_eq). Qed.

Lemma env1_ok : env_ok d0 env1.
Proof. by apply env_fresh_ok. Qed.

Lemma d1_inv : daemon_inv d1.
Proof. exact (Register_inv _ _ _ _ _ d0_inv env1_ok d1_eq). Qed.

Lemma env2_ok : env_ok d1 env2.
Proof. by apply env_fresh_ok; vm_compute. Qed.

Lemma d2_inv : daemon_inv d2.
Proof. exact (Register_inv _ _ _ _ _ d1_inv env2_ok d2_eq). Qed.

(** ** The running system *)

Definition s0 : System := mkSys d0 None [] [] ∅ ∅.

Definition pub1 : Daemon := (register_publish d0 p1 env1).1.
Definition prepared1 : Prepared * Frontend :=
  match (register_publish d0 p1 env1).2 with
  | Ok x => x
  | Err _ => (mkPrepared "" "" 0 "" "" "" "", mkFrontend "" 0 "")
  end.
Definition publishing1 : Publishing := mkPublishing p1 prepared1.1 prepared1.2 env1.
Definition s1 : System := mkSys d1 None [] [] (issue p1 env1 ∅) ∅.

Lemma s0_steps : rtc DaemonSystem.step s0 s1.
Proof.
  eapply rtc_l.
  { apply (step_publish d0 [] [] ∅ ∅ p1 env1 pub1 prepared1.1 prepared1.2);
      [by left; split_and!; [left|..]|apply env1_ok|done|by vm_compute]. }
  apply rtc_once.
  apply (step_grant pub1 [] [] (issue p1 env1 ∅) ∅ publishing1 d1 (Ok res1)). vm_compute; reflexivity.
Qed.

Lemma s0_init : DaemonSystem.init s0.
Proof. by exists start_io, ∅, example_cfg, ∅, [], d0. Qed.

Lemma s0_reachable : DaemonSystem.reachable s0.
Proof. exists s0. split; [exact s0_init|apply rtc_refl]. Qed.

Lemma s1_reachable : DaemonSystem.reachable s1.
Proof. exists s0. split; [exact s0_init|exact s0_steps]. Qed.

Definition rec1 : ServiceRecord := registered p1 env1 "" (rr_Frontend res1).
Definition entry1 : Entry :=
  mkEntry "ID1" "api" "process:ID1" (rr_LeaseToken res1) (15 * Second) (1000 + 15 * Second).

Lemma s1_rec : Resolve (d_Registry (s_d s1)) "api" = Some rec1.
Proof. vm_compute; reflexivity. Qed.

(** A heartbeat in time, and the system after it. *)
Definition s1h : System :=
  mkSys (Heartbeat 2000 d1 "ID1" (rr_LeaseToken res1)).1 None [] [] (issue p1 env1 ∅) ∅.

Lemma s1_heartbeat : DaemonSystem.step s1 s1h.
Proof. exact (step_heartbeat d1 None [] [] (issue p1 env1 ∅) ∅ 2000 "ID1" (rr_LeaseToken res1)). Qed.

Lemma leased_service_undisturbed_witness : Resolve (d_Registry (s_d s1h)) "api" = Some rec1.
Proof.
  apply (leased_service_undisturbed s1 s1h "api" rec1 entry1).
  - exact s1_reachable.
  - exact s1_heartbeat.
  - exact s1_rec.
  - discriminate.
  - reflexivity.
  - vm_compute; reflexivity.
Defined.

Lemma sweep_leaves_only_live_witness :
  ∃ e, Lease.Get (d_Lease (sweepLeases 3000 (λ _, 3000) d1)) "ID1" = Some e ∧ le_Name e = "api" ∧
       3000 < le_ExpiresAt e.
Proof.
  apply (sweep_leaves_only_live s1 3000 (λ _, 3000) "api" rec1).
  - exact s1_reachable.
  - reflexivity.
  - reflexivity.
  - vm_compute; reflexivity.
  - discriminate.
  - reflexivity.
  - apply not_elem_of_empty.
Defined.

Lemma ready_service_is_backed_witness : owed s1 rec1.
Proof.
  apply (ready_service_is_backed s1 "api" rec1 s1_reachable s1_rec); [discriminate|reflexivity].
Defined.

Lemma reachable_services_witness :
  daemon_inv d1 ∧
  ∀ n1 n2 r1 r2,
    Resolve (d_Registry d1) n1 = Some r1 → Resolve (d_Registry d1) n2 = Some r2 →
    r_Kind r1 = KindTCP → r_Kind r2 = KindTCP →
    f_Port (r_Frontend r1) = f_Port (r_Frontend r2) → n1 = n2.
Proof. exact (reachable_services s1 s1_reachable). Defined.

Lemma frontend_stable_witness :
  ∃ rec', Resolve (d_Registry (s_d s1h)) "api" = Some rec' ∧ same_frontend rec1 rec'.
Proof.
  exact (frontend_stable s1 s1h "api" rec1 s1_reachable (rtc_once _ _ s1_heartbeat) s1_rec).
Defined.

Lemma late_heartbeat_wedges_service_witness :
  (Heartbeat (16 * Second) d1 "ID1" (rr_LeaseToken res1)).2 = Err CodeRegistrationNotFound ∧
  ∃ s2, DaemonSystem.step s1 s2 ∧
    s_d s2 = (Heartbeat (16 * Second) d1 "ID1" (rr_LeaseToken res1)).1 ∧
  ∀ s3, rtc DaemonSystem.step s2 s3 →
    Resolve (d_Registry (s_d s3)) "api" = Some rec1 ∧
    Lease.Get (d_Lease (s_d s3)) "ID1" = None ∧
    (∀ p env, p_Name p = "api" → request_ok p → s_issued s3 !! request_regID p env = None →
       is_Ok (Register (s_d s3) p env).2 = false).
Proof.
  apply (late_heartbeat_wedges_service s1 "api" rec1 (16 * Second) (rr_LeaseToken res1)).
  - exact s1_reachable.
  - exact s1_rec.
  - discriminate.
  - reflexivity.
  - vm_compute; reflexivity.
Defined.

(** ** Registration *)

Lemma Register_publishes_witness :
  ∃ hostname,
    d_Registry d2 = <["web" := registered p2 env2 hostname (rr_Frontend res2)]> (d_Registry d1) ∧
    Ownership.claim (Ownership.abs (d_Registry d1)) "web" (request_owner p2 env2)
      (request_producer p2 env2) = Some (Ownership.abs (d_Registry d2)) ∧
    backendProvider d2 "web" = Some (p_Backend p2) ∧
    (request_kind p2 = KindTCP →
       ∃ port, rr_Frontend res2 = mkFrontend (c_TCPFrontendHost (d_cfg d1)) port "" ∧
               0 < port ≤ 65535 ∧ port ∈ w_bound (d_World d2) ∧
               rt_Frontend <$> Runtime.Get (d_Runtime d2) "web" = Some (rr_Frontend res2)) ∧
    (request_kind p2 = KindHTTP →
       rr_Frontend res2 = mkFrontend "" 0 (FrontendURL (d_HTTP d1) hostname) ∧
       ServeHTTP (backendProvider d2) (d_HTTP d2) hostname =
         Proxied (mkSnapshot (p_Backend p2) (normalizeHost hostname))).
Proof. exact (Register_publishes d1 p2 env2 d2 res2 d1_inv env2_ok d2_eq). Defined.

Lemma Register_grants_lease_witness :
  ∃ ttl, MinLeaseTTL ≤ ttl ≤ MaxLeaseTTL ∧
    ttl = effective_ttl d0 SourceProcess 0 ∧
    rr_ExpiresAt res1 = Some (1000 + ttl) ∧ rr_TTLSeconds res1 = ttl / Second ∧
    Lease.Get (d_Lease d1) (rr_RegistrationID res1) =
      Some (mkEntry (rr_RegistrationID res1) "api" "process:ID1" (rr_LeaseToken res1) ttl (1000 + ttl)) ∧
    (∀ now token, now < 1000 + ttl →
       (Heartbeat now d1 (rr_RegistrationID res1) token).2 =
         if decide (token = rr_LeaseToken res1) then Ok (now + ttl) else Err CodeUnauthorized).
Proof. apply (Register_grants_lease d0 p1 env1 d1 res1); [discriminate|exact d1_eq]. Defined.

(** A second producer of the name is turned away. *)
Definition env3 : Env := env_at 3000 "ID3".

Lemma conflict_eq : Register d1 p1 env3 = (d1, Err CodeNameConflict).
Proof. vm_compute; reflexivity. Qed.

Lemma Register_error_frame_witness :
  d1 = d1 ∨
  (CodeNameConflict = CodeInternal ∧ Resolve (d_Registry d1) "api" = None ∧
   d_Registry d1 = d_Registry d1 ∧ d_Lease d1 = d_Lease d1 ∧ d_HTTP d1 = d_HTTP d1 ∧
   d_Runtime d1 = d_Runtime d1 ∧ w_bound (d_World d1) = w_bound (d_World d1)).
Proof.
  apply (Register_error_frame d1 p1 env3 d1 CodeNameConflict d1_inv); [by eexists|exact conflict_eq].
Defined.

(** The daemon restarted on the files it left. *)
Definition restarted : FS * list string * result Daemon NewError :=
  NewDaemon start_io (w_fs (d_World d1)) example_cfg.
Definition d1r : Daemon := match restarted.2 with Ok d => d | Err _ => d0 end.
Definition prepared1r : Prepared :=
  match prepare d1r p1 env1 with Ok pr => pr | Err _ => prepared1.1 end.

Lemma restart_keeps_frontend_witness :
  ∃ d3 res, Register d1r p1 env1 = (d3, Ok res) ∧ rr_Frontend res = r_Frontend rec1.
Proof.
  apply (restart_keeps_frontend d1 "api" rec1 start_io example_cfg (w_fs (d_World d1)) [] d1r p1 env1
           prepared1r).
  - exact d1_inv.
  - exact s1_rec.
  - reflexivity.
  - vm_compute; reflexivity.
  - discriminate.
  - reflexivity.
  - vm_compute; reflexivity.
  - reflexivity.
  - vm_compute; reflexivity.
  - vm_compute; reflexivity.
  - reflexivity.
  - by eexists.
Defined.

Lemma requests_reach_their_service_witness :
  ServeHTTP (backendProvider d2) (d_HTTP d2) "app.local" =
  match backendProvider d2 "web" with
  | Some b => Proxied (mkSnapshot b "app.local")
  | None => ServiceUnavailable
  end.
Proof.
  refine (proj1 (requests_reach_their_service d2 d2_inv _) "web"
            (registered p2 env2 "app.local" (rr_Frontend res2)) _ _).
  - intros n r Hn Hk. unfold Resolve in Hn.
    replace (d_Registry d2) with
      (<["web" := registered p2 env2 "app.local" (rr_Frontend res2)]> {[ "api" := rec1 ]} : Registry)
      in Hn by (vm_compute; reflexivity).
    apply lookup_insert_Some in Hn as [[<- <-]|[_ [<- <-]%lookup_singleton_Some]]; [|discriminate].
    apply (bool_decide_eq_true (clean_host _)). vm_compute; reflexivity.
  - vm_compute; reflexivity.
  - reflexivity.
Defined.

Lemma CheckFrontendRange_predicts_witness :
  (CheckFrontendRange (alloc_io "/t") d0 = None ∨
   CheckFrontendRange (alloc_io "/t") d0 = Some CodePortExhausted) ∧
  (CheckFrontendRange (alloc_io "/t") d0 = Some CodePortExhausted ↔
   (EnsureTCPRuntime (alloc_io "/t") (d_Runtime d0) (d_World d0) "api" 0).2 =
     Err (ErrPortExhausted (c_TCPFrontendMin (d_cfg d0)) (c_TCPFrontendMax (d_cfg d0)))).
Proof.
  apply (CheckFrontendRange_predicts d0 (alloc_io "/t") "api" d0_inv); reflexivity.
Defined.

Lemma NewDaemon_listeners_witness :
  [] = (if hc_Enabled (c_HTTP example_cfg) then [hc_HTTPAddr (c_HTTP example_cfg)] else []) ++
       (if decide (hc_CertFile (c_HTTP example_cfg) = "") then [] else [hc_HTTPSAddr (c_HTTP example_cfg)]) ∧
  daemon_inv d0 ∧ d_Registry d0 = ∅ ∧ m_entries (d_Lease d0) = ∅ ∧ w_bound (d_World d0) = ∅.
Proof. exact (NewDaemon_listeners start_io ∅ example_cfg ∅ [] (Ok d0) d0_eq). Defined.

Lemma requested_lease_bounds_witness :
  prepare d0 (with_ttl 60 p1) env1 = Ok (with_lease (60 * Second) prepared1.1) ∧
  prepare d0 (with_ttl 18446744077 p1) env1 = Ok (with_lease 3290448384 prepared1.1).
Proof.
  destruct (requested_lease_bounds d0 p1 env1 prepared1.1 60) as (Hin & _ & Hover).
  - reflexivity.
  - discriminate.
  - split; [reflexivity|]. vm_compute; discriminate.
  - split; [apply Hin; lia|exact Hover].
Defined.

(** ** Registry and leases *)

Lemma List_spec_witness :
  (∀ `{MapRange} rec, rec ∈ List (d_Registry d2) ↔ Resolve (d_Registry d2) (r_Name rec) = Some rec) ∧
  (∀ `{MapRange}, StronglySorted by_name (List (d_Registry d2)) ∧ NoDup (r_Name <$> List (d_Registry d2))) ∧
  (∀ R1 R2 : MapRange, @List R1 (d_Registry d2) = @List R2 (d_Registry d2)).
Proof. exact (List_spec (d_Registry d2) (inv_registry_wf d2 d2_inv)). Defined.

(** A lease that is added, renewed in time and left to expire. *)
Definition lease_trace : list (Z * op) :=
  [(10, OpAdd "ID" "api" "process:ID" "tok" (3 * Second)); (20, OpRenew "ID" "tok")].
Definition lease_entry : Entry := mkEntry "ID" "api" "process:ID" "tok" (3 * Second) (20 + 3 * Second).
Definition lease_end : Manager :=
  apply_op 20 (apply_op 10 (Lease.NewManager 0) (OpAdd "ID" "api" "process:ID" "tok" (3 * Second)))
    (OpRenew "ID" "tok").

Lemma lease_run : steps 0 (Lease.NewManager 0) lease_trace 20 lease_end.
Proof. by repeat (constructor; [done|]); constructor. Qed.

Lemma lease_never_outlives_ttl_witness :
  le_RegistrationID lease_entry = "ID" ∧ 0 < le_TTL lease_entry ∧
  le_ExpiresAt lease_entry ≤ 20 + le_TTL lease_entry.
Proof.
  apply (lease_never_outlives_ttl 0 0 lease_trace 20 lease_end); [exact lease_run|reflexivity].
Defined.

Lemma expired_lease_stays_dead_witness :
  let m' := apply_op (9 * Second) lease_end (OpRenew "ID" "tok") in
  Lease.Get m' "ID" = None ∨ Lease.Get m' "ID" = Some lease_entry.
Proof.
  apply (expired_lease_stays_dead (8 * Second) lease_end [(9 * Second, OpRenew "ID" "tok")]
           (9 * Second)).
  - apply steps_cons; [by vm_compute|apply steps_nil].
  - by repeat constructor.
  - reflexivity.
  - unfold expired. by vm_compute.
Defined.

(** ** State and ports *)

Definition store0 : Store := mkStore "/state.json" (mkModel 1 ∅) false.

Lemma store0_inv : store_inv store0 ∅.
Proof. by apply store_inv_empty. Qed.

Definition save_io : SaveIO := mkSaveIO "/.state-1.tmp" None.

Lemma save_io_fresh : io_fresh save_io "/state.json" ∅.
Proof. by split. Qed.

Definition stored : Store * FS * option stage := SetPort save_io store0 ∅ "api" 15000.

Lemma SetPort_durable_witness :
  reload "/state.json" stored.1.2 = Some (Snapshot stored.1.1) ∧ Port stored.1.1 "api" = 15000 ∧
  (∀ n, n ≠ "api" → Port stored.1.1 n = Port store0 n) ∧ store_inv stored.1.1 stored.1.2.
Proof.
  apply (SetPort_durable save_io store0 ∅ "api" 15000 stored.1.1 stored.1.2).
  - exact store0_inv.
  - exact save_io_fresh.
  - reflexivity.
  - by vm_compute.
  - vm_compute; reflexivity.
Defined.

Definition dirty_store : Store := set_ports {[ "api" := 15000 ]} true store0.

Lemma save_crash_atomic_witness :
  (saveLocked save_io dirty_store ∅).1.1 =
    <["/state.json" := MarshalIndent (s_m dirty_store)]> (∅ : FS) ∧
  Forall (λ f, reload "/state.json" f = reload "/state.json" ∅ ∨
               reload "/state.json" f = Some (Snapshot dirty_store))
    (saveLocked save_io dirty_store ∅).1.2.
Proof.
  apply (save_crash_atomic save_io dirty_store ∅ (saveLocked save_io dirty_store ∅).1.1
           (saveLocked save_io dirty_store ∅).1.2 None).
  - split_and!; [|done|done]. apply (bool_decide_eq_true (json_safe _)). vm_compute. reflexivity.
  - exact save_io_fresh.
  - vm_compute. reflexivity.
Defined.

Definition world0 : World := mkWorld (Some store0) ∅ ∅.
Definition alloc0 : Allocator := NewAllocator "127.0.0.1" 15000 15002.
Definition allocated : World * result Allocation AllocError :=
  Allocate alloc0 (alloc_io "/.state-1.tmp") world0 "api" 0.
Definition allocation0 : Allocation :=
  match allocated.2 with Ok al => al | Err _ => mkAllocation 0 0 end.

Lemma Allocate_sound_witness :
  let port := al_Port allocation0 in
  al_Listener allocation0 = port ∧ 0 < port ≤ 65535 ∧ port ∉ w_bound world0 ∧
  w_bound allocated.1 = {[port]} ∪ w_bound world0.
Proof.
  destruct (Allocate_sound alloc0 (alloc_io "/.state-1.tmp") world0 store0 "api" 0 allocated.1 allocation0)
    as (H1 & H2 & _ & H4 & H5 & _).
  - done.
  - reflexivity.
  - exact store0_inv.
  - exact save_io_fresh.
  - reflexivity.
  - vm_compute; reflexivity.
  - split; [exact H1|]. split; [exact H2|]. split; [exact H4|exact H5].
Defined.

Lemma Allocate_spec_witness :
  let port := al_Port allocation0 in
  al_Listener allocation0 = port ∧ 0 < port ≤ 65535 ∧ port ∉ w_bound world0 ∧
  w_bound allocated.1 = {[port]} ∪ w_bound world0.
Proof.
  pose proof (Allocate_spec alloc0 (alloc_io "/.state-1.tmp") world0 store0 "api" 0 ltac:(done) eq_refl store0_inv
                save_io_fresh eq_refl) as Hspec.
  replace (Allocate alloc0 (alloc_io "/.state-1.tmp") world0 "api" 0) with (allocated.1, Ok (E:=AllocError) allocation0) in Hspec
    by (vm_compute; reflexivity).
  destruct Hspec as (H1 & H2 & _ & H4 & H5 & _).
  split; [exact H1|]. split; [exact H2|]. split; [exact H4|exact H5].
Defined.

(** Names with an escaped quote, an angle bracket, a line separator and a
    letter outside ASCII; a port at the end of its range. *)
Definition odd_model : Model :=
  mkModel 1 (<[str ["a"; "034"; "<"]%char := 65535]>
    {[str ["226"; "128"; "168"; "195"; "169"]%char := - 2 ^ 63]}).

Lemma state_file_roundtrip_witness :
  unmarshal (marshal odd_model) = Some (1, Some (sm_TCPPorts odd_model)).
Proof.
  apply (state_file_roundtrip odd_model). apply (bool_decide_eq_true (json_safe _)). vm_compute. reflexivity.
Defined.

Lemma Allocate_exhausted_iff_witness :
  let busy := mkAllocIO (λ _, false) 40000 save_io in
  (Allocate alloc0 busy world0 "api" 0).2 = Err (ErrPortExhausted 15000 15002) ↔
  ∀ p, p ≠ 0 → p = remembered world0 "api" ∨ p = 0 ∨ 15000 ≤ p ≤ 15002 →
       Listen busy (w_bound world0) p = None.
Proof.
  apply (Allocate_exhausted_iff alloc0 (mkAllocIO (λ _, false) 40000 save_io) world0 "api" 0). done.
Defined.

Lemma Shutdown_releases_ports_witness :
  let m' := (Runtime.Shutdown (d_Runtime d1) (d_World d1)).1 in
  let w' := (Runtime.Shutdown (d_Runtime d1) (d_World d1)).2 in
  rm_runtimes m' = ∅ ∧ w_state w' = w_state (d_World d1) ∧ w_fs w' = w_fs (d_World d1) ∧
  ∀ p, p ∈ w_bound w' ↔
       p ∈ w_bound (d_World d1) ∧
       ∀ name rt, rm_runtimes (d_Runtime d1) !! name = Some rt → f_Port (rt_Frontend rt) ≠ p.
Proof.
  apply (Shutdown_releases_ports (d_Runtime d1) (d_World d1)); [exact (inv_runtimes d1 d1_inv)|reflexivity].
Defined.

(** ** The accept loop *)

(** One connection is being proxied when [Close] runs to its end. *)
Definition busy_runtime : AcceptLoop.State :=
  loop_step true None (loop_step true None (loop_step true (Some (mkBackend "127.0.0.1" 8080))
    (loop_step true None NewServiceRuntime))).
Definition closing_runtime : AcceptLoop.State :=
  close_step (close_step (close_step busy_runtime)).

Lemma closing_reachable : AcceptLoop.reachable closing_runtime.
Proof.
  unfold AcceptLoop.reachable, closing_runtime, busy_runtime.
  do 4 (eapply rtc_l; [apply AcceptLoop.step_loop|]). do 3 (eapply rtc_l; [apply AcceptLoop.step_close|]).
  apply rtc_refl.
Qed.

Lemma accept_bounds_witness :
  (size (st_workers closing_runtime) ≤ st_sem closing_runtime ≤ sem_capacity)%nat ∧
  st_proxies closing_runtime = size (counted (st_workers closing_runtime)) ∧
  (∀ c, c ∈ st_open closing_runtime → loop_conn (st_loop closing_runtime) = Some c ∨
     ∃ b, st_workers closing_runtime !! c = Some (Proxying, b)).
Proof. exact (accept_bounds closing_runtime closing_reachable). Defined.

Lemma wait_is_final_witness :
  let s' := worker_step 0 closing_runtime in
  dom (st_workers s') ⊆ dom (st_workers closing_runtime) ∧
  (st_proxies s' ≤ st_proxies closing_runtime)%nat ∧
  (st_proxies closing_runtime = 0%nat → st_proxies s' = 0%nat ∧ st_connections s' = ∅).
Proof.
  apply (wait_is_final closing_runtime (worker_step 0 closing_runtime)).
  - exact closing_reachable.
  - reflexivity.
  - apply rtc_once, AcceptLoop.step_worker.
Defined.

Lemma shutdown_completes_witness :
  (∀ s', AcceptLoop.step closing_runtime s' →
     listening s' = false ∧ (s' = closing_runtime ∨ (remaining s' < remaining closing_runtime)%nat)) ∧
  ((∀ s', AcceptLoop.step closing_runtime s' → s' = closing_runtime) →
     st_loop closing_runtime = LoopExited ∧ st_workers closing_runtime = ∅ ∧
     st_proxies closing_runtime = 0%nat ∧ st_connections closing_runtime = ∅ ∧
     st_open closing_runtime = ∅).
Proof. apply (shutdown_completes closing_runtime closing_reachable). reflexivity. Defined.

(** ** The router *)

Lemma FrontendURL_reaches_route_witness :
  let r : Router string := NewRouter "http" 8088 in
  FrontendURL r "app.local" = "http://app.local:8088" ∧
  ServeHTTP (λ _, Some (mkBackend "127.0.0.1" 8080)) (SetRoute r "app.local" "web") "app.local:8088" =
    Proxied (mkSnapshot (mkBackend "127.0.0.1" 8080) "app.local").
Proof.
  destruct (FrontendURL_reaches_route (NewRouter "http" 8088 : Router string) "app.local" "web"
    (λ _, Some (mkBackend "127.0.0.1" 8080))) as (Hu & Hs & _).
  - apply (bool_decide_eq_true (clean_host _)). vm_compute; reflexivity.
  - discriminate.
  - split; [exact Hu|exact Hs].
Defined.

Definition forged : gmap string (list string) := {[ "X-Forwarded-For" := ["10.0.0.1"] ]}.
Definition incoming : inRequest := mkIn "/index" "q=1" "app.local" "127.0.0.1:5000" false forged.

Lemma Rewrite_ignores_forwarded_headers_witness :
  let snap := mkSnapshot (mkBackend "127.0.0.1" 8080) "app.local" in
  let out h := Rewrite (Some snap) incoming (outbound_copy incoming h) in
  out forged = out ∅ ∧ out_Header (out forged) !! "X-Forwarded-For" = Some ["127.0.0.1"].
Proof.
  destruct (Rewrite_ignores_forwarded_headers (mkSnapshot (mkBackend "127.0.0.1" 8080) "app.local")
    incoming (outbound_copy incoming forged) (outbound_copy incoming ∅)) as (He & _ & _ & Hf).
  - reflexivity.
  - reflexivity.
  - intros k Hk. cbn. unfold forged. rewrite lookup_singleton_ne; [reflexivity|].
    intros <-. apply Hk. left.
  - split; [exact He|exact Hf].
Defined.

(** What the reverse proxy makes of a query: parameters with a semicolon or a
    bad escape are dropped, the others are sorted and written anew. *)
Example cleaned_queries :
  cleanQueryParams "q=a+b%2fc" = "q=a+b%2fc" ∧ cleanQueryParams "a=1;b=2" = "" ∧
  cleanQueryParams "z=1&a=%zz&q=x%20y&a=2;3&a=4" = "a=4&q=x+y&z=1" ∧ cleanQueryParams "%z" = "".
Proof. by split_and!; vm_compute. Qed.

(** ** The API *)

Definition wire_request : RegisterRequest :=
  mkRegisterRequest "api" "tcp" "" "" (mkBackendDTO "127.0.0.1" 8080) 0 0 "".
Definition wire_run : Daemon * Response := handleRegister d0 (Some wire_request) env1.
Definition wire_response : RegisterResponse :=
  match wire_run.2.2 with
  | BodyRegister r => r
  | _ => mkRegisterResponse "" "" "" (mkFrontendDTO "" 0 "") None 0
  end.

Lemma wire_eq : handleRegister d0 (Some wire_request) env1 = (wire_run.1, (201, BodyRegister wire_response)).
Proof. vm_compute; reflexivity. Qed.

Lemma api_lease_is_the_holders_witness :
  ∃ exp ttl, rp_ExpiresAt wire_response = Some exp ∧ MinLeaseTTL ≤ ttl ≤ MaxLeaseTTL ∧
    ∀ now auth, now < exp →
      (bearerToken auth ≠ rp_LeaseToken wire_response →
         handleHeartbeat now wire_run.1 (rp_RegistrationID wire_response) auth =
           (wire_run.1, writeError CodeUnauthorized) ∧
         handleDelete now wire_run.1 (rp_RegistrationID wire_response) auth =
           (wire_run.1, writeError CodeUnauthorized)) ∧
      (auth = "Bearer " +:+ rp_LeaseToken wire_response →
         (handleHeartbeat now wire_run.1 (rp_RegistrationID wire_response) auth).2 =
           (200, BodyHeartbeat (now + ttl)) ∧
         (handleDelete now wire_run.1 (rp_RegistrationID wire_response) auth).2 = (204, BodyEmpty) ∧
         backendProvider (handleDelete now wire_run.1 (rp_RegistrationID wire_response) auth).1
           (rp_Name wire_response) = None).
Proof.
  exact (api_lease_is_the_holders d0 (Some wire_request) env1 wire_run.1 wire_response wire_eq).
Defined.

Lemma register_status_witness :
  (201 = 201 ∧ ∃ r, BodyRegister wire_response = BodyRegister r) ∨
  (∃ code, BodyRegister wire_response = BodyError code ∧ 201 = statusForCode code ∧
     (wire_run.1 = d0 ∧ (201 = 400 ∨ 201 = 409 ∨ 201 = 503) ∨
      201 = 500 ∧ d_Registry wire_run.1 = d_Registry d0 ∧ d_Lease wire_run.1 = d_Lease d0 ∧
      d_HTTP wire_run.1 = d_HTTP d0 ∧ d_Runtime wire_run.1 = d_Runtime d0)).
Proof.
  apply (register_status d0 (Some wire_request) env1 wire_run.1 201 (BodyRegister wire_response) d0_inv);
    [by eexists|exact wire_eq].
Defined.

(** The same service behind another backend, with other leases. *)
Definition d1_moved : Daemon :=
  with_Lease (Lease.NewManager 0)
    (with_Registry {[ "api" := set_Backend (Some (mkBackend "127.0.0.1" 9999)) StatusReady 7 rec1 ]} d1).

Lemma public_views_hide_backends_witness :
  handleList d1 = handleList d1_moved ∧
  ∀ name, handleResolve d1 name = handleResolve d1_moved name.
Proof.
  apply (public_views_hide_backends d1 d1_moved).
  - exact (inv_registry_wf d1 d1_inv).
  - unfold public_equiv. replace (d_Registry d1) with ({[ "api" := rec1 ]} : Registry)
      by (vm_compute; reflexivity).
    intros n. simpl. rewrite !lookup_singleton. case_decide; [|done]. by vm_compute.
Defined.

(** ** The Docker watcher *)

Definition c_labels : gmap string string :=
  <[LabelEnable := "TRUE"]> (<[LabelName := "db"]> {[ LabelContainerPort := "5432" ]}).

Definition c_inspect (id port : string) : InspectResponse :=
  mkInspect id "/pg" (Some c_labels) (Some true)
    (Some {[ "5432/tcp" := [mkBinding "127.0.0.1" port] ]}).

Definition c_reg (id : string) (port : Z) : Registration :=
  mkRegistration "db" "tcp" "" "127.0.0.1" port 0 "docker:pg:5432" id "".

Lemma c_reg1_eq : RegistrationFromInspect (c_inspect "c1" "40001") false = Ok (c_reg "c1" 40001).
Proof. vm_compute; reflexivity. Qed.
Lemma c_reg2_eq : RegistrationFromInspect (c_inspect "c2" "40002") false = Ok (c_reg "c2" 40002).
Proof. vm_compute; reflexivity. Qed.

Lemma docker_backend_is_loopback_witness : isLoopbackIP (g_BackendHost (c_reg "c1" 40001)) = true.
Proof.
  exact (proj1 (docker_backend_is_loopback (c_inspect "c1" "40001") false (c_reg "c1" 40001) c_reg1_eq)).
Defined.

(** A container is registered, and then another one for the same service. *)
Definition attempt (i : InspectResponse) (id : string) : nat → Attempt :=
  λ _, mkAttempt (Some i) (env_at 4000 id) false.
Definition w0 : Watched := mkWatched d0 ∅.
Definition w1 : Watched := (registerContainer false (attempt (c_inspect "c1" "40001") "R1") w0).1.
Definition w2 : Watched := (registerContainer false (attempt (c_inspect "c2" "40002") "R2") w1).1.

Definition service_of_db : string → string := λ _, "db".

Lemma attempt_ok id port r reg :
  RegistrationFromInspect (c_inspect id port) false = Ok reg → g_Name reg = "db" →
  attempts_ok service_of_db false (attempt (c_inspect id port) r).
Proof. intros E Hn k i reg' [= <-]. rewrite E. by intros [= <-]. Qed.

Lemma w0_inv : watch_inv service_of_db w0.
Proof. split; [apply map_Forall_empty|]. intros name rec Hr. done. Qed.

Lemma w1_inv : watch_inv service_of_db w1.
Proof. apply registerContainer_inv; [by eapply attempt_ok; [exact c_reg1_eq|]|exact w0_inv]. Qed.

Lemma w2_inv : watch_inv service_of_db w2.
Proof. apply registerContainer_inv; [by eapply attempt_ok; [exact c_reg2_eq|]|exact w1_inv]. Qed.

Definition rec_db : ServiceRecord :=
  default rec1 (Resolve (d_Registry (wd_d w1)) "db").

Lemma recreated_container_replaces_witness :
  g_Name (c_reg "c2" 40002) = "db" ∧ g_OwnerKey (c_reg "c2" 40002) = "docker:pg:5432" ∧
  CheckOwnership (d_Registry (wd_d w1)) "db" "docker:pg:5432" = None.
Proof.
  apply (recreated_container_replaces (wd_d w1) (c_inspect "c1" "40001") (c_inspect "c2" "40002") false
           (c_reg "c1" 40001) (c_reg "c2" 40002) rec_db).
  - reflexivity.
  - reflexivity.
  - exact c_reg1_eq.
  - exact c_reg2_eq.
  - vm_compute; reflexivity.
  - vm_compute; reflexivity.
Defined.

(** The first container is gone from the next listing. *)
Definition listing : list Summary := [mkSummary "c2" c_labels].
Definition reconciled : Watched * bool :=
  Reconcile false (Some listing) (λ _, attempt (c_inspect "c2" "40002") "R3") (λ _, 5000) w2.

Lemma Reconcile_repairs_witness :
  reconciled.2 = true ∧ watch_inv service_of_db reconciled.1 ∧
  (∀ id, is_Some (wd_tracked reconciled.1 !! id) → managed listing id) ∧
  (∀ name rec, Resolve (d_Registry (wd_d reconciled.1)) name = Some rec → r_Source rec = SourceDocker →
     r_Status rec = StatusReady → managed listing (r_ProducerID rec)).
Proof.
  apply (Reconcile_repairs service_of_db false listing (λ _, attempt (c_inspect "c2" "40002") "R3")
           (λ _, 5000) w2).
  - intros k. by eapply attempt_ok; [exact c_reg2_eq|].
  - exact w2_inv.
  - unfold reconciled. apply surjective_pairing.
Defined.

(** The stop event of the replaced container arrives late. *)
Lemma handleEvent_keeps_watch_witness :
  watch_inv service_of_db (handleEvent false "die" "c1" (attempt (c_inspect "c1" "40001") "R4") 6000 w2) ∧
  (("die" = "die" ∨ "die" = "stop" ∨ "die" = "destroy") →
   let w' := handleEvent false "die" "c1" (attempt (c_inspect "c1" "40001") "R4") 6000 w2 in
   wd_tracked w' !! "c1" = None ∧
   ∀ name rec, Resolve (d_Registry (wd_d w2)) name = Some rec → r_ProducerID rec ≠ "c1" →
     Resolve (d_Registry (wd_d w')) name = Some rec).
Proof.
  apply (handleEvent_keeps_watch service_of_db false "die" "c1" (attempt (c_inspect "c1" "40001") "R4")
           6000 w2).
  - by eapply attempt_ok; [exact c_reg1_eq|].
  - exact w2_inv.
Defined.

(** ** Deviations *)

(** A host name that only the router folds into that of another service is
    not refused, and takes over its requests. *)
Definition p_shadow : RegisterParams :=
  mkParams "shadow" "http" "" (mkBackend "127.0.0.1" 6666) 0 0 SourceProcess "" "" "" "app.local..".
Definition d2_shadow : Daemon := (Register d2 p_shadow env3).1.

Theorem shadow_hostname_takes_route :
  is_Ok (Register d2 p_shadow env3).2 = true ∧
  ServeHTTP (backendProvider d2) (d_HTTP d2) "app.local" =
    Proxied (mkSnapshot (mkBackend "127.0.0.1" 8080) "app.local") ∧
  ServeHTTP (backendProvider d2_shadow) (d_HTTP d2_shadow) "app.local" =
    Proxied (mkSnapshot (mkBackend "127.0.0.1" 6666) "app.local").
Proof. vm_compute. auto. Qed.
