(* ===== verification/ReviewProbes.v ===== *)
(** * 01-review-probes.go: the review of the hardened implementation

    The probes of the review script, run on the definitions of this
    development: each computes what the script prints, on one daemon as in the
    script, and two theorems state that all of it is what the script calls
    desired. *)

From S2P Require Import Prelude GoStrings GoNet Registry Lease State Json Runtime AcceptLoop Router Config Daemon DaemonInv DaemonSpec DaemonSystem Dockerwatch WatcherRun DockerApi WatcherEngine Transport Examples.
From Stdlib Require Import Ascii.
Local Open Scope Z_scope.

Section Script.
Context `{JSON} `{Unicode} `{MapRange}.

(** ** The helpers *)

(** [must]: [None] is a panic. *)
Definition must {A B} (r : result A B) : option A := match r with Ok a => Some a | Err _ => None end.

Definition failed {A B} (r : result A B) : bool := match r with Ok _ => false | Err _ => true end.

Definition newDaemon (dir : string) : option Daemon :=
  let c := set_StatePath (dir +:+ "/state.json")
    (mkConfig (c_Socket Default) (c_TCPFrontendHost Default) (c_TCPFrontendMin Default) (c_TCPFrontendMax Default)
       (c_LeaseTTL Default) (c_ShutdownTimeout Default) (c_StatePath Default)
       (mkDockerConfig false (dc_AllowNonLoopbackPublishedPorts (c_Docker Default))) (c_HTTP Default)) in
  must (NewDaemon start_io ∅ c).2.

Definition backend (port : Z) : Backend := mkBackend "127.0.0.1" port.

Definition reg (d : Daemon) (name owner : string) (port : Z) (env : Env) : option (Daemon * RegisterResult) :=
  let '(d, r) := Register d (mkParams name "" "" (backend port) 0 0 "" owner "" "" "") env in
  r ← must r; Some (d, r).

(** An HTTP registration of the script. *)
Definition reg_http (d : Daemon) (name host : string) (port : Z) (env : Env) : Daemon * result RegisterResult Code :=
  Register d (mkParams name KindHTTP "" (backend port) 0 0 SourceManual name "" "" host) env.

Definition insp_labels : gmap string string :=
  {[ LabelEnable := "true"; LabelName := "docker.svc"; LabelContainerPort := "5432";
     ComposeProjectLabel := "review"; ComposeServiceLabel := "db" ]}.

Definition insp (id : string) : InspectResponse :=
  mkInspect id "/review-db" (Some insp_labels) (Some true)
    (Some {[ "5432/tcp" := [mkBinding "127.0.0.1" "49173"] ]}).

(** [fakeDocker]: the current container is all there is; the methods of the
    nil interface it embeds would panic, and fail here. *)
Definition fakeDocker : DockerAPI InspectResponse := {|
  Stream := unit;
  ContainerList f := (f, Some [mkSummary (in_ID f) (default ∅ (in_Labels f))]);
  ContainerInspect _ f := (f, Some f);
  ContainerCreate _ f := (f, None);
  ContainerStart _ f := (f, false);
  ContainerRemove _ _ f := (f, false);
  ImageList f := (f, None);
  Events f := (f, tt);
  CloseAPI f := (f, false)
|}.

Definition reconciled (id : string) (env : Env) (w : Watched) : option Watched :=
  let '(_, (w, ok)) :=
    Reconcile_on (H := fakeDocker) false (λ _ _, mkAround env false) (λ _, e_now env) (insp id) w in
  if ok : bool then Some w else None.

Definition status_of (d : Daemon) (name : string) : Status :=
  match Resolve (d_Registry d) name with Some rec => r_Status rec | None => "" end.

(** ** The probes on the daemon *)

(** A release of an old publication's lease is rejected. *)
Definition P01 (d : Daemon) : option (Daemon * (Status * bool)) :=
  '(d, old) ← reg d "lease.svc" "manual:same" 49171 (env_at 1 "R1");
  '(d, _) ← reg d "lease.svc" "manual:same" 49172 (env_at 2 "R2");
  let '(d, deleteErr) := DeleteRegistration 3 d (rr_RegistrationID old) (rr_LeaseToken old) in
  Some (d, (status_of d "lease.svc", bool_decide (is_Some deleteErr))).

(** Forgetting a container does not touch another owner's service. *)
Definition P02 (d : Daemon) : option (Daemon * (Status * bool)) :=
  '(d, _) ← reg d "foreign.svc" "manual:current" 49172 (env_at 4 "R3");
  let d := ForgetDockerPublication 5 d "foreign.svc" "docker:old" "old-container" in
  Some (d, (status_of d "foreign.svc", bool_decide (backendProvider d "foreign.svc" = None))).

(** A reconciliation replaces a recreated container. The callbacks are the
    daemon's own; those of the script leave out the kind, which is the same. *)
Definition P03 (d : Daemon) : option (Daemon * (string * Status)) :=
  w ← reconciled "old" (env_at 6 "R4") (mkWatched d ∅);
  w ← reconciled "new" (env_at 7 "R5") w;
  rec ← Resolve (d_Registry (wd_d w)) "docker.svc";
  Some (wd_d w, (r_DockerContainerID rec, r_Status rec)).

(** A host name has one service. *)
Definition P04 (d : Daemon) : option (Daemon * (bool * option Z)) :=
  let '(d, r) := reg_http d "http.a" "same.test" 49200 (env_at 8 "R6") in
  _ ← must r;
  let '(d, duplicateErr) := reg_http d "http.b" "same.test" 49201 (env_at 9 "R7") in
  provider ← LookupRoute (d_HTTP d) "same.test";
  Some (d, (failed duplicateErr, b_Port <$> backendProvider d provider)).

(** A service keeps its host name and URL. *)
Definition P05 (d : Daemon) : option (Daemon * (bool * string * string)) :=
  let '(d, mutationErr) := reg_http d "http.a" "new.test" 49202 (env_at 10 "R8") in
  rec ← Resolve (d_Registry d) "http.a";
  Some (d, (failed mutationErr, r_Hostname rec, f_URL (r_Frontend rec))).

Definition daemon_probes (dir : string) :=
  d ← newDaemon dir;
  '(d, p01) ← P01 d; '(d, p02) ← P02 d; '(d, p03) ← P03 d; '(d, p04) ← P04 d; '(d, p05) ← P05 d;
  Some (p01, p02, p03, p04, p05).

(** ** The probes on single components *)

(** A renewal grants the requested TTL again. *)
Definition P06 (now : Z) : option (Z * Z) :=
  let '(m, entry) := AddWithTTL now (Lease.NewManager (15 * Second)) "ttl" "ttl.svc" "o" "t" (60 * Second) in
  let '(m, exp) := Renew now m "ttl" "t" in
  exp ← must exp; Some (le_ExpiresAt entry - now, exp - now).

(** An expired lease that was taken cannot be renewed. *)
Definition P07 (now : Z) : nat * bool * nat :=
  let '(m, _) := Add now (Lease.NewManager Minute) "id" "svc" "owner" "token" in
  let '(m, taken) := TakeExpired (now + 2 * Minute) m in
  let '(m, renewErr) := Renew now m "id" "token" in
  (length taken, failed renewErr, Lease.Len m).

(** A port that is also published on all addresses is rejected. *)
Definition mixed : InspectResponse :=
  mkInspect "mixed" "/review-db" (Some insp_labels) (Some true)
    (Some {[ "5432/tcp" := [mkBinding "127.0.0.1" "49173"; mkBinding "0.0.0.0" "49174"] ]}).

Definition P08 : bool := failed (RegistrationFromInspect mixed false).

(** A regular file at the socket's path is left alone. *)
Definition P09 (faults : list bool) : option proc * node :=
  let s := listen_calls 0 faults (goto 0 AtMkdir (mkSock Foreign ∅ ∅)) in (sk_procs s !! 0%nat, sk_node s).

(** One request reads the backend once; the provider counts its calls. *)
Definition counting (safe : Backend) (calls : nat) : nat * option Backend :=
  (S calls, if decide (S calls = 1%nat) then Some safe else None).

Definition P10 (safe : Backend) : response * nat :=
  let router := SetRoute (NewRouter "http" 80) "route.test" 0%nat in
  let '(calls, answer) := counting safe 0 in
  (ServeHTTP (λ _, answer) router "route.test", calls).

(** An allocation that cannot be saved is rejected, and again when retried. *)
Definition P11 (name : string) : option (bool * bool * bool) :=
  let badPath : string := "parent/state.json" in
  store ← must (Load (mkLoadIO true true 0) badPath ∅).2;
  let io := mkSaveIO "tmp" (Some AtMkdirAll) in
  let '(w, allocErr) :=
    Allocate (NewAllocator "127.0.0.1" 31000 31100) (mkAllocIO (λ _, true) 40000 io) (mkWorld (Some store) ∅ ∅) name 0 in
  store ← w_state w;
  let '(_, fs, retry) := SetPort io store (w_fs w) name 31000 in
  Some (failed allocErr, bool_decide (fs !! badPath = None), bool_decide (is_Some retry)).

(** An established connection is closed by Shutdown: whether the client's
    socket is open while it is proxied, and after the runtime's Close. *)
Definition P12 (addr : Backend) : bool * bool :=
  let accepted := loop_step true None NewServiceRuntime in
  let proxied := Nat.iter 3 (loop_step true (Some addr)) accepted in
  let shut := Nat.iter 4 close_step proxied in
  (bool_decide (0%nat ∈ st_open proxied), bool_decide (0%nat ∈ st_open shut)).

End Script.

(** ** The results *)

(** The probes on the daemon print what the script calls desired. *)
Theorem daemon_probes_as_desired :
  daemon_probes "/tmp/devmesh-review" =
    Some (("ready", true), ("ready", false), ("new", "ready"), (true, Some 49200),
          (true, "same.test", "http://same.test:8088")).
Proof. vm_compute. reflexivity. Qed.

Lemma P06_desired now : P06 now = Some (60 * Second, 60 * Second).
Proof.
  unfold P06. change (AddWithTTL _ _ _ _ _ _ _) with
    (set_entries {[ "ttl" := mkEntry "ttl" "ttl.svc" "o" "t" (60 * Second) (now + 60 * Second) ]} (Lease.NewManager (15 * Second)),
     mkEntry "ttl" "ttl.svc" "o" "t" (60 * Second) (now + 60 * Second)).
  unfold Renew. cbn [m_entries set_entries]. rewrite lookup_singleton_eq. change Second with 1000000000.
  rewrite decide_False by (unfold expired; cbn [le_ExpiresAt]; lia). change (tokenEqual _ _) with true.
  cbn [negb must le_TTL le_ExpiresAt mbind option_bind]. do 2 f_equal; lia.
Qed.

Lemma P07_desired now : P07 now = (1%nat, true, 0%nat).
Proof.
  unfold P07. change (Add _ _ _ _ _ _) with
    (set_entries {[ "id" := mkEntry "id" "svc" "owner" "token" Minute (now + Minute) ]} (Lease.NewManager Minute),
     mkEntry "id" "svc" "owner" "token" Minute (now + Minute)).
  unfold TakeExpired. cbn [m_entries set_entries].
  change (range {[ "id" := ?e ]}) with [("id", e)].
  unfold take_one. cbn [foldl fst snd]. rewrite decide_True by (unfold expired; cbn [le_ExpiresAt]; unfold Minute, Second; lia).
  done.
Qed.

Lemma P09_desired faults : (P09 faults).2 = Foreign ∧ (P09 faults).1 ≠ Some Serving.
Proof. unfold P09. destruct faults as [|[] [|[] [|f faults]]]; by split. Qed.

(** So do the probes on single components, whatever the time, the system calls that fail, and the
    backend. *)
Theorem component_probes_as_desired now faults safe :
  P06 now = Some (60 * Second, 60 * Second) ∧
  P07 now = (1%nat, true, 0%nat) ∧ P08 = true ∧
  (P09 faults).2 = Foreign ∧ (P09 faults).1 ≠ Some Serving ∧
  P10 safe = (Proxied (mkSnapshot safe "route.test"), 1%nat) ∧
  P11 "durability" = Some (true, true, true) ∧
  P12 safe = (true, false).
Proof.
  split_and!; [apply P06_desired|apply P07_desired|by vm_compute|apply P09_desired|apply P09_desired|by vm_compute|by vm_compute|by vm_compute].
Qed.
