(* ===== verification/NativeGo.v ===== *)
(** * examples/native-go: an application of the client library

    [main] of the example: the registration by [ListenTCP], the HTTP server on
    its listener, the context that [signal.NotifyContext] cancels, and the two
    ways [srv.Serve] can end. *)

From S2P Require Import Prelude GoStrings GoNet Registry Lease State Json Runtime Router Config Daemon DaemonInv DaemonSpec DaemonSystem Api Dockerwatch Examples Client.
From Stdlib Require Import Ascii.
Local Open Scope Z_scope.

Section NativeGo.
Context `{JSON} `{Unicode} `{MapRange}.

(** In [srv.Serve] with the listener open, or over with a status. *)
Inductive Native :=
| NativeServing (port : Z) (h : Handle) (ctx_done heartbeats : bool)
| NativeExited (status : Z).

(** What happens to the process: SIGINT or SIGTERM, a connection, an error of
    Accept, and the heartbeat loop looking at its context. *)
Inductive native_event :=
| Signaled
| Connected
| AcceptFailed
| LoopLooks.

(** Up to [srv.Serve]; [listen] is the port of [net.Listen]. *)
Definition native_main (default_socket : string) (listen : option Z) (f : fate) (env : Env) (d : Daemon) : Daemon * Native :=
  match ListenTCP default_socket listen "example.api" 8080 f env d with
  | (d, None) => (d, NativeExited 1)
  | (d, Some (port, h)) => (d, NativeServing port h false true)
  end.

(** [signal.NotifyContext] takes the signals for its context, so they do not
    end the process. A [Serve] that fails after that runs the deferred
    [ln.Close]; [log.Fatal] runs nothing. *)
Definition native_step (ev : native_event) (f : fate) (now : Z) (x : Daemon * Native) : Daemon * Native :=
  let '(d, n) := x in
  match n with
  | NativeExited _ => x
  | NativeServing port h ctx_done heartbeats =>
    match ev with
    | Signaled => (d, NativeServing port h true heartbeats)
    | Connected => x
    | AcceptFailed =>
      if ctx_done then ((ListenerHandle_Close false f now d h).2.1, NativeExited 0) else (d, NativeExited 1)
    | LoopLooks => (d, NativeServing port h ctx_done (heartbeats && negb ctx_done))
    end
  end.

Definition native_run (evs : list (native_event * fate * Z)) (x : Daemon * Native) : Daemon * Native :=
  foldl (λ x ev, native_step ev.1.1 ev.1.2 ev.2 x) x evs.

(** No error of Accept among the events. *)
Definition accepting (evs : list (native_event * fate * Z)) : Prop := Forall (λ ev, ev.1.1 ≠ AcceptFailed) evs.

Lemma native_run_app evs1 evs2 x : native_run (evs1 ++ evs2) x = native_run evs2 (native_run evs1 x).
Proof. apply foldl_app. Qed.

Lemma native_run_cons ev evs x : native_run (ev :: evs) x = native_run evs (native_step ev.1.1 ev.1.2 ev.2 x).
Proof. done. Qed.

Lemma native_run_serving evs d port h c b : accepting evs →
  ∃ c' b', native_run evs (d, NativeServing port h c b) = (d, NativeServing port h c' b') ∧
    (c = true → c' = true) ∧ (b = false → b' = false).
Proof.
  intros Hevs. revert c b. induction Hevs as [|[[[] f] t] evs Hev _ IH]; intros c b; [by exists c, b|..];
    rewrite native_run_cons; cbn [native_step fst snd] in *; [| |done|].
  - destruct (IH true b) as (c' & b' & -> & ? & ?). exists c', b'. auto.
  - exact (IH c b).
  - destruct (IH c (b && negb c)) as (c' & b' & -> & ? & Hb). exists c', b'. split_and!; [done..|].
    intros ->. by apply (Hb eq_refl).
Qed.

(** The program is not ended by signals: as long as Accept works it serves on with its listener
    open, and a signal only ends its heartbeats, so that its lease runs out. *)
Theorem native_go_ignores_signals evs1 evs2 evs3 f f' t t' d port h c b :
  accepting evs1 → accepting evs2 → accepting evs3 →
  native_run (evs1 ++ (Signaled, f, t) :: evs2 ++ (LoopLooks, f', t') :: evs3) (d, NativeServing port h c b) =
    (d, NativeServing port h true false).
Proof.
  intros Ha1 Ha2 Ha3. rewrite native_run_app.
  destruct (native_run_serving evs1 d port h c b Ha1) as (c1 & b1 & -> & _).
  rewrite native_run_cons. cbn [native_step fst snd].
  rewrite native_run_app.
  destruct (native_run_serving evs2 d port h true b1 Ha2) as (c2 & b2 & -> & Hc2 & _). rewrite Hc2 by done.
  rewrite native_run_cons. cbn [native_step fst snd negb].
  rewrite andb_false_r.
  destruct (native_run_serving evs3 d port h true false Ha3) as (c3 & b3 & -> & Hc3 & Hb3). by rewrite Hc3, Hb3.
Qed.

(** When Accept fails without a signal the program exits with status 1 and does not unregister:
    its service stays published as it was. *)
Theorem native_go_fatal_keeps_registration f t d port h b :
  native_step AcceptFailed f t (d, NativeServing port h false b) = (d, NativeExited 1).
Proof. done. Qed.

End NativeGo.

(** ** A run of the program *)

Definition native_started : Daemon * Native :=
  native_main "/run/devmesh.sock" (Some 40123) Answered (env_at 1000 "ID1") d0.

(** After the signal and one sweep past the lease the program still serves, and its service has
    no backend. *)
Lemma native_go_signaled_then_swept :
  let x := native_run [(Signaled, Answered, 2000); (LoopLooks, Answered, 3000)] native_started in
  ∃ h, x.2 = NativeServing 40123 h true false ∧
    backendProvider x.1 "example.api" = Some (mkBackend "127.0.0.1" 40123) ∧
    backendProvider (sweepLeases (20 * Second) (λ _, 20 * Second) x.1) "example.api" = None.
Proof. eexists. split_and!; vm_compute; reflexivity. Qed.
