(* ===== verification/Runs.v ===== *)
(** * Concrete runs of the programs around the daemon

    A client and its heartbeat, a restart, the daemon's shutdown, a forwarded
    connection, the socket, the command line and the configuration: inputs on
    which the theorems of their files are applied. *)

From S2P Require Import Prelude GoStrings GoNet GoUrl GoTime GoPath Id Registry RegistryStore Lease State Json Runtime AcceptLoop Drain TcpProxy Router Config ConfigFile Serve Daemon Lifecycle DaemonInv DaemonSpec DaemonSystem Restart DataPlane Forwarding HttpPlane Api Client ClientNet EndToEnd Wire WireReply Mux Transport ServeRun Dockerwatch Containers WatcherRun DockerApi WatcherEngine Probe Cli Commands RegisterRun Examples.
From Stdlib Require Import Ascii.
Local Open Scope Z_scope.

(** ** A client *)

Definition client_opts : RegistrationOptions := mkOptions "api" "" "" "" "127.0.0.1:8080" 0 0 false "".

Definition client_run : Daemon * result Handle RegisterError :=
  ClientRegister "/run/devmesh.sock" client_opts Answered env1 d0.
Definition client_d : Daemon := client_run.1.
Definition client_h : Handle :=
  match client_run.2 with
  | Ok h => h
  | Err _ => mkHandle "" (mkRegisterRequest "" "" "" "" (mkBackendDTO "" 0) 0 0 "") "" "" "" "" 0 0 false
  end.

Lemma client_run_eq : ClientRegister "/run/devmesh.sock" client_opts Answered env1 d0 = (client_d, Ok client_h).
Proof. vm_compute. reflexivity. Qed.

Definition loop0 : Loop := round_ok 1000 client_h.

(** The first heartbeat's reply is lost, the second one arrives. *)
Definition beat1 : Daemon * Loop :=
  beat ReplyLost (lp_due loop0) id Answered env1 (lp_due loop0) (100 * Millisecond) client_d loop0.
Definition beat2 : Daemon * Loop :=
  beat Answered (lp_due beat1.2) id Answered env1 (lp_due beat1.2) (200 * Millisecond) beat1.1 beat1.2.

Lemma beat1_backoff : lp_backoff beat1.2 = 200 * Millisecond.
Proof. vm_compute. reflexivity. Qed.

Lemma client_beats :
  rtc (client_step (10 * Millisecond)) (0%nat, client_d, loop0) (0%nat, beat2.1, beat2.2).
Proof.
  apply (rtc_l _ _ (1%nat, beat1.1, beat1.2)).
  - refine (client_round _ 0%nat client_d loop0 ReplyLost (lp_due loop0) id Answered env1 (lp_due loop0)
      (100 * Millisecond) (Z.le_refl _) (Z.le_refl _) _ _ _).
    + generalize (lp_due loop0). change Millisecond with 1000000. lia.
    + change (lp_backoff loop0) with minBackoff. split; vm_compute; discriminate.
    + lia.
  - apply rtc_once.
    refine (client_round _ 1%nat beat1.1 beat1.2 Answered (lp_due beat1.2) id Answered env1 (lp_due beat1.2)
      (200 * Millisecond) (Z.le_refl _) (Z.le_refl _) _ _ _).
    + generalize (lp_due beat1.2). change Millisecond with 1000000. lia.
    + rewrite beat1_backoff. split; vm_compute; discriminate.
    + intros Hf. by destruct Hf.
Qed.

Lemma client_keeps_lease_witness :
  h_regID (lp_h beat2.2) = h_regID client_h ∧ Endpoint (lp_h beat2.2) = Endpoint client_h ∧
  ∃ e, Lease.Get (d_Lease beat2.1) (h_regID client_h) = Some e ∧ le_Token e = h_token (lp_h beat2.2) ∧
    ∀ now, now ≤ lp_due beat2.2 + 10 * Millisecond →
      (post_heartbeat now (lp_h beat2.2) beat2.1).2 = (200, BodyHeartbeat (now + le_TTL e)).
Proof.
  apply (client_keeps_lease (10 * Millisecond) "/run/devmesh.sock" client_opts Answered env1 d0 client_d client_h
           1000 0%nat).
  - by split.
  - discriminate.
  - vm_compute; reflexivity.
  - by split.
  - exact client_beats.
Defined.

Lemma client_stays_served_witness :
  ∃ rec s, Resolve (d_Registry client_d) "api" = Some rec ∧
    ∀ n, rtc (net_step (10 * Millisecond)) (mkNet 1000 s loop0 InSelect 0) n →
      Resolve (d_Registry (s_d (n_sys n))) "api" = Some rec ∧ Endpoint (net_handle n) = Endpoint client_h.
Proof.
  destruct (client_stays_served (10 * Millisecond) "/run/devmesh.sock" client_opts Answered env1 d0 [] [] ∅ ∅ client_d
              client_h 1000) as (rec & b & iss & lost & _ & Hr & _ & _ & Hn).
  - by split.
  - discriminate.
  - exact env1_ok.
  - reflexivity.
  - exact s0_reachable.
  - vm_compute; reflexivity.
  - by split.
  - exists rec, (mkSys client_d None [] [] iss lost). split; [exact Hr|]. intros n Hrun.
    destruct (Hn n Hrun) as (_ & _ & He & Hrec & _). by split.
Defined.

(** ** A restart *)

Definition client_rec : ServiceRecord := registered (request "api" "tcp" "") env1 "" (mkFrontend "127.0.0.1" 0 "").
Definition client_rec1 : ServiceRecord := default client_rec (d_Registry client_d !! "api").
Definition client_restart : FS * list string * result Daemon NewError :=
  NewDaemon start_io (w_fs (d_World client_d)) example_cfg.
Definition client_d2 : Daemon := match client_restart.2 with Ok d => d | Err _ => d0 end.
Definition client_params : RegisterParams := request_params (h_baseReq client_h) (client_source client_h).

(** Before the client gets to its next round another service has failed to
    register: its port could not be saved. *)
Definition failing_env : Env :=
  mkEnv 2500 2500 "ID9" (Some ["a"%char]) loopback
    (mkAllocIO (λ _, true) 40000 (mkSaveIO "/.state-7.tmp" (Some AtSync))).
Definition other_service : RegisterParams := request "other" "tcp" "".
Definition after_failure (d : Daemon) : Daemon := (register_publish d other_service failing_env).1.

Lemma failure_keeps name port d e iss : env_fresh d failing_env = true → name ≠ "other" →
  (register_publish d other_service failing_env).2 = Err e →
  rtc (kept_step name port) (mkSys d None [] [] iss ∅) (mkSys (after_failure d) None [] [] iss ∅).
Proof.
  intros He%env_fresh_ok Hn E. apply rtc_once. eapply (kept_refused name port d [] [] iss ∅ other_service failing_env _ e).
  - by left; split_and!; [left|..].
  - exact He.
  - intros <-. done.
  - unfold after_failure. rewrite <-E. by destruct (register_publish _ _ _).
Qed.

Definition client_d3 : Daemon := after_failure client_d2.
Definition client_prepared : Prepared :=
  match prepare client_d3 client_params env3 with Ok pr => pr | Err _ => prepared1.1 end.

Lemma client_d_inv : daemon_inv client_d.
Proof.
  apply (Register_inv d0 client_params env1 client_d
           (Ok (match (Register d0 client_params env1).2 with Ok r => r | Err _ => res1 end)) d0_inv env1_ok).
  vm_compute. reflexivity.
Qed.


(** ** Stopping the daemon *)

Definition no_docker : Config :=
  mkConfig "" "127.0.0.1" 15000 19999 (15 * Second) (5 * Second) "/state.json" (mkDockerConfig false false) (c_HTTP Default).

Definition stopped : Life := mkLife true Ended None [] 0 ShutdownReturned false (Some "disabled") [EffSave; EffCloseRuntimes].

Lemma stopped_reachable : life_reachable no_docker 0 true stopped.
Proof.
  eapply rtc_l; [by apply life_stop_called|]. eapply rtc_l; [by apply life_sweeper_ends|].
  eapply rtc_l; [by apply life_workers_done|]. eapply rtc_l; [by apply life_close_runtimes|].
  apply rtc_once. by apply life_save.
Qed.

Lemma shutdown_waits_for_workers_witness : lf_wg stopped = live_workers stopped ∧ live_workers stopped = 0%nat.
Proof.
  destruct (shutdown_waits_for_workers no_docker 0 true stopped stopped_reachable) as [H1 H2].
  split; [exact H1|]. apply (H2 eq_refl eq_refl).
Defined.

(** ** A forwarded connection *)

(** The client has sent a byte and closed its side, the backend has closed. *)
Definition pipe_half : Pipe :=
  mkPipe (mkFlow ["x"%char] true [] ["x"%char] [] false false Copying)
    (mkFlow [] true [] [] [] false false Copying) false false.

Lemma pipe_half_reachable : pipe_reachable pipe_half.
Proof.
  eexists. split; [reflexivity|].
  eapply rtc_l; [by apply pipe_client, (peer_sends _ ["x"%char])|].
  eapply rtc_l; [by apply pipe_client, peer_closes|]. eapply rtc_l; [by apply pipe_backend, peer_closes|].
  apply rtc_once, (pipe_program false). cbn.
  apply (step_up false (mkPipe (mkFlow ["x"%char] true ["x"%char] [] [] false false Copying) _ _ _)); [done|]. cbn.
  by apply (copy_reads (mkFlow ["x"%char] true ["x"%char] [] [] false false Copying) ["x"%char] []).
Qed.

Lemma forwarder_is_transparent_witness :
  fl_delivered (pi_up pipe_half) `prefix_of` fl_sent (pi_up pipe_half).
Proof. apply (forwarder_is_transparent pipe_half pipe_half_reachable). by left. Defined.

Lemma forwarder_completes_witness :
  ∃ p', rtc (program_step false) pipe_half p' ∧ pi_client_closed p' = true ∧ fl_delivered (pi_up p') = ["x"%char].
Proof.
  destruct (forwarder_completes pipe_half pipe_half_reachable) as (_ & H & _).
  destruct (H eq_refl eq_refl) as (p' & H1 & H2 & _ & H3 & _). exists p'.
  split; [exact H1|]. split; [exact H2|]. exact (H3 eq_refl).
Defined.

(** ** The watcher, before its first reconciliation *)

Lemma watcher_run_invariant_witness : run_inv service_of_db (NewWatcher d0).
Proof.
  apply (watcher_run_invariant service_of_db false d0 (NewWatcher d0)).
  - vm_compute; reflexivity.
  - reflexivity.
  - apply watcher_start.
Defined.

(** ** An engine with one service, and room for one more container *)

Definition busy_inspect : InspectResponse :=
  mkInspect "probe" "/probe" None (Some true) (Some {[ "80/tcp" := [mkBinding "127.0.0.1" "49000"] ]}).

#[local] Instance small_engine : DockerAPI (option string) := {|
  Stream := unit;
  ContainerList e := (e, Some [mkSummary "c1" (default ∅ (in_Labels (c_inspect "c1" "40001")))]);
  ContainerInspect id e := (e, Some (if decide (id = "probe") then busy_inspect else c_inspect "c1" "40001"));
  ContainerCreate _ e := match e with None => (Some "probe", Some "probe") | Some _ => (e, None) end;
  ContainerStart _ e := (e, true);
  ContainerRemove id _ e := if decide (e = Some id) then (None, true) else (e, false);
  ImageList e := (e, Some [["alpine:latest"]]);
  Events e := (e, tt);
  CloseAPI e := (e, true)
|}.

#[local] Instance small_engine_laws : DockerLaws (option string).
Proof.
  refine {| containers e := match e with Some id => {[id]} | None => ∅ end |}; try done.
  - intros spec [c|] e' id; [done|]. intros [= <- <-]. split; [set_solver|set_solver].
  - intros id e e'. cbn. case_decide; intros [= <-]. set_solver.
  - intros id e e'. cbn. case_decide; intros [= <-]. done.
Defined.

Lemma probe_leaves_nothing_witness :
  ProbeLoopbackPublication (λ _, false) None =
    (None, Ok (mkProbe false true "alpine:latest" "127.0.0.1" "49000" "published 80/tcp on 127.0.0.1:49000")) ∧
  (containers None ⊆ containers None ∨
   (∃ id e1, ContainerRemove id true e1 = (None, false) ∧ id ∉ containers None ∧ containers None ⊆ {[id]} ∪ containers None) ∨
   (Ok (mkProbe false true "alpine:latest" "127.0.0.1" "49000" "published 80/tcp on 127.0.0.1:49000") = Err ProbeCreate ∧
    ∃ image e1, containers e1 ⊆ containers None ∧ ContainerCreate (probe_spec image) e1 = (None, None))).
Proof. split; [by vm_compute|]. exact (proj1 (probe_leaves_nothing (λ _, false) None)). Defined.

(** An engine that carries a creation out whose context has ended meanwhile. *)
Definition slow_engine : DockerAPI (option string) := {|
  Stream := unit;
  ContainerList e := (e, Some []);
  ContainerInspect id e := (e, None);
  ContainerCreate _ e := (Some "probe", None);
  ContainerStart _ e := (e, true);
  ContainerRemove id _ e := if decide (e = Some id) then (None, true) else (e, false);
  ImageList e := (e, Some [["alpine:latest"]]);
  Events e := (e, tt);
  CloseAPI e := (e, true)
|}.

(** The probe then leaves the container it has made: its removal is deferred only after the
    creation has returned without an error. *)
Theorem cancelled_creation_is_left :
  ProbeLoopbackPublication (H := slow_engine) (λ _, false) None = (Some "probe", Err ProbeCreate).
Proof. reflexivity. Qed.

Definition engine_run : list EngineEvent := [OnReconcile (λ _ _, mkAround (env_at 4000 "R1") false) (λ _, 4000)].

Definition engine_after : (list engine_call * option string) * WRun :=
  default (([], None), NewWatcher d0)
    (engine_steps (H := recording) false engine_run (([], None), NewWatcher d0)).

Lemma engine_after_reached :
  engine_reaches (HD := recording) service_of_db false d0 ([], None) engine_after.
Proof.
  eapply (engine_moves _ _ _ _ (([], None), NewWatcher d0) (OnReconcile (λ _ _, mkAround (env_at 4000 "R1") false) (λ _, 4000))).
  - apply engine_start.
  - done.
  - vm_compute. reflexivity.
Qed.

Lemma small_engine_consistent : consistent service_of_db false.
Proof.
  intros id e i reg. unfold inspectContainer. cbn. case_decide; intros [= <-]; [done|].
  vm_compute. by intros [= <-].
Qed.

Lemma watcher_on_the_engine_witness :
  run_inv service_of_db engine_after.2 ∧ engine_after.1.1 = [CallList; CallInspect "c1"; CallEvents] ∧
  backendProvider (wd_d (wr_w engine_after.2)) "db" = Some (mkBackend "127.0.0.1" 40001).
Proof.
  split; [|split; vm_compute; reflexivity].
  apply (watcher_on_the_engine service_of_db false d0 None engine_after small_engine_consistent).
  - vm_compute; reflexivity.
  - reflexivity.
  - exact engine_after_reached.
Defined.

(** ** A connection to a frontend *)

Definition x1 : Plane := mkPlane s1 ∅ ∅.
Definition loop_turn (x : Plane) : Plane :=
  set_rt "api" (loop_step true (backendProvider (s_d (dp_sys x)) "api") (rt_of x "api")) x.
Definition x5 : Plane := loop_turn (loop_turn (loop_turn (loop_turn x1))).
Definition api_backend : Backend := mkBackend "127.0.0.1" 8080.
Definition x6 : Plane := set_pipe ("api", 0%nat) (api_backend, mkPipe new_flow new_flow false false) x5.

Lemma system_steps r p s s' : rtc DaemonSystem.step s s' → rtc plane_step (mkPlane s r p) (mkPlane s' r p).
Proof.
  induction 1 as [|s s1 s2 Hst _ IH]; [done|]. eapply rtc_l; [|exact IH].
  exact (plane_system (mkPlane s r p) s1 Hst).
Qed.

Lemma x6_reached : rtc plane_step (mkPlane s0 ∅ ∅) x6.
Proof.
  etrans; [apply system_steps, s0_steps|].
  destruct (rm_runtimes (d_Runtime (s_d s1)) !! "api") as [rt|] eqn:E; [|by vm_compute in E].
  eapply rtc_l; [exact (plane_loop x1 "api" rt true E)|].
  eapply rtc_l; [exact (plane_loop (loop_turn x1) "api" rt true E)|].
  eapply rtc_l; [exact (plane_loop (loop_turn (loop_turn x1)) "api" rt true E)|].
  eapply rtc_l; [exact (plane_loop (loop_turn (loop_turn (loop_turn x1))) "api" rt true E)|].
  apply rtc_once. apply (plane_dial x5 "api" 0 api_backend); vm_compute; reflexivity.
Qed.

Lemma connections_reach_the_service_witness :
  ∃ y, rtc plane_step (mkPlane s0 ∅ ∅) y ∧ rtc plane_step y x6 ∧ served_by y "api" api_backend.
Proof.
  apply (connections_reach_the_service (mkPlane s0 ∅ ∅) x6 "api" 0 api_backend (mkPipe new_flow new_flow false false)).
  - split; [exact s0_init|done].
  - exact x6_reached.
  - vm_compute; reflexivity.
Defined.

(** ** The connections of an application *)

Lemma connections_reach_the_application_witness :
  ∃ s, rtc plane_step (mkPlane s0 ∅ ∅) (mkPlane s ∅ ∅) ∧
    ∀ w, rtc (scene_step (10 * Millisecond)) (mkScene (mkNet 1000 s loop0 InSelect 0) ∅ ∅ ∅) w →
      backendProvider (s_d (n_sys (sc_net w))) "api" = Some api_backend ∧
      (∀ c, (c < st_accepted (rt_of (plane_of w) "api"))%nat →
         connection_ok (mkPlane s ∅ ∅) (plane_of w) "api" api_backend c) ∧
      ∀ c b p, sc_pipes w !! ("api", c) = Some (b, p) → b = api_backend.
Proof.
  destruct (connections_reach_the_application (10 * Millisecond) "/run/devmesh.sock" client_opts Answered env1
              (mkPlane s0 ∅ ∅) (mkPlane s0 ∅ ∅) ∅ d0 [] [] ∅ ∅ client_d client_h 1000)
    as (host & ps & port & iss & lost & E1 & E2 & Hrun & Hw).
  - by split.
  - discriminate.
  - exact env1_ok.
  - reflexivity.
  - split; [exact s0_init|done].
  - apply rtc_refl.
  - reflexivity.
  - vm_compute; reflexivity.
  - by split.
  - vm_compute in E1. injection E1 as <- <-. vm_compute in E2. injection E2 as <-.
    exists (mkSys client_d None [] [] iss lost). split; [exact Hrun|]. intros w Hrw.
    destruct (Hw w Hrw) as (_ & _ & _ & Hp & Hok & Hc). split; [exact Hp|]. split.
    + intros c Hlt. apply Hok. split; [apply Nat.le_0_l|exact Hlt].
    + intros c b p Hl. apply (Hc c b p); [|exact Hl]. apply Nat.le_0_l.
Defined.

(** ** The connections of a container *)

Lemma connections_reach_the_container_witness :
  rtc step s0 (mkSys (wd_d w1) None [] [] ∅ ∅) ∧
  ∀ v, rtc (container_step (c_reg "c1" 40001)) (mkCScene (mkPlane (mkSys (wd_d w1) None [] [] ∅ ∅) ∅ ∅) ∅) v →
    backendProvider (s_d (cs_sys v)) "db" = Some (mkBackend "127.0.0.1" 40001) ∧
    (∀ c, (c < st_accepted (rt_of (cs_plane v) "db"))%nat →
       connection_ok (mkPlane (mkSys (wd_d w1) None [] [] ∅ ∅) ∅ ∅) (cs_plane v) "db" (mkBackend "127.0.0.1" 40001) c) ∧
    ∀ c b p, dp_pipes (cs_plane v) !! ("db", c) = Some (b, p) → b = mkBackend "127.0.0.1" 40001.
Proof.
  destruct (connections_reach_the_container false (attempt (c_inspect "c1" "40001") "R1") w0 w1 (c_reg "c1" 40001) ∅
              (mkPlane s0 ∅ ∅) (mkPlane s0 ∅ ∅) [] [] ∅ ∅) as (rec & _ & _ & Hrun & Hv).
  - split; [exact s0_init|done].
  - apply rtc_refl.
  - reflexivity.
  - intros k. split; [by apply env_fresh_ok|reflexivity].
  - reflexivity.
  - vm_compute; reflexivity.
  - split; [exact Hrun|]. intros v Hr. destruct (Hv v Hr) as (_ & Hp & Hok & Hc & _). split; [exact Hp|]. split.
    + intros c Hlt. apply Hok. split; [apply Nat.le_0_l|exact Hlt].
    + intros c b p Hl. apply (Hc c b p); [|exact Hl]. apply Nat.le_0_l.
Defined.

(** The reconciliation that registers the second container again and forgets
    the first. *)
Definition keeps_second (p : Watched * gset string) : bool :=
  forallb (λ kv, bool_decide (kv.1 ∈ p.2) || negb (String.eqb (g_ContainerID kv.2) "c2")) (map_to_list (wd_tracked p.1)).

Lemma watcher_refines_system_witness :
  rtc (guarded (undisturbed (c_reg "c2" 40002))) (mkSys (wd_d w2) None [] [] ∅ ∅)
    (mkSys (wd_d reconciled.1) None [] [] ∅ ∅).
Proof.
  apply (proj2 (watcher_refines_system false (undisturbed (c_reg "c2" 40002)) w2 [] [] ∅ ∅)).
  - split; [|exact I]. intros k. split; [by apply env_fresh_ok; vm_compute|split; [reflexivity|]].
    intros i reg [= <-]. rewrite c_reg2_eq. by intros [= <-] _ _.
  - unfold gone_allowed.
    match goal with |- context [reconcile_list ?a ?io ?i ?cs ?w ?s] =>
      assert (keeps_second (reconcile_list a io i cs w s) = true) as Hall by (vm_compute; reflexivity)
    end.
    revert Hall. destruct (reconcile_list _ _ _ _ _ _) as [w seen]. intros Hall.
    unfold keeps_second in Hall. rewrite forallb_forall in Hall. intros id reg Hr Hs.
    specialize (Hall (id, reg)). rewrite <-list_elem_of_In, elem_of_map_to_list in Hall. specialize (Hall Hr).
    rewrite (bool_decide_eq_false_2 _ Hs) in Hall. by apply negb_true_iff, String.eqb_neq in Hall.
Defined.

(** ** An HTTP request *)

Definition web_request : inRequest := mkIn "/index" "z=1;2&q=1" "APP.local:80" "127.0.0.1:5000" false forged.
Definition web_backend : Backend := mkBackend "127.0.0.1" 8080.
Definition web_out : outRequest := Rewrite (Some (mkSnapshot web_backend "app.local")) web_request (outbound_copy web_request forged).

(** The request in the system [s]. *)
Definition web_moves (s : System) (ph : http_phase) : HttpPlane := mkHttpPlane s {[ 0%nat := (web_request, ph) ]}.

Lemma set_web s ph ph' : set_req 0 web_request ph' (web_moves s ph) = web_moves s ph'.
Proof. unfold set_req, web_moves. simpl. by rewrite insert_singleton_eq. Qed.

Lemma http_system_steps s s' q : rtc DaemonSystem.step s s' → rtc http_step (mkHttpPlane s q) (mkHttpPlane s' q).
Proof.
  induction 1 as [|s s1 s2 Hst _ IH]; [done|]. eapply rtc_l; [|exact IH]. exact (http_system (mkHttpPlane s q) s1 Hst).
Qed.

Lemma web_served s : s_d s = d2 → rtc http_step (mkHttpPlane s ∅) (web_moves s (HttpPlane.Answered (Relayed web_out 200))).
Proof.
  intros E. assert (∀ ph, ht_reqs (web_moves s ph) !! 0%nat = Some (web_request, ph)) as Hq
    by (intros ph; apply lookup_singleton_eq).
  apply (rtc_l _ _ (web_moves s Arrived)). { by apply (http_arrives (mkHttpPlane s ∅) 0 web_request). }
  apply (rtc_l _ _ (web_moves s (HasRoute "web"))).
  { pose proof (http_routed (web_moves s Arrived) 0 web_request (Hq _)) as Hst. rewrite set_web in Hst. simpl in Hst.
    rewrite E in Hst. replace (read_route (d_HTTP d2) web_request) with (HasRoute "web") in Hst; [exact Hst|].
    vm_compute; reflexivity. }
  apply (rtc_l _ _ (web_moves s (HasSnapshot "web" (mkSnapshot web_backend "app.local")))).
  { pose proof (http_provided (web_moves s (HasRoute "web")) 0 web_request "web" (Hq _)) as Hst. rewrite set_web in Hst.
    simpl in Hst. rewrite E in Hst.
    replace (read_backend d2 web_request "web") with (HasSnapshot "web" (mkSnapshot web_backend "app.local")) in Hst;
      [exact Hst|]. vm_compute; reflexivity. }
  apply (rtc_l _ _ (web_moves s (Sent "web" web_out))).
  { pose proof (http_sent (web_moves s (HasSnapshot "web" (mkSnapshot web_backend "app.local"))) 0 web_request _ _ (outbound_copy web_request forged) (Hq _) (outbound_copy_ok _ _)) as Hst. by rewrite set_web in Hst. }
  apply rtc_once. pose proof (http_replied (web_moves s (Sent "web" web_out)) 0 web_request _ _ 200 (Hq _)) as Hst. by rewrite set_web in Hst.
Qed.

Lemma http_requests_reach_their_service_witness :
  ∃ x name b, during (mkHttpPlane s0 ∅) x 0 web_request (λ d, http_serves d "app.local" name b) ∧
    out_URLHost web_out = Backend_Addr b ∧ out_RawQuery web_out = "q=1" ∧ out_Header web_out !! "X-Forwarded-For" = Some ["127.0.0.1"].
Proof.
  destruct (Register_steps d1 [] [] (issue p1 env1 ∅) ∅ p2 env2 d2 (Ok res2)) as (iss & lost & Hst).
  - by left; split_and!; [left|..].
  - exact env2_ok.
  - reflexivity.
  - exact d2_eq.
  - set (s := mkSys d2 None [] [] iss lost).
    exists (web_moves s (HttpPlane.Answered (Relayed web_out 200))).
    destruct (http_requests_reach_their_service (mkHttpPlane s0 ∅)
                (web_moves s (HttpPlane.Answered (Relayed web_out 200))) 0 web_request (Relayed web_out 200))
      as (name & b & Hd & _ & Hb & _ & _ & Hquery & Hf & _).
    + split; [exact s0_init|done].
    + etrans; [|by apply (web_served s)]. etrans; apply http_system_steps; [exact s0_steps|exact Hst].
    + apply lookup_singleton_eq.
    + exists name, b. split; [exact Hd|]. split; [exact Hb|]. split; [|exact Hf].
      rewrite (proj1 (Hquery ltac:(vm_compute; discriminate))). vm_compute. reflexivity.
Defined.

(** ** The HTTP requests of an application *)

Definition web_opts : RegistrationOptions := mkOptions "web" "http" "" "app.local" "127.0.0.1:3000" 0 0 false "".
Definition web_client : Daemon * result Handle RegisterError :=
  ClientRegister "/run/devmesh.sock" web_opts Answered env1 d0.
Definition web_d : Daemon := web_client.1.
Definition web_h : Handle := match web_client.2 with Ok h => h | Err _ => client_h end.
Definition web_rec : ServiceRecord := default client_rec (d_Registry web_d !! "web").
Definition web_auth : string := authority (ro_scheme (d_HTTP web_d)) (ro_port (d_HTTP web_d)) (r_Hostname web_rec).
Definition user_request : inRequest := mkIn "/index" "q=1" web_auth "127.0.0.1:5000" false forged.
Definition user_backend : Backend := mkBackend "127.0.0.1" 3000.
Definition user_out : outRequest := Rewrite (Some (mkSnapshot user_backend "app.local")) user_request (outbound_copy user_request forged).

Definition web_scene (s : System) (q : gmap nat (inRequest * http_phase)) : Scene :=
  mkScene (mkNet 1000 s (round_ok 1000 web_h) InSelect 0) ∅ ∅ q.

Lemma user_served s : s_d s = web_d →
  rtc (scene_step (10 * Millisecond)) (web_scene s ∅)
    (web_scene s {[ 0%nat := (user_request, HttpPlane.Answered (Relayed user_out 200)) ]}).
Proof.
  intros E. set (q ph := {[ 0%nat := (user_request, ph) ]} : gmap nat (inRequest * http_phase)).
  assert (∀ ph, q ph !! 0%nat = Some (user_request, ph)) as Hq by (intros ph; apply lookup_singleton_eq).
  assert (∀ ph ph', http_step (mkHttpPlane s (q ph)) (set_req 0 user_request ph' (mkHttpPlane s (q ph))) →
    scene_step (10 * Millisecond) (web_scene s (q ph)) (web_scene s (q ph'))) as Hstep.
  { intros ph ph' Hst. pose proof (scene_http (10 * Millisecond) (web_scene s (q ph)) _ Hst eq_refl) as Hsc.
    unfold web_scene, q in *. simpl in Hsc. rewrite insert_singleton_eq in Hsc. exact Hsc. }
  apply (rtc_l _ _ (web_scene s (q Arrived))).
  { exact (scene_http (10 * Millisecond) (web_scene s ∅) _ (http_arrives (mkHttpPlane s ∅) 0 user_request eq_refl) eq_refl). }
  apply (rtc_l _ _ (web_scene s (q (HasRoute "web")))).
  { apply Hstep. pose proof (http_routed (mkHttpPlane s (q Arrived)) 0 user_request (Hq _)) as Hst. simpl in Hst.
    rewrite E in Hst. replace (read_route (d_HTTP web_d) user_request) with (HasRoute "web") in Hst; [exact Hst|].
    vm_compute; reflexivity. }
  apply (rtc_l _ _ (web_scene s (q (HasSnapshot "web" (mkSnapshot user_backend "app.local"))))).
  { apply Hstep. pose proof (http_provided (mkHttpPlane s (q (HasRoute "web"))) 0 user_request "web" (Hq _)) as Hst.
    simpl in Hst. rewrite E in Hst.
    replace (read_backend web_d user_request "web") with (HasSnapshot "web" (mkSnapshot user_backend "app.local")) in Hst;
      [exact Hst|]. vm_compute; reflexivity. }
  apply (rtc_l _ _ (web_scene s (q (Sent "web" user_out)))).
  { apply Hstep. exact (http_sent (mkHttpPlane s (q _)) 0 user_request _ _ (outbound_copy user_request forged) (Hq _) (outbound_copy_ok _ _)). }
  apply rtc_once, Hstep. exact (http_replied (mkHttpPlane s (q _)) 0 user_request _ _ 200 (Hq _)).
Qed.

Lemma web_hosts_clean : hosts_clean web_d.
Proof.
  intros n r Hr _. unfold Resolve in Hr.
  replace (d_Registry web_d) with ({[ "web" := web_rec ]} : Registry) in Hr by (vm_compute; reflexivity).
  apply lookup_singleton_Some in Hr as [<- <-]. apply (bool_decide_unpack (clean_host _)). vm_compute. exact I.
Qed.

Lemma http_requests_reach_the_application_witness :
  Endpoint web_h = url_string (ro_scheme (d_HTTP web_d)) web_auth ∧
  out_URLHost user_out = Backend_Addr user_backend ∧ out_Host user_out = r_Hostname web_rec.
Proof.
  destruct (http_requests_reach_the_application (10 * Millisecond) "/run/devmesh.sock" web_opts Answered env1 ∅ d0 [] [] ∅ ∅
              web_d web_h 1000) as (rec & host & ps & port & iss & lost & E1 & E2 & _ & Hr & Hall).
  - by split.
  - discriminate.
  - exact env1_ok.
  - reflexivity.
  - exact s0_reachable.
  - vm_compute; reflexivity.
  - by split.
  - vm_compute in E1. injection E1 as <- <-. vm_compute in E2. injection E2 as <-.
    assert (rec = web_rec) as -> by (unfold Resolve in Hr; vm_compute in Hr; injection Hr as <-; vm_compute; reflexivity).
    set (s := mkSys web_d None [] [] iss lost).
    destruct (Hall ∅ ∅ (web_scene s {[ 0%nat := (user_request, HttpPlane.Answered (Relayed user_out 200)) ]}))
      as (He & Hout).
    + vm_compute; reflexivity.
    + exact (user_served s eq_refl).
    + exact web_hosts_clean.
    + split; [exact He|].
      destruct (proj1 (Hout 0%nat user_request _ eq_refl eq_refl eq_refl) (Relayed user_out 200) eq_refl)
        as (out & [Hbad|[st Eo]] & _ & Hb & Hh & _); [discriminate Hbad|].
      injection Eo as <- _. split; [exact Hb|exact Hh].
Defined.

(** ** The registry and its callers *)

Definition stored_fields : ServiceRecord :=
  mkRecord "api" KindTCP "" "o" "p" SourceProcess None (mkFrontend "127.0.0.1" 20000 "") "" StatusReady "" 7.
Definition b_first : Backend := mkBackend "127.0.0.1" 8080.
Definition b_second : Backend := mkBackend "127.0.0.1" 9090.

(** A caller makes a cell, registers with it, resolves the name, and writes
    through the pointer it got. *)
Definition store1 : Shared := mkShared (<[0%nat := b_first]> ∅) ∅ ({[0%nat]} ∪ ∅).
Definition store2 : Shared := (RegistryStore.call (MCreateOrReplaceOwned 5 (mkStruct stored_fields (Some 0%nat))) store1).1.1.
Definition store3 : Shared := (RegistryStore.call (MResolve "api") store2).1.1.
Definition copy_loc : nat :=
  match (RegistryStore.call (MResolve "api") store2).2 with s :: _ => default 0%nat (s_ptr s) | [] => 0%nat end.
Definition store4 : Shared := mkShared (<[copy_loc := b_second]> (sh_cells store3)) (sh_services store3) (sh_held store3).

Lemma store3_reached : rtc shared_step shared_New store3.
Proof.
  eapply (rtc_l _ _ store1). { apply shared_caller. exact (caller_new shared_New b_first). }
  eapply (rtc_l _ _ store2). { apply shared_call. intros l [= <-]. unfold store1. simpl. set_solver. }
  apply rtc_once. by apply (shared_call (MResolve "api")).
Qed.

Lemma store4_step : caller_step store3 store4.
Proof. apply caller_write. apply (bool_decide_unpack (copy_loc ∈ sh_held store3)). vm_compute. exact I. Qed.

Lemma registry_shares_nothing_witness :
  contents store4 = contents store3 ∧ r_Backend <$> contents store3 !! "api" = Some (Some b_first) ∧
  sh_cells store4 !! copy_loc = Some b_second.
Proof.
  split; [exact (proj2 (registry_shares_nothing store3 store3_reached) store4 store4_step)|].
  split; vm_compute; reflexivity.
Defined.

(** ** A stale socket *)

Definition stale_socket : Sock := mkSock (Socket 0 true) ∅ ∅.

Lemma Listen_respects_the_path_witness :
  sk_procs (Transport.Listen 1 false false false false false false stale_socket) !! 1%nat = Some Serving.
Proof.
  apply (Listen_respects_the_path 1 false false false false false false stale_socket).
  - set_solver.
  - discriminate.
  - intros o (m & _ & Hin). set_solver.
  - reflexivity.
  - reflexivity.
  - reflexivity.
  - reflexivity.
  - reflexivity.
  - reflexivity.
Defined.

(** ** A run of devmeshd *)

Definition run_settings : ServeSettings :=
  mkSettings "" "/run/devmesh.sock" "127.0.0.1" 15000 19999 "" "15s" "" "/state.json" false false true
    "127.0.0.1:8080" "127.0.0.1:8443" "localhost" "" "".
Definition run_os : OS := mkOS None None "/tmp".
Definition run_io : RunIO := mkRunIO run_os start_io no_faults.
Definition run_machine : Machine := mkMachine ∅ stale_socket.

Definition started (p : nat) (m : Machine) : Machine * Daemon :=
  match run_up run_io p run_settings m with (m', Ok d) => (m', d) | (m', Err _) => (m', d0) end.

Definition run1 : Machine * Daemon := started 1 run_machine.

Lemma run1_eq : run_up run_io 1 run_settings run_machine = (run1.1, Ok run1.2).
Proof. vm_compute. reflexivity. Qed.

Lemma start_respects_the_machine_witness : reachable_at 1 (mc_sock run1.1).
Proof.
  apply (start_respects_the_machine run_io 1 run_settings run_machine run1.1 (Ok run1.2)) with (d := run1.2).
  - set_solver.
  - exact run1_eq.
  - reflexivity.
Defined.

Definition run1_registered : Daemon := (Register run1.2 p1 env1).1.
Definition run1_rec : ServiceRecord := default rec1 (d_Registry run1_registered !! "api").
Definition last_save : SaveIO := mkSaveIO "/.state-9.tmp" None.
Definition run2 : Machine * Daemon :=
  started 2 (run_end (Signalled last_save) 1 run1_registered (mc_sock run1.1)).
Definition run_cfg : Config :=
  match serve_config run_os run_settings with Ok cfg => cfg | Err _ => example_cfg end.
Definition run2_later : Daemon := after_failure run2.2.
Definition run2_prepared : Prepared :=
  match prepare run2_later p1 env1 with Ok pr => pr | Err _ => prepared1.1 end.

Lemma restart_keeps_frontends_witness :
  (∃ st, w_state (d_World run2_later) = Some st ∧ s_dirty st = true) ∧
  match (Register run2_later p1 env1).2 with
  | Ok res => rr_Frontend res = r_Frontend run1_rec
  | Err e => e = CodeInternal ∧
      (∃ st, w_state (d_World run2_later) = Some st ∧ s_dirty st = true) ∧ io_fault (io_save (e_alloc env1)) ≠ None
  end ∧ is_Ok (Register run2_later p1 env1).2 = true.
Proof.
  split; [eexists; split; vm_compute; reflexivity|]. split; [|vm_compute; reflexivity].
  destruct (Register_steps run1.2 [] [] ∅ ∅ p1 env1 run1_registered (Register run1.2 p1 env1).2) as (iss & lost & Hrun).
  - left. by split; [left|].
  - by apply env_fresh_ok.
  - reflexivity.
  - unfold run1_registered. by destruct (Register run1.2 p1 env1).
  - destruct (restart_keeps_frontends run_io 1 run_settings run_machine run1.1 run1.2 run_cfg
                (mkSys run1_registered None [] [] iss lost) (Signalled last_save) run_io run_settings run_cfg "api" run1_rec)
      as [_ Hnext].
    + exact run1_eq.
    + vm_compute; reflexivity.
    + exact Hrun.
    + intros path Hpath. vm_compute in Hpath. injection Hpath as <-. split; [vm_compute; reflexivity|discriminate].
    + vm_compute; reflexivity.
    + vm_compute; reflexivity.
    + vm_compute; reflexivity.
    + reflexivity.
    + reflexivity.
    + apply (Hnext 2%nat run2.1 run2.2 (mkSys run2_later None [] [] ∅ ∅) p1 env1 run2_prepared).
      * vm_compute; reflexivity.
      * apply (failure_keeps _ _ _ CodeInternal); [vm_compute; reflexivity|discriminate|vm_compute; reflexivity].
      * reflexivity.
      * vm_compute; reflexivity.
      * vm_compute; reflexivity.
      * intros _. split; [vm_compute; reflexivity|]. apply (bool_decide_eq_true (_ ∉ _)). vm_compute; reflexivity.
      * by eexists.
Defined.

(** ** Requests on the wire *)

Definition id_buf : list ascii := replicate 10 "k"%char.
Definition wire_handle : Handle :=
  mkHandle "" (h_baseReq client_h) "api" (newID 1758326400000 id_buf) "token" "" 0 0 false.

Lemma requests_reach_their_handler_witness :
  serve_api d1 0 env1 (heartbeat_request wire_handle) = post_heartbeat 0 wire_handle d1.
Proof.
  refine (proj1 (proj2 (requests_reach_their_handler d1 0 env1 wire_handle "api" 1758326400000 id_buf _ _ _ _))).
  - by split.
  - reflexivity.
  - reflexivity.
  - vm_compute; reflexivity.
Defined.

Abbreviation sent_reply := (serve_registration d0 env1 (request_text (h_baseReq client_h))).2.

Lemma sent_request_safe : safe_request (h_baseReq client_h).
Proof. repeat constructor; vm_compute; congruence. Qed.

Lemma sent_reply_safe : safe_body sent_reply.2.
Proof.
  assert (∃ r, sent_reply = (201, BodyRegister r) ∧ safe_response r) as (r & -> & Hr); [|exact Hr].
  eexists. split; [vm_compute; reflexivity|]. split; cbn.
  - vm_compute. split; congruence.
  - intros t [= <-]. vm_compute. split; congruence.
  - vm_compute. split; congruence.
Qed.

Lemma api_over_the_wire_witness :
  register_text client_h (Some (reply_text "dev" "refused" sent_reply)) = register client_h (Some (clean_reply sent_reply)).
Proof.
  refine (proj1 (proj2 (api_over_the_wire "dev" "refused" d0 client_h env1 0 "api" _ _)) _).
  - exact sent_request_safe.
  - vm_compute. discriminate.
  - exact sent_reply_safe.
Defined.

(** A request that brings an owner key along. *)
Definition smuggled : fields :=
  [(bytes "name", JStr (bytes "api")); (bytes "owner_key", JStr (bytes "docker:web"))].

Lemma unknown_fields_refused_witness :
  serve_registration d0 env1 (print_json (JObj smuggled)) = (d0, (400, BodyError CodeInvalidRequest)).
Proof.
  apply (unknown_fields_refused d0 env1 _ smuggled []).
  - vm_compute. reflexivity.
  - left. exists (bytes "owner_key"), (JStr (bytes "docker:web")). split; [right; left|].
    apply (bool_decide_unpack _). vm_compute. exact I.
Defined.

(** ** The command line *)

Definition attempts : list Cli.Attempt :=
  [Cli.mkAttempt (Some (handleResolve d0 "api")) 0 false;
   Cli.mkAttempt (Some (handleResolve d1 "api")) retryInterval false].

Definition svc1 : ServiceDTO := serviceDTO (infoFromRecord rec1 false).

Lemma resolve_waits_witness :
  resolve true "1s" 0 attempts = Some (Ok (RawEndpoint (resolve_endpoint svc1))).
Proof.
  apply (resolve_waits true "1s" Second 0 attempts) with
    (before := [Cli.mkAttempt (Some (handleResolve d0 "api")) 0 false])
    (a := Cli.mkAttempt (Some (handleResolve d1 "api")) retryInterval false) (after := []).
  - vm_compute; reflexivity.
  - by repeat split.
  - reflexivity.
  - apply Forall_cons; split; [|constructor]. split; [done|]. split; [done|]. split; [done|]. by vm_compute.
  - split; vm_compute; reflexivity.
Defined.

Lemma raw_endpoint_is_ready_witness : resolve_endpoint svc1 ≠ "".
Proof.
  apply (raw_endpoint_is_ready "1s" 0 "api" attempts (resolve_endpoint svc1)).
  - intros a Ha. right. unfold attempts in Ha. rewrite !elem_of_cons, elem_of_nil in Ha. destruct Ha as [->|[->|[]]].
    + exists d0. split; [exact d0_inv|]. split; [vm_compute; discriminate|reflexivity].
    + exists d1. split; [exact d1_inv|]. split; [vm_compute; discriminate|reflexivity].
  - vm_compute; reflexivity.
Defined.

(** ** Configuration *)

Definition no_raw : string → option (list (string * any)) := λ _, None.

Definition file_root : list (string * any) :=
  [("lease_ttl", AString "30s"); ("docker", AMap [("enabled", ABool false)]); ("comment", ANil)].

Lemma file_root_nodup : NoDup file_root.*1.
Proof. refine (bool_decide_unpack _ _). vm_compute. exact I. Qed.

Definition file_out : gmap string any := {[ "lease-ttl" := AString "30s"; "docker-enabled" := ABool false ]}.

Lemma FileMapper_table_witness : file_out !! "docker-enabled" = Some (ABool false).
Proof.
  apply (FileMapper_table no_raw (AMap file_root) file_root).
  - reflexivity.
  - exact file_root_nodup.
  - vm_compute; reflexivity.
Defined.

Definition string_value (m : gmap string any) (f : string) : string :=
  match m !! f with Some (AString v) => v | _ => "" end.
Definition int_value (m : gmap string any) (f : string) : Z :=
  match m !! f with Some (ANumber t) => default 0 (parse_int t) | _ => 0 end.
Definition bool_value (m : gmap string any) (f : string) : bool :=
  match m !! f with Some (ABool b) => b | _ => false end.

(** Sources merged by precedence, and values of the declared types. *)
#[global] Program Instance example_glazed : Glazed := {|
  execute values chain := foldr (λ s m, values s ∪ m) ∅ chain;
  decode m := mkSettings (string_value m "config") (string_value m "socket") (string_value m "tcp-frontend-host")
    (int_value m "tcp-frontend-min") (int_value m "tcp-frontend-max") (string_value m "runtime-idle-ttl")
    (string_value m "lease-ttl") (string_value m "shutdown-timeout") (string_value m "state")
    (bool_value m "docker-enabled") (bool_value m "docker-allow-non-loopback-published-ports")
    (bool_value m "http-enabled") (string_value m "http-addr") (string_value m "https-addr")
    (string_value m "http-base-domain") (string_value m "http-cert-file") (string_value m "http-key-file")
|}.
Next Obligation.
  intros values chain f. induction chain as [|s chain IH]; cbn [foldr first_value]; [apply lookup_empty|].
  rewrite lookup_union, IH. by destruct (values s !! f), (first_value values chain f).
Qed.
Next Obligation. intros m. repeat constructor; intros v Hv; cbn in *; unfold string_value; by rewrite Hv. Qed.
Next Obligation. intros m. repeat constructor; intros Hv; cbn in *; unfold string_value; by rewrite Hv. Qed.
Next Obligation.
  intros m. repeat constructor; intros n Hn Hv; cbn [fst snd] in *; cbn; unfold int_value; rewrite Hv;
    unfold AInt; by rewrite parse_int_Itoa.
Qed.
Next Obligation. intros m. repeat constructor; intros v Hv; cbn in *; unfold bool_value; by rewrite Hv. Qed.

Definition default_values : gmap string any :=
  omap id (list_to_map (M := gmap string (option any)) serve_fields).

Lemma default_values_ok f : default_values !! f = field_default f.
Proof. unfold default_values, field_default. rewrite lookup_omap. by destruct (_ !! f). Qed.

Definition run_values (s : source) : gmap string any :=
  match s with
  | FromDefaults => default_values
  | FromFile _ => file_out
  | FromEnv _ => {[ "lease-ttl" := AString "20s" ]}
  | _ => ∅
  end.

Lemma serve_precedence_witness :
  execute run_values (serve_chain "/etc/devmesh.json") !! "lease-ttl" = Some (AString "20s").
Proof.
  rewrite (serve_precedence no_raw run_values "" "/etc/devmesh.json" file_root "lease-ttl").
  - reflexivity.
  - exact file_root_nodup.
  - split; [exact default_values_ok|]. exists file_out. split; [vm_compute; reflexivity|reflexivity].
Defined.

Definition only_defaults (s : source) : gmap string any :=
  match s with FromDefaults => default_values | _ => ∅ end.

Definition home : OS := mkOS (Some "/home/dev/.config") (Some "/home/dev") "/tmp".

Lemma serve_defaults_match_witness :
  serve_config home (serve_settings only_defaults "") =
    Ok (mkConfig "/home/dev/.devmesh/run/devmesh.sock" "127.0.0.1" 15000 19999 (15 * Second) (5 * Second)
          "/home/dev/.config/devmesh/state.json" (c_Docker Default) (c_HTTP Default)).
Proof.
  apply (serve_defaults_match home only_defaults).
  - by intros [].
  - exact default_values_ok.
Defined.

(** ** A shutdown that runs into its deadline *)

(** One runtime with a worker that does not end. *)
Definition busy_rt : AcceptLoop.State :=
  loop_step true None (loop_step true (Some api_backend) (loop_step true (Some api_backend)
    (loop_step true (Some api_backend) (loop_step true None NewServiceRuntime)))).
Definition drain0 : Drain := mkDrain [busy_rt] (Closing 0%nat) false [].
Definition closed_rt : AcceptLoop.State := close_step (close_step (close_step busy_rt)).
Definition drained : Drain := mkDrain [close_step closed_rt] Drained true [0%nat].

Lemma drain0_start : drain_start drain0.
Proof.
  split_and!; try done. repeat constructor. unfold AcceptLoop.reachable, busy_rt.
  repeat (eapply rtc_r; [|apply step_loop]). apply rtc_refl.
Qed.

Lemma drained_reached : rtc drain_step drain0 drained.
Proof.
  do 3 (eapply rtc_l; [apply drain_own; eapply own_close; reflexivity|]; simpl).
  eapply rtc_l; [apply drain_own; eapply own_closed; reflexivity|]; simpl.
  eapply rtc_l; [apply drain_own; eapply own_all_closed; reflexivity|]; simpl.
  eapply rtc_l; [apply drain_own; eapply own_cut; reflexivity|]; simpl.
  eapply rtc_l; [apply drain_own; eapply own_all_cut; reflexivity|]; simpl.
  eapply rtc_l; [apply drain_expires|]; simpl.
  eapply rtc_l; [apply drain_own; eapply own_timed_out; reflexivity|]; simpl.
  apply rtc_once. apply drain_own. eapply (own_returns (mkDrain [close_step closed_rt] (Drain.Waiting 1%nat) true [0%nat])); reflexivity.
Qed.

Lemma shutdown_drains_or_reports_witness :
  st_proxies (close_step closed_rt) = 1%nat ∧ st_connections (close_step closed_rt) ## st_open (close_step closed_rt).
Proof.
  split; [vm_compute; reflexivity|].
  exact (proj1 (proj2 (proj1 (shutdown_drains_or_reports drain0 drained drain0_start drained_reached) eq_refl 0%nat
    (close_step closed_rt) eq_refl))).
Defined.

(** ** devmesh register *)

Definition manual_settings : RegisterSettings := mkRegisterSettings "api" "tcp" "" "127.0.0.1:8080" "" 0 15 false.
Definition manual_command : Command :=
  run_register (λ _, "t") "/run/devmesh.sock" "" manual_settings Answered env1 1000 true Answered d0.
Definition manual_d : Daemon := match manual_command with Maintaining d _ _ => d | _ => d0 end.
Definition manual_loop : Loop := match manual_command with Maintaining _ l _ => l | _ => loop0 end.
Definition manual_row : row := match manual_command with Maintaining _ _ r => r | _ => [] end.

